(** * The social graph core of the Xbox Live social manager

    A shallow embedding of [Source/Services/Social/Manager/social_graph.cpp]:
    the double-buffered user store ([user_buffers_holder]), the public event
    queue ([event_queue]) and the event pipeline of [social_graph]
    ([do_event_work], [apply_event] and its helpers, [perform_diff],
    [do_work]).

    Conventions of the model.
    - [uint64_t] and [uint32_t] values are [N]; increments and decrements are
      written with their wrap-around ([incr32], [decr32]).
    - [xsapi_internal_unordered_map(uint64_t, _)] is a [gmap N _]; iteration
      over it goes through [map_to_list].
    - A pointer that may be [nullptr] is an [option]; dereferencing [nullptr]
      or a dangling slot pointer is undefined behaviour in C++ and is [None]
      ("the call does not return") in the model, so every function that can
      dereference returns an [option].
    - [internal_event_queue], declared outside [social_graph.cpp], is the
      ordered queue of the specification: a list, pushed at the end and
      popped at the front.
    - Container sizes ([size_t]) are [nat].
    - Calls into collaborators the core only talks to (timers, the presence
      service, completion events) are recorded, in order, in the [calls] log
      of the state.
    - Tasks spawned with [pplx::create_task] are run at the point where they
      are spawned; the locks are not modelled (one function runs at a time). *)

From stdpp Require Import base option list strings pretty gmap fin_maps.
From Stdlib Require Import NArith Ascii Lia.

Open Scope N_scope.

(** ** Machine integers *)

Definition wrap32 (n : N) : N := n mod 2 ^ 32.

(** [++x] on a [uint32_t]. *)
Definition incr32 (n : N) : N := wrap32 (n + 1).

(** [--x] on a [uint32_t]: 0 wraps to [2^32 - 1]. *)
Definition decr32 (n : N) : N := wrap32 (n + (2 ^ 32 - 1)).

(** ** Loops

    A range-based [for] whose body may fail to return: the body is run on the
    elements in order, threading the state, and the loop stops at the first
    failure. *)
Fixpoint for_each {A B : Type} (body : B → A → option A) (l : list B) (a : A) : option A :=
  match l with
  | [] => Some a
  | x :: l => body x a ≫= for_each body l
  end.

(** ** Results and error codes *)

Inductive xbox_live_error_code :=
| no_error
| http_status_424_failed_dependency
| runtime_error
| other_error (code : N).

#[global] Instance xbox_live_error_code_eq_dec : EqDecision xbox_live_error_code.
Proof. solve_decision. Defined.

(** [xbox_live_result<void>]: an error code and its message. *)
Record xbox_live_result_void := {
  err : xbox_live_error_code;
  err_message : string
}.

#[global] Instance xbox_live_result_void_eq_dec : EqDecision xbox_live_result_void.
Proof. solve_decision. Defined.

(** [xbox_live_result<void>()]. *)
Definition result_success : xbox_live_result_void :=
  {| err := no_error; err_message := EmptyString |}.

(** ** Presence data *)

Inductive title_presence_state := title_unknown | started | ended.

#[global] Instance title_presence_state_eq_dec : EqDecision title_presence_state.
Proof. solve_decision. Defined.

Record device_presence_change_event_args := {
  dp_xbox_user_id : string;
  dp_device_type : N;
  dp_is_user_logged_on_device : bool
}.

#[global] Instance device_presence_change_event_args_eq_dec :
  EqDecision device_presence_change_event_args.
Proof. solve_decision. Defined.

Record title_presence_change_event_args := {
  tp_xbox_user_id : string;
  tp_title_id : N;
  tp_title_state : title_presence_state
}.

#[global] Instance title_presence_change_event_args_eq_dec :
  EqDecision title_presence_change_event_args.
Proof. solve_decision. Defined.

Record social_manager_presence_title_record := {
  tr_title_id : N;
  tr_device_type : N;
  tr_is_title_active : bool
}.

#[global] Instance social_manager_presence_title_record_eq_dec :
  EqDecision social_manager_presence_title_record.
Proof. solve_decision. Defined.

Record social_manager_presence_record := {
  _Xbox_user_id : N;
  pr_user_state : N;
  presence_title_records : list social_manager_presence_title_record
}.

#[global] Instance social_manager_presence_record_eq_dec :
  EqDecision social_manager_presence_record.
Proof. solve_decision. Defined.

(** ** Users *)

Record xbox_social_user := {
  xbox_user_id : string;
  _Xbox_user_id_as_integer : N;
  display_name : string;
  is_favorite : bool;
  is_following_user : bool;
  is_followed_by_caller : bool;
  presence_record : social_manager_presence_record
}.

#[global] Instance xbox_social_user_eq_dec : EqDecision xbox_social_user.
Proof. solve_decision. Defined.

(** [xbox_social_user::_Set_presence_record]. *)
Definition _Set_presence_record
    (r : social_manager_presence_record) (u : xbox_social_user) : xbox_social_user :=
  {| xbox_user_id := xbox_user_id u;
     _Xbox_user_id_as_integer := _Xbox_user_id_as_integer u;
     display_name := display_name u;
     is_favorite := is_favorite u;
     is_following_user := is_following_user u;
     is_followed_by_caller := is_followed_by_caller u;
     presence_record := r |}.

(** ** Helpers of other translation units

    The core calls a handful of helpers whose bodies live outside
    [social_graph.cpp]: the id parser of [utils], the in-place updates and
    comparison of [social_manager_presence_record], and the comparison of
    [xbox_social_user] with the bit flags of [change_list_enum].  The
    development is parametric in them. *)

Class Collaborators := {
  string_t_to_uint64 : string → N;
  _Update_device : N → bool → social_manager_presence_record → social_manager_presence_record;
  _Remove_title : N → social_manager_presence_record → social_manager_presence_record;
  presence_Compare : social_manager_presence_record → social_manager_presence_record → bool;
  user_Compare : xbox_social_user → xbox_social_user → N;
  presence_change : N;
  profile_change : N;
  social_relationship_change : N
}.

(** ** Internal events *)

Inductive internal_social_event_type :=
| users_added
| users_changed
| users_removed
| device_presence_changed
| title_presence_changed
| presence_changed
| social_relationships_changed
| profiles_changed
| unknown.

#[global] Instance internal_social_event_type_eq_dec : EqDecision internal_social_event_type.
Proof. solve_decision. Defined.

(** [call_buffer_timer_completion_context]; [cc_tce] names the
    [task_completion_event] it carries. *)
Record call_buffer_timer_completion_context := {
  isNull : bool;
  context : N;
  numObjects : N;
  cc_tce : N
}.

#[global] Instance call_buffer_timer_completion_context_eq_dec :
  EqDecision call_buffer_timer_completion_context.
Proof. solve_decision. Defined.

(** Modelled from the spec: a default-constructed completion context is
    null and carries nothing. *)
Definition null_completion_context : call_buffer_timer_completion_context :=
  {| isNull := true; context := 0; numObjects := 0; cc_tce := 0 |}.

Record internal_social_event := {
  event_type : internal_social_event_type;
  users_affected : list xbox_social_user;
  users_affected_as_string_vec : list string;
  users_to_remove : list N;
  presence_records : list social_manager_presence_record;
  device_presence_args : device_presence_change_event_args;
  title_presence_args : title_presence_change_event_args;
  completion_context : call_buffer_timer_completion_context;
  tce : N;
  error : xbox_live_result_void
}.

#[global] Instance internal_social_event_eq_dec : EqDecision internal_social_event.
Proof. solve_decision. Defined.

Definition empty_device_args : device_presence_change_event_args :=
  {| dp_xbox_user_id := EmptyString; dp_device_type := 0;
     dp_is_user_logged_on_device := false |}.

Definition empty_title_args : title_presence_change_event_args :=
  {| tp_xbox_user_id := EmptyString; tp_title_id := 0; tp_title_state := title_unknown |}.

(** Modelled from the spec: the constructors of [internal_social_event]
    (declared in [social_manager_internal.h], which is not part of the
    sources at hand).  Section 3 of the specification lists the variants with
    their payloads; each constructor stores its payload in the field the
    accessors of [social_graph.cpp] read it from, and the ids of the payload,
    as strings, in [users_affected_as_string_vec]. *)
Definition event_of_strings
    (t : internal_social_event_type) (ids : list string) (c : N) : internal_social_event :=
  {| event_type := t;
     users_affected := [];
     users_affected_as_string_vec := ids;
     users_to_remove := [];
     presence_records := [];
     device_presence_args := empty_device_args;
     title_presence_args := empty_title_args;
     completion_context := null_completion_context;
     tce := c;
     error := result_success |}.

(** Modelled from the spec: the constructor from a list of users, with the
    completion context [internal_event_queue::push] attaches. *)
Definition event_of_users
    (t : internal_social_event_type) (users : list xbox_social_user)
    (ctx : call_buffer_timer_completion_context) : internal_social_event :=
  {| event_type := t;
     users_affected := users;
     users_affected_as_string_vec := xbox_user_id <$> users;
     users_to_remove := [];
     presence_records := [];
     device_presence_args := empty_device_args;
     title_presence_args := empty_title_args;
     completion_context := ctx;
     tce := 0;
     error := result_success |}.

(** Modelled from the spec: the constructor from a list of ids; the ids are
    printed in decimal, as [stringstream << uint64_t] does. *)
Definition event_of_ids
    (t : internal_social_event_type) (ids : list N) : internal_social_event :=
  {| event_type := t;
     users_affected := [];
     users_affected_as_string_vec := pretty <$> ids;
     users_to_remove := ids;
     presence_records := [];
     device_presence_args := empty_device_args;
     title_presence_args := empty_title_args;
     completion_context := null_completion_context;
     tce := 0;
     error := result_success |}.

(** Modelled from the spec: the constructor from presence records. *)
Definition event_of_presence_records
    (t : internal_social_event_type) (records : list social_manager_presence_record)
    : internal_social_event :=
  {| event_type := t;
     users_affected := [];
     users_affected_as_string_vec := (λ r, pretty (_Xbox_user_id r)) <$> records;
     users_to_remove := [];
     presence_records := records;
     device_presence_args := empty_device_args;
     title_presence_args := empty_title_args;
     completion_context := null_completion_context;
     tce := 0;
     error := result_success |}.

(** Modelled from the spec: the constructors from the arguments of a device
    or title presence notification. *)
Definition event_of_device_args
    (t : internal_social_event_type) (args : device_presence_change_event_args)
    : internal_social_event :=
  {| event_type := t;
     users_affected := [];
     users_affected_as_string_vec := [dp_xbox_user_id args];
     users_to_remove := [];
     presence_records := [];
     device_presence_args := args;
     title_presence_args := empty_title_args;
     completion_context := null_completion_context;
     tce := 0;
     error := result_success |}.

Definition event_of_title_args
    (t : internal_social_event_type) (args : title_presence_change_event_args)
    : internal_social_event :=
  {| event_type := t;
     users_affected := [];
     users_affected_as_string_vec := [tp_xbox_user_id args];
     users_to_remove := [];
     presence_records := [];
     device_presence_args := empty_device_args;
     title_presence_args := args;
     completion_context := null_completion_context;
     tce := 0;
     error := result_success |}.

(** Modelled from the spec: the failed-fetch event built by
    [social_graph_timer_callback],
    [internal_social_event evt(users_changed, error, ids)] followed by
    [evt.set_completion_context(completionContext)]. *)
Definition event_of_error
    (t : internal_social_event_type) (e : xbox_live_result_void) (ids : list string)
    (ctx : call_buffer_timer_completion_context) : internal_social_event :=
  {| event_type := t;
     users_affected := [];
     users_affected_as_string_vec := ids;
     users_to_remove := [];
     presence_records := [];
     device_presence_args := empty_device_args;
     title_presence_args := empty_title_args;
     completion_context := ctx;
     tce := 0;
     error := e |}.

(** ** Public events and their queue *)

Inductive social_event_type :=
| users_added_to_social_graph
| users_removed_from_social_graph
| public_presence_changed
| public_profiles_changed
| public_social_relationships_changed
| public_unknown.

#[global] Instance social_event_type_eq_dec : EqDecision social_event_type.
Proof. solve_decision. Defined.

Record social_event := {
  se_event_type : social_event_type;
  se_users_affected : list string;
  se_err : xbox_live_error_code;
  se_err_message : string
}.

#[global] Instance social_event_eq_dec : EqDecision social_event.
Proof. solve_decision. Defined.

Inductive event_state := state_clear | state_ready_to_read | state_read.

#[global] Instance event_state_eq_dec : EqDecision event_state.
Proof. solve_decision. Defined.

Module event_queue.

Record t := {
  m_socialEventList : list social_event;
  m_eventState : event_state
}.

(** [event_queue::event_queue]. *)
Definition init : t := {| m_socialEventList := []; m_eventState := state_clear |}.

(** [event_queue::push]: an event of type [unknown] is dropped. *)
Definition push (socialEvent : internal_social_event)
    (socialEventType : social_event_type) (error : xbox_live_result_void) (q : t) : t :=
  if decide (socialEventType = public_unknown) then q
  else
    let usersAffected := users_affected_as_string_vec socialEvent in
    let selectedEvt :=
      {| se_event_type := socialEventType;
         se_users_affected := usersAffected;
         se_err := err error;
         se_err_message := err_message error |} in
    {| m_socialEventList := m_socialEventList q ++ [selectedEvt];
       m_eventState := state_ready_to_read |}.

(** [event_queue::social_event_list]: marks the queue as read. *)
Definition social_event_list (q : t) : list social_event * t :=
  (m_socialEventList q,
   {| m_socialEventList := m_socialEventList q; m_eventState := state_read |}).

(** [event_queue::clear]. *)
Definition clear (q : t) : t :=
  {| m_socialEventList := []; m_eventState := state_clear |}.

(** [event_queue::empty]. *)
Definition empty (q : t) : bool := bool_decide (m_socialEventList q = []).

End event_queue.

#[global] Instance event_queue_eq_dec : EqDecision event_queue.t.
Proof. solve_decision. Defined.

(** ** The user buffers *)

(** A [byte*] into a slab of users: the slab and the slot in it. *)
Record slot_ptr := {
  block : nat;
  slot : nat
}.

#[global] Instance slot_ptr_eq_dec : EqDecision slot_ptr.
Proof. solve_decision. Defined.

(** [xbox_social_user_context]: a slot pointer (or [nullptr]) and the
    reference count, a [uint32_t]. *)
Record xbox_social_user_context := {
  socialUser : option slot_ptr;
  refCount : N
}.

#[global] Instance xbox_social_user_context_eq_dec : EqDecision xbox_social_user_context.
Proof. solve_decision. Defined.

(** The value [operator[]] inserts for a key that is missing: the struct is
    value-initialised, a null pointer and a count of 0. *)
Definition default_context : xbox_social_user_context :=
  {| socialUser := None; refCount := 0 |}.

(** [user_buffer].  [buffer] is the slab currently in use ([None] is
    [nullptr]); [slabs] is the memory obtained from [xsapi_memory::mem_alloc]
    and not yet freed, a slot being [None] until an [xbox_social_user] is
    constructed in it; [allocated] counts the slabs allocated so far and
    names the next one.  An entry of [freeData] is a [byte*]. *)
Record user_buffer := {
  buffer : option nat;
  slabs : gmap nat (list (option xbox_social_user));
  allocated : nat;
  freeData : list (option slot_ptr);
  socialUserGraph : gmap N xbox_social_user_context;
  socialUserEventQueue : list internal_social_event
}.

#[global] Instance user_buffer_eq_dec : EqDecision user_buffer.
Proof. solve_decision. Defined.

Definition empty_user_buffer : user_buffer :=
  {| buffer := None; slabs := ∅; allocated := 0%nat; freeData := [];
     socialUserGraph := ∅; socialUserEventQueue := [] |}.

Definition set_freeData (f : list (option slot_ptr)) (ub : user_buffer) : user_buffer :=
  {| buffer := buffer ub; slabs := slabs ub; allocated := allocated ub;
     freeData := f; socialUserGraph := socialUserGraph ub;
     socialUserEventQueue := socialUserEventQueue ub |}.

Definition set_socialUserGraph
    (g : gmap N xbox_social_user_context) (ub : user_buffer) : user_buffer :=
  {| buffer := buffer ub; slabs := slabs ub; allocated := allocated ub;
     freeData := freeData ub; socialUserGraph := g;
     socialUserEventQueue := socialUserEventQueue ub |}.

Definition set_socialUserEventQueue
    (q : list internal_social_event) (ub : user_buffer) : user_buffer :=
  {| buffer := buffer ub; slabs := slabs ub; allocated := allocated ub;
     freeData := freeData ub; socialUserGraph := socialUserGraph ub;
     socialUserEventQueue := q |}.

Definition set_slabs
    (m : gmap nat (list (option xbox_social_user))) (ub : user_buffer) : user_buffer :=
  {| buffer := buffer ub; slabs := m; allocated := allocated ub;
     freeData := freeData ub; socialUserGraph := socialUserGraph ub;
     socialUserEventQueue := socialUserEventQueue ub |}.

(** Reading through a slot pointer: the slab must be live and the slot must
    hold a constructed user. *)
Definition read_slot (p : slot_ptr) (ub : user_buffer) : option xbox_social_user :=
  l ← slabs ub !! block p; o ← l !! slot p; o.

(** [*p = user] on a slot that holds a user. *)
Definition assign_slot (p : slot_ptr) (u : xbox_social_user) (ub : user_buffer)
    : option user_buffer :=
  l ← slabs ub !! block p;
  _ ← read_slot p ub;
  Some (set_slabs (<[block p := <[slot p := Some u]> l]> (slabs ub)) ub).

(** [new (p) xbox_social_user(); *p = user] on a slot of a live slab. *)
Definition construct_slot (p : slot_ptr) (u : xbox_social_user) (ub : user_buffer)
    : option user_buffer :=
  l ← slabs ub !! block p;
  if decide (slot p < length l)%nat
  then Some (set_slabs (<[block p := <[slot p := Some u]> l]> (slabs ub)) ub)
  else None.

Module user_buffers_holder.

Definition EXTRA_USER_FREE_SPACE : nat := 5.

(** The two buffers are members of the holder; [m_activeBuffer] and
    [m_inactiveBuffer] point at one of them or are [nullptr]. *)
Inductive buffer_name := buffer_A | buffer_B.

#[global] Instance buffer_name_eq_dec : EqDecision buffer_name.
Proof. solve_decision. Defined.

Record t := {
  m_userBufferA : user_buffer;
  m_userBufferB : user_buffer;
  m_activeBuffer : option buffer_name;
  m_inactiveBuffer : option buffer_name
}.

(** [user_buffers_holder::user_buffers_holder]. *)
Definition init : t :=
  {| m_userBufferA := empty_user_buffer; m_userBufferB := empty_user_buffer;
     m_activeBuffer := None; m_inactiveBuffer := None |}.

(** Dereferencing a buffer pointer, and writing through it. *)
Definition deref (b : buffer_name) (h : t) : user_buffer :=
  match b with buffer_A => m_userBufferA h | buffer_B => m_userBufferB h end.

Definition store (b : buffer_name) (ub : user_buffer) (h : t) : t :=
  match b with
  | buffer_A =>
      {| m_userBufferA := ub; m_userBufferB := m_userBufferB h;
         m_activeBuffer := m_activeBuffer h; m_inactiveBuffer := m_inactiveBuffer h |}
  | buffer_B =>
      {| m_userBufferA := m_userBufferA h; m_userBufferB := ub;
         m_activeBuffer := m_activeBuffer h; m_inactiveBuffer := m_inactiveBuffer h |}
  end.

Definition user_buffer_a (h : t) : user_buffer := m_userBufferA h.
Definition user_buffer_b (h : t) : user_buffer := m_userBufferB h.
Definition active_buffer (h : t) : option buffer_name := m_activeBuffer h.
Definition inactive_buffer (h : t) : option buffer_name := m_inactiveBuffer h.

(** [user_buffers_holder::swap]. *)
Definition swap (h : t) : t :=
  if decide (m_activeBuffer h = Some buffer_A)
  then {| m_userBufferA := m_userBufferA h; m_userBufferB := m_userBufferB h;
          m_activeBuffer := Some buffer_B; m_inactiveBuffer := Some buffer_A |}
  else {| m_userBufferA := m_userBufferA h; m_userBufferB := m_userBufferB h;
          m_activeBuffer := Some buffer_A; m_inactiveBuffer := Some buffer_B |}.

(** [user_buffers_holder::add_event]: the event goes to the queue of the
    buffer [m_activeBuffer] points at. *)
Definition add_event (internalSocialEvent : internal_social_event) (h : t) : option t :=
  a ← m_activeBuffer h;
  let ub := deref a h in
  Some (store a (set_socialUserEventQueue
                   (socialUserEventQueue ub ++ [internalSocialEvent]) ub) h).

(** [user_buffers_holder::buffer_alloc]: the block allocated, or
    [nullptr] when nothing is asked for. *)
Definition buffer_alloc (numUsers freeSpaceRequired : nat) (ub : user_buffer)
    : option nat * user_buffer :=
  if decide (numUsers = 0%nat ∧ freeSpaceRequired = 0%nat) then (None, ub)
  else
    let totalFreeSpace := (EXTRA_USER_FREE_SPACE + freeSpaceRequired)%nat in
    let b := allocated ub in
    (Some b,
     {| buffer := buffer ub;
        slabs := <[b := replicate (numUsers + totalFreeSpace) None]> (slabs ub);
        allocated := S b;
        freeData := freeData ub;
        socialUserGraph := socialUserGraph ub;
        socialUserEventQueue := socialUserEventQueue ub |}).

(** [user_buffers_holder::buffer_init]. *)
Definition buffer_init (ub : user_buffer) (users : list xbox_social_user)
    (freeSpaceRequired : nat) : user_buffer :=
  let ub := set_freeData [] ub in
  match buffer_alloc (length users) freeSpaceRequired ub with
  | (None, ub) => ub
  | (Some b, ub) =>
      let usersSize := length users in
      let totalFreeSpace := (EXTRA_USER_FREE_SPACE + freeSpaceRequired)%nat in
      {| buffer := Some b;
         slabs := <[b := (Some <$> users) ++ replicate totalFreeSpace None]> (slabs ub);
         allocated := allocated ub;
         freeData :=
           (λ i, Some {| block := b; slot := (usersSize + i)%nat |}) <$> seq 0 totalFreeSpace;
         socialUserGraph := socialUserGraph ub;
         socialUserEventQueue := socialUserEventQueue ub |}
  end.

(** One round of the loop of [initialize_users_in_map]: the user in slot
    [i] of the current slab is entered in the map, or its entry is pointed
    at the slot. *)
Definition initialize_user_in_map (i : nat) (ub : user_buffer) : option user_buffer :=
  b ← buffer ub;
  let p := {| block := b; slot := i |} in
  u ← read_slot p ub;
  let id := _Xbox_user_id_as_integer u in
  match socialUserGraph ub !! id with
  | None =>
      Some (set_socialUserGraph
              (<[id := {| socialUser := Some p; refCount := 1 |}]> (socialUserGraph ub)) ub)
  | Some ctx =>
      Some (set_socialUserGraph
              (<[id := {| socialUser := Some p; refCount := refCount ctx |}]>
                 (socialUserGraph ub)) ub)
  end.

(** [user_buffers_holder::initialize_users_in_map]; [bufferOffset] counts
    slots. *)
Definition initialize_users_in_map (ub : user_buffer) (numUsers bufferOffset : nat)
    : option user_buffer :=
  for_each (λ i, initialize_user_in_map (bufferOffset + i)%nat) (seq 0 numUsers) ub.

(** [user_buffers_holder::initialize_buffer]. *)
Definition initialize_buffer (ub : user_buffer) (users : list xbox_social_user)
    (freeSpaceRequired : nat) : option user_buffer :=
  let usersSize := length users in
  let ub := buffer_init ub users freeSpaceRequired in
  initialize_users_in_map ub usersSize 0.

(** [user_buffers_holder::initialize]. *)
Definition initialize (users : list xbox_social_user) (h : t) : option t :=
  a ← initialize_buffer (m_userBufferA h) users 0;
  b ← initialize_buffer (m_userBufferB h) users 0;
  Some {| m_userBufferA := a; m_userBufferB := b;
          m_activeBuffer := Some buffer_A; m_inactiveBuffer := Some buffer_B |}.

(** [xsapi_memory::mem_free] on the slab of a buffer. *)
Definition mem_free (ub : user_buffer) : user_buffer :=
  match buffer ub with
  | None => ub
  | Some b => set_slabs (delete b (slabs ub)) ub
  end.

(** The reallocation branch of [add_users_to_buffer]: the first [size]
    slots of the slab are copied out, the slab is freed and a larger one is
    initialised from the copy. *)
Definition reallocate (ub : user_buffer) (totalSizeNeeded : nat) : option user_buffer :=
  let size :=
    length (filter (λ kv, is_Some (socialUser kv.2)) (map_to_list (socialUserGraph ub))) in
  socialVec ←
    (if decide (0 < size)%nat
     then b ← buffer ub;
          l ← slabs ub !! b;
          if decide (size ≤ length l)%nat then mapM id (take size l) else None
     else Some []);
  initialize_buffer (mem_free ub) socialVec totalSizeNeeded.

(** One round of the second loop of [add_users_to_buffer]. *)
Definition add_user_to_buffer (user : xbox_social_user) (ub : user_buffer)
    : option user_buffer :=
  front ← head (freeData ub);
  freeData_ptr ← front;
  b ← buffer ub;
  let ub := set_freeData (tail (freeData ub)) ub in
  ub ← construct_slot freeData_ptr user ub;
  if decide (block freeData_ptr = b)
  then initialize_users_in_map ub 1 (slot freeData_ptr)
  else None.

(** [user_buffers_holder::add_users_to_buffer]. *)
Definition add_users_to_buffer (users : list xbox_social_user)
    (userBufferInactive : user_buffer) (finalSize : nat) : option user_buffer :=
  let totalSizeNeeded := max finalSize (length users) in
  ub ← (if decide (length (freeData userBufferInactive) < totalSizeNeeded)%nat
        then reallocate userBufferInactive totalSizeNeeded
        else Some userBufferInactive);
  for_each add_user_to_buffer users ub.

(** One round of the loop of [remove_users_from_buffer]. *)
Definition remove_user_from_buffer (user : N) (ub : user_buffer) : user_buffer :=
  match socialUserGraph ub !! user with
  | Some ctx =>
      {| buffer := buffer ub; slabs := slabs ub; allocated := allocated ub;
         freeData := freeData ub ++ [socialUser ctx];
         socialUserGraph := delete user (socialUserGraph ub);
         socialUserEventQueue := socialUserEventQueue ub |}
  | None => ub
  end.

(** [user_buffers_holder::remove_users_from_buffer]. *)
Definition remove_users_from_buffer (users : list N) (userBufferInactive : user_buffer)
    : user_buffer :=
  foldl (λ ub user, remove_user_from_buffer user ub) userBufferInactive users.

End user_buffers_holder.

#[global] Instance user_buffers_holder_eq_dec : EqDecision user_buffers_holder.t.
Proof. solve_decision. Defined.

Import user_buffers_holder.

(** ** Calls into collaborators *)

Inductive call_buffer_timer :=
| m_presenceRefreshTimer
| m_presencePollingTimer
| m_socialGraphRefreshTimer
| m_resyncRefreshTimer.

#[global] Instance call_buffer_timer_eq_dec : EqDecision call_buffer_timer.
Proof. solve_decision. Defined.

(** What the core asks of its collaborators, in the order it asks.  The last
    constructor is bookkeeping of the model: every entry into [apply_event]
    is recorded with its arguments. *)
Inductive call :=
| tce_set (c : N) (result : xbox_live_result_void)
| timer_fire (timer : call_buffer_timer) (users : list string)
    (ctx : call_buffer_timer_completion_context)
| subscribe_to_device_presence_change (xuid : string)
| subscribe_to_title_presence_change (xuid : string)
| unsubscribe_from_device_presence_change (subscription : option string)
| unsubscribe_from_title_presence_change (subscription : option string)
| enter_apply_event (evt : internal_social_event) (isFreshEvent : bool).

#[global] Instance call_eq_dec : EqDecision call.
Proof. solve_decision. Defined.

(** The entry of [m_socialUserSubscriptions] for a user: the two subscription
    handles, named by the id they were requested for ([None] is an empty
    [shared_ptr]). *)
Record xbox_social_user_subscriptions := {
  devicePresenceChangeSubscription : option string;
  titlePresenceChangeSubscription : option string
}.

#[global] Instance xbox_social_user_subscriptions_eq_dec :
  EqDecision xbox_social_user_subscriptions.
Proof. solve_decision. Defined.

(** ** The core *)

Inductive social_graph_state := normal | event_processing | refresh | diff.

#[global] Instance social_graph_state_eq_dec : EqDecision social_graph_state.
Proof. solve_decision. Defined.

Record social_graph := {
  m_isInitialized : bool;
  m_socialGraphState : social_graph_state;
  m_numEventsThisFrame : N;
  m_userAddedContext : N;
  m_userBuffer : user_buffers_holder.t;
  m_internalEventQueue : list internal_social_event;
  m_socialEventQueue : event_queue.t;
  m_socialUserSubscriptions : gmap N xbox_social_user_subscriptions;
  calls : list call
}.

#[global] Instance social_graph_eq_dec : EqDecision social_graph.
Proof. solve_decision. Defined.

Definition NUM_EVENTS_PER_FRAME : N := 5.

(** The state the constructor [social_graph::social_graph] leaves. *)
Definition constructed : social_graph :=
  {| m_isInitialized := false;
     m_socialGraphState := normal;
     m_numEventsThisFrame := 0;
     m_userAddedContext := 0;
     m_userBuffer := user_buffers_holder.init;
     m_internalEventQueue := [];
     m_socialEventQueue := event_queue.init;
     m_socialUserSubscriptions := ∅;
     calls := [] |}.

Definition set_isInitialized (b : bool) (s : social_graph) : social_graph :=
  {| m_isInitialized := b;
     m_socialGraphState := m_socialGraphState s;
     m_numEventsThisFrame := m_numEventsThisFrame s;
     m_userAddedContext := m_userAddedContext s;
     m_userBuffer := m_userBuffer s;
     m_internalEventQueue := m_internalEventQueue s;
     m_socialEventQueue := m_socialEventQueue s;
     m_socialUserSubscriptions := m_socialUserSubscriptions s;
     calls := calls s |}.

(** [social_graph::set_state]. *)
Definition set_state (socialGraphState : social_graph_state) (s : social_graph)
    : social_graph :=
  {| m_isInitialized := m_isInitialized s;
     m_socialGraphState := socialGraphState;
     m_numEventsThisFrame := m_numEventsThisFrame s;
     m_userAddedContext := m_userAddedContext s;
     m_userBuffer := m_userBuffer s;
     m_internalEventQueue := m_internalEventQueue s;
     m_socialEventQueue := m_socialEventQueue s;
     m_socialUserSubscriptions := m_socialUserSubscriptions s;
     calls := calls s |}.

Definition set_numEventsThisFrame (n : N) (s : social_graph) : social_graph :=
  {| m_isInitialized := m_isInitialized s;
     m_socialGraphState := m_socialGraphState s;
     m_numEventsThisFrame := n;
     m_userAddedContext := m_userAddedContext s;
     m_userBuffer := m_userBuffer s;
     m_internalEventQueue := m_internalEventQueue s;
     m_socialEventQueue := m_socialEventQueue s;
     m_socialUserSubscriptions := m_socialUserSubscriptions s;
     calls := calls s |}.

Definition set_userAddedContext (n : N) (s : social_graph) : social_graph :=
  {| m_isInitialized := m_isInitialized s;
     m_socialGraphState := m_socialGraphState s;
     m_numEventsThisFrame := m_numEventsThisFrame s;
     m_userAddedContext := n;
     m_userBuffer := m_userBuffer s;
     m_internalEventQueue := m_internalEventQueue s;
     m_socialEventQueue := m_socialEventQueue s;
     m_socialUserSubscriptions := m_socialUserSubscriptions s;
     calls := calls s |}.

Definition set_userBuffer (h : user_buffers_holder.t) (s : social_graph) : social_graph :=
  {| m_isInitialized := m_isInitialized s;
     m_socialGraphState := m_socialGraphState s;
     m_numEventsThisFrame := m_numEventsThisFrame s;
     m_userAddedContext := m_userAddedContext s;
     m_userBuffer := h;
     m_internalEventQueue := m_internalEventQueue s;
     m_socialEventQueue := m_socialEventQueue s;
     m_socialUserSubscriptions := m_socialUserSubscriptions s;
     calls := calls s |}.

Definition set_internalEventQueue (q : list internal_social_event) (s : social_graph)
    : social_graph :=
  {| m_isInitialized := m_isInitialized s;
     m_socialGraphState := m_socialGraphState s;
     m_numEventsThisFrame := m_numEventsThisFrame s;
     m_userAddedContext := m_userAddedContext s;
     m_userBuffer := m_userBuffer s;
     m_internalEventQueue := q;
     m_socialEventQueue := m_socialEventQueue s;
     m_socialUserSubscriptions := m_socialUserSubscriptions s;
     calls := calls s |}.

Definition set_socialEventQueue (q : event_queue.t) (s : social_graph) : social_graph :=
  {| m_isInitialized := m_isInitialized s;
     m_socialGraphState := m_socialGraphState s;
     m_numEventsThisFrame := m_numEventsThisFrame s;
     m_userAddedContext := m_userAddedContext s;
     m_userBuffer := m_userBuffer s;
     m_internalEventQueue := m_internalEventQueue s;
     m_socialEventQueue := q;
     m_socialUserSubscriptions := m_socialUserSubscriptions s;
     calls := calls s |}.

Definition set_socialUserSubscriptions
    (m : gmap N xbox_social_user_subscriptions) (s : social_graph) : social_graph :=
  {| m_isInitialized := m_isInitialized s;
     m_socialGraphState := m_socialGraphState s;
     m_numEventsThisFrame := m_numEventsThisFrame s;
     m_userAddedContext := m_userAddedContext s;
     m_userBuffer := m_userBuffer s;
     m_internalEventQueue := m_internalEventQueue s;
     m_socialEventQueue := m_socialEventQueue s;
     m_socialUserSubscriptions := m;
     calls := calls s |}.

(** Appending to the log of calls. *)
Definition record_call (c : call) (s : social_graph) : social_graph :=
  {| m_isInitialized := m_isInitialized s;
     m_socialGraphState := m_socialGraphState s;
     m_numEventsThisFrame := m_numEventsThisFrame s;
     m_userAddedContext := m_userAddedContext s;
     m_userBuffer := m_userBuffer s;
     m_internalEventQueue := m_internalEventQueue s;
     m_socialEventQueue := m_socialEventQueue s;
     m_socialUserSubscriptions := m_socialUserSubscriptions s;
     calls := calls s ++ [c] |}.

(** Reading and writing the buffer a [user_buffer*] points at. *)
Definition buffer_of (b : buffer_name) (s : social_graph) : user_buffer :=
  deref b (m_userBuffer s).

Definition set_buffer (b : buffer_name) (ub : user_buffer) (s : social_graph) : social_graph :=
  set_userBuffer (store b ub (m_userBuffer s)) s.

(** [m_socialEventQueue.push(evt, m_user, type, error)]. *)
Definition push_social_event (evt : internal_social_event) (t : social_event_type)
    (e : xbox_live_result_void) (s : social_graph) : social_graph :=
  set_socialEventQueue (event_queue.push evt t e (m_socialEventQueue s)) s.

(** A [std::weak_ptr<social_graph>]: default-constructed, or obtained from
    [shared_from_this()].  Locking the former yields [nullptr]. *)
Inductive weak_ptr := weak_empty | weak_from_this.

Definition lock (w : weak_ptr) (s : social_graph) : option social_graph :=
  match w with
  | weak_empty => None
  | weak_from_this => Some s
  end.

Section core.
Context `{!Collaborators}.

(** *** Subscriptions *)

(** [social_graph::setup_device_and_presence_subscriptions_helper].  The
    presence service is taken to hand out a subscription for every
    request. *)
Definition setup_device_and_presence_subscriptions_helper
    (users : list N) (s : social_graph) : social_graph :=
  foldl (λ s xuid,
           let xuidStr := pretty xuid in
           let s := record_call (subscribe_to_device_presence_change xuidStr) s in
           let s := record_call (subscribe_to_title_presence_change xuidStr) s in
           set_socialUserSubscriptions
             (<[xuid := {| devicePresenceChangeSubscription := Some xuidStr;
                           titlePresenceChangeSubscription := Some xuidStr |}]>
                (m_socialUserSubscriptions s)) s)
        s users.

(** [social_graph::setup_device_and_presence_subscriptions]. *)
Definition setup_device_and_presence_subscriptions
    (users : list N) (s : social_graph) : social_graph :=
  let thisWeak := weak_from_this in
  match lock thisWeak s with
  | None => s
  | Some pThis => setup_device_and_presence_subscriptions_helper users pThis
  end.

(** The body of the loop of the task spawned by [unsubscribe_users]. *)
Definition unsubscribe_user (pThis : social_graph) (user : N) : social_graph :=
  let subscriptions :=
    default {| devicePresenceChangeSubscription := None;
               titlePresenceChangeSubscription := None |}
            (m_socialUserSubscriptions pThis !! user) in
  let pThis :=
    record_call (unsubscribe_from_device_presence_change
                   (devicePresenceChangeSubscription subscriptions)) pThis in
  let pThis :=
    record_call (unsubscribe_from_title_presence_change
                   (titlePresenceChangeSubscription subscriptions)) pThis in
  set_socialUserSubscriptions (delete user (m_socialUserSubscriptions pThis)) pThis.

(** [social_graph::unsubscribe_users]: the weak pointer the task captures
    is declared and never assigned. *)
Definition unsubscribe_users (users : list N) (s : social_graph) : social_graph :=
  let thisWeakPtr := weak_empty in
  match lock thisWeakPtr s with
  | None => s
  | Some pThis => foldl unsubscribe_user pThis users
  end.

(** *** Applying events *)

(** First loop of [apply_users_added_event]: ids already in the graph get
    their count incremented, the others are collected. *)
Definition users_added_scan (g : gmap N xbox_social_user_context) (users : list string)
    : gmap N xbox_social_user_context * list string :=
  foldl (λ acc user,
           let '(g, usersToAdd) := acc in
           let addUser := string_t_to_uint64 user in
           match g !! addUser with
           | Some ctx =>
               (<[addUser := {| socialUser := socialUser ctx;
                                refCount := incr32 (refCount ctx) |}]> g, usersToAdd)
           | None => (g, usersToAdd ++ [user])
           end)
        (g, []) users.

(** Second loop of [apply_users_added_event]. *)
Definition users_added_insert (g : gmap N xbox_social_user_context) (usersToAdd : list string)
    : gmap N xbox_social_user_context :=
  foldl (λ g user,
           let userAsInt := string_t_to_uint64 user in
           <[userAsInt := {| socialUser := None; refCount := 1 |}]> g)
        g usersToAdd.

(** [social_graph::apply_users_added_event]. *)
Definition apply_users_added_event (evt : internal_social_event)
    (inactiveBuffer : buffer_name) (isFreshEvent : bool) (s : social_graph) : social_graph :=
  let ub := buffer_of inactiveBuffer s in
  let '(g, usersToAdd) :=
    users_added_scan (socialUserGraph ub) (users_affected_as_string_vec evt) in
  let s := set_buffer inactiveBuffer (set_socialUserGraph g ub) s in
  match usersToAdd with
  | [] => record_call (tce_set (tce evt) result_success) s
  | _ =>
      let s := set_userAddedContext (incr32 (m_userAddedContext s)) s in
      let usersAddedStruct :=
        {| isNull := false;
           context := m_userAddedContext s;
           numObjects := N.of_nat (length usersToAdd);
           cc_tce := tce evt |} in
      let s :=
        if isFreshEvent
        then record_call (timer_fire m_socialGraphRefreshTimer usersToAdd usersAddedStruct) s
        else s in
      let ub := buffer_of inactiveBuffer s in
      set_buffer inactiveBuffer
        (set_socialUserGraph (users_added_insert (socialUserGraph ub) usersToAdd) ub) s
  end.

(** One round of the loop of [apply_users_removed_event] on the graph, the
    list [removeUsers] and [eventType].  [socialUserGraph[user]] creates
    the entry when it is missing. *)
Definition users_removed_step
    (acc : gmap N xbox_social_user_context * list N * social_event_type) (user : N)
    : gmap N xbox_social_user_context * list N * social_event_type :=
  let '(g, removeUsers, eventType) := acc in
  let ctx := default default_context (g !! user) in
  let ctx := {| socialUser := socialUser ctx; refCount := decr32 (refCount ctx) |} in
  let g := <[user := ctx]> g in
  if decide (refCount ctx = 0) then
    match socialUser ctx with
    | Some _ => (g, removeUsers ++ [user], users_removed_from_social_graph)
    | None => (delete user g, removeUsers, users_removed_from_social_graph)
    end
  else (g, removeUsers, eventType).

(** [social_graph::apply_users_removed_event]. *)
Definition apply_users_removed_event (evt : internal_social_event)
    (inactiveBuffer : buffer_name) (eventType : social_event_type) (isFreshEvent : bool)
    (s : social_graph) : social_graph * social_event_type :=
  let usersAffected := users_to_remove evt in
  let ub := buffer_of inactiveBuffer s in
  let '(g, removeUsers, eventType) :=
    foldl users_removed_step (socialUserGraph ub, [], eventType) usersAffected in
  let ub := remove_users_from_buffer removeUsers (set_socialUserGraph g ub) in
  let s := set_buffer inactiveBuffer ub s in
  let s := if isFreshEvent then unsubscribe_users removeUsers s else s in
  (s, eventType).

(** The loop of [apply_users_change_event] over the fetched profiles: a
    profile whose id is not in the graph is skipped, one whose slot is
    empty is collected in [usersToAdd], the others overwrite their slot. *)
Definition users_change_step (user : xbox_social_user)
    (acc : user_buffer * list xbox_social_user * list xbox_social_user)
    : option (user_buffer * list xbox_social_user * list xbox_social_user) :=
  let '(ub, usersToAdd, usersChanged) := acc in
  match socialUserGraph ub !! _Xbox_user_id_as_integer user with
  | None => Some (ub, usersToAdd, usersChanged)
  | Some ctx =>
      match socialUser ctx with
      | None => Some (ub, usersToAdd ++ [user], usersChanged)
      | Some p =>
          ub ← assign_slot p user ub;
          Some (ub, usersToAdd, usersChanged ++ [user])
      end
  end.

Definition users_change_scan (ub : user_buffer) (users : list xbox_social_user)
    : option (user_buffer * list xbox_social_user * list xbox_social_user) :=
  for_each users_change_step users (ub, [], []).

(** [social_graph::apply_users_change_event]. *)
Definition apply_users_change_event (evt : internal_social_event)
    (inactiveBuffer : buffer_name) (isFreshEvent : bool) (s : social_graph)
    : option social_graph :=
  let s :=
    if isNull (completion_context evt) then s
    else record_call (tce_set (cc_tce (completion_context evt)) (error evt)) s in
  let result := error evt in
  if decide (err result ≠ no_error) then
    Some (push_social_event evt users_added_to_social_graph (error evt) s)
  else
    '(ub, usersToAdd, usersChanged) ←
      users_change_scan (buffer_of inactiveBuffer s) (users_affected evt);
    let s := set_buffer inactiveBuffer ub s in
    s ← match usersToAdd with
        | [] => Some s
        | _ =>
            ub ← add_users_to_buffer usersToAdd (buffer_of inactiveBuffer s)
                   (N.to_nat (numObjects (completion_context evt)));
            let s := set_buffer inactiveBuffer ub s in
            let usersList := _Xbox_user_id_as_integer <$> usersToAdd in
            if isFreshEvent then
              let s := setup_device_and_presence_subscriptions usersList s in
              let internalSocialUsersAddedEvent :=
                event_of_users users_added usersToAdd null_completion_context in
              Some (push_social_event internalSocialUsersAddedEvent
                      users_added_to_social_graph result_success s)
            else Some s
        end;
    match usersChanged with
    | [] => Some s
    | _ =>
        if isFreshEvent then
          let internalSocialProfileChangedEvent :=
            event_of_users profiles_changed usersChanged null_completion_context in
          Some (push_social_event internalSocialProfileChangedEvent
                  public_profiles_changed result_success s)
        else Some s
    end.

(** [social_graph::apply_device_presence_changed_event]. *)
Definition apply_device_presence_changed_event (evt : internal_social_event)
    (inactiveBuffer : buffer_name) (isFreshEvent : bool) (eventType : social_event_type)
    (s : social_graph) : option (social_graph * social_event_type) :=
  let devicePresenceChangedArgs := device_presence_args evt in
  let xuid := string_t_to_uint64 (dp_xbox_user_id devicePresenceChangedArgs) in
  current ← inactive_buffer (m_userBuffer s);
  match socialUserGraph (buffer_of current s) !! xuid with
  | None => Some (s, eventType)
  | Some ctx =>
      match socialUser ctx with
      | None => Some (s, eventType)
      | Some p =>
          user ← read_slot p (buffer_of current s);
          let deviceRecordSize := length (presence_title_records (presence_record user)) in
          let fireCallbackTimer :=
            bool_decide (1 < deviceRecordSize)%nat
            || dp_is_user_logged_on_device devicePresenceChangedArgs in
          if fireCallbackTimer && isFreshEvent then
            let entryVec := [dp_xbox_user_id devicePresenceChangedArgs] in
            Some (record_call
                    (timer_fire m_presenceRefreshTimer entryVec null_completion_context) s,
                  eventType)
          else if negb fireCallbackTimer then
            let ub := buffer_of inactiveBuffer s in
            match socialUserGraph ub !! xuid with
            | None => Some (s, eventType)
            | Some ctx =>
                match socialUser ctx with
                | None => Some (s, eventType)
                | Some p =>
                    user ← read_slot p ub;
                    let userPresenceRecord :=
                      _Update_device (dp_device_type devicePresenceChangedArgs)
                        (dp_is_user_logged_on_device devicePresenceChangedArgs)
                        (presence_record user) in
                    ub ← assign_slot p (_Set_presence_record userPresenceRecord user) ub;
                    Some (set_buffer inactiveBuffer ub s, public_presence_changed)
                end
            end
          else Some (s, eventType)
      end
  end.

(** The loop of [apply_presence_changed_event]. *)
Definition presence_changed_step (presenceRecord : social_manager_presence_record)
    (acc : user_buffer * list N) : option (user_buffer * list N) :=
  let '(ub, userAddedVec) := acc in
  let index := _Xbox_user_id presenceRecord in
  if decide (index = 0) then Some (ub, userAddedVec)
  else
    match socialUserGraph ub !! index with
    | None => Some (ub, userAddedVec)
    | Some ctx =>
        match socialUser ctx with
        | None => Some (ub, userAddedVec)
        | Some p =>
            user ← read_slot p ub;
            if presence_Compare (presence_record user) presenceRecord then
              ub ← assign_slot p (_Set_presence_record presenceRecord user) ub;
              Some (ub, userAddedVec ++ [index])
            else Some (ub, userAddedVec)
        end
    end.

Definition presence_changed_scan (ub : user_buffer)
    (presenceRecords : list social_manager_presence_record)
    : option (user_buffer * list N) :=
  for_each presence_changed_step presenceRecords (ub, []).

(** [social_graph::apply_presence_changed_event]. *)
Definition apply_presence_changed_event (evt : internal_social_event)
    (inactiveBuffer : buffer_name) (isFreshEvent : bool) (s : social_graph)
    : option social_graph :=
  '(ub, userAddedVec) ←
    presence_changed_scan (buffer_of inactiveBuffer s) (presence_records evt);
  let s := set_buffer inactiveBuffer ub s in
  match userAddedVec with
  | [] => Some s
  | _ =>
      if isFreshEvent then
        let internalPresenceChangedEvent := event_of_ids presence_changed userAddedVec in
        Some (push_social_event internalPresenceChangedEvent
                public_presence_changed result_success s)
      else Some s
  end.

(** The [title_presence_changed] case of [apply_event]. *)
Definition apply_title_presence_changed (evt : internal_social_event)
    (inactiveBuffer : buffer_name) (eventType : social_event_type) (s : social_graph)
    : option (social_graph * social_event_type) :=
  let titlePresenceChanged := title_presence_args evt in
  let xuid := string_t_to_uint64 (tp_xbox_user_id titlePresenceChanged) in
  let ub := buffer_of inactiveBuffer s in
  match socialUserGraph ub !! xuid with
  | None => Some (s, eventType)
  | Some ctx =>
      match socialUser ctx with
      | None => Some (s, eventType)
      | Some p =>
          user ← read_slot p ub;
          if decide (tp_title_state titlePresenceChanged = ended) then
            let userPresenceRecord :=
              _Remove_title (tp_title_id titlePresenceChanged) (presence_record user) in
            ub ← assign_slot p (_Set_presence_record userPresenceRecord user) ub;
            Some (set_buffer inactiveBuffer ub s, public_presence_changed)
          else Some (s, public_presence_changed)
      end
  end.

(** The [social_relationships_changed] / [profiles_changed] case of
    [apply_event]: [*socialUserGraph[id].socialUser = user] for every user
    of the event. *)
Definition profiles_changed_step (user : xbox_social_user) (ub : user_buffer)
    : option user_buffer :=
  ctx ← socialUserGraph ub !! _Xbox_user_id_as_integer user;
  p ← socialUser ctx;
  assign_slot p user ub.

Definition apply_profiles_changed (evt : internal_social_event)
    (inactiveBuffer : buffer_name) (s : social_graph) : option social_graph :=
  ub ← for_each profiles_changed_step (users_affected evt) (buffer_of inactiveBuffer s);
  Some (set_buffer inactiveBuffer ub s).

(** [social_graph::apply_event]. *)
Definition apply_event (evt : internal_social_event) (isFreshEvent : bool)
    (s : social_graph) : option social_graph :=
  let s := record_call (enter_apply_event evt isFreshEvent) s in
  match inactive_buffer (m_userBuffer s) with
  | None => Some s
  | Some inactiveBuffer =>
      let eventType := public_unknown in
      '(s, eventType) ←
        match event_type evt with
        | users_added =>
            Some (apply_users_added_event evt inactiveBuffer isFreshEvent s, eventType)
        | users_changed =>
            s ← apply_users_change_event evt inactiveBuffer isFreshEvent s;
            Some (s, eventType)
        | users_removed =>
            Some (apply_users_removed_event evt inactiveBuffer eventType isFreshEvent s)
        | device_presence_changed =>
            apply_device_presence_changed_event evt inactiveBuffer isFreshEvent eventType s
        | title_presence_changed =>
            apply_title_presence_changed evt inactiveBuffer eventType s
        | presence_changed =>
            s ← apply_presence_changed_event evt inactiveBuffer isFreshEvent s;
            Some (s, eventType)
        | social_relationships_changed | profiles_changed =>
            s ← apply_profiles_changed evt inactiveBuffer s;
            Some (s, public_profiles_changed)
        | unknown => Some (s, eventType)
        end;
      Some (if isFreshEvent
            then push_social_event evt eventType result_success s
            else s)
  end.

(** *** The event worker *)

(** The loop of [process_cached_events]: while the queue of the buffer is
    not empty, pop its first event and apply it as a replayed event.  The
    queue is read from the state at every round; [fuel] bounds the number
    of rounds. *)
Fixpoint drain_cached_events (fuel : nat) (inactiveBuffer : buffer_name)
    (s : social_graph) : option social_graph :=
  match socialUserEventQueue (buffer_of inactiveBuffer s) with
  | [] => Some s
  | evt :: rest =>
      match fuel with
      | O => None
      | S fuel =>
          let ub := buffer_of inactiveBuffer s in
          let s := set_buffer inactiveBuffer (set_socialUserEventQueue rest ub) s in
          s ← apply_event evt false s;
          drain_cached_events fuel inactiveBuffer s
      end
  end.

(** [social_graph::process_cached_events]. *)
Definition process_cached_events (s : social_graph) : option social_graph :=
  match inactive_buffer (m_userBuffer s) with
  | None => Some s
  | Some inactiveBuffer =>
      let fuel := length (socialUserEventQueue (buffer_of inactiveBuffer s)) in
      s ← drain_cached_events fuel inactiveBuffer s;
      Some (set_state normal s)
  end.

(** [social_graph::process_events]. *)
Definition process_events (s : social_graph) : option (bool * social_graph) :=
  let shouldApplyEvent :=
    negb (bool_decide (m_internalEventQueue s = []))
    && (m_numEventsThisFrame s <? NUM_EVENTS_PER_FRAME) in
  if shouldApplyEvent then
    let s := set_numEventsThisFrame (incr32 (m_numEventsThisFrame s)) s in
    match m_internalEventQueue s with
    | [] => None
    | evt :: rest =>
        let s := set_internalEventQueue rest s in
        s ← apply_event evt true s;
        h ← add_event evt (m_userBuffer s);
        Some (shouldApplyEvent, set_userBuffer h s)
    end
  else Some (shouldApplyEvent, s).

(** [social_graph::do_event_work]. *)
Definition do_event_work (s : social_graph) : option (bool * social_graph) :=
  let s := set_state event_processing s in
  let hasCachedEvents :=
    m_isInitialized s
    && match inactive_buffer (m_userBuffer s) with
       | Some b => negb (bool_decide (socialUserEventQueue (buffer_of b s) = []))
       | None => false
       end in
  if hasCachedEvents then
    s ← process_cached_events s;
    Some (true, s)
  else if m_isInitialized s then
    process_events (set_state normal s)
  else Some (false, set_state normal s).

(** *** The frame pump *)

(** [change_struct]: [socialUsers] points at the graph of one of the two
    buffers, or is [nullptr]. *)
Record change_struct := {
  socialUsers : option buffer_name
}.

(** [social_graph::do_work]: the result, the caller's event list and the
    state after the call. *)
Definition do_work (socialEvents : list social_event) (s : social_graph)
    : change_struct * list social_event * social_graph :=
  let s := set_numEventsThisFrame 0 s in
  let s :=
    if bool_decide (m_socialGraphState s = normal)
       && match inactive_buffer (m_userBuffer s) with
          | Some b => bool_decide (socialUserEventQueue (buffer_of b s) = [])
          | None => false
          end
    then set_userBuffer (swap (m_userBuffer s)) s
    else s in
  let changeStruct := {| socialUsers := active_buffer (m_userBuffer s) |} in
  if negb (event_queue.empty (m_socialEventQueue s))
     && bool_decide (m_socialGraphState s = normal)
  then
    let '(l, q) := event_queue.social_event_list (m_socialEventQueue s) in
    let socialEvents := socialEvents ++ l in
    (changeStruct, socialEvents, set_socialEventQueue (event_queue.clear q) s)
  else (changeStruct, socialEvents, s).

(** *** Requests and the refresh diff *)

(** [social_graph::add_users]. *)
Definition add_users (users : list string) (c : N) (s : social_graph) : social_graph :=
  set_internalEventQueue
    (m_internalEventQueue s ++ [event_of_strings users_added users c]) s.

(** [social_graph::remove_users]. *)
Definition remove_users (users : list N) (s : social_graph) : social_graph :=
  set_internalEventQueue
    (m_internalEventQueue s ++ [event_of_ids users_removed users]) s.

(** [(didChange & flag) == flag]. *)
Definition has_flag (didChange flag : N) : bool := N.land didChange flag =? flag.

(** First loop of [perform_diff], over the fetched users. *)
Definition diff_current_step (ub : user_buffer) (currentUserPair : N * xbox_social_user)
    (acc : list xbox_social_user * list social_manager_presence_record
           * list xbox_social_user * list xbox_social_user)
    : option (list xbox_social_user * list social_manager_presence_record
              * list xbox_social_user * list xbox_social_user) :=
  let '(usersAddedList, presenceChangeList,
        profileChangeList, socialRelationshipChangeList) := acc in
  match socialUserGraph ub !! currentUserPair.1 with
  | None =>
      Some (usersAddedList ++ [currentUserPair.2], presenceChangeList,
            profileChangeList, socialRelationshipChangeList)
  | Some ctx =>
      p ← socialUser ctx;
      previousUser ← read_slot p ub;
      let didChange := user_Compare previousUser currentUserPair.2 in
      Some (usersAddedList,
            (if has_flag didChange presence_change
             then presenceChangeList ++ [presence_record currentUserPair.2]
             else presenceChangeList),
            (if has_flag didChange profile_change
             then profileChangeList ++ [currentUserPair.2]
             else profileChangeList),
            (if has_flag didChange social_relationship_change
             then socialRelationshipChangeList ++ [currentUserPair.2]
             else socialRelationshipChangeList))
  end.

Definition diff_scan_current (ub : user_buffer)
    (xboxSocialUsers : list (N * xbox_social_user))
    : option (list xbox_social_user * list social_manager_presence_record
              * list xbox_social_user * list xbox_social_user) :=
  for_each (diff_current_step ub) xboxSocialUsers ([], [], [], []).

(** Second loop of [perform_diff], over the graph of the inactive buffer. *)
Definition diff_previous_step (ub : user_buffer)
    (xboxSocialUsers : gmap N xbox_social_user)
    (previousUserPair : N * xbox_social_user_context) (usersRemovedList : list N)
    : option (list N) :=
  match xboxSocialUsers !! previousUserPair.1 with
  | Some _ => Some usersRemovedList
  | None =>
      match socialUser previousUserPair.2 with
      | None => Some usersRemovedList
      | Some p =>
          user ← read_slot p ub;
          if is_following_user user
          then Some (usersRemovedList ++ [previousUserPair.1])
          else Some usersRemovedList
      end
  end.

Definition diff_scan_previous (ub : user_buffer)
    (xboxSocialUsers : gmap N xbox_social_user)
    (inactiveBufferUserGraph : list (N * xbox_social_user_context)) : option (list N) :=
  for_each (diff_previous_step ub xboxSocialUsers) inactiveBufferUserGraph [].

(** [m_internalEventQueue.push(evt)] when [b] holds. *)
Definition push_if (b : bool) (evt : internal_social_event) (s : social_graph)
    : social_graph :=
  if b then set_internalEventQueue (m_internalEventQueue s ++ [evt]) s else s.

(** [social_graph::perform_diff]. *)
Definition perform_diff (xboxSocialUsers : gmap N xbox_social_user) (s : social_graph)
    : option social_graph :=
  match inactive_buffer (m_userBuffer s) with
  | None => Some s
  | Some b =>
      let s := set_state diff s in
      let ub := buffer_of b s in
      '(usersAddedList, presenceChangeList,
        profileChangeList, socialRelationshipChangeList) ←
        diff_scan_current ub (map_to_list xboxSocialUsers);
      usersRemovedList ←
        diff_scan_previous ub xboxSocialUsers (map_to_list (socialUserGraph ub));
      let s := push_if (bool_decide (0 < length usersAddedList)%nat)
                 (event_of_users users_changed usersAddedList null_completion_context) s in
      let s := push_if (bool_decide (0 < length usersRemovedList)%nat)
                 (event_of_ids users_removed usersRemovedList) s in
      let s := push_if (bool_decide (0 < length presenceChangeList)%nat)
                 (event_of_presence_records presence_changed presenceChangeList) s in
      let s := push_if (bool_decide (0 < length profileChangeList)%nat)
                 (event_of_users profiles_changed profileChangeList
                    null_completion_context) s in
      let s := push_if (bool_decide (0 < length socialRelationshipChangeList)%nat)
                 (event_of_users social_relationships_changed
                    socialRelationshipChangeList null_completion_context) s in
      Some (set_state normal s)
  end.

(** [social_graph::handle_device_presence_change]. *)
Definition handle_device_presence_change
  (devicePresenceChanged : device_presence_change_event_args) (s : social_graph)
  : social_graph :=
let id := string_t_to_uint64 (dp_xbox_user_id devicePresenceChanged) in
if decide (id = 0) then s
else
  set_internalEventQueue
    (m_internalEventQueue s
     ++ [event_of_device_args device_presence_changed devicePresenceChanged]) s.

(** [social_graph::handle_title_presence_change]. *)
Definition handle_title_presence_change
  (titlePresenceChanged : title_presence_change_event_args) (s : social_graph)
  : social_graph :=
if decide (tp_title_state titlePresenceChanged = started) then
  let presenceVec := [tp_xbox_user_id titlePresenceChanged] in
  record_call (timer_fire m_presenceRefreshTimer presenceVec null_completion_context) s
else
  let titlePresenceChangeEvent :=
    event_of_title_args title_presence_changed titlePresenceChanged in
  set_internalEventQueue (m_internalEventQueue s ++ [titlePresenceChangeEvent]) s.

(** The continuation [social_graph_timer_callback] attaches to the fetch of
    the users the refresh timer has collected: the result is pushed on the
    internal queue as a [users_changed] event, with the profiles when the
    fetch succeeded and with the error and the requested ids when it
    failed. *)
Definition social_graph_timer_callback_then (users : list string)
  (completionContext : call_buffer_timer_completion_context)
  (socialListResult : xbox_live_result_void) (payload : list xbox_social_user)
  (s : social_graph) : social_graph :=
if decide (err socialListResult = no_error) then
  set_internalEventQueue
    (m_internalEventQueue s ++ [event_of_users users_changed payload completionContext]) s
else
  let evt := event_of_error users_changed socialListResult users completionContext in
  set_internalEventQueue (m_internalEventQueue s ++ [evt]) s.

(** *** Start-up *)

(** [social_graph::initialize_social_buffers]. *)
Definition initialize_social_buffers (socialUsers : list xbox_social_user)
    (s : social_graph) : option social_graph :=
  h ← initialize socialUsers (m_userBuffer s);
  Some (set_userBuffer h s).

(** [std::unordered_map] promises no order of iteration.  The start-up and
    [refresh_graph_helper], whose outcome depends on the order in which the
    graph yields its entries, take it as a parameter: [walk m] is the
    sequence of the entries of [m] in the order the map yields them. *)
Definition iteration : Type :=
  gmap N xbox_social_user_context → list (N * xbox_social_user_context).

(** [walk] yields the entries of every map, each once, in some order. *)
Definition lists_entries (walk : iteration) : Prop :=
  ∀ m, walk m ≡ₚ map_to_list m.

(** The presence service, as far as the start-up sees it:
    [presence_service c] is the error code of the result it returns to the
    subscription request [c].  A subscription that is handed out is named
    by the id it was requested for. *)
Definition presence_answers : Type := call → xbox_live_error_code.

Definition subscription_initialization_failed : xbox_live_result_void :=
  {| err := runtime_error; err_message := "subscription initialization failed" |}.

(** The loop of the continuation of [initialize] over the graph of the
    inactive buffer: both subscriptions are requested for every user, and
    the first request that fails ends the continuation with a
    [runtime_error].  The first component of the result is what the loop
    returned with, [None] when it ran to its end. *)
Fixpoint initialize_subscriptions (presence_service : presence_answers)
    (b : buffer_name) (inactiveBufferSocialGraph : list (N * xbox_social_user_context))
    (s : social_graph) : option (option xbox_live_result_void * social_graph) :=
  match inactiveBufferSocialGraph with
  | [] => Some (None, s)
  | user :: rest =>
      p ← socialUser user.2;
      u ← read_slot p (buffer_of b s);
      let s := record_call (subscribe_to_device_presence_change (xbox_user_id u)) s in
      let devicePresenceSubResult :=
        presence_service (subscribe_to_device_presence_change (xbox_user_id u)) in
      let s := record_call (subscribe_to_title_presence_change (xbox_user_id u)) s in
      let titlePresenceSubResult :=
        presence_service (subscribe_to_title_presence_change (xbox_user_id u)) in
      if decide (devicePresenceSubResult ≠ no_error ∨ titlePresenceSubResult ≠ no_error)
      then Some (Some subscription_initialization_failed, s)
      else
        initialize_subscriptions presence_service b rest
          (set_socialUserSubscriptions
             (<[user.1 :=
                  {| devicePresenceChangeSubscription := Some (xbox_user_id u);
                     titlePresenceChangeSubscription := Some (xbox_user_id u) |}]>
                (m_socialUserSubscriptions s)) s)
  end.

(** The continuation [initialize] attaches to the first fetch of the
    graph: a failed fetch other than a 424 is returned as it is; otherwise
    both buffers are filled and every user of the inactive buffer is
    subscribed to.  When a subscription fails the continuation returns a
    [runtime_error] there and then, and the core is left uninitialised;
    otherwise the core becomes initialised.  (The core is taken to be alive
    when the fetch completes.) *)
Definition initialize_then (walk : iteration) (presence_service : presence_answers)
    (socialUsersResult : xbox_live_result_void)
    (payload : list xbox_social_user) (s : social_graph)
    : option (xbox_live_result_void * social_graph) :=
  if decide (err socialUsersResult ≠ no_error
             ∧ err socialUsersResult ≠ http_status_424_failed_dependency)
  then Some (socialUsersResult, s)
  else
    s ← initialize_social_buffers payload s;
    b ← inactive_buffer (m_userBuffer s);
    let inactiveBufferSocialGraph := walk (socialUserGraph (buffer_of b s)) in
    '(returned, s) ← initialize_subscriptions presence_service b
                       inactiveBufferSocialGraph s;
    match returned with
    | Some result => Some (result, s)
    | None => Some (result_success, set_isInitialized true s)
    end.

End core.

(** ** A sample instantiation of the helpers

    Used to run the model on concrete inputs: ids are parsed as decimal
    numbers, records are compared field by field, and the change flags are
    the bits 1, 2 and 4. *)
Module sample.

Definition digit_of (c : Ascii.ascii) : option N :=
  let n := N_of_ascii c in
  if (48 <=? n) && (n <=? 57) then Some (n - 48) else None.

Fixpoint parse_digits (acc : N) (str : string) : N :=
  match str with
  | EmptyString => acc
  | String c rest =>
      match digit_of c with
      | Some d => parse_digits ((acc * 10 + d) mod 2 ^ 64) rest
      | None => acc
      end
  end.

Definition remove_title (title : N) (r : social_manager_presence_record)
    : social_manager_presence_record :=
  {| _Xbox_user_id := _Xbox_user_id r;
     pr_user_state := pr_user_state r;
     presence_title_records :=
       filter (λ t, tr_title_id t ≠ title) (presence_title_records r) |}.

Definition update_device (device : N) (isUserLoggedIn : bool)
    (r : social_manager_presence_record) : social_manager_presence_record :=
  {| _Xbox_user_id := _Xbox_user_id r;
     pr_user_state := if isUserLoggedIn then 1 else 0;
     presence_title_records :=
       if isUserLoggedIn then presence_title_records r
       else filter (λ t, tr_device_type t ≠ device) (presence_title_records r) |}.

Definition compare_users (a b : xbox_social_user) : N :=
  N.lor (if decide (display_name a = display_name b) then 0 else 1)
    (N.lor (if decide (presence_record a = presence_record b) then 0 else 2)
       (if decide ((is_favorite a, is_following_user a, is_followed_by_caller a)
                   = (is_favorite b, is_following_user b, is_followed_by_caller b))
        then 0 else 4)).

Definition helpers : Collaborators :=
  {| string_t_to_uint64 := parse_digits 0;
     _Update_device := update_device;
     _Remove_title := remove_title;
     presence_Compare := λ a b, bool_decide (a ≠ b);
     user_Compare := compare_users;
     profile_change := 1;
     presence_change := 2;
     social_relationship_change := 4 |}.

(** A presence service that grants every request. *)
Definition granted : presence_answers := λ _, no_error.

(** A map that yields its entries in the reverse of the order of
    [map_to_list]. *)
Definition backwards : iteration := λ m, reverse (map_to_list m).

Definition offline (id : N) : social_manager_presence_record :=
  {| _Xbox_user_id := id; pr_user_state := 0; presence_title_records := [] |}.

(** A followed user with no presence. *)
Definition friend (id : N) (name : string) : xbox_social_user :=
  {| xbox_user_id := pretty id;
     _Xbox_user_id_as_integer := id;
     display_name := name;
     is_favorite := false;
     is_following_user := true;
     is_followed_by_caller := true;
     presence_record := offline id |}.

End sample.

(** ** Observations and runs used in the statements *)

(** The entries into [apply_event] among the recorded calls, with their
    arguments, in order. *)
Definition application_of (c : call) : option (internal_social_event * bool) :=
match c with
| enter_apply_event evt isFreshEvent => Some (evt, isFreshEvent)
| _ => None
end.

Definition applications (s : social_graph) : list (internal_social_event * bool) :=
omap application_of (calls s).

Definition fresh_applications (s : social_graph) : list (internal_social_event * bool) :=
filter (λ a, a.2 = true) (applications s).

(** The calls that reach a collaborator. *)
Definition outbound_calls (s : social_graph) : list call :=
filter (λ c, application_of c = None) (calls s).

Definition public_events (s : social_graph) : list social_event :=
event_queue.m_socialEventList (m_socialEventQueue s).

Definition graph_of (b : buffer_name) (s : social_graph) : gmap N xbox_social_user_context :=
socialUserGraph (buffer_of b s).

Definition pending_of (b : buffer_name) (s : social_graph) : list internal_social_event :=
socialUserEventQueue (buffer_of b s).

(** The reference count stored for an id, 0 when the id is not in the map. *)
Definition stored_refCount (g : gmap N xbox_social_user_context) (id : N) : N :=
from_option refCount 0 (g !! id).

(** The condition under which [do_work] swaps the buffers. *)
Definition swap_condition (s : social_graph) : Prop :=
m_socialGraphState s = normal
∧ ∃ b, inactive_buffer (m_userBuffer s) = Some b ∧ pending_of b s = [].

(** The public event [event_queue::push] builds from an internal event. *)
Definition public_event_of (evt : internal_social_event) (t : social_event_type)
  (e : xbox_live_result_void) : social_event :=
{| se_event_type := t;
   se_users_affected := users_affected_as_string_vec evt;
   se_err := err e;
   se_err_message := err_message e |}.

Section runs.
Context `{!Collaborators}.

(** One round of the loop of [process_cached_events], seen from the event
    that is popped. *)
Definition replay_step (ib : buffer_name) (evt : internal_social_event) (s : social_graph)
  : option social_graph :=
let ub := buffer_of ib s in
apply_event evt false
  (set_buffer ib (set_socialUserEventQueue (tail (socialUserEventQueue ub)) ub) s).

(** What can happen between two frames: a round of the worker, a request of
    the application, the arrival of a full refresh. *)
Inductive operation :=
| worker_round
| request_add_users (users : list string) (c : N)
| request_remove_users (users : list N)
| refresh_result (xboxSocialUsers : gmap N xbox_social_user).

Definition run_operation (o : operation) (s : social_graph) : option social_graph :=
match o with
| worker_round => snd <$> do_event_work s
| request_add_users users c => Some (add_users users c s)
| request_remove_users users => Some (remove_users users s)
| refresh_result xboxSocialUsers => perform_diff xboxSocialUsers s
end.

Definition run_operations (ops : list operation) (s : social_graph) : option social_graph :=
for_each run_operation ops s.

(** A frame: [do_work] on an empty list of events. *)
Definition frame (s : social_graph) : list social_event * social_graph :=
let '(_, socialEvents, s) := do_work [] s in (socialEvents, s).

(** Applying a sequence of events, each fresh or replayed. *)
Definition apply_events (evs : list (internal_social_event * bool)) (s : social_graph)
  : option social_graph :=
for_each (λ e, apply_event e.1 e.2) evs s.

(** The ids a [users_added] event names, as integers. *)
Definition ids_added (evt : internal_social_event) : list N :=
string_t_to_uint64 <$> users_affected_as_string_vec evt.

(** How many [users_added] (resp. [users_removed]) events of a sequence name
    an id. *)
Definition adds_of (id : N) (evs : list (internal_social_event * bool)) : nat :=
length (filter (λ e, event_type e.1 = users_added ∧ id ∈ ids_added e.1) evs).

Definition removes_of (id : N) (evs : list (internal_social_event * bool)) : nat :=
length (filter (λ e, event_type e.1 = users_removed ∧ id ∈ users_to_remove e.1) evs).

(** An add or remove event that names no id twice; a remove names only ids
    that are in the graph, an add overflows no count. *)
Definition well_formed_request (b : buffer_name) (evt : internal_social_event)
  (s : social_graph) : bool :=
match event_type evt with
| users_added =>
    bool_decide (NoDup (ids_added evt))
    && forallb (λ id, stored_refCount (graph_of b s) id + 1 <? 2 ^ 32) (ids_added evt)
| users_removed =>
    bool_decide (NoDup (users_to_remove evt))
    && forallb (λ id, bool_decide (is_Some (graph_of b s !! id))) (users_to_remove evt)
| _ => false
end.

(** A sequence of well-formed requests, each applied to the state the
    previous ones leave. *)
Fixpoint well_formed_requests (b : buffer_name)
  (evs : list (internal_social_event * bool)) (s : social_graph) : bool :=
match evs with
| [] => true
| e :: evs =>
    well_formed_request b e.1 s
    && match apply_event e.1 e.2 s with
       | Some s' => well_formed_requests b evs s'
       | None => false
       end
end.

End runs.

(** [quiet ib s s']: from [s] to [s'] nothing changed but the contents of the
    buffer [ib] (its pending events excepted), the public event queue, the
    subscriptions, the counter of completion contexts and the calls made to
    collaborators. *)
Record quiet (ib : buffer_name) (s s' : social_graph) : Prop := {
  quiet_initialized : m_isInitialized s' = m_isInitialized s;
  quiet_state : m_socialGraphState s' = m_socialGraphState s;
  quiet_counter : m_numEventsThisFrame s' = m_numEventsThisFrame s;
  quiet_queue : m_internalEventQueue s' = m_internalEventQueue s;
  quiet_active : m_activeBuffer (m_userBuffer s') = m_activeBuffer (m_userBuffer s);
  quiet_inactive : m_inactiveBuffer (m_userBuffer s') = m_inactiveBuffer (m_userBuffer s);
  quiet_pending : ∀ b, pending_of b s' = pending_of b s;
  quiet_other : ∀ b, b ≠ ib → buffer_of b s' = buffer_of b s;
  quiet_applications : applications s' = applications s
}.

(** The resolution of the completion event a [users_changed] event carries:
    [tce.set(evt.error())] unless the completion context is null. *)
Definition resolution_of (evt : internal_social_event) : list call :=
if isNull (completion_context evt) then []
else [tce_set (cc_tce (completion_context evt)) (error evt)].

(** An entry of the graph of a buffer that the refresh reports as removed:
    its id is not among the fetched users, its slot holds a user, and that
    user has [is_following_user]. *)
Definition followed_and_vanished (ub : user_buffer) (fetched : gmap N xbox_social_user)
  (previousUserPair : N * xbox_social_user_context) : bool :=
match fetched !! previousUserPair.1 with
| Some _ => false
| None =>
    match socialUser previousUserPair.2 with
    | None => false
    | Some p =>
        match read_slot p ub with
        | Some user => is_following_user user
        | None => false
        end
    end
end.

(** The events [perform_diff] pushes, from the five lists it has built. *)
Definition diff_events
  (usersAddedList : list xbox_social_user) (usersRemovedList : list N)
  (presenceChangeList : list social_manager_presence_record)
  (profileChangeList socialRelationshipChangeList : list xbox_social_user)
  : list internal_social_event :=
(if bool_decide (0 < length usersAddedList)%nat
 then [event_of_users users_changed usersAddedList null_completion_context] else [])
++ (if bool_decide (0 < length usersRemovedList)%nat
    then [event_of_ids users_removed usersRemovedList] else [])
++ (if bool_decide (0 < length presenceChangeList)%nat
    then [event_of_presence_records presence_changed presenceChangeList] else [])
++ (if bool_decide (0 < length profileChangeList)%nat
    then [event_of_users profiles_changed profileChangeList null_completion_context]
    else [])
++ (if bool_decide (0 < length socialRelationshipChangeList)%nat
    then [event_of_users social_relationships_changed socialRelationshipChangeList
            null_completion_context]
    else []).

(** What a [users_added] (resp. [users_removed]) event that names an id once
    does to the entry of that id in the graph. *)
Definition after_add (o : option xbox_social_user_context)
  : option xbox_social_user_context :=
Some match o with
     | Some ctx => {| socialUser := socialUser ctx; refCount := incr32 (refCount ctx) |}
     | None => {| socialUser := None; refCount := 1 |}
     end.

Definition after_remove (o : option xbox_social_user_context)
  : option xbox_social_user_context :=
let ctx := default default_context o in
if decide (decr32 (refCount ctx) = 0) then None
else Some {| socialUser := socialUser ctx; refCount := decr32 (refCount ctx) |}.

(** Every count stored in a graph is at least 1 and fits a [uint32_t]. *)
Definition counts_positive (g : gmap N xbox_social_user_context) : Prop :=
map_Forall (λ _ ctx, 1 ≤ refCount ctx ∧ refCount ctx < 2 ^ 32) g.

(** The slot of an entry of the graph holds a user that can be read. *)
Definition readable (ub : user_buffer) (ctx : xbox_social_user_context) : bool :=
match socialUser ctx with
| Some p => bool_decide (is_Some (read_slot p ub))
| None => false
end.

(** ** Scenarios

    Concrete states and runs, over the sample helpers, on which the
    statements below are exercised. *)
Module scenario.
#[local] Existing Instance sample.helpers.

Definition alice : xbox_social_user := sample.friend 100 "Alice".

(** Scenario S1: the core after a first fetch that returns Alice, with
    every subscription granted. *)
Definition started : social_graph :=
default constructed
  (snd <$> initialize_then map_to_list sample.granted result_success [alice] constructed).

(** Ten requests to track one new user each. *)
Definition ten_requests : list operation :=
(λ i, request_add_users [pretty (200 + i)] i) <$> [0; 1; 2; 3; 4; 5; 6; 7; 8; 9].

(** The state after a frame, the ten requests and five rounds of the worker,
    and the state a second frame and six more rounds lead to. *)
Definition first_frame : option social_graph :=
run_operations (ten_requests ++ replicate 5 worker_round) (frame started).2.

Definition second_frame_start : option social_graph :=
s ← first_frame; Some (frame s).2.

Definition second_frame : option social_graph :=
s ← second_frame_start; run_operations (replicate 6 worker_round) s.

Definition first_frame_state : social_graph := default started first_frame.

(** A request for user 200, and the round of the worker that applies it. *)
Definition requested : social_graph := add_users ["200"] 7 started.

Definition processed : social_graph :=
default requested (snd <$> process_events requested).

(** A request to track 7 followed by two requests to stop tracking it. *)
Definition spurious_removals : list (internal_social_event * bool) :=
[(event_of_strings users_added ["7"] 1, true);
 (event_of_ids users_removed [7], true);
 (event_of_ids users_removed [7], true)].

(** A single request to track Alice, whom the first fetch returned. *)
Definition pinned_again : list (internal_social_event * bool) :=
[(event_of_strings users_added ["100"] 1, true)].

Definition after_pinned_again : social_graph :=
default started (apply_events pinned_again started).

(** Tracking 300 and (once more) 100, then dropping 300. *)
Definition tracked_requests : list (internal_social_event * bool) :=
[(event_of_strings users_added ["300"; "100"] 1, true);
 (event_of_ids users_removed [300], true)].

Definition after_tracked_requests : social_graph :=
default started (apply_events tracked_requests started).

(** Scenario S2, last step: Alice is removed by a fresh event. *)
Definition evicted : option social_graph :=
apply_event (event_of_ids users_removed [100]) true started.

(** A fetch for user 200 that fails with an HTTP 500. *)
Definition fetch_error : xbox_live_result_void :=
{| err := other_error 500; err_message := "fetch failed" |}.

Definition request_context : call_buffer_timer_completion_context :=
{| isNull := false; context := 1; numObjects := 1; cc_tce := 7 |}.

Definition failed_fetch : internal_social_event :=
event_of_error users_changed fetch_error ["200"] request_context.

Definition failing : social_graph :=
social_graph_timer_callback_then ["200"] request_context fetch_error [] started.

(** Carol is online on device 1, playing title 7. *)
Definition carol : xbox_social_user :=
{| xbox_user_id := "300";
   _Xbox_user_id_as_integer := 300;
   display_name := "Carol";
   is_favorite := false;
   is_following_user := true;
   is_followed_by_caller := true;
   presence_record :=
     {| _Xbox_user_id := 300; pr_user_state := 1;
        presence_title_records :=
          [{| tr_title_id := 7; tr_device_type := 1; tr_is_title_active := true |}] |} |}.

(** The core after a first fetch that returns Alice and Carol, with every
    subscription granted; the graph is walked in the order of [map_to_list]. *)
Definition crowded : social_graph :=
default constructed
  (snd <$> initialize_then map_to_list sample.granted result_success [alice; carol]
             constructed).

(** Carol logs off device 1. *)
Definition logoff : internal_social_event :=
event_of_device_args device_presence_changed
  {| dp_xbox_user_id := "300"; dp_device_type := 1;
     dp_is_user_logged_on_device := false |}.

Definition replayed_logoff : option social_graph := apply_event logoff false crowded.

(** A refresh that returns Alice and a new user, Dave: Carol has vanished. *)
Definition dave : xbox_social_user := sample.friend 400 "Dave".

Definition refreshed : gmap N xbox_social_user := <[100 := alice]> (<[400 := dave]> ∅).

(** Requests to track 200 and 201, and to stop tracking them. *)
Definition track_two : internal_social_event :=
event_of_strings users_added ["200"; "201"] 9.

Definition drop_two : internal_social_event := event_of_ids users_removed [201; 200].

End scenario.

(** ** Further definitions used in the statements *)

(** A sequence of [m_socialEventQueue.push] calls. *)
Definition push_all
  (l : list (internal_social_event * social_event_type * xbox_live_result_void))
  (q : event_queue.t) : event_queue.t :=
foldl (λ q x, event_queue.push x.1.1 x.1.2 x.2 q) q l.

(** The public events a sequence of pushes adds to the queue. *)
Definition pushed_events
  (l : list (internal_social_event * social_event_type * xbox_live_result_void))
  : list social_event :=
(λ x, public_event_of x.1.1 x.1.2 x.2) <$> filter (λ x, x.1.2 ≠ public_unknown) l.

(** [social_graph::are_events_empty]. *)
Definition are_events_empty (s : social_graph) : bool :=
bool_decide (socialUserEventQueue (user_buffer_a (m_userBuffer s)) = [])
&& bool_decide (socialUserEventQueue (user_buffer_b (m_userBuffer s)) = []).

(** The event a request of the application puts on the main queue. *)
Definition requested_event (o : operation) : list internal_social_event :=
match o with
| request_add_users users c => [event_of_strings users_added users c]
| request_remove_users users => [event_of_ids users_removed users]
| _ => []
end.

Definition is_refresh (o : operation) : bool :=
match o with
| refresh_result _ => true
| _ => false
end.

(** Two buffers that differ at most in their pending events. *)
Definition same_contents (ub1 ub2 : user_buffer) : Prop :=
set_socialUserEventQueue [] ub1 = set_socialUserEventQueue [] ub2.

(** A call that resolves a completion event. *)
Definition resolves (c : call) : Prop := ∃ n r, c = tce_set n r.

(** Every id of [g] is still in [g'], with the same reference count. *)
Definition keeps_counts (g g' : gmap N xbox_social_user_context) : Prop :=
∀ id ctx, g !! id = Some ctx →
          ∃ ctx', g' !! id = Some ctx' ∧ refCount ctx' = refCount ctx.

(** The four types of public events the core announces. *)
Definition announced (t : social_event_type) : Prop :=
  t = users_added_to_social_graph ∨ t = users_removed_from_social_graph
  ∨ t = public_presence_changed ∨ t = public_profiles_changed.

(** From [s] to [s'] the public queue has only grown, by announced events. *)
Definition announces (s s' : social_graph) : Prop :=
  ∃ l, public_events s' = public_events s ++ l
       ∧ Forall (λ e, announced (se_event_type e)) l.

Section subjects.
Context `{!Collaborators}.

(** The id a device or title presence event is about. *)
Definition presence_subject (evt : internal_social_event) : N :=
  match event_type evt with
  | device_presence_changed =>
      string_t_to_uint64 (dp_xbox_user_id (device_presence_args evt))
  | _ => string_t_to_uint64 (tp_xbox_user_id (title_presence_args evt))
  end.

End subjects.

(** ** Refreshes *)

(** One round of the loop of [refresh_graph_helper]. *)
Definition refresh_graph_helper_step (ub : user_buffer)
  (user : N * xbox_social_user_context) (userRefreshList : list N) : option (list N) :=
match socialUser user.2 with
| None => Some userRefreshList
| Some p =>
    socialUser ← read_slot p ub;
    if is_followed_by_caller socialUser then Some userRefreshList
    else Some (userRefreshList ++ [user.1])
end.

(** [social_graph::refresh_graph_helper]: the ids are collected in the order
    in which the graph yields its entries. *)
Definition refresh_graph_helper (walk : iteration) (userRefreshList : list N)
  (s : social_graph) : option (list N) :=
match inactive_buffer (m_userBuffer s) with
| None => Some userRefreshList
| Some inactiveBuffer =>
    let ub := buffer_of inactiveBuffer s in
    for_each (refresh_graph_helper_step ub) (walk (socialUserGraph ub)) userRefreshList
end.

(** [social_graph::refresh_graph], up to the request for the whole graph:
    the users the caller does not follow are handed to the graph refresh
    timer, with their ids printed in decimal. *)
Definition refresh_graph (walk : iteration) (s : social_graph) : option social_graph :=
let s := set_state refresh s in
userRefreshList ← refresh_graph_helper walk [] s;
let s := set_state normal s in
let userRefreshListStr := pretty <$> userRefreshList in
Some (record_call
        (timer_fire m_socialGraphRefreshTimer userRefreshListStr null_completion_context) s).

(** Both subscription requests made for [u] at start-up are answered
    without error. *)
Definition subscription_granted (presence_service : presence_answers)
  (u : xbox_social_user) : bool :=
bool_decide
  (presence_service (subscribe_to_device_presence_change (xbox_user_id u)) = no_error
   ∧ presence_service (subscribe_to_title_presence_change (xbox_user_id u)) = no_error).

(** An entry of the graph whose slot holds a user the caller does not
    follow. *)
Definition not_followed_by_caller (ub : user_buffer)
  (user : N * xbox_social_user_context) : bool :=
match socialUser user.2 with
| None => false
| Some p =>
    match read_slot p ub with
    | Some socialUser => negb (is_followed_by_caller socialUser)
    | None => false
    end
end.

Section effects.
Context `{!Collaborators}.

(** The continuation [refresh_graph] attaches to the fetch of the whole
    graph: the users fetched are indexed by id (for an id fetched twice the
    last user stays) and compared with the graph; a failed fetch is
    logged. *)
Definition refresh_graph_then (socialListResult : xbox_live_result_void)
  (payload : list xbox_social_user) (s : social_graph) : option social_graph :=
if decide (err socialListResult = no_error) then
  let socialMap :=
    foldl (λ socialMap user, <[_Xbox_user_id_as_integer user := user]> socialMap)
      ∅ payload in
  perform_diff socialMap s
else Some s.

(** One round of the loop of the continuation of [presence_timer_callback]
    that collects [presenceRecordChanges]. *)
Definition presence_record_changes_step (ub : user_buffer)
  (record : social_manager_presence_record)
  (presenceRecordChanges : list social_manager_presence_record)
  : option (list social_manager_presence_record) :=
match socialUserGraph ub !! _Xbox_user_id record with
| None => Some presenceRecordChanges
| Some previousRecord =>
    match socialUser previousRecord with
    | None => Some presenceRecordChanges
    | Some p =>
        user ← read_slot p ub;
        if presence_Compare (presence_record user) record
        then Some (presenceRecordChanges ++ [record])
        else Some presenceRecordChanges
    end
end.

(** The continuation [presence_timer_callback] attaches to the fetch of the
    presence of some users; [payload] is the records fetched, as the
    [social_manager_presence_record]s the continuation makes of them.  The
    list [presenceRecordChanges] is built and not used: the event pushed
    carries every record fetched. *)
Definition presence_timer_callback_then (presenceRecordsResult : xbox_live_result_void)
  (payload : list social_manager_presence_record) (s : social_graph)
  : option social_graph :=
if decide (err presenceRecordsResult = no_error) then
  match inactive_buffer (m_userBuffer s) with
  | None => Some s
  | Some inactiveBuffer =>
      let s := set_state refresh s in
      let socialManagerPresenceVec := payload in
      _ ← for_each (presence_record_changes_step (buffer_of inactiveBuffer s))
            socialManagerPresenceVec [];
      let s :=
        set_internalEventQueue
          (m_internalEventQueue s
           ++ [event_of_presence_records presence_changed socialManagerPresenceVec]) s in
      Some (set_state normal s)
  end
else Some s.

(** A record of a presence event that changes the buffer: its id is not 0,
    the id is in the graph with a slot that holds a user, and the record
    differs from the one stored. *)
Definition presence_differs (ub : user_buffer) (record : social_manager_presence_record)
  : bool :=
bool_decide (_Xbox_user_id record ≠ 0)
&& match socialUserGraph ub !! _Xbox_user_id record with
   | None => false
   | Some ctx =>
       match socialUser ctx with
       | None => false
       | Some p =>
           match read_slot p ub with
           | Some user => presence_Compare (presence_record user) record
           | None => false
           end
       end
   end.

(** What [apply_event] does to the buffer it is applied to, as a function of
    that buffer: the buffer operations of the case of [apply_event] the event
    selects, without the calls, the public events and the bookkeeping. *)
Definition buffer_effect (evt : internal_social_event) (ub : user_buffer)
  : option user_buffer :=
match event_type evt with
| users_added =>
    let '(g, usersToAdd) :=
      users_added_scan (socialUserGraph ub) (users_affected_as_string_vec evt) in
    Some (set_socialUserGraph (users_added_insert g usersToAdd) ub)
| users_changed =>
    if decide (err (error evt) ≠ no_error) then Some ub
    else
      '(ub, usersToAdd, _) ← users_change_scan ub (users_affected evt);
      match usersToAdd with
      | [] => Some ub
      | _ =>
          add_users_to_buffer usersToAdd ub
            (N.to_nat (numObjects (completion_context evt)))
      end
| users_removed =>
    let '(g, removeUsers, _) :=
      foldl users_removed_step (socialUserGraph ub, [], public_unknown)
        (users_to_remove evt) in
    Some (remove_users_from_buffer removeUsers (set_socialUserGraph g ub))
| device_presence_changed =>
    let devicePresenceChangedArgs := device_presence_args evt in
    match socialUserGraph ub
            !! string_t_to_uint64 (dp_xbox_user_id devicePresenceChangedArgs) with
    | None => Some ub
    | Some ctx =>
        match socialUser ctx with
        | None => Some ub
        | Some p =>
            user ← read_slot p ub;
            if bool_decide (1 < length (presence_title_records (presence_record user)))%nat
               || dp_is_user_logged_on_device devicePresenceChangedArgs
            then Some ub
            else
              assign_slot p
                (_Set_presence_record
                   (_Update_device (dp_device_type devicePresenceChangedArgs)
                      (dp_is_user_logged_on_device devicePresenceChangedArgs)
                      (presence_record user)) user) ub
        end
    end
| title_presence_changed =>
    let titlePresenceChanged := title_presence_args evt in
    match socialUserGraph ub
            !! string_t_to_uint64 (tp_xbox_user_id titlePresenceChanged) with
    | None => Some ub
    | Some ctx =>
        match socialUser ctx with
        | None => Some ub
        | Some p =>
            user ← read_slot p ub;
            if decide (tp_title_state titlePresenceChanged = ended) then
              assign_slot p
                (_Set_presence_record
                   (_Remove_title (tp_title_id titlePresenceChanged)
                      (presence_record user)) user) ub
            else Some ub
        end
    end
| presence_changed => fst <$> presence_changed_scan ub (presence_records evt)
| social_relationships_changed | profiles_changed =>
    for_each profiles_changed_step (users_affected evt) ub
| unknown => Some ub
end.

(** The core at the start of a frame's work: initialised, the two roles on
    the two buffers, and the two buffers equal, with nothing pending. *)
Definition in_step (s : social_graph) : Prop :=
m_isInitialized s = true
∧ (∃ a b, active_buffer (m_userBuffer s) = Some a
          ∧ inactive_buffer (m_userBuffer s) = Some b ∧ a ≠ b)
∧ user_buffer_a (m_userBuffer s) = user_buffer_b (m_userBuffer s)
∧ are_events_empty s = true.

End effects.

(** ** More scenarios *)
Module cases.
#[local] Existing Instance sample.helpers.

(** Three pushes on the public queue, the second of type [unknown]. *)
Definition three_pushes
  : list (internal_social_event * social_event_type * xbox_live_result_void) :=
[(event_of_ids users_removed [7], users_removed_from_social_graph, result_success);
 (event_of_ids presence_changed [8], public_unknown, result_success);
 (scenario.failed_fetch, users_added_to_social_graph, scenario.fetch_error)].

(** The core of scenario S1 in the middle of a refresh. *)
Definition refreshing : social_graph := set_state refresh scenario.started.

(** Requests, rounds of the worker and a refresh result before the first
    fetch has completed. *)
Definition early_operations : list operation :=
[request_add_users ["200"] 1; worker_round; refresh_result ∅;
 request_remove_users [7]; worker_round].

(** The frame after the round that applied the request for user 200: the
    buffers are swapped and the request is pending on the inactive buffer;
    and the round of the worker that replays it. *)
Definition replaying : social_graph := (frame scenario.processed).2.

Definition replayed : social_graph :=
default replaying (snd <$> do_event_work replaying).

(** A request to track Alice, who is tracked already, applied as a replay. *)
Definition pin_alice : internal_social_event := event_of_strings users_added ["100"] 1.

Definition pinned_by_replay : social_graph :=
default scenario.started (apply_event pin_alice false scenario.started).

(** A user nobody tracks logs on. *)
Definition stranger_logs_on : internal_social_event :=
event_of_device_args device_presence_changed
  {| dp_xbox_user_id := "999"; dp_device_type := 1;
     dp_is_user_logged_on_device := true |}.

(** Carol stops playing title 7. *)
Definition carol_quits : internal_social_event :=
event_of_title_args title_presence_changed
  {| tp_xbox_user_id := "300"; tp_title_id := 7; tp_title_state := ended |}.

(** A profile change for Dave, whom the core of scenario S1 does not track. *)
Definition dave_renamed : internal_social_event :=
event_of_users profiles_changed [scenario.dave] null_completion_context.

(** A change of the relationship with Alice. *)
Definition alice_unfriended : internal_social_event :=
event_of_users social_relationships_changed [scenario.alice] null_completion_context.

Definition after_unfriended : social_graph :=
default scenario.started (apply_event alice_unfriended true scenario.started).

(** The state Carol's log-off leaves when it is replayed. *)
Definition after_logoff : social_graph :=
default scenario.crowded scenario.replayed_logoff.

(** The inactive buffer of the crowded core once Alice, who sits in the
    first slot, has been removed, and what a reallocation makes of it. *)
Definition thinned : user_buffer :=
buffer_of buffer_B
  (default scenario.crowded
     (apply_event (event_of_ids users_removed [100]) false scenario.crowded)).

Definition regrown : user_buffer := default thinned (reallocate thinned 8).

(** The slab of the crowded core. *)
Definition crowded_slab : list (option xbox_social_user) :=
[Some scenario.alice; Some scenario.carol; None; None; None; None; None].

(** A presence fetch: Carol is away, Alice is offline as before. *)
Definition carol_away : social_manager_presence_record :=
{| _Xbox_user_id := 300; pr_user_state := 2; presence_title_records := [] |}.

Definition presence_update : internal_social_event :=
event_of_presence_records presence_changed [carol_away; sample.offline 100].

(** The state after the request to track two users is applied as a fresh
    event to the core of scenario S1. *)
Definition tracking_two : social_graph :=
default scenario.started (apply_event scenario.track_two true scenario.started).

(** A request and the round of the worker that applies it. *)
Definition one_request : list operation := [request_add_users ["200"] 7; worker_round].

Definition after_one_request : social_graph :=
default scenario.started (run_operations one_request scenario.started).

(** The request to track 200 and 201 as the caller makes it and the round
    of the worker that applies it; the core is then waiting for the
    profiles of the two users. *)
Definition track_request : list operation :=
[request_add_users ["200"; "201"] 9; worker_round].

Definition waiting : social_graph :=
default scenario.started (run_operations track_request scenario.started).

(** A refresh that returns user 200 while the core is waiting. *)
Definition bob : xbox_social_user := sample.friend 200 "Bob".

Definition bob_fetched : gmap N xbox_social_user := <[200 := bob]> ∅.

Definition refresh_while_waiting : list operation :=
track_request ++ [refresh_result bob_fetched].

(** Two users the caller tracks without following them, and the core once
    their profiles have arrived. *)
Definition stranger (id : N) (name : string) : xbox_social_user :=
{| xbox_user_id := pretty id;
   _Xbox_user_id_as_integer := id;
   display_name := name;
   is_favorite := false;
   is_following_user := false;
   is_followed_by_caller := false;
   presence_record := sample.offline id |}.

Definition profiles_arrived : internal_social_event :=
event_of_users users_changed [stranger 200 "Bob"; stranger 201 "Eve"]
  null_completion_context.

Definition watching : social_graph :=
default tracking_two (apply_event profiles_arrived true tracking_two).

(** A presence service that refuses the title subscription for Carol. *)
Definition carol_refused : presence_answers :=
λ c, if decide (c = subscribe_to_title_presence_change "300")
     then other_error 500 else no_error.

(** A refresh that returns Alice and Dave to the crowded core. *)
Definition after_refresh : social_graph :=
default scenario.crowded
  (refresh_graph_then result_success [scenario.alice; scenario.dave] scenario.crowded).

End cases.

(** * Verification *)

(** ** Loops *)

Lemma for_each_invariant {A B : Type} (P : A → Prop) (body : B → A → option A)
    (l : list B) (a r : A) :
  (∀ x a a', x ∈ l → P a → body x a = Some a' → P a') →
  P a → for_each body l a = Some r → P r.
Proof.
  revert a. induction l as [|x l IH]; intros a Hbody Ha Hr; simpl in Hr.
  - by simplify_eq.
  - destruct (body x a) as [a'|] eqn:E; simpl in Hr; [|done].
    apply (IH a'); [|by eapply Hbody; [left|..]|done].
    intros y b b' Hy. apply Hbody. by right.
Qed.

Lemma for_each_app {A B : Type} (body : B → A → option A) (l1 l2 : list B) (a : A) :
  for_each body (l1 ++ l2) a = for_each body l1 a ≫= for_each body l2.
Proof.
  revert a. induction l1 as [|x l1 IH]; intros a; simpl; [done|].
  destruct (body x a); simpl; [apply IH|done].
Qed.

(** ** The buffers: what leaves the pending events alone *)

Lemma deref_store_eq (b : buffer_name) (ub : user_buffer) (h : user_buffers_holder.t) :
  deref b (store b ub h) = ub.
Proof. by destruct b. Qed.

Lemma deref_store_ne (b b' : buffer_name) (ub : user_buffer) (h : user_buffers_holder.t) :
  b ≠ b' → deref b (store b' ub h) = deref b h.
Proof. by destruct b, b'. Qed.

Lemma active_store (b : buffer_name) (ub : user_buffer) (h : user_buffers_holder.t) :
  m_activeBuffer (store b ub h) = m_activeBuffer h.
Proof. by destruct b. Qed.

Lemma inactive_store (b : buffer_name) (ub : user_buffer) (h : user_buffers_holder.t) :
  m_inactiveBuffer (store b ub h) = m_inactiveBuffer h.
Proof. by destruct b. Qed.

Lemma store_deref (b : buffer_name) (h : user_buffers_holder.t) :
  store b (deref b h) h = h.
Proof. by destruct b, h. Qed.

Lemma assign_slot_pending (p : slot_ptr) (u : xbox_social_user) (ub ub' : user_buffer) :
  assign_slot p u ub = Some ub' → socialUserEventQueue ub' = socialUserEventQueue ub.
Proof.
  unfold assign_slot. intros E.
  destruct (slabs ub !! block p); simpl in E; [|done].
  destruct (read_slot p ub); simpl in E; [|done]. by simplify_eq.
Qed.

Lemma assign_slot_graph (p : slot_ptr) (u : xbox_social_user) (ub ub' : user_buffer) :
  assign_slot p u ub = Some ub' → socialUserGraph ub' = socialUserGraph ub.
Proof.
  unfold assign_slot. intros E.
  destruct (slabs ub !! block p); simpl in E; [|done].
  destruct (read_slot p ub); simpl in E; [|done]. by simplify_eq.
Qed.

Lemma construct_slot_pending (p : slot_ptr) (u : xbox_social_user) (ub ub' : user_buffer) :
  construct_slot p u ub = Some ub' → socialUserEventQueue ub' = socialUserEventQueue ub.
Proof.
  unfold construct_slot. intros E.
  destruct (slabs ub !! block p); simpl in E; [|done].
  case_decide; by simplify_eq.
Qed.

Lemma initialize_user_in_map_pending (i : nat) (ub ub' : user_buffer) :
  initialize_user_in_map i ub = Some ub' →
  socialUserEventQueue ub' = socialUserEventQueue ub.
Proof.
  unfold initialize_user_in_map. intros E.
  destruct (buffer ub); simpl in E; [|done].
  destruct (read_slot _ ub); simpl in E; [|done].
  destruct (socialUserGraph ub !! _); by simplify_eq.
Qed.

Lemma initialize_users_in_map_pending (ub ub' : user_buffer) (n off : nat) :
  initialize_users_in_map ub n off = Some ub' →
  socialUserEventQueue ub' = socialUserEventQueue ub.
Proof.
  unfold initialize_users_in_map.
  apply (for_each_invariant
           (λ x, socialUserEventQueue x = socialUserEventQueue ub)); [|done].
  intros i a a' _ Ha E. rewrite <- Ha. by eapply initialize_user_in_map_pending.
Qed.

Lemma buffer_init_pending (ub : user_buffer) (users : list xbox_social_user) (n : nat) :
  socialUserEventQueue (buffer_init ub users n) = socialUserEventQueue ub.
Proof. unfold buffer_init, buffer_alloc. by case_decide. Qed.

Lemma initialize_buffer_pending (ub ub' : user_buffer) (users : list xbox_social_user)
    (n : nat) :
  initialize_buffer ub users n = Some ub' →
  socialUserEventQueue ub' = socialUserEventQueue ub.
Proof.
  unfold initialize_buffer. intros E.
  apply initialize_users_in_map_pending in E. by rewrite buffer_init_pending in E.
Qed.

Lemma reallocate_pending (ub ub' : user_buffer) (n : nat) :
  reallocate ub n = Some ub' → socialUserEventQueue ub' = socialUserEventQueue ub.
Proof.
  unfold reallocate. intros E.
  destruct (if decide _ then _ else _) as [v|]; simpl in E; [|done].
  apply initialize_buffer_pending in E. rewrite E.
  unfold mem_free. by destruct (buffer ub).
Qed.

Lemma add_user_to_buffer_pending (u : xbox_social_user) (ub ub' : user_buffer) :
  add_user_to_buffer u ub = Some ub' →
  socialUserEventQueue ub' = socialUserEventQueue ub.
Proof.
  unfold add_user_to_buffer. intros E.
  destruct (head (freeData ub)) as [[p|]|]; simpl in E; try done.
  destruct (buffer ub); simpl in E; [|done].
  destruct (construct_slot _ _ _) as [ub1|] eqn:E1; simpl in E; [|done].
  apply construct_slot_pending in E1.
  case_decide; [|done]. apply initialize_users_in_map_pending in E.
  by rewrite E, E1.
Qed.

Lemma add_users_to_buffer_pending (users : list xbox_social_user) (ub ub' : user_buffer)
    (n : nat) :
  add_users_to_buffer users ub n = Some ub' →
  socialUserEventQueue ub' = socialUserEventQueue ub.
Proof.
  unfold add_users_to_buffer. intros E.
  destruct (if decide _ then _ else _) as [ub1|] eqn:E1; simpl in E; [|done].
  assert (socialUserEventQueue ub1 = socialUserEventQueue ub) as <-.
  { case_decide; [by apply reallocate_pending in E1|by simplify_eq]. }
  revert E. apply (for_each_invariant
           (λ x, socialUserEventQueue x = socialUserEventQueue ub1)); [|done].
  intros u a a' _ Ha E. rewrite <- Ha. by eapply add_user_to_buffer_pending.
Qed.

Lemma remove_users_from_buffer_pending (users : list N) (ub : user_buffer) :
  socialUserEventQueue (remove_users_from_buffer users ub) = socialUserEventQueue ub.
Proof.
  unfold remove_users_from_buffer. revert ub.
  induction users as [|u users IH]; intros ub; simpl; [done|].
  rewrite IH. unfold remove_user_from_buffer. by destruct (socialUserGraph ub !! u).
Qed.

(** ** The frame pump *)

Lemma swap_changes_active (h : user_buffers_holder.t) :
  m_activeBuffer (swap h) ≠ m_activeBuffer h.
Proof.
  unfold swap. destruct (decide (m_activeBuffer h = Some buffer_A)) as [E|E]; simpl.
  - rewrite E. discriminate.
  - intros E'. apply E. by rewrite <- E'.
Qed.

Lemma swap_neq (h : user_buffers_holder.t) : swap h ≠ h.
Proof. intros E. apply (swap_changes_active h). by rewrite E. Qed.

Lemma swap_inactive_is_old_active (h : user_buffers_holder.t) (a : buffer_name) :
  m_activeBuffer h = Some a → m_inactiveBuffer (swap h) = Some a.
Proof.
  intros E. unfold swap. rewrite E.
  destruct a; [rewrite decide_True by done | rewrite decide_False by done]; done.
Qed.

Lemma swap_condition_dec (s : social_graph) :
  bool_decide (m_socialGraphState s = normal)
  && match inactive_buffer (m_userBuffer s) with
     | Some b => bool_decide (socialUserEventQueue (buffer_of b s) = [])
     | None => false
     end = true ↔ swap_condition s.
Proof.
  unfold swap_condition, pending_of. rewrite andb_true_iff, bool_decide_eq_true.
  split; intros [Hn Hq]; split; try done.
  - destruct (inactive_buffer (m_userBuffer s)) as [b|]; [|done].
    exists b. split; [done|]. by apply bool_decide_eq_true in Hq.
  - destruct Hq as (b & -> & Hq). by apply bool_decide_eq_true.
Qed.

(** C1.  Whatever the state, [do_work] swaps the two buffers exactly when the
    state is [normal], the inactive buffer exists and its list of pending
    internal events is empty, and leaves the holder alone otherwise; the
    [socialUsers] pointer it returns is the active buffer after that; and
    when the state is [normal] the queued public events are appended to the
    caller's list and the queue is left empty. *)
Theorem do_work_swaps_reports_and_drains
    (socialEvents : list social_event) (s : social_graph) :
  let '(changeStruct, out, s') := do_work socialEvents s in
  (m_userBuffer s' = swap (m_userBuffer s) ↔ swap_condition s)
  ∧ (m_userBuffer s' = m_userBuffer s ↔ ¬ swap_condition s)
  ∧ socialUsers changeStruct = active_buffer (m_userBuffer s')
  ∧ (m_socialGraphState s = normal →
     out = socialEvents ++ public_events s ∧ public_events s' = []).
Proof.
  unfold do_work.
  set (s0 := set_numEventsThisFrame 0 s).
  pose proof (swap_condition_dec s0) as Hdec.
  assert (swap_condition s0 ↔ swap_condition s) as Hsc by done.
  rewrite Hsc in Hdec. clear Hsc.
  assert (∀ s1 : social_graph,
            public_events s1 = public_events s →
            m_socialGraphState s1 = m_socialGraphState s →
            m_socialGraphState s = normal →
            negb (event_queue.empty (m_socialEventQueue s1))
            && bool_decide (m_socialGraphState s1 = normal) = false →
            public_events s = []) as Hempty.
  { intros s1 Hp Hst Hn Hq. rewrite Hst, Hn in Hq.
    rewrite bool_decide_eq_true_2, andb_true_r in Hq by done.
    apply negb_false_iff, bool_decide_eq_true in Hq.
    fold (public_events s1) in Hq. by rewrite <- Hp. }
  destruct (bool_decide (m_socialGraphState s0 = normal) && _) eqn:Hc.
  - assert (swap_condition s) as Hs by (by apply Hdec).
    set (s1 := set_userBuffer (swap (m_userBuffer s0)) s0).
    assert (m_userBuffer s1 = swap (m_userBuffer s)) as Hb by done.
    specialize (Hempty s1 eq_refl eq_refl).
    destruct (negb _ && _) eqn:Hq; simpl; split_and!; try done;
      lazymatch goal with
      | |- _ ↔ ¬ _ =>
          split; [intros E; exfalso; by apply (swap_neq (m_userBuffer s))
                 |intros Hns; by destruct Hns]
      | |- _ → _ =>
          intros Hn; pose proof (Hempty Hn eq_refl) as He;
          split; [by rewrite He, app_nil_r | exact He]
      end.
  - assert (¬ swap_condition s) as Hs.
    { intros Hs. apply Hdec in Hs. discriminate. }
    specialize (Hempty s0 eq_refl eq_refl).
    destruct (negb _ && _) eqn:Hq; simpl; split_and!; try done;
      lazymatch goal with
      | |- _ ↔ swap_condition _ =>
          split; [intros E; exfalso; symmetry in E; by apply (swap_neq (m_userBuffer s))
                 |done]
      | |- _ → _ =>
          intros Hn; pose proof (Hempty Hn eq_refl) as He;
          split; [by rewrite He, app_nil_r | exact He]
      end.
Qed.

(** ** The core: what applying an event leaves alone *)

Lemma buffer_of_set_buffer_eq (b : buffer_name) (ub : user_buffer) (s : social_graph) :
  buffer_of b (set_buffer b ub s) = ub.
Proof. unfold buffer_of, set_buffer. simpl. apply deref_store_eq. Qed.

Lemma buffer_of_set_buffer_ne (b b' : buffer_name) (ub : user_buffer) (s : social_graph) :
  b ≠ b' → buffer_of b (set_buffer b' ub s) = buffer_of b s.
Proof. intros Hne. unfold buffer_of, set_buffer. simpl. by apply deref_store_ne. Qed.

Lemma applications_record_call (c : call) (s : social_graph) :
  applications (record_call c s) = applications s ++ omap application_of [c].
Proof. unfold applications. change (calls (record_call c s)) with (calls s ++ [c]). apply omap_app. Qed.

Lemma quiet_refl (ib : buffer_name) (s : social_graph) : quiet ib s s.
Proof. by split. Qed.

Lemma quiet_trans (ib : buffer_name) (s1 s2 s3 : social_graph) :
  quiet ib s1 s2 → quiet ib s2 s3 → quiet ib s1 s3.
Proof.
  intros H1 H2. split.
  1-6, 9: etrans; [apply H2|apply H1].
  - intros b. etrans; [apply H2|apply H1].
  - intros b Hb. etrans; [by apply H2|by apply H1].
Qed.

Lemma quiet_set_buffer (ib : buffer_name) (ub : user_buffer) (s s0 : social_graph) :
  quiet ib s s0 → socialUserEventQueue ub = pending_of ib s0 →
  quiet ib s (set_buffer ib ub s0).
Proof.
  intros Hq Hub. apply (quiet_trans _ _ s0); [done|]. split; try done.
  - unfold set_buffer. simpl. apply active_store.
  - unfold set_buffer. simpl. apply inactive_store.
  - intros b. unfold pending_of. destruct (decide (b = ib)) as [->|Hne].
    + by rewrite buffer_of_set_buffer_eq.
    + by rewrite buffer_of_set_buffer_ne.
  - intros b Hne. by apply buffer_of_set_buffer_ne.
Qed.

Lemma quiet_record_call (ib : buffer_name) (c : call) (s s0 : social_graph) :
  quiet ib s s0 → application_of c = None → quiet ib s (record_call c s0).
Proof.
  intros Hq Hc. apply (quiet_trans _ _ s0); [done|]. split; try done.
  rewrite applications_record_call. simpl. rewrite Hc. apply app_nil_r.
Qed.

Lemma quiet_push_social_event (ib : buffer_name) (evt : internal_social_event)
    (t : social_event_type) (e : xbox_live_result_void) (s s0 : social_graph) :
  quiet ib s s0 → quiet ib s (push_social_event evt t e s0).
Proof. intros Hq. apply (quiet_trans _ _ s0); [done|]. by split. Qed.

Lemma quiet_set_userAddedContext (ib : buffer_name) (n : N) (s s0 : social_graph) :
  quiet ib s s0 → quiet ib s (set_userAddedContext n s0).
Proof. intros Hq. apply (quiet_trans _ _ s0); [done|]. by split. Qed.

Lemma quiet_set_socialUserSubscriptions (ib : buffer_name)
    (m : gmap N xbox_social_user_subscriptions) (s s0 : social_graph) :
  quiet ib s s0 → quiet ib s (set_socialUserSubscriptions m s0).
Proof. intros Hq. apply (quiet_trans _ _ s0); [done|]. by split. Qed.

Create HintDb quiet.
#[local] Hint Resolve quiet_refl quiet_set_buffer quiet_record_call
  quiet_push_social_event quiet_set_userAddedContext
  quiet_set_socialUserSubscriptions : quiet.

Section frames.
Context `{!Collaborators}.

Lemma quiet_setup_subscriptions (ib : buffer_name) (users : list N) (s s0 : social_graph) :
  quiet ib s s0 → quiet ib s (setup_device_and_presence_subscriptions users s0).
Proof.
  unfold setup_device_and_presence_subscriptions, lock,
    setup_device_and_presence_subscriptions_helper.
  revert s0. induction users as [|u users IH]; intros s0 Hq; simpl; [done|].
  apply IH. eauto 10 with quiet.
Qed.

Lemma quiet_unsubscribe_users (ib : buffer_name) (users : list N) (s s0 : social_graph) :
  quiet ib s s0 → quiet ib s (unsubscribe_users users s0).
Proof. done. Qed.

Lemma quiet_apply_users_added_event (ib : buffer_name) (evt : internal_social_event)
    (f : bool) (s s0 : social_graph) :
  quiet ib s s0 → quiet ib s (apply_users_added_event evt ib f s0).
Proof.
  intros Hq. unfold apply_users_added_event.
  destruct (users_added_scan _ _) as [g usersToAdd].
  destruct usersToAdd; [by eauto with quiet|].
  destruct f; eauto 10 with quiet.
Qed.

Lemma quiet_apply_users_removed_event (ib : buffer_name) (evt : internal_social_event)
    (t : social_event_type) (f : bool) (s s0 : social_graph) :
  quiet ib s s0 → quiet ib s (apply_users_removed_event evt ib t f s0).1.
Proof.
  intros Hq. unfold apply_users_removed_event.
  destruct (foldl _ _ _) as [[g removeUsers] t']. simpl.
  assert (quiet ib s
            (set_buffer ib
               (remove_users_from_buffer removeUsers
                  (set_socialUserGraph g (buffer_of ib s0))) s0)) as Hq'.
  { apply quiet_set_buffer; [done|]. by rewrite remove_users_from_buffer_pending. }
  destruct f; [by apply quiet_unsubscribe_users|done].
Qed.

Lemma users_change_scan_pending (ub ub' : user_buffer)
    (users toAdd changed : list xbox_social_user) :
  users_change_scan ub users = Some (ub', toAdd, changed) →
  socialUserEventQueue ub' = socialUserEventQueue ub.
Proof.
  unfold users_change_scan. intros E.
  apply (for_each_invariant
           (λ x, socialUserEventQueue x.1.1 = socialUserEventQueue ub)) in E; [done| |done].
  intros u [[a l1] l2] [[a' l1'] l2'] _ Ha Hs. simpl in *.
  destruct (socialUserGraph a !! _) as [ctx|]; [|by simplify_eq].
  destruct (socialUser ctx); [|by simplify_eq].
  destruct (assign_slot _ _ _) eqn:E'; simpl in Hs; [|done].
  simplify_eq. rewrite <- Ha. by eapply assign_slot_pending.
Qed.

Lemma quiet_apply_users_change_event (ib : buffer_name) (evt : internal_social_event)
    (f : bool) (s s0 s' : social_graph) :
  quiet ib s s0 → apply_users_change_event evt ib f s0 = Some s' → quiet ib s s'.
Proof.
  intros Hq. unfold apply_users_change_event.
  set (s1 := if isNull (completion_context evt) then s0 else _).
  assert (quiet ib s s1) as Hq1.
  { subst s1. destruct (isNull _); eauto with quiet. }
  clearbody s1. case_decide.
  { intros ?; simplify_eq. eauto with quiet. }
  destruct (users_change_scan _ _) as [[[ub toAdd] changed]|] eqn:E; simpl; [|done].
  apply users_change_scan_pending in E.
  assert (quiet ib s (set_buffer ib ub s1)) as Hq2 by eauto with quiet.
  set (s2 := set_buffer ib ub s1) in *. clearbody s2.
  intros E2.
  assert (∃ s3, quiet ib s s3 ∧
                match changed with
                | [] => Some s3
                | _ => if f
                       then Some (push_social_event
                                    (event_of_users profiles_changed changed
                                       null_completion_context)
                                    public_profiles_changed result_success s3)
                       else Some s3
                end = Some s') as (s3 & Hq3 & E3).
  { destruct toAdd as [|u toAdd]; simpl in E2; [by eauto|].
    destruct (add_users_to_buffer _ _ _) as [ub2|] eqn:E4; simpl in E2; [|done].
    apply add_users_to_buffer_pending in E4.
    destruct f; simpl in E2; eexists; (split; [|exact E2]).
    - apply quiet_push_social_event, quiet_setup_subscriptions. eauto with quiet.
    - eauto with quiet. }
  destruct changed; [by simplify_eq|]. destruct f; simplify_eq; eauto with quiet.
Qed.

Lemma quiet_apply_device_presence_changed_event (ib : buffer_name)
    (evt : internal_social_event) (f : bool) (t : social_event_type)
    (s s0 : social_graph) (r : social_graph * social_event_type) :
  quiet ib s s0 →
  apply_device_presence_changed_event evt ib f t s0 = Some r → quiet ib s r.1.
Proof.
  intros Hq. unfold apply_device_presence_changed_event.
  destruct (inactive_buffer _) as [current|]; simpl; [|done].
  destruct (socialUserGraph (buffer_of current s0) !! _) as [ctx|];
    [|by intros ?; simplify_eq].
  destruct (socialUser ctx) as [p|]; [|by intros ?; simplify_eq].
  destruct (read_slot p _) as [user|]; simpl; [|done].
  destruct (_ && f).
  { intros ?; simplify_eq. simpl. eauto with quiet. }
  destruct (negb _); [|by intros ?; simplify_eq].
  destruct (socialUserGraph (buffer_of ib s0) !! _) as [ctx'|];
    [|by intros ?; simplify_eq].
  destruct (socialUser ctx') as [p'|]; [|by intros ?; simplify_eq].
  destruct (read_slot p' _) as [user'|]; simpl; [|done].
  destruct (assign_slot _ _ _) as [ub|] eqn:E; simpl; [|done].
  apply assign_slot_pending in E. intros ?; simplify_eq. simpl. eauto with quiet.
Qed.

Lemma presence_changed_scan_pending (ub ub' : user_buffer)
    (records : list social_manager_presence_record) (ids : list N) :
  presence_changed_scan ub records = Some (ub', ids) →
  socialUserEventQueue ub' = socialUserEventQueue ub.
Proof.
  unfold presence_changed_scan. intros E.
  apply (for_each_invariant
           (λ x, socialUserEventQueue x.1 = socialUserEventQueue ub)) in E; [done| |done].
  intros r [a l] [a' l'] _ Ha Hs. simpl in *.
  case_decide; [by simplify_eq|].
  destruct (socialUserGraph a !! _) as [ctx|]; [|by simplify_eq].
  destruct (socialUser ctx); [|by simplify_eq].
  destruct (read_slot _ _); simpl in Hs; [|done].
  destruct (presence_Compare _ _); [|by simplify_eq].
  destruct (assign_slot _ _ _) eqn:E'; simpl in Hs; [|done].
  simplify_eq. rewrite <- Ha. by eapply assign_slot_pending.
Qed.

Lemma quiet_apply_presence_changed_event (ib : buffer_name) (evt : internal_social_event)
    (f : bool) (s s0 s' : social_graph) :
  quiet ib s s0 → apply_presence_changed_event evt ib f s0 = Some s' → quiet ib s s'.
Proof.
  intros Hq. unfold apply_presence_changed_event.
  destruct (presence_changed_scan _ _) as [[ub ids]|] eqn:E; simpl; [|done].
  apply presence_changed_scan_pending in E.
  destruct ids; [|destruct f]; intros ?; simplify_eq; eauto with quiet.
Qed.

Lemma quiet_apply_title_presence_changed (ib : buffer_name) (evt : internal_social_event)
    (t : social_event_type) (s s0 : social_graph) (r : social_graph * social_event_type) :
  quiet ib s s0 → apply_title_presence_changed evt ib t s0 = Some r → quiet ib s r.1.
Proof.
  intros Hq. unfold apply_title_presence_changed.
  destruct (socialUserGraph _ !! _) as [ctx|]; [|by intros ?; simplify_eq].
  destruct (socialUser ctx) as [p|]; [|by intros ?; simplify_eq].
  destruct (read_slot p _) as [user|]; simpl; [|done].
  case_decide; [|by intros ?; simplify_eq].
  destruct (assign_slot _ _ _) as [ub|] eqn:E; simpl; [|done].
  apply assign_slot_pending in E. intros ?; simplify_eq. simpl. eauto with quiet.
Qed.

Lemma quiet_apply_profiles_changed (ib : buffer_name) (evt : internal_social_event)
    (s s0 s' : social_graph) :
  quiet ib s s0 → apply_profiles_changed evt ib s0 = Some s' → quiet ib s s'.
Proof.
  intros Hq. unfold apply_profiles_changed.
  destruct (for_each _ _ _) as [ub|] eqn:E; simpl; [|done].
  intros ?; simplify_eq. apply quiet_set_buffer; [done|].
  revert E. apply (for_each_invariant
           (λ x, socialUserEventQueue x = pending_of ib s0)); [|done].
  intros u a a' _ Ha Hs. unfold profiles_changed_step in Hs.
  destruct (socialUserGraph a !! _) as [ctx|]; simpl in Hs; [|done].
  destruct (socialUser ctx); simpl in Hs; [|done].
  rewrite <- Ha. by eapply assign_slot_pending.
Qed.

(** Applying an event is recorded once; apart from that it is quiet with
    respect to the inactive buffer. *)
Lemma apply_event_quiet (ib : buffer_name) (evt : internal_social_event) (f : bool)
    (s s' : social_graph) :
  inactive_buffer (m_userBuffer s) = Some ib →
  apply_event evt f s = Some s' →
  quiet ib (record_call (enter_apply_event evt f) s) s'.
Proof.
  intros Hib. unfold apply_event.
  set (s0 := record_call _ s).
  assert (inactive_buffer (m_userBuffer s0) = Some ib) as -> by done.
  pose proof (quiet_refl ib s0) as Hq.
  assert (∀ r : social_graph * social_event_type,
            quiet ib s0 r.1 →
            Some (if f then push_social_event evt r.2 result_success r.1 else r.1) = Some s' →
            quiet ib s0 s') as Hfin.
  { intros [s1 t] Hq1 ?. destruct f; simplify_eq; simpl; eauto with quiet. }
  destruct (event_type evt); simpl.
  - apply (Hfin (_, _)). by apply quiet_apply_users_added_event.
  - destruct (apply_users_change_event _ _ _ _) as [s1|] eqn:E; simpl; [|done].
    apply (Hfin (_, _)). by eapply quiet_apply_users_change_event.
  - destruct (apply_users_removed_event _ _ _ _ _) as [s1 t] eqn:E.
    apply (Hfin (_, _)). simpl.
    change s1 with (s1, t).1. rewrite <- E. by apply quiet_apply_users_removed_event.
  - destruct (apply_device_presence_changed_event _ _ _ _ _) as [[s1 t]|] eqn:E;
      simpl; [|done].
    apply (Hfin (_, _)). by eapply (quiet_apply_device_presence_changed_event _ _ _ _ _ _ (_, _)).
  - destruct (apply_title_presence_changed _ _ _ _) as [[s1 t]|] eqn:E; simpl; [|done].
    apply (Hfin (_, _)). by eapply (quiet_apply_title_presence_changed _ _ _ _ _ (_, _)).
  - destruct (apply_presence_changed_event _ _ _ _) as [s1|] eqn:E; simpl; [|done].
    apply (Hfin (_, _)). by eapply quiet_apply_presence_changed_event.
  - destruct (apply_profiles_changed _ _ _) as [s1|] eqn:E; simpl; [|done].
    apply (Hfin (_, _)). by eapply quiet_apply_profiles_changed.
  - destruct (apply_profiles_changed _ _ _) as [s1|] eqn:E; simpl; [|done].
    apply (Hfin (_, _)). by eapply quiet_apply_profiles_changed.
  - apply (Hfin (_, _)). done.
Qed.

End frames.

Section worker.
Context `{!Collaborators}.

(** [apply_event] is recorded once and leaves the bookkeeping of the worker
    and the pending events of both buffers alone, whether or not there is an
    inactive buffer. *)
Lemma apply_event_frame (evt : internal_social_event) (f : bool) (s s' : social_graph) :
  apply_event evt f s = Some s' →
  m_isInitialized s' = m_isInitialized s
  ∧ m_socialGraphState s' = m_socialGraphState s
  ∧ m_numEventsThisFrame s' = m_numEventsThisFrame s
  ∧ m_internalEventQueue s' = m_internalEventQueue s
  ∧ m_activeBuffer (m_userBuffer s') = m_activeBuffer (m_userBuffer s)
  ∧ m_inactiveBuffer (m_userBuffer s') = m_inactiveBuffer (m_userBuffer s)
  ∧ (∀ b, pending_of b s' = pending_of b s)
  ∧ (∀ b, m_inactiveBuffer (m_userBuffer s) ≠ Some b → buffer_of b s' = buffer_of b s)
  ∧ applications s' = applications s ++ [(evt, f)].
Proof.
  intros E. destruct (inactive_buffer (m_userBuffer s)) as [ib|] eqn:Hib.
  - pose proof (apply_event_quiet ib evt f s s' Hib E) as [Q1 Q2 Q3 Q4 Q5 Q6 Q7 Q8 Q9].
    split_and!; try done.
    + intros b Hb. rewrite Q8; [done|]. unfold inactive_buffer in Hib. congruence.
    + rewrite Q9. by rewrite applications_record_call.
  - unfold apply_event in E.
    assert (inactive_buffer (m_userBuffer (record_call (enter_apply_event evt f) s)) = None)
      as Hn by done.
    rewrite Hn in E. simplify_eq. split_and!; try done.
    by rewrite applications_record_call.
Qed.

(** With as much fuel as there are pending events the loop of
    [process_cached_events] runs to its end: it replays the pending events
    one after the other. *)
Lemma drain_cached_events_enough_fuel (fuel : nat) (ib : buffer_name) (s : social_graph) :
  (length (pending_of ib s) ≤ fuel)%nat →
  drain_cached_events fuel ib s = for_each (replay_step ib) (pending_of ib s) s.
Proof.
  revert s. induction fuel as [|fuel IH]; intros s Hlen; unfold pending_of in *.
  - simpl. destruct (socialUserEventQueue (buffer_of ib s)) as [|evt rest];
      [done|simpl in Hlen; lia].
  - cbn [drain_cached_events].
    destruct (socialUserEventQueue (buffer_of ib s)) as [|evt rest] eqn:Hq; [done|].
    cbn [for_each].
    assert (replay_step ib evt s
            = apply_event evt false
                (set_buffer ib (set_socialUserEventQueue rest (buffer_of ib s)) s)) as ->.
    { unfold replay_step. by rewrite Hq. }
    destruct (apply_event _ _ _) as [s1|] eqn:E; simpl; [|done].
    apply apply_event_frame in E as (_ & _ & _ & _ & _ & _ & Hp & _).
    specialize (Hp ib). unfold pending_of in Hp.
    rewrite buffer_of_set_buffer_eq in Hp. simpl in Hp.
    rewrite IH; unfold pending_of; rewrite Hp; [done|]. simpl in Hlen. lia.
Qed.

Lemma replay_step_frame (ib : buffer_name) (evt : internal_social_event)
    (s s' : social_graph) :
  replay_step ib evt s = Some s' →
  m_isInitialized s' = m_isInitialized s
  ∧ m_socialGraphState s' = m_socialGraphState s
  ∧ m_numEventsThisFrame s' = m_numEventsThisFrame s
  ∧ m_internalEventQueue s' = m_internalEventQueue s
  ∧ m_activeBuffer (m_userBuffer s') = m_activeBuffer (m_userBuffer s)
  ∧ m_inactiveBuffer (m_userBuffer s') = m_inactiveBuffer (m_userBuffer s)
  ∧ pending_of ib s' = tail (pending_of ib s)
  ∧ (∀ b, b ≠ ib → pending_of b s' = pending_of b s)
  ∧ applications s' = applications s ++ [(evt, false)].
Proof.
  unfold replay_step. intros E.
  apply apply_event_frame in E as (H1 & H2 & H3 & H4 & H5 & H6 & H7 & _ & H9).
  split_and!; try done.
  - by rewrite H5; unfold set_buffer; simpl; rewrite active_store.
  - by rewrite H6; unfold set_buffer; simpl; rewrite inactive_store.
  - rewrite H7. unfold pending_of. by rewrite buffer_of_set_buffer_eq.
  - intros b Hb. rewrite H7. unfold pending_of. by rewrite buffer_of_set_buffer_ne.
Qed.

Lemma for_each_replay_frame (ib : buffer_name) (l : list internal_social_event)
    (s s' : social_graph) :
  for_each (replay_step ib) l s = Some s' →
  m_numEventsThisFrame s' = m_numEventsThisFrame s
  ∧ m_internalEventQueue s' = m_internalEventQueue s
  ∧ m_activeBuffer (m_userBuffer s') = m_activeBuffer (m_userBuffer s)
  ∧ m_inactiveBuffer (m_userBuffer s') = m_inactiveBuffer (m_userBuffer s)
  ∧ applications s' = applications s ++ ((λ evt, (evt, false)) <$> l).
Proof.
  revert s. induction l as [|evt l IH]; intros s E; simpl in E.
  - simplify_eq. by rewrite app_nil_r.
  - destruct (replay_step ib evt s) as [s1|] eqn:E1; simpl in E; [|done].
    apply replay_step_frame in E1 as (_ & _ & H3 & H4 & H5 & H6 & _ & _ & H9).
    apply IH in E as (G3 & G4 & G5 & G6 & G9).
    split_and!; try congruence.
    rewrite G9, H9. by rewrite <- app_assoc.
Qed.

(** The fresh applications among the recorded ones. *)
Lemma fresh_applications_app (s : social_graph) (l : list (internal_social_event * bool))
    (s' : social_graph) :
  applications s' = applications s ++ l →
  fresh_applications s' = fresh_applications s ++ filter (λ a, a.2 = true) l.
Proof. unfold fresh_applications. intros ->. apply filter_app. Qed.

Lemma filter_fresh_replayed (l : list internal_social_event) :
  filter (λ a : internal_social_event * bool, a.2 = true) ((λ evt, (evt, false)) <$> l) = [].
Proof. induction l as [|x l IH]; [done|]. simpl. by rewrite filter_cons_False. Qed.

(** The counter of the worker counts the fresh applications: a round of the
    worker that finds the counter at most 5 leaves it at most 5, and adds as
    many fresh applications as it adds to the counter. *)
Lemma do_event_work_counter (s s' : social_graph) (r : bool) :
  do_event_work s = Some (r, s') →
  m_numEventsThisFrame s ≤ NUM_EVENTS_PER_FRAME →
  m_numEventsThisFrame s ≤ m_numEventsThisFrame s'
  ∧ m_numEventsThisFrame s' ≤ NUM_EVENTS_PER_FRAME
  ∧ (length (fresh_applications s') + N.to_nat (m_numEventsThisFrame s)
     = length (fresh_applications s) + N.to_nat (m_numEventsThisFrame s'))%nat.
Proof.
  unfold do_event_work. intros E Hle.
  set (s0 := set_state event_processing s) in *.
  destruct (m_isInitialized s0 && _) eqn:Hc.
  - destruct (process_cached_events s0) as [s1|] eqn:E1; simpl in E; [|done].
    simplify_eq. unfold process_cached_events, inactive_buffer in E1.
    destruct (m_inactiveBuffer (m_userBuffer s0)) as [ib|]; [|by simplify_eq].
    rewrite drain_cached_events_enough_fuel in E1 by done.
    destruct (for_each _ _ _) as [s2|] eqn:E2; simpl in E1; [|done]. simplify_eq.
    apply for_each_replay_frame in E2 as (H3 & _ & _ & _ & H9).
    apply (fresh_applications_app s0) in H9. rewrite filter_fresh_replayed, app_nil_r in H9.
    simpl. rewrite H3. split_and!; try done.
    change (fresh_applications (set_state normal s2)) with (fresh_applications s2).
    rewrite H9. done.
  - destruct (m_isInitialized s0); [|by simplify_eq].
    unfold process_events in E.
    set (s1 := set_state normal s0) in *.
    destruct (negb _ && (_ <? _)) eqn:Hs; [|by simplify_eq].
    apply andb_true_iff in Hs as [Hne Hlt]. apply N.ltb_lt in Hlt.
    change (m_numEventsThisFrame s1) with (m_numEventsThisFrame s) in *.
    simpl in E. destruct (m_internalEventQueue s) as [|evt rest]; [done|].
    destruct (apply_event _ _ _) as [s2|] eqn:E2; simpl in E; [|done].
    destruct (add_event _ _) as [h|] eqn:E3; simpl in E; [|done]. simplify_eq.
    apply apply_event_frame in E2 as (_ & _ & H3 & _ & _ & _ & _ & _ & H9).
    simpl in H3.
    assert (incr32 (m_numEventsThisFrame s) = m_numEventsThisFrame s + 1) as Hincr.
    { unfold incr32, wrap32. apply N.mod_small.
      unfold NUM_EVENTS_PER_FRAME in *. lia. }
    rewrite Hincr in H3.
    apply (fresh_applications_app _ _ s2) in H9.
    change (m_numEventsThisFrame (set_userBuffer h s2)) with (m_numEventsThisFrame s2).
    change (fresh_applications (set_userBuffer h s2)) with (fresh_applications s2).
    rewrite H3, H9. rewrite length_app. simpl.
    unfold NUM_EVENTS_PER_FRAME in *. split_and!; try lia.
    change (fresh_applications (set_internalEventQueue rest
              (set_numEventsThisFrame (incr32 (m_numEventsThisFrame s)) s1)))
      with (fresh_applications s).
    lia.
Qed.

Lemma perform_diff_counter (xboxSocialUsers : gmap N xbox_social_user)
    (s s' : social_graph) :
  perform_diff xboxSocialUsers s = Some s' →
  m_numEventsThisFrame s' = m_numEventsThisFrame s ∧ calls s' = calls s.
Proof.
  unfold perform_diff. destruct (inactive_buffer _) as [b|]; [|by intros; simplify_eq].
  destruct (diff_scan_current _ _) as [[[[l1 l2] l3] l4]|]; simpl; [|done].
  destruct (diff_scan_previous _ _ _) as [l5|]; simpl; [|done].
  intros ?; simplify_eq. unfold push_if.
  repeat (match goal with |- context [bool_decide ?P] => destruct (bool_decide P) end);
    done.
Qed.

(** One operation between two frames: the counter does not decrease, stays
    at most 5, and grows by the number of fresh applications. *)
Lemma run_operation_counter (o : operation) (s s' : social_graph) :
  run_operation o s = Some s' →
  m_numEventsThisFrame s ≤ NUM_EVENTS_PER_FRAME →
  m_numEventsThisFrame s ≤ m_numEventsThisFrame s'
  ∧ m_numEventsThisFrame s' ≤ NUM_EVENTS_PER_FRAME
  ∧ (length (fresh_applications s') + N.to_nat (m_numEventsThisFrame s)
     = length (fresh_applications s) + N.to_nat (m_numEventsThisFrame s'))%nat.
Proof.
  destruct o as [|users c|users|m]; simpl; intros E Hle.
  - destruct (do_event_work s) as [[r s1]|] eqn:E1; simpl in E; [|done]. simplify_eq.
    by eapply do_event_work_counter.
  - simplify_eq. simpl. split_and!; [lia|done|].
    change (fresh_applications (add_users users c s)) with (fresh_applications s). lia.
  - simplify_eq. simpl. split_and!; [lia|done|].
    change (fresh_applications (remove_users users s)) with (fresh_applications s). lia.
  - apply perform_diff_counter in E as [E1 E2].
    unfold fresh_applications, applications. rewrite E1, E2. split_and!; [lia|done|lia].
Qed.

End worker.

(** ** Failed fetches *)

Lemma push_unknown_id (evt : internal_social_event) (e : xbox_live_result_void)
    (s : social_graph) :
  push_social_event evt public_unknown e s = s.
Proof. by destruct s. Qed.

Lemma public_events_push (evt : internal_social_event) (t : social_event_type)
    (e : xbox_live_result_void) (s : social_graph) :
  t ≠ public_unknown →
  public_events (push_social_event evt t e s) = public_events s ++ [public_event_of evt t e].
Proof.
  intros Ht. unfold public_events, push_social_event, event_queue.push. simpl.
  by rewrite decide_False.
Qed.

Section failed_fetch.
Context `{!Collaborators}.

Lemma apply_users_change_event_failed (evt : internal_social_event) (ib : buffer_name)
    (f : bool) (s : social_graph) :
  err (error evt) ≠ no_error →
  ∃ s', apply_users_change_event evt ib f s = Some s'
        ∧ m_userBuffer s' = m_userBuffer s
        ∧ m_isInitialized s' = m_isInitialized s
        ∧ m_socialGraphState s' = m_socialGraphState s
        ∧ m_numEventsThisFrame s' = m_numEventsThisFrame s
        ∧ m_internalEventQueue s' = m_internalEventQueue s
        ∧ m_socialUserSubscriptions s' = m_socialUserSubscriptions s
        ∧ public_events s'
          = public_events s
            ++ [public_event_of evt users_added_to_social_graph (error evt)]
        ∧ calls s' = calls s ++ resolution_of evt.
Proof.
  intros He. unfold apply_users_change_event, resolution_of.
  rewrite decide_True by done. eexists. split; [done|].
  rewrite public_events_push by done.
  destruct (isNull (completion_context evt)); simpl; split_and!; try done.
  by rewrite app_nil_r.
Qed.

(** A failed fetch applied through [apply_event]. *)
Lemma apply_event_failed_fetch (evt : internal_social_event) (f : bool)
    (s : social_graph) (ib : buffer_name) :
  inactive_buffer (m_userBuffer s) = Some ib →
  event_type evt = users_changed →
  err (error evt) ≠ no_error →
  ∃ s', apply_event evt f s = Some s'
        ∧ m_userBuffer s' = m_userBuffer s
        ∧ m_socialUserSubscriptions s' = m_socialUserSubscriptions s
        ∧ public_events s'
          = public_events s
            ++ [public_event_of evt users_added_to_social_graph (error evt)]
        ∧ calls s' = calls s ++ enter_apply_event evt f :: resolution_of evt.
Proof.
  intros Hib Ht He. unfold apply_event.
  set (s0 := record_call (enter_apply_event evt f) s).
  assert (inactive_buffer (m_userBuffer s0) = Some ib) as -> by done.
  rewrite Ht.
  destruct (apply_users_change_event_failed evt ib f s0 He)
    as (s1 & -> & Hb & _ & _ & _ & _ & Hs & Hp & Hc).
  simpl. rewrite push_unknown_id. exists s1. split; [by destruct f|].
  split_and!; try done.
  rewrite Hc. simpl. by rewrite <- app_assoc.
Qed.

Lemma outbound_calls_app (s s' : social_graph) (l : list call) :
  calls s' = calls s ++ l →
  outbound_calls s' = outbound_calls s ++ filter (λ c, application_of c = None) l.
Proof. unfold outbound_calls. intros ->. apply filter_app. Qed.

Lemma outbound_resolution (evt : internal_social_event) :
  filter (λ c, application_of c = None) (resolution_of evt) = resolution_of evt.
Proof.
  unfold resolution_of. destruct (isNull _); [done|]. by rewrite filter_cons_True.
Qed.

(** C6.  Applying a [users_changed] event that carries an error, fresh or
    replayed: the completion event attached to it (if the completion context
    is not null) is set to that error, one public
    [users_added_to_social_graph] event carrying the error is queued, and
    both buffers are left exactly as they were. *)
Theorem failed_fetch_resolves_reports_and_keeps_graph
    (evt : internal_social_event) (isFreshEvent : bool) (s : social_graph)
    (ib : buffer_name) :
  inactive_buffer (m_userBuffer s) = Some ib →
  event_type evt = users_changed →
  err (error evt) ≠ no_error →
  ∃ s', apply_event evt isFreshEvent s = Some s'
        ∧ m_userBuffer s' = m_userBuffer s
        ∧ public_events s'
          = public_events s
            ++ [public_event_of evt users_added_to_social_graph (error evt)]
        ∧ outbound_calls s' = outbound_calls s ++ resolution_of evt.
Proof.
  intros Hib Ht He.
  destruct (apply_event_failed_fetch evt isFreshEvent s ib Hib Ht He)
    as (s' & E & Hb & _ & Hp & Hc).
  exists s'. split_and!; try done.
  rewrite (outbound_calls_app s s' _ Hc). rewrite filter_cons_False by done.
  by rewrite outbound_resolution.
Qed.

End failed_fetch.

Section twice.
Context `{!Collaborators}.

Lemma frame_spec (s : social_graph) :
  (frame s).1 = (if bool_decide (m_socialGraphState s = normal) then public_events s else [])
  ∧ m_userBuffer (frame s).2
    = (if bool_decide (m_socialGraphState s = normal)
          && match inactive_buffer (m_userBuffer s) with
             | Some b => bool_decide (pending_of b s = [])
             | None => false
             end
       then swap (m_userBuffer s) else m_userBuffer s)
  ∧ public_events (frame s).2
    = (if bool_decide (m_socialGraphState s = normal) then [] else public_events s)
  ∧ m_isInitialized (frame s).2 = m_isInitialized s
  ∧ m_socialGraphState (frame s).2 = m_socialGraphState s
  ∧ m_internalEventQueue (frame s).2 = m_internalEventQueue s
  ∧ m_numEventsThisFrame (frame s).2 = 0
  ∧ calls (frame s).2 = calls s.
Proof.
  unfold frame, do_work, event_queue.empty, pending_of, public_events.
  set (s0 := set_numEventsThisFrame 0 s).
  change (m_socialGraphState s0) with (m_socialGraphState s).
  change (m_userBuffer s0) with (m_userBuffer s).
  destruct (bool_decide (m_socialGraphState s = normal)) eqn:Hn; simpl.
  - destruct (match inactive_buffer (m_userBuffer s) with | Some _ => _ | None => _ end);
      simpl; rewrite Hn, andb_true_r;
      destruct (event_queue.m_socialEventList (m_socialEventQueue s)) eqn:Hq;
      simpl; rewrite ?Hq; done.
  - rewrite Hn, andb_false_r. done.
Qed.

Lemma add_event_spec (evt : internal_social_event) (h h' : user_buffers_holder.t) :
  add_event evt h = Some h' →
  ∃ a, m_activeBuffer h = Some a
       ∧ m_activeBuffer h' = Some a
       ∧ m_inactiveBuffer h' = m_inactiveBuffer h
       ∧ socialUserEventQueue (deref a h') = socialUserEventQueue (deref a h) ++ [evt]
       ∧ socialUserGraph (deref a h') = socialUserGraph (deref a h)
       ∧ slabs (deref a h') = slabs (deref a h)
       ∧ freeData (deref a h') = freeData (deref a h)
       ∧ (∀ b, b ≠ a → deref b h' = deref b h).
Proof.
  unfold add_event. destruct (m_activeBuffer h) as [a|] eqn:Ha; simpl; [|done].
  intros ?; simplify_eq. exists a.
  rewrite active_store, inactive_store, deref_store_eq. split_and!; try done.
  intros b Hb. by apply deref_store_ne.
Qed.

(** C2 (as amended).  When [process_events] applies an event it takes the
    first event of the main queue, applies it as a fresh event, and appends
    it to the pending list of the buffer [m_activeBuffer] points at; the
    pending list of the other buffer is as before.  The active buffer, when
    it is not also the inactive one, is otherwise untouched by the round, and
    it is the buffer that the next swap makes inactive. *)
Theorem process_events_mirrors_on_active_buffer (s s' : social_graph) :
  process_events s = Some (true, s') →
  ∃ evt rest a,
    m_internalEventQueue s = evt :: rest
    ∧ m_internalEventQueue s' = rest
    ∧ applications s' = applications s ++ [(evt, true)]
    ∧ active_buffer (m_userBuffer s) = Some a
    ∧ active_buffer (m_userBuffer s') = Some a
    ∧ pending_of a s' = pending_of a s ++ [evt]
    ∧ (∀ b, b ≠ a → pending_of b s' = pending_of b s)
    ∧ (inactive_buffer (m_userBuffer s) ≠ Some a →
       socialUserGraph (buffer_of a s') = socialUserGraph (buffer_of a s)
       ∧ slabs (buffer_of a s') = slabs (buffer_of a s)
       ∧ freeData (buffer_of a s') = freeData (buffer_of a s))
    ∧ inactive_buffer (swap (m_userBuffer s')) = Some a.
Proof.
  unfold process_events. intros E.
  destruct (negb _ && _); [|by simplify_eq]. simpl in E.
  destruct (m_internalEventQueue s) as [|evt rest] eqn:Hq; [done|].
  destruct (apply_event _ _ _) as [s1|] eqn:E1; simpl in E; [|done].
  destruct (add_event _ _) as [h|] eqn:E2; simpl in E; [|done]. simplify_eq.
  apply apply_event_frame in E1 as (_ & _ & _ & H4 & H5 & H6 & H7 & H8 & H9).
  apply add_event_spec in E2 as (a & G1 & G2 & G3 & G4 & G5 & G6 & G7 & G8).
  exists evt, rest, a. unfold active_buffer, inactive_buffer, pending_of, buffer_of in *.
  simpl in *. split_and!; try done.
  - by rewrite <- H5.
  - by rewrite G4, H7.
  - intros b Hb. by rewrite G8, H7.
  - intros Hne. rewrite G5, G6, G7. by rewrite (H8 a Hne).
  - by apply swap_inactive_is_old_active.
Qed.

Lemma process_events_eq (s : social_graph) (evt : internal_social_event)
    (rest : list internal_social_event) :
  m_internalEventQueue s = evt :: rest →
  m_numEventsThisFrame s < NUM_EVENTS_PER_FRAME →
  process_events s
  = s1 ← apply_event evt true
           (set_internalEventQueue rest
              (set_numEventsThisFrame (incr32 (m_numEventsThisFrame s)) s));
    h ← add_event evt (m_userBuffer s1);
    Some (true, set_userBuffer h s1).
Proof.
  intros Hq Hc. unfold process_events. rewrite Hq.
  apply N.ltb_lt in Hc. rewrite Hc. simpl. by rewrite Hq.
Qed.

Lemma do_event_work_fresh (s : social_graph) (ib : buffer_name) :
  m_isInitialized s = true →
  inactive_buffer (m_userBuffer s) = Some ib →
  pending_of ib s = [] →
  do_event_work s = process_events (set_state normal (set_state event_processing s)).
Proof.
  intros Hi Hib Hp. unfold do_event_work. simpl. rewrite Hi, Hib. simpl.
  unfold pending_of in Hp. unfold buffer_of. simpl. unfold buffer_of in Hp.
  by rewrite Hp.
Qed.

Lemma do_event_work_cached (s : social_graph) (ib : buffer_name) :
  m_isInitialized s = true →
  inactive_buffer (m_userBuffer s) = Some ib →
  pending_of ib s ≠ [] →
  do_event_work s
  = s1 ← for_each (replay_step ib) (pending_of ib s) (set_state event_processing s);
    Some (true, set_state normal s1).
Proof.
  intros Hi Hib Hp. unfold do_event_work. simpl. rewrite Hi, Hib. simpl.
  unfold pending_of, buffer_of in Hp. unfold buffer_of at 1. simpl.
  rewrite bool_decide_eq_false_2 by done. simpl.
  unfold process_cached_events. simpl. rewrite Hib.
  rewrite drain_cached_events_enough_fuel by done.
  unfold pending_of, buffer_of. simpl.
  by destruct (for_each _ _ _).
Qed.

End twice.

Section reported_twice.
Context `{!Collaborators}.

Lemma deref_swap (b : buffer_name) (h : user_buffers_holder.t) :
  deref b (swap h) = deref b h.
Proof. unfold swap. case_decide; by destruct b. Qed.

Lemma applications_resolution (evt : internal_social_event) :
  omap application_of (resolution_of evt) = [].
Proof. unfold resolution_of. by destruct (isNull _). Qed.

(** C10.  A failed fetch is reported twice.  Take an initialised core whose
    two buffers have no pending events and whose main queue starts with a
    [users_changed] event carrying an error.  The worker applies the event as
    a fresh one and caches it on the active buffer; the next frame hands the
    application the [users_added_to_social_graph] error event and swaps; the
    worker then replays the cached event, and the frame after that hands the
    application the same error event a second time.  The completion event of
    the request is set twice as well. *)
Theorem failed_fetch_is_reported_twice
    (s : social_graph) (evt : internal_social_event)
    (rest : list internal_social_event) (a b : buffer_name) :
  m_isInitialized s = true →
  active_buffer (m_userBuffer s) = Some a →
  inactive_buffer (m_userBuffer s) = Some b →
  a ≠ b →
  pending_of a s = [] →
  pending_of b s = [] →
  m_internalEventQueue s = evt :: rest →
  m_numEventsThisFrame s < NUM_EVENTS_PER_FRAME →
  event_type evt = users_changed →
  err (error evt) ≠ no_error →
  ∃ s1 s2 s3 s4,
    do_event_work s = Some (true, s1)
    ∧ pending_of a s1 = [evt]
    ∧ frame s1
      = (public_events s ++ [public_event_of evt users_added_to_social_graph (error evt)],
         s2)
    ∧ do_event_work s2 = Some (true, s3)
    ∧ frame s3 = ([public_event_of evt users_added_to_social_graph (error evt)], s4)
    ∧ applications s4 = applications s ++ [(evt, true); (evt, false)]
    ∧ outbound_calls s4 = outbound_calls s ++ resolution_of evt ++ resolution_of evt.
Proof.
  intros Hi Ha Hb Hab Hpa Hpb Hq Hc Ht He.
  (* the fresh application *)
  rewrite (do_event_work_fresh s b Hi Hb Hpb).
  rewrite (process_events_eq _ evt rest) by done.
  set (sA := set_internalEventQueue rest _).
  destruct (apply_event_failed_fetch evt true sA b Hb Ht He)
    as (sB & EB & HBb & _ & HBp & HBc).
  pose proof (apply_event_frame _ _ _ _ EB) as (HB1 & HB2 & _ & _ & _ & _ & _ & _ & _).
  rewrite EB. simpl.
  assert (add_event evt (m_userBuffer sB)
          = Some (store a (set_socialUserEventQueue [evt] (deref a (m_userBuffer s)))
                    (m_userBuffer s))) as ->.
  { rewrite HBb. unfold add_event. simpl. unfold active_buffer in Ha. rewrite Ha. simpl.
    unfold pending_of, buffer_of in Hpa. by rewrite Hpa. }
  simpl.
  set (h1 := store a _ _).
  set (s1 := set_userBuffer h1 sB).
  assert (pending_of a s1 = [evt]) as Hs1a.
  { unfold pending_of, buffer_of, s1, h1. simpl. by rewrite deref_store_eq. }
  assert (pending_of b s1 = []) as Hs1b.
  { unfold pending_of, buffer_of, s1, h1. simpl. by rewrite deref_store_ne. }
  assert (m_socialGraphState s1 = normal) as Hs1n.
  { change (m_socialGraphState sB = normal). by rewrite HB2. }
  (* the first frame *)
  pose proof (frame_spec s1) as (F1 & F2 & F3 & F4 & F5 & F6 & F7 & F8).
  rewrite Hs1n in F1, F2, F3.
  rewrite bool_decide_eq_true_2 in F1, F2, F3 by done.
  assert (inactive_buffer (m_userBuffer s1) = Some b) as Hs1i.
  { unfold s1, h1. simpl. unfold inactive_buffer. by rewrite inactive_store. }
  rewrite Hs1i, Hs1b in F2. simpl in F2.
  set (s2 := (frame s1).2) in *.
  assert (inactive_buffer (m_userBuffer s2) = Some a) as Hs2i.
  { rewrite F2. apply swap_inactive_is_old_active. unfold s1, h1. simpl.
    by rewrite active_store. }
  assert (pending_of a s2 = [evt]) as Hs2a.
  { unfold pending_of, buffer_of. rewrite F2, deref_swap. exact Hs1a. }
  (* the replay *)
  assert (m_isInitialized s2 = true) as Hs2init.
  { rewrite F4. unfold s1. simpl. by rewrite HB1. }
  pose proof (do_event_work_cached s2 a Hs2init Hs2i) as ER.
  rewrite Hs2a in ER. specialize (ER ltac:(done)).
  simpl in ER. unfold replay_step in ER.
  set (sC := set_buffer a _ _) in ER.
  assert (inactive_buffer (m_userBuffer sC) = Some a) as HCi.
  { unfold sC, set_buffer. simpl. unfold inactive_buffer. by rewrite inactive_store. }
  destruct (apply_event_failed_fetch evt false sC a HCi Ht He)
    as (sD & ED & HDb & _ & HDp & HDc).
  pose proof (apply_event_frame _ _ _ _ ED) as (_ & HD2 & _ & _ & _ & _ & _ & _ & _).
  rewrite ED in ER. simpl in ER.
  set (s3 := set_state normal sD) in *.
  (* the second frame *)
  pose proof (frame_spec s3) as (G1 & _ & _ & _ & _ & _ & _ & G8).
  simpl in G1.
  exists s1, s2, s3, (frame s3).2. split_and!; try done.
  - rewrite (surjective_pairing (frame s1)). f_equal. rewrite F1.
    unfold s1. change (public_events (set_userBuffer h1 sB)) with (public_events sB).
    by rewrite HBp.
  - rewrite (surjective_pairing (frame s3)). f_equal. rewrite G1.
    change (public_events s3) with (public_events sD). rewrite HDp.
    change (public_events sC) with (public_events s2). by rewrite F3.
  - unfold applications. rewrite G8.
    change (calls s3) with (calls sD). rewrite HDc.
    change (calls sC) with (calls s2). rewrite F8.
    change (calls s1) with (calls sB). rewrite HBc.
    change (calls sA) with (calls s).
    rewrite !omap_app. simpl. rewrite !applications_resolution.
    by rewrite <- !app_assoc.
  - unfold outbound_calls. rewrite G8.
    change (calls s3) with (calls sD). rewrite HDc.
    change (calls sC) with (calls s2). rewrite F8.
    change (calls s1) with (calls sB). rewrite HBc.
    change (calls sA) with (calls s).
    rewrite !filter_app, !filter_cons_False by done. rewrite !outbound_resolution.
    by rewrite <- !app_assoc.
Qed.

End reported_twice.

(** ** The per-frame bound *)

Section per_frame.
Context `{!Collaborators}.

(** C5 (as amended).  Between two consecutive returns of [do_work] at most
    five events are applied as fresh events, whatever the worker, the
    application and the refresh do in between: [do_work] leaves the counter
    of the worker at 0, nothing else lowers it, it never exceeds
    [NUM_EVENTS_PER_FRAME] = 5, and the number of fresh applications since
    the return of [do_work] is the value of the counter.  (Replays of cached
    events are not counted.) *)
Theorem fresh_events_bounded_per_frame
    (socialEvents : list social_event) (s0 : social_graph)
    (ops : list operation) (s' : social_graph) :
  run_operations ops (do_work socialEvents s0).2 = Some s' →
  m_numEventsThisFrame (do_work socialEvents s0).2 = 0
  ∧ m_numEventsThisFrame s' ≤ NUM_EVENTS_PER_FRAME
  ∧ (length (fresh_applications s')
     = length (fresh_applications s0) + N.to_nat (m_numEventsThisFrame s'))%nat
  ∧ (length (fresh_applications s') ≤ length (fresh_applications s0) + 5)%nat.
Proof.
  set (s := (do_work socialEvents s0).2).
  assert (m_numEventsThisFrame s = 0 ∧ calls s = calls s0) as [Hc Hcalls].
  { unfold s, do_work.
    repeat (match goal with |- context [if ?c then _ else _] => destruct c end); done. }
  intros Hrun. split; [done|].
  assert (m_numEventsThisFrame s' ≤ NUM_EVENTS_PER_FRAME
          ∧ (length (fresh_applications s')
             = length (fresh_applications s) + N.to_nat (m_numEventsThisFrame s'))%nat)
    as [Hle Hlen].
  { revert Hrun. unfold run_operations.
    apply (for_each_invariant
             (λ x, m_numEventsThisFrame x ≤ NUM_EVENTS_PER_FRAME
                   ∧ (length (fresh_applications x)
                      = length (fresh_applications s)
                        + N.to_nat (m_numEventsThisFrame x))%nat)).
    - intros o x x' _ [Hx1 Hx2] Hstep.
      destruct (run_operation_counter o x x' Hstep Hx1) as (_ & Hy1 & Hy2).
      split; [done|lia].
    - rewrite Hc. unfold NUM_EVENTS_PER_FRAME. split; [lia|simpl; lia]. }
  assert (fresh_applications s = fresh_applications s0) as Hf.
  { unfold fresh_applications, applications. by rewrite Hcalls. }
  rewrite Hf in Hlen. unfold NUM_EVENTS_PER_FRAME in *. split_and!; [done|done|lia].
Qed.

End per_frame.

(** ** Device presence *)

Lemma read_assign_slot (p : slot_ptr) (u : xbox_social_user) (ub ub' : user_buffer) :
  assign_slot p u ub = Some ub' →
  read_slot p ub' = Some u
  ∧ socialUserGraph ub' = socialUserGraph ub
  ∧ freeData ub' = freeData ub
  ∧ buffer ub' = buffer ub.
Proof.
  unfold assign_slot, read_slot. intros E.
  destruct (slabs ub !! block p) as [l|] eqn:Hl; simpl in E; [|done].
  destruct (l !! slot p) as [o|] eqn:Ho; simpl in E; [|done].
  destruct o; simpl in E; [|done]. simplify_eq. simpl.
  rewrite lookup_insert_eq. simpl.
  rewrite list_lookup_insert_eq by (by eapply lookup_lt_Some). done.
Qed.

Lemma assign_slot_is_Some (p : slot_ptr) (u v : xbox_social_user) (ub : user_buffer) :
  read_slot p ub = Some v → is_Some (assign_slot p u ub).
Proof.
  unfold assign_slot. intros E. rewrite E.
  unfold read_slot in E. destruct (slabs ub !! block p); simpl in *; [|done]. eauto.
Qed.

Section device_presence.
Context `{!Collaborators}.

(** C7 (as amended).  A [device_presence_changed] event for a user whose
    slot in the inactive buffer holds a user.  If the user has more than one
    title record or the event reports the user logged on, the buffers are
    left as they are, no public event is queued, and a fresh event fires the
    presence refresh timer for that user (a replayed one calls nobody).
    Otherwise the presence record in the slot is replaced by its
    [_Update_device] image, no timer is fired, and a fresh event queues one
    public [presence_changed] event; a replayed event queues none. *)
Theorem device_presence_change_fires_or_updates
    (evt : internal_social_event) (isFreshEvent : bool) (s : social_graph)
    (ib : buffer_name) (ctx : xbox_social_user_context) (p : slot_ptr)
    (user : xbox_social_user) :
  inactive_buffer (m_userBuffer s) = Some ib →
  event_type evt = device_presence_changed →
  graph_of ib s !! string_t_to_uint64 (dp_xbox_user_id (device_presence_args evt))
    = Some ctx →
  socialUser ctx = Some p →
  read_slot p (buffer_of ib s) = Some user →
  ∃ s', apply_event evt isFreshEvent s = Some s'
    ∧ if bool_decide (1 < length (presence_title_records (presence_record user)))%nat
         || dp_is_user_logged_on_device (device_presence_args evt)
      then
        m_userBuffer s' = m_userBuffer s
        ∧ public_events s' = public_events s
        ∧ outbound_calls s'
          = outbound_calls s
            ++ (if isFreshEvent
                then [timer_fire m_presenceRefreshTimer
                        [dp_xbox_user_id (device_presence_args evt)]
                        null_completion_context]
                else [])
      else
        read_slot p (buffer_of ib s')
        = Some (_Set_presence_record
                  (_Update_device (dp_device_type (device_presence_args evt))
                     (dp_is_user_logged_on_device (device_presence_args evt))
                     (presence_record user)) user)
        ∧ graph_of ib s' = graph_of ib s
        ∧ public_events s'
          = public_events s
            ++ (if isFreshEvent
                then [public_event_of evt public_presence_changed result_success]
                else [])
        ∧ outbound_calls s' = outbound_calls s.
Proof.
  intros Hib Ht Hg Hp Hr. unfold apply_event.
  set (s0 := record_call (enter_apply_event evt isFreshEvent) s).
  assert (inactive_buffer (m_userBuffer s0) = Some ib) as -> by done.
  assert (outbound_calls s0 = outbound_calls s) as Ho.
  { unfold outbound_calls, s0. simpl. rewrite filter_app, filter_cons_False by done.
    by rewrite filter_nil, app_nil_r. }
  rewrite Ht. unfold apply_device_presence_changed_event.
  assert (inactive_buffer (m_userBuffer s0) = Some ib) as -> by done.
  simpl. change (buffer_of ib s0) with (buffer_of ib s).
  unfold graph_of in Hg. rewrite Hg, Hp. rewrite Hr. simpl.
  destruct (bool_decide _ || _) eqn:Hfire; simpl.
  - destruct isFreshEvent; simpl.
    + rewrite push_unknown_id. eexists. split; [done|]. split_and!; try done.
      erewrite (outbound_calls_app s); [|simpl; by rewrite <- app_assoc].
      simpl. rewrite filter_cons_False by done. by rewrite filter_cons_True.
    + eexists. split; [done|]. split_and!; try done. by rewrite app_nil_r.
  - destruct (assign_slot_is_Some p
                (_Set_presence_record
                   (_Update_device (dp_device_type (device_presence_args evt))
                      (dp_is_user_logged_on_device (device_presence_args evt))
                      (presence_record user)) user) user (buffer_of ib s) Hr)
      as [ub Hub].
    rewrite Hub. simpl.
    apply read_assign_slot in Hub as (Hu1 & Hu2 & _).
    eexists. split; [done|].
    destruct isFreshEvent.
    + rewrite public_events_push by done. unfold graph_of.
      change (buffer_of ib (push_social_event evt public_presence_changed result_success
                              (set_buffer ib ub s0)))
        with (buffer_of ib (set_buffer ib ub s0)).
      rewrite buffer_of_set_buffer_eq. done.
    + unfold graph_of. rewrite buffer_of_set_buffer_eq. split_and!; try done.
      by rewrite app_nil_r.
Qed.

End device_presence.

(** ** The refresh diff *)

Section refresh_diff.
Context `{!Collaborators}.

Lemma diff_scan_current_added (ub : user_buffer) (l : list (N * xbox_social_user))
    (a0 : list xbox_social_user) (b0 : list social_manager_presence_record)
    (c0 d0 : list xbox_social_user) :
  (∀ kv ctx, kv ∈ l → socialUserGraph ub !! kv.1 = Some ctx →
             ∃ p, socialUser ctx = Some p ∧ is_Some (read_slot p ub)) →
  ∃ b c d,
    for_each (diff_current_step ub) l (a0, b0, c0, d0)
    = Some (a0 ++ (snd <$> filter (λ kv, socialUserGraph ub !! kv.1 = None) l), b, c, d).
Proof.
  revert a0 b0 c0 d0. induction l as [|kv l IH]; intros a0 b0 c0 d0 Hl; simpl.
  - exists b0, c0, d0. by rewrite app_nil_r.
  - destruct (socialUserGraph ub !! kv.1) as [ctx|] eqn:Hg.
    + destruct (Hl kv ctx ltac:(left) Hg) as (p & Hp & [u Hu]).
      rewrite Hp. simpl. rewrite Hu. simpl.
      rewrite filter_cons_False by (rewrite Hg; done).
      apply IH. intros kv' ctx' Hin. apply Hl. by right.
    + simpl. rewrite filter_cons_True by done. simpl.
      destruct (IH (a0 ++ [kv.2]) b0 c0 d0) as (b & c & d & E).
      { intros kv' ctx' Hin. apply Hl. by right. }
      exists b, c, d. rewrite E. by rewrite <- app_assoc.
Qed.

Lemma diff_scan_previous_removed (ub : user_buffer) (fetched : gmap N xbox_social_user)
    (l : list (N * xbox_social_user_context)) (r0 : list N) :
  (∀ kv p, kv ∈ l → socialUser kv.2 = Some p → is_Some (read_slot p ub)) →
  for_each (diff_previous_step ub fetched) l r0
  = Some (r0 ++ (fst <$> filter (λ kv, followed_and_vanished ub fetched kv = true) l)).
Proof.
  revert r0. induction l as [|kv l IH]; intros r0 Hl; simpl.
  - by rewrite app_nil_r.
  - assert (∀ kv' p, kv' ∈ l → socialUser kv'.2 = Some p → is_Some (read_slot p ub))
      as Hl' by (intros kv' p' Hin; apply Hl; by right).
    cbn [for_each].
    assert (diff_previous_step ub fetched kv r0
            = Some (if followed_and_vanished ub fetched kv then r0 ++ [kv.1] else r0))
      as ->.
    { unfold diff_previous_step, followed_and_vanished.
      destruct (fetched !! kv.1); [done|].
      destruct (socialUser kv.2) as [p|] eqn:Hp; [|done].
      destruct (Hl kv p ltac:(left) Hp) as [u ->]. simpl.
      by destruct (is_following_user u). }
    simpl. rewrite IH by done.
    destruct (followed_and_vanished ub fetched kv) eqn:Hv.
    + rewrite filter_cons_True by done. simpl. by rewrite <- app_assoc.
    + rewrite filter_cons_False by (rewrite Hv; done). done.
Qed.

Lemma perform_diff_events (fetched : gmap N xbox_social_user) (s : social_graph)
    (ib : buffer_name) :
  inactive_buffer (m_userBuffer s) = Some ib →
  (∀ id ctx, graph_of ib s !! id = Some ctx → is_Some (fetched !! id) →
             is_Some (socialUser ctx)) →
  (∀ id ctx p, graph_of ib s !! id = Some ctx → socialUser ctx = Some p →
               is_Some (read_slot p (buffer_of ib s))) →
  ∃ s' presenceChangeList profileChangeList socialRelationshipChangeList,
    perform_diff fetched s = Some s'
    ∧ m_userBuffer s' = m_userBuffer s
    ∧ m_socialGraphState s' = normal
    ∧ m_internalEventQueue s'
      = m_internalEventQueue s
        ++ diff_events
             (snd <$> filter (λ kv, graph_of ib s !! kv.1 = None) (map_to_list fetched))
             (fst <$> filter (λ kv, followed_and_vanished (buffer_of ib s) fetched kv = true)
                        (map_to_list (graph_of ib s)))
             presenceChangeList profileChangeList socialRelationshipChangeList.
Proof.
  intros Hib H1 H2. unfold perform_diff. rewrite Hib.
  change (buffer_of ib (set_state diff s)) with (buffer_of ib s).
  unfold diff_scan_current, diff_scan_previous.
  destruct (diff_scan_current_added (buffer_of ib s) (map_to_list fetched) [] [] [] [])
    as (b & c & d & ->).
  { intros [id u] ctx Hin Hg. simpl in *. apply elem_of_map_to_list in Hin.
    destruct (H1 id ctx Hg) as [p Hp]; [by eauto|].
    exists p. split; [done|]. by eapply H2. }
  simpl. rewrite diff_scan_previous_removed.
  2:{ intros [id ctx] p Hin Hp. simpl in *. apply elem_of_map_to_list in Hin.
      by eapply H2. }
  simpl. eexists _, b, c, d. split; [done|].
  unfold diff_events, push_if, graph_of.
  repeat (match goal with |- context [bool_decide ?P] => destruct (bool_decide P) end);
    simpl; rewrite <- ?app_assoc, ?app_nil_r; done.
Qed.

(** The diff, where it is defined.  [perform_diff] on a core whose inactive
    buffer holds a readable user for every tracked id that the fetch
    returned (and no dangling slot) appends to the main queue a list of
    events in which: the users carried by
    [users_changed] events are exactly the fetched users whose id is not in
    the graph of the inactive buffer, the ids carried by [users_removed]
    events are exactly the ids of that graph that were not fetched and whose
    slot holds a user with [is_following_user], and there is at most one
    event of either kind. *)
Theorem perform_diff_enqueues_added_and_removed
    (fetched : gmap N xbox_social_user) (s : social_graph) (ib : buffer_name) :
  inactive_buffer (m_userBuffer s) = Some ib →
  (∀ id ctx, graph_of ib s !! id = Some ctx → is_Some (fetched !! id) →
             is_Some (socialUser ctx)) →
  (∀ id ctx p, graph_of ib s !! id = Some ctx → socialUser ctx = Some p →
               is_Some (read_slot p (buffer_of ib s))) →
  ∃ s' evs,
    perform_diff fetched s = Some s'
    ∧ m_internalEventQueue s' = m_internalEventQueue s ++ evs
    ∧ (∀ u, (∃ e, e ∈ evs ∧ event_type e = users_changed ∧ u ∈ users_affected e)
            ↔ (∃ id, fetched !! id = Some u ∧ graph_of ib s !! id = None))
    ∧ (∀ id, (∃ e, e ∈ evs ∧ event_type e = users_removed ∧ id ∈ users_to_remove e)
             ↔ (fetched !! id = None
                ∧ ∃ ctx p u, graph_of ib s !! id = Some ctx
                             ∧ socialUser ctx = Some p
                             ∧ read_slot p (buffer_of ib s) = Some u
                             ∧ is_following_user u = true))
    ∧ (length (filter (λ e, event_type e = users_changed) evs) ≤ 1)%nat
    ∧ (length (filter (λ e, event_type e = users_removed) evs) ≤ 1)%nat.
Proof.
  intros Hib H1 H2.
  destruct (perform_diff_events fetched s ib Hib H1 H2) as (s' & b & c & d & E & _ & _ & Hq).
  eexists s', _. split; [exact E|]. split; [exact Hq|].
  set (added := snd <$> filter _ (map_to_list fetched)).
  set (removed := fst <$> filter _ (map_to_list (graph_of ib s))).
  assert (∀ u, u ∈ added ↔ ∃ id, fetched !! id = Some u ∧ graph_of ib s !! id = None)
    as Hadded.
  { intros u. unfold added. rewrite list_elem_of_fmap. split.
    - intros ([id u'] & -> & Hin). apply list_elem_of_filter in Hin as [Hn Hin].
      apply elem_of_map_to_list in Hin. by exists id.
    - intros (id & Hf & Hg). exists (id, u). split; [done|].
      apply list_elem_of_filter. split; [done|]. by apply elem_of_map_to_list. }
  assert (∀ id, id ∈ removed
                ↔ fetched !! id = None
                  ∧ ∃ ctx p u, graph_of ib s !! id = Some ctx
                               ∧ socialUser ctx = Some p
                               ∧ read_slot p (buffer_of ib s) = Some u
                               ∧ is_following_user u = true) as Hremoved.
  { intros id. unfold removed. rewrite list_elem_of_fmap. split.
    - intros ([id' ctx] & -> & Hin). apply list_elem_of_filter in Hin as [Hv Hin].
      apply elem_of_map_to_list in Hin. unfold followed_and_vanished in Hv. simpl in *.
      destruct (fetched !! id'); [done|]. split; [done|].
      destruct (socialUser ctx) as [p|] eqn:Hp; [|done].
      destruct (read_slot p _) as [u|] eqn:Hu; [|done]. by exists ctx, p, u.
    - intros (Hf & ctx & p & u & Hg & Hp & Hu & Hfu). exists (id, ctx). split; [done|].
      apply list_elem_of_filter. split; [|by apply elem_of_map_to_list].
      unfold followed_and_vanished. simpl. by rewrite Hf, Hp, Hu. }
  clearbody added removed. unfold diff_events.
  split_and!.
  - intros u. rewrite <- Hadded. split.
    + intros (e & He & Het & Hu).
      repeat (match goal with
              | H : context [bool_decide ?P] |- _ => destruct (bool_decide P)
              end);
        set_unfold; destruct_or?; simplify_eq; try done.
    + intros Hu. exists (event_of_users users_changed added null_completion_context).
      rewrite bool_decide_eq_true_2
        by (destruct added; [by apply elem_of_nil in Hu|simpl; lia]).
      split_and!; [apply list_elem_of_here|done|done].
  - intros id. rewrite <- Hremoved. split.
    + intros (e & He & Het & Hu).
      repeat (match goal with
              | H : context [bool_decide ?P] |- _ => destruct (bool_decide P)
              end);
        set_unfold; destruct_or?; simplify_eq; try done.
    + intros Hu. exists (event_of_ids users_removed removed).
      rewrite (bool_decide_eq_true_2 (0 < length removed)%nat)
        by (destruct removed; [by apply elem_of_nil in Hu|simpl; lia]).
      split_and!; [|done|done].
      destruct (bool_decide _); [right|]; apply list_elem_of_here.
  - repeat (match goal with |- context [bool_decide ?P] => destruct (bool_decide P) end);
      simpl; repeat (rewrite ?filter_cons_True, ?filter_cons_False, ?filter_nil by done);
      simpl; lia.
  - repeat (match goal with |- context [bool_decide ?P] => destruct (bool_decide P) end);
      simpl; repeat (rewrite ?filter_cons_True, ?filter_cons_False, ?filter_nil by done);
      simpl; lia.
Qed.

(** A loop whose body has no defined result at one of the elements has
    none itself. *)
Lemma for_each_undefined {A B : Type} (body : B → A → option A) (l : list B)
    (x : B) (a : A) :
  x ∈ l → (∀ a, body x a = None) → for_each body l a = None.
Proof.
  intros Hx Hbody. revert a. induction l as [|y l IH]; intros a.
  - by apply elem_of_nil in Hx.
  - simpl. apply elem_of_cons in Hx as [->|Hx].
    + by rewrite Hbody.
    + destruct (body y a) as [a'|]; [|done]. simpl. by apply IH.
Qed.

(** The diff, where it is not.  The first loop of [perform_diff] reads the
    stored user of every fetched id that is in the graph of the inactive
    buffer, without the check for an empty slot that the second loop makes:
    when the fetch returns an id whose slot is empty, the diff dereferences
    a null pointer and has no result. *)
Lemma perform_diff_undefined_on_empty_slot
    (fetched : gmap N xbox_social_user) (s : social_graph) (ib : buffer_name)
    (id : N) (u : xbox_social_user) (ctx : xbox_social_user_context) :
  inactive_buffer (m_userBuffer s) = Some ib →
  fetched !! id = Some u →
  graph_of ib s !! id = Some ctx →
  socialUser ctx = None →
  perform_diff fetched s = None.
Proof.
  intros Hib Hf Hg Hp. unfold perform_diff. rewrite Hib. cbv zeta.
  change (buffer_of ib (set_state diff s)) with (buffer_of ib s).
  unfold diff_scan_current.
  rewrite (for_each_undefined (diff_current_step (buffer_of ib s))
             (map_to_list fetched) (id, u)); [done| |].
  - by apply elem_of_map_to_list.
  - intros [[[a b] c] d]. unfold diff_current_step. simpl.
    unfold graph_of in Hg. rewrite Hg. simpl. by rewrite Hp.
Qed.

End refresh_diff.

(** ** Reference counts *)

Lemma graph_remove_users_from_buffer (users : list N) (ub : user_buffer) (k : N) :
  socialUserGraph (remove_users_from_buffer users ub) !! k
  = if decide (k ∈ users) then None else socialUserGraph ub !! k.
Proof.
  unfold remove_users_from_buffer. revert ub.
  induction users as [|u users IH]; intros ub.
  - destruct (decide (k ∈ [])) as [Hin|]; [by apply elem_of_nil in Hin|done].
  - simpl. rewrite IH. unfold remove_user_from_buffer.
    destruct (decide (k ∈ users)) as [Hin|Hin].
    + rewrite decide_True by (by right). done.
    + destruct (decide (k = u)) as [->|Hne].
      * rewrite decide_True by left.
        destruct (socialUserGraph ub !! u) eqn:E; simpl; [by rewrite lookup_delete_eq|done].
      * rewrite decide_False by (intros [?|?]%elem_of_cons; done).
        destruct (socialUserGraph ub !! u); simpl; [by rewrite lookup_delete_ne|done].
Qed.

Section reference_counts.
Context `{!Collaborators}.

(** The two loops of [apply_users_added_event], seen from one id. *)
Lemma users_added_scan_snoc (g : gmap N xbox_social_user_context)
    (users : list string) (user : string) :
  users_added_scan g (users ++ [user])
  = let '(g', usersToAdd) := users_added_scan g users in
    match g' !! string_t_to_uint64 user with
    | Some ctx =>
        (<[string_t_to_uint64 user :=
             {| socialUser := socialUser ctx; refCount := incr32 (refCount ctx) |}]> g',
         usersToAdd)
    | None => (g', usersToAdd ++ [user])
    end.
Proof. unfold users_added_scan. rewrite foldl_app. simpl. by destruct (foldl _ _ _). Qed.

Lemma users_added_scan_lookup (g : gmap N xbox_social_user_context) (users : list string) :
  NoDup (string_t_to_uint64 <$> users) →
  (∀ k, (users_added_scan g users).1 !! k
        = if decide (k ∈ string_t_to_uint64 <$> users)
          then (λ ctx, {| socialUser := socialUser ctx;
                          refCount := incr32 (refCount ctx) |}) <$> g !! k
          else g !! k)
  ∧ (∀ u, u ∈ (users_added_scan g users).2
          ↔ u ∈ users ∧ g !! string_t_to_uint64 u = None).
Proof.
  induction users as [|user users IH] using rev_ind; intros Hnd.
  - split.
    + intros k. destruct (decide (k ∈ _)) as [Hin|]; [by apply elem_of_nil in Hin|done].
    + intros u. simpl. split; [by intros ?%elem_of_nil|by intros [?%elem_of_nil _]].
  - rewrite fmap_app in Hnd. apply NoDup_app in Hnd as (Hnd & Hfresh & _).
    destruct (IH Hnd) as [IH1 IH2]. clear IH.
    assert (string_t_to_uint64 user ∉ string_t_to_uint64 <$> users) as Hu.
    { intros Hin. apply (Hfresh _ Hin). simpl. left. }
    rewrite users_added_scan_snoc.
    destruct (users_added_scan g users) as [g' toAdd]. simpl in *.
    pose proof (IH1 (string_t_to_uint64 user)) as Hgu. rewrite decide_False in Hgu by done.
    rewrite Hgu. destruct (g !! string_t_to_uint64 user) as [ctx|] eqn:Hctx; simpl; split.
    + intros k. rewrite fmap_app. simpl.
      destruct (decide (k = string_t_to_uint64 user)) as [->|Hne].
      * rewrite lookup_insert_eq, decide_True by (apply elem_of_app; right; left).
        by rewrite Hctx.
      * rewrite lookup_insert_ne by done. rewrite IH1.
        destruct (decide (k ∈ string_t_to_uint64 <$> users)) as [Hin|Hin].
        -- by rewrite decide_True by (apply elem_of_app; by left).
        -- rewrite decide_False; [done|].
           intros [?|?%list_elem_of_singleton]%elem_of_app; done.
    + intros u. rewrite IH2, elem_of_app, list_elem_of_singleton. split.
      * intros [Hin Hn]. split; [by left|done].
      * intros [[Hin| ->] Hn]; [done|congruence].
    + intros k. rewrite fmap_app. simpl. rewrite IH1.
      destruct (decide (k = string_t_to_uint64 user)) as [->|Hne].
      * rewrite decide_False by done.
        rewrite decide_True by (apply elem_of_app; right; left). by rewrite Hctx.
      * destruct (decide (k ∈ string_t_to_uint64 <$> users)) as [Hin|Hin].
        -- by rewrite decide_True by (apply elem_of_app; by left).
        -- rewrite decide_False; [done|].
           intros [?|?%list_elem_of_singleton]%elem_of_app; done.
    + intros u. rewrite !elem_of_app, IH2, list_elem_of_singleton. split.
      * intros [[Hin Hn]| ->]; (split; [by eauto|done]).
      * intros [[Hin| ->] Hn]; by eauto.
Qed.

Lemma users_added_insert_lookup (g : gmap N xbox_social_user_context)
    (usersToAdd : list string) (k : N) :
  users_added_insert g usersToAdd !! k
  = if decide (k ∈ string_t_to_uint64 <$> usersToAdd)
    then Some {| socialUser := None; refCount := 1 |}
    else g !! k.
Proof.
  unfold users_added_insert.
  induction usersToAdd as [|user users IH] using rev_ind.
  - destruct (decide (k ∈ _)) as [Hin|]; [by apply elem_of_nil in Hin|done].
  - rewrite foldl_app, fmap_app. simpl.
    destruct (decide (k = string_t_to_uint64 user)) as [->|Hne].
    + rewrite lookup_insert_eq. by rewrite decide_True by (apply elem_of_app; right; left).
    + rewrite lookup_insert_ne by done. rewrite IH.
      destruct (decide (k ∈ string_t_to_uint64 <$> users)) as [Hin|Hin].
      * by rewrite decide_True by (apply elem_of_app; by left).
      * rewrite decide_False; [done|].
        intros [?|?%list_elem_of_singleton]%elem_of_app; done.
Qed.

(** The graph after [apply_users_added_event]. *)
Lemma graph_after_users_added (evt : internal_social_event) (ib : buffer_name)
    (f : bool) (s : social_graph) (k : N) :
  NoDup (ids_added evt) →
  graph_of ib (apply_users_added_event evt ib f s) !! k
  = if decide (k ∈ ids_added evt) then after_add (graph_of ib s !! k)
    else graph_of ib s !! k.
Proof.
  intros Hnd. unfold apply_users_added_event, ids_added in *.
  destruct (users_added_scan_lookup (socialUserGraph (buffer_of ib s))
              (users_affected_as_string_vec evt) Hnd) as [H1 H2].
  destruct (users_added_scan _ _) as [g toAdd] eqn:Hscan. simpl in H1, H2.
  assert (∀ s0 : social_graph,
            buffer_of ib s0 = set_socialUserGraph g (buffer_of ib s) →
            graph_of ib (set_buffer ib
                           (set_socialUserGraph
                              (users_added_insert (socialUserGraph (buffer_of ib s0)) toAdd)
                              (buffer_of ib s0)) s0) !! k
            = if decide (k ∈ string_t_to_uint64 <$> users_affected_as_string_vec evt)
              then after_add (graph_of ib s !! k)
              else graph_of ib s !! k) as Hfinal.
  { intros s0 Hs0. unfold graph_of. rewrite buffer_of_set_buffer_eq. simpl.
    rewrite users_added_insert_lookup, Hs0. simpl. rewrite H1.
    destruct (decide (k ∈ string_t_to_uint64 <$> toAdd)) as [Hin|Hin].
    - apply list_elem_of_fmap in Hin as (u & -> & Hu). apply H2 in Hu as [Hu Hn].
      rewrite decide_True by (apply list_elem_of_fmap; eauto). by rewrite Hn.
    - destruct (decide (k ∈ _)) as [Hk|Hk]; [|done].
      destruct (socialUserGraph (buffer_of ib s) !! k) eqn:Hg; [done|].
      exfalso. apply Hin. apply list_elem_of_fmap in Hk as (u & -> & Hu).
      apply list_elem_of_fmap. exists u. split; [done|]. by apply H2. }
  destruct toAdd as [|u toAdd].
  - unfold graph_of. change (buffer_of ib (record_call _ ?x)) with (buffer_of ib x).
    rewrite buffer_of_set_buffer_eq. simpl. rewrite H1.
    destruct (decide (k ∈ _)) as [Hk|Hk]; [|done].
    destruct (socialUserGraph (buffer_of ib s) !! k) eqn:Hg; [done|].
    exfalso. apply list_elem_of_fmap in Hk as (u & -> & Hu).
    assert (u ∈ []) as Hnil by (by apply H2). by apply elem_of_nil in Hnil.
  - destruct f; apply Hfinal; unfold buffer_of; simpl; apply deref_store_eq.
Qed.

Lemma users_removed_step_lookup (ids : list N) (g : gmap N xbox_social_user_context)
    (t : social_event_type) :
  NoDup ids →
  ∀ g' rem t',
    foldl users_removed_step (g, [], t) ids = (g', rem, t') →
    (∀ k, k ∈ rem → k ∈ ids)
    ∧ (∀ k, (if decide (k ∈ rem) then None else g' !! k)
            = if decide (k ∈ ids) then after_remove (g !! k) else g !! k).
Proof.
  induction ids as [|id ids IH] using rev_ind; intros Hnd g2 rem2 t2 Hfold2.
  - simpl in Hfold2. simplify_eq. split; [done|]. intros k.
    destruct (decide (k ∈ [])) as [Hin|]; [by apply elem_of_nil in Hin|done].
  - apply NoDup_app in Hnd as (Hnd & Hfresh & _).
    assert (id ∉ ids) as Hid by (intros Hin; apply (Hfresh _ Hin); left).
    rewrite foldl_app in Hfold2. simpl in Hfold2.
    destruct (foldl users_removed_step (g, [], t) ids) as [[g' rem] t'] eqn:Hfold.
    destruct (IH Hnd g' rem t' eq_refl) as [IH1 IH2]. clear IH.
    assert (id ∉ rem) as Hrem by (intros Hin; by apply Hid, IH1).
    pose proof (IH2 id) as Hgid. rewrite !decide_False in Hgid by done.
    unfold users_removed_step in Hfold2. rewrite Hgid in Hfold2.
    set (ctx := default default_context (g !! id)) in *.
    assert (∀ k, k ≠ id →
              (if decide (k ∈ ids ++ [id]) then after_remove (g !! k) else g !! k)
              = (if decide (k ∈ rem) then None else g' !! k)) as Hother.
    { intros k Hne. rewrite IH2.
      destruct (decide (k ∈ ids)) as [Hin|Hin].
      - by rewrite decide_True by (apply elem_of_app; by left).
      - rewrite decide_False; [done|].
        intros [?|?%list_elem_of_singleton]%elem_of_app; done. }
    assert ((if decide (id ∈ ids ++ [id]) then after_remove (g !! id) else g !! id)
            = after_remove (g !! id)) as Hself.
    { by rewrite decide_True by (apply elem_of_app; right; left). }
    simpl in Hfold2.
    destruct (decide (decr32 (refCount ctx) = 0)) as [Hzero|Hzero].
    + destruct (socialUser ctx) as [p|] eqn:Hp; simplify_eq.
      * split.
        { intros k [Hk|Hk%list_elem_of_singleton]%elem_of_app;
            apply elem_of_app; [left; by apply IH1|right; subst; left]. }
        intros k. destruct (decide (k = id)) as [->|Hne].
        -- rewrite Hself, decide_True by (apply elem_of_app; right; left).
           unfold after_remove. fold ctx. by rewrite decide_True.
        -- rewrite Hother by done.
           destruct (decide (k ∈ rem)) as [Hin|Hin].
           ++ by rewrite decide_True by (apply elem_of_app; by left).
           ++ rewrite decide_False;
                [by rewrite lookup_insert_ne|].
              intros [?|?%list_elem_of_singleton]%elem_of_app; done.
      * split; [intros k Hk; apply elem_of_app; left; by apply IH1|].
        intros k. destruct (decide (k = id)) as [->|Hne].
        -- rewrite Hself, decide_False by done. rewrite lookup_delete_eq.
           unfold after_remove. fold ctx. by rewrite decide_True.
        -- rewrite Hother by done.
           by rewrite lookup_delete_ne, lookup_insert_ne by done.
    + simplify_eq. split; [intros k Hk; apply elem_of_app; left; by apply IH1|].
      intros k. destruct (decide (k = id)) as [->|Hne].
      * rewrite Hself, decide_False by done. rewrite lookup_insert_eq.
        unfold after_remove. fold ctx. by rewrite decide_False.
      * rewrite Hother by done. by rewrite lookup_insert_ne by done.
Qed.

(** The graph after [apply_users_removed_event]. *)
Lemma graph_after_users_removed (evt : internal_social_event) (ib : buffer_name)
    (t : social_event_type) (f : bool) (s : social_graph) (k : N) :
  NoDup (users_to_remove evt) →
  graph_of ib (apply_users_removed_event evt ib t f s).1 !! k
  = if decide (k ∈ users_to_remove evt) then after_remove (graph_of ib s !! k)
    else graph_of ib s !! k.
Proof.
  intros Hnd. unfold apply_users_removed_event.
  destruct (foldl _ _ _) as [[g rem] t'] eqn:Hfold.
  destruct (users_removed_step_lookup (users_to_remove evt)
              (socialUserGraph (buffer_of ib s)) t Hnd g rem t' Hfold) as [_ H2].
  simpl in *. specialize (H2 k). unfold graph_of.
  assert (∀ x, buffer_of ib (if f then unsubscribe_users rem x else x) = buffer_of ib x)
    as -> by (by destruct f).
  rewrite buffer_of_set_buffer_eq, graph_remove_users_from_buffer. exact H2.
Qed.

End reference_counts.

Section requests.
Context `{!Collaborators}.

Lemma apply_event_users_added (evt : internal_social_event) (f : bool)
    (s : social_graph) (ib : buffer_name) :
  inactive_buffer (m_userBuffer s) = Some ib →
  event_type evt = users_added →
  apply_event evt f s
  = Some (apply_users_added_event evt ib f (record_call (enter_apply_event evt f) s)).
Proof.
  intros Hib Ht. unfold apply_event.
  assert (inactive_buffer (m_userBuffer (record_call (enter_apply_event evt f) s))
          = Some ib) as -> by done.
  rewrite Ht. simpl. rewrite push_unknown_id. by destruct f.
Qed.

Lemma apply_event_users_removed (evt : internal_social_event) (f : bool)
    (s : social_graph) (ib : buffer_name) :
  inactive_buffer (m_userBuffer s) = Some ib →
  event_type evt = users_removed →
  ∃ s', apply_event evt f s = Some s'
        ∧ buffer_of ib s'
          = buffer_of ib (apply_users_removed_event evt ib public_unknown f
                            (record_call (enter_apply_event evt f) s)).1.
Proof.
  intros Hib Ht. unfold apply_event.
  assert (inactive_buffer (m_userBuffer (record_call (enter_apply_event evt f) s))
          = Some ib) as -> by done.
  rewrite Ht. simpl. destruct (apply_users_removed_event _ _ _ _ _) as [s1 t].
  simpl. eexists. split; [done|]. by destruct f.
Qed.

Lemma decr32_one : decr32 1 = 0.
Proof. done. Qed.

(** C9.  Take ids that are not in the graph of the inactive buffer, each
    named once.  Applying the [users_added] event for them enters each id
    with a null user and a count of 1 and leaves the other entries alone;
    applying then the [users_removed] event for the same ids (in any order)
    erases them again: the graph of the inactive buffer, counts included, is
    what it was before the two events. *)
Theorem add_then_remove_restores_graph
    (evtAdd evtRemove : internal_social_event) (freshAdd freshRemove : bool)
    (s : social_graph) (ib : buffer_name) :
  inactive_buffer (m_userBuffer s) = Some ib →
  event_type evtAdd = users_added →
  event_type evtRemove = users_removed →
  users_to_remove evtRemove ≡ₚ ids_added evtAdd →
  NoDup (ids_added evtAdd) →
  (∀ id, id ∈ ids_added evtAdd → graph_of ib s !! id = None) →
  ∃ s1 s2,
    apply_event evtAdd freshAdd s = Some s1
    ∧ apply_event evtRemove freshRemove s1 = Some s2
    ∧ (∀ id, id ∈ ids_added evtAdd →
             graph_of ib s1 !! id = Some {| socialUser := None; refCount := 1 |})
    ∧ (∀ id, id ∉ ids_added evtAdd → graph_of ib s1 !! id = graph_of ib s !! id)
    ∧ graph_of ib s2 = graph_of ib s.
Proof.
  intros Hib Hta Htr Hperm Hnd Habsent.
  rewrite (apply_event_users_added evtAdd freshAdd s ib Hib Hta).
  set (s1 := apply_users_added_event _ _ _ _).
  assert (∀ k, graph_of ib s1 !! k
               = if decide (k ∈ ids_added evtAdd) then after_add (graph_of ib s !! k)
                 else graph_of ib s !! k) as Hs1.
  { intros k. unfold s1. by rewrite graph_after_users_added. }
  assert (inactive_buffer (m_userBuffer s1) = Some ib) as Hib1.
  { pose proof (quiet_apply_users_added_event ib evtAdd freshAdd _ _
                  (quiet_refl ib (record_call (enter_apply_event evtAdd freshAdd) s)))
      as Hq.
    unfold inactive_buffer. fold s1 in Hq. by rewrite (quiet_inactive _ _ _ Hq). }
  destruct (apply_event_users_removed evtRemove freshRemove s1 ib Hib1 Htr)
    as (s2 & E2 & Hb2).
  exists s1, s2. split_and!; try done.
  - intros id Hid. rewrite Hs1, decide_True by done. by rewrite Habsent.
  - intros id Hid. by rewrite Hs1, decide_False.
  - apply map_eq. intros k. unfold graph_of at 1. rewrite Hb2.
    fold (graph_of ib (apply_users_removed_event evtRemove ib public_unknown freshRemove
                         (record_call (enter_apply_event evtRemove freshRemove) s1)).1).
    rewrite graph_after_users_removed by (by rewrite Hperm).
    change (graph_of ib (record_call _ s1)) with (graph_of ib s1).
    rewrite Hs1.
    destruct (decide (k ∈ users_to_remove evtRemove)) as [Hin|Hin].
    + rewrite Hperm in Hin. rewrite decide_True by done.
      rewrite (Habsent k Hin). done.
    + rewrite Hperm in Hin. by rewrite decide_False.
Qed.

Lemma stored_after_add (g : gmap N xbox_social_user_context) (k : N) :
  stored_refCount g k + 1 < 2 ^ 32 →
  from_option refCount 0 (after_add (g !! k)) = stored_refCount g k + 1.
Proof.
  unfold stored_refCount, after_add. intros Hlt.
  destruct (g !! k) as [ctx|]; simpl in *; [|done].
  unfold incr32, wrap32. by apply N.mod_small.
Qed.

Lemma decr32_positive (n : N) : 1 ≤ n < 2 ^ 32 → decr32 n = n - 1.
Proof.
  intros Hn. unfold decr32, wrap32.
  replace (n + (2 ^ 32 - 1)) with ((n - 1) + 1 * 2 ^ 32) by lia.
  rewrite N.Div0.mod_add. apply N.mod_small. lia.
Qed.

Lemma stored_after_remove (g : gmap N xbox_social_user_context) (k : N)
    (ctx : xbox_social_user_context) :
  g !! k = Some ctx → 1 ≤ refCount ctx < 2 ^ 32 →
  from_option refCount 0 (after_remove (g !! k)) + 1 = stored_refCount g k
  ∧ ∀ ctx', after_remove (g !! k) = Some ctx' → 1 ≤ refCount ctx' < 2 ^ 32.
Proof.
  unfold stored_refCount, after_remove. intros -> Hn. simpl.
  rewrite decr32_positive by done.
  case_decide as Hz; simpl; split; try lia; intros ctx' ?; simplify_eq. simpl. lia.
Qed.

(** One well-formed request: the count of every id it names moves by one,
    the other counts stay, and all counts stay positive. *)
Lemma well_formed_request_step (ib : buffer_name) (evt : internal_social_event)
    (f : bool) (s s' : social_graph) :
  inactive_buffer (m_userBuffer s) = Some ib →
  counts_positive (graph_of ib s) →
  well_formed_request ib evt s = true →
  apply_event evt f s = Some s' →
  inactive_buffer (m_userBuffer s') = Some ib
  ∧ counts_positive (graph_of ib s')
  ∧ ∀ id,
      stored_refCount (graph_of ib s') id
      + (if decide (event_type evt = users_removed ∧ id ∈ users_to_remove evt)
         then 1 else 0)
      = stored_refCount (graph_of ib s) id
        + (if decide (event_type evt = users_added ∧ id ∈ ids_added evt) then 1 else 0).
Proof.
  intros Hib Hpos Hwf E. split.
  { pose proof (apply_event_frame _ _ _ _ E) as (_ & _ & _ & _ & _ & H6 & _).
    unfold inactive_buffer in *. by rewrite H6. }
  unfold well_formed_request in Hwf.
  destruct (event_type evt) eqn:Ht; try done;
    apply andb_true_iff in Hwf as [Hnd%bool_decide_eq_true Hids];
    rewrite forallb_forall in Hids.
  - rewrite (apply_event_users_added evt f s ib Hib Ht) in E. simplify_eq.
    assert (∀ k, graph_of ib
                   (apply_users_added_event evt ib f
                      (record_call (enter_apply_event evt f) s)) !! k
                 = if decide (k ∈ ids_added evt) then after_add (graph_of ib s !! k)
                   else graph_of ib s !! k) as Hg.
    { intros k. by rewrite graph_after_users_added. }
    split.
    + intros k ctx. rewrite Hg. case_decide as Hk; [|by apply Hpos].
      intros Hctx. apply list_elem_of_In, Hids, N.ltb_lt in Hk.
      pose proof (stored_after_add _ _ Hk) as Hs. rewrite Hctx in Hs. simpl in Hs.
      rewrite Hs. lia.
    + intros id. unfold stored_refCount at 1. rewrite Hg.
      destruct (decide (users_added = users_removed ∧ _)) as [[? _]|_]; [done|].
      destruct (decide (users_added = users_added ∧ _)) as [[_ Hk]|Hk].
      * rewrite decide_True by done.
        rewrite stored_after_add by (by apply N.ltb_lt, Hids, list_elem_of_In). lia.
      * rewrite decide_False by (intros ?; by apply Hk). done.
  - destruct (apply_event_users_removed evt f s ib Hib Ht) as (s2 & E2 & Hb2).
    rewrite E in E2. simplify_eq.
    assert (∀ k, graph_of ib s2 !! k
                 = if decide (k ∈ users_to_remove evt)
                   then after_remove (graph_of ib s !! k)
                   else graph_of ib s !! k) as Hg.
    { intros k. unfold graph_of at 1. rewrite Hb2.
      fold (graph_of ib (apply_users_removed_event evt ib public_unknown f
                           (record_call (enter_apply_event evt f) s)).1).
      by rewrite graph_after_users_removed. }
    split.
    + intros k ctx. rewrite Hg. case_decide as Hk; [|by apply Hpos].
      apply list_elem_of_In, Hids, bool_decide_eq_true in Hk as [ctx0 Hctx0].
      destruct (stored_after_remove _ _ _ Hctx0 (Hpos _ _ Hctx0)) as [_ Hr].
      apply Hr.
    + intros id. unfold stored_refCount at 1. rewrite Hg.
      destruct (decide (users_removed = users_added ∧ _)) as [[? _]|_]; [done|].
      destruct (decide (users_removed = users_removed ∧ _)) as [[_ Hk]|Hk].
      * rewrite decide_True by done.
        apply list_elem_of_In, Hids, bool_decide_eq_true in Hk as [ctx0 Hctx0].
        destruct (stored_after_remove _ _ _ Hctx0 (Hpos _ _ Hctx0)) as [Hr _].
        lia.
      * rewrite decide_False by (intros ?; by apply Hk). done.
Qed.

(** C3 (as amended).  Start from a graph of the inactive buffer in which
    every count is positive, and apply a sequence of [users_added] and
    [users_removed] events, fresh or replayed, in which no event names an id
    twice, every [users_removed] names only ids that are in the graph at that
    point, and no count reaches [2^32].  Then for every id the stored count
    (0 for an id that is not in the graph) has grown by the number of
    [users_added] events that named the id and shrunk by the number of
    [users_removed] events that named it; and the counts in the graph are
    still positive. *)
Theorem refcount_counts_adds_minus_removes
    (ib : buffer_name) (evs : list (internal_social_event * bool))
    (s s' : social_graph) (id : N) :
  inactive_buffer (m_userBuffer s) = Some ib →
  counts_positive (graph_of ib s) →
  well_formed_requests ib evs s = true →
  apply_events evs s = Some s' →
  stored_refCount (graph_of ib s') id + N.of_nat (removes_of id evs)
  = stored_refCount (graph_of ib s) id + N.of_nat (adds_of id evs)
  ∧ counts_positive (graph_of ib s').
Proof.
  unfold apply_events.
  revert s. induction evs as [|[evt f] evs IH]; intros s Hib Hpos Hwf E.
  - simpl in E. simplify_eq. split; [reflexivity|done].
  - simpl in Hwf, E. apply andb_true_iff in Hwf as [Hwf1 Hwf2].
    destruct (apply_event evt f s) as [s1|] eqn:E1; [|done]. simpl in E.
    destruct (well_formed_request_step ib evt f s s1 Hib Hpos Hwf1 E1)
      as (Hib1 & Hpos1 & Hstep).
    destruct (IH s1 Hib1 Hpos1 Hwf2 E) as [IH1 IH2]. split; [|done].
    specialize (Hstep id). unfold adds_of, removes_of in *.
    rewrite !filter_cons. simpl.
    repeat case_decide; simpl length; lia.
Qed.

End requests.

(** ** The statements on the scenarios *)

Lemma counts_positive_started : counts_positive (graph_of buffer_B scenario.started).
Proof. unfold counts_positive. apply (bool_decide_unpack _). vm_compute. exact I. Qed.

Lemma crowded_readable :
  map_Forall (λ _ ctx, readable (buffer_of buffer_B scenario.crowded) ctx = true)
    (graph_of buffer_B scenario.crowded).
Proof. apply (bool_decide_unpack _). vm_compute. exact I. Qed.

(** In the scenario of the request for user 200, the round of the worker
    leaves the pending list of the inactive buffer (B) empty: the copy of the
    event is on the pending list of the active buffer (A). *)
Lemma mirror_is_not_on_inactive_buffer :
  @process_events sample.helpers scenario.requested = Some (true, scenario.processed)
  ∧ inactive_buffer (m_userBuffer scenario.processed) = Some buffer_B
  ∧ pending_of buffer_B scenario.processed = []
  ∧ pending_of buffer_A scenario.processed = [event_of_strings users_added ["200"] 7].
Proof. split_and!; vm_compute; reflexivity. Qed.

Lemma process_events_mirrors_on_active_buffer_witness :
  @process_events sample.helpers scenario.requested = Some (true, scenario.processed)
  ∧ ∃ evt rest a,
      m_internalEventQueue scenario.requested = evt :: rest
      ∧ m_internalEventQueue scenario.processed = rest
      ∧ applications scenario.processed = applications scenario.requested ++ [(evt, true)]
      ∧ active_buffer (m_userBuffer scenario.requested) = Some a
      ∧ active_buffer (m_userBuffer scenario.processed) = Some a
      ∧ pending_of a scenario.processed = pending_of a scenario.requested ++ [evt]
      ∧ (∀ b, b ≠ a → pending_of b scenario.processed = pending_of b scenario.requested)
      ∧ (inactive_buffer (m_userBuffer scenario.requested) ≠ Some a →
         socialUserGraph (buffer_of a scenario.processed)
         = socialUserGraph (buffer_of a scenario.requested)
         ∧ slabs (buffer_of a scenario.processed) = slabs (buffer_of a scenario.requested)
         ∧ freeData (buffer_of a scenario.processed)
           = freeData (buffer_of a scenario.requested))
      ∧ inactive_buffer (swap (m_userBuffer scenario.processed)) = Some a.
Proof.
  assert (@process_events sample.helpers scenario.requested
          = Some (true, scenario.processed)) as Hrun by (vm_compute; reflexivity).
  split; [exact Hrun|].
  exact (@process_events_mirrors_on_active_buffer sample.helpers _ _ Hrun).
Defined.

(** Alice comes from the first fetch, which enters her with a count of 1
    although no [add_users] call named her; after the one request that names
    her the stored count is 2, not the one add minus no remove of the
    requests. *)
Lemma first_fetch_counts_without_request :
  @apply_events sample.helpers scenario.pinned_again scenario.started
  = Some scenario.after_pinned_again
  ∧ stored_refCount (graph_of buffer_B scenario.started) 100 = 1
  ∧ stored_refCount (graph_of buffer_B scenario.after_pinned_again) 100 = 2
  ∧ @adds_of sample.helpers 100 scenario.pinned_again = 1%nat
  ∧ removes_of 100 scenario.pinned_again = 0%nat
  ∧ stored_refCount (graph_of buffer_B scenario.after_pinned_again) 100
    ≠ N.of_nat (@adds_of sample.helpers 100 scenario.pinned_again
                - removes_of 100 scenario.pinned_again).
Proof. split_and!; vm_compute; (reflexivity || discriminate). Qed.

(** Two [users_removed] events for an id that one [users_added] event
    tracked: [socialUserGraph[user]] re-creates the entry and the decrement
    wraps its count to [2^32 - 1]. *)
Lemma spurious_removal_wraps_refcount :
  (s' ← @apply_events sample.helpers scenario.spurious_removals scenario.started;
   Some (graph_of buffer_B s' !! 7))
  = Some (Some {| socialUser := None; refCount := 4294967295 |})
  ∧ @adds_of sample.helpers 7 scenario.spurious_removals = 1%nat
  ∧ removes_of 7 scenario.spurious_removals = 2%nat.
Proof. split_and!; vm_compute; reflexivity. Qed.

Lemma refcount_counts_adds_minus_removes_witness :
  inactive_buffer (m_userBuffer scenario.started) = Some buffer_B
  ∧ counts_positive (graph_of buffer_B scenario.started)
  ∧ @well_formed_requests sample.helpers buffer_B scenario.tracked_requests
      scenario.started = true
  ∧ @apply_events sample.helpers scenario.tracked_requests scenario.started
    = Some scenario.after_tracked_requests
  ∧ stored_refCount (graph_of buffer_B scenario.after_tracked_requests) 100
    + N.of_nat (removes_of 100 scenario.tracked_requests)
    = stored_refCount (graph_of buffer_B scenario.started) 100
      + N.of_nat (@adds_of sample.helpers 100 scenario.tracked_requests)
  ∧ counts_positive (graph_of buffer_B scenario.after_tracked_requests).
Proof.
  assert (inactive_buffer (m_userBuffer scenario.started) = Some buffer_B) as H1
    by reflexivity.
  assert (@well_formed_requests sample.helpers buffer_B scenario.tracked_requests
            scenario.started = true) as H3 by (vm_compute; reflexivity).
  assert (@apply_events sample.helpers scenario.tracked_requests scenario.started
          = Some scenario.after_tracked_requests) as H4 by (vm_compute; reflexivity).
  split_and!; [exact H1|exact counts_positive_started|exact H3|exact H4|..];
    apply (@refcount_counts_adds_minus_removes sample.helpers buffer_B
             scenario.tracked_requests scenario.started scenario.after_tracked_requests
             100 H1 counts_positive_started H3 H4).
Defined.

(** The task [unsubscribe_users] spawns locks a weak pointer that was never
    assigned: whatever the users, it returns at once. *)
Lemma unsubscribe_users_does_nothing (users : list N) (s : social_graph) :
  unsubscribe_users users s = s.
Proof. reflexivity. Qed.

(** C4.  Scenario S2, last step: the fresh [users_removed] event for Alice
    takes her out of the graph of the inactive buffer, returns her slot to
    the free list and queues one public [users_removed_from_social_graph]
    event for her; but no unsubscribe call is made (the only calls recorded
    are the two subscriptions of the start-up) and her subscriptions stay in
    the table. *)
Theorem removal_reclaims_and_reports_but_never_unsubscribes :
  (λ s', (graph_of buffer_B s' !! 100,
          freeData (buffer_of buffer_B s'),
          public_events s',
          outbound_calls s',
          m_socialUserSubscriptions s' !! 100)) <$> scenario.evicted
  = Some (None,
          [Some {| block := 0; slot := 1 |}; Some {| block := 0; slot := 2 |};
           Some {| block := 0; slot := 3 |}; Some {| block := 0; slot := 4 |};
           Some {| block := 0; slot := 5 |}; Some {| block := 0; slot := 0 |}],
          [{| se_event_type := users_removed_from_social_graph;
              se_users_affected := ["100"];
              se_err := no_error;
              se_err_message := EmptyString |}],
          [subscribe_to_device_presence_change "100";
           subscribe_to_title_presence_change "100"],
          Some {| devicePresenceChangeSubscription := Some "100";
                  titlePresenceChangeSubscription := Some "100" |}).
Proof. vm_compute. reflexivity. Qed.

(** Between the return of the second frame and the six rounds of the worker
    that follow it, [apply_event] is entered ten times: five replays of the
    cached events and five fresh events. *)
Lemma ten_applications_in_one_frame :
  (s1 ← scenario.second_frame_start;
   s2 ← scenario.second_frame;
   Some (length (applications s2) - length (applications s1),
         length (fresh_applications s2) - length (fresh_applications s1)))%nat
  = Some (10, 5)%nat.
Proof. vm_compute. reflexivity. Qed.

Lemma fresh_events_bounded_per_frame_witness :
  @run_operations sample.helpers
    (scenario.ten_requests ++ replicate 5 worker_round)
    (do_work [] scenario.started).2
  = Some scenario.first_frame_state
  ∧ m_numEventsThisFrame (do_work [] scenario.started).2 = 0
  ∧ m_numEventsThisFrame scenario.first_frame_state ≤ NUM_EVENTS_PER_FRAME
  ∧ (length (fresh_applications scenario.first_frame_state)
     = length (fresh_applications scenario.started)
       + N.to_nat (m_numEventsThisFrame scenario.first_frame_state))%nat
  ∧ (length (fresh_applications scenario.first_frame_state)
     ≤ length (fresh_applications scenario.started) + 5)%nat.
Proof.
  assert (@run_operations sample.helpers
            (scenario.ten_requests ++ replicate 5 worker_round)
            (do_work [] scenario.started).2
          = Some scenario.first_frame_state) as Hrun by (vm_compute; reflexivity).
  split; [exact Hrun|].
  exact (@fresh_events_bounded_per_frame sample.helpers _ _ _ _ Hrun).
Defined.

Lemma failed_fetch_resolves_reports_and_keeps_graph_witness :
  inactive_buffer (m_userBuffer scenario.started) = Some buffer_B
  ∧ event_type scenario.failed_fetch = users_changed
  ∧ err (error scenario.failed_fetch) ≠ no_error
  ∧ ∃ s', @apply_event sample.helpers scenario.failed_fetch true scenario.started = Some s'
          ∧ m_userBuffer s' = m_userBuffer scenario.started
          ∧ public_events s'
            = public_events scenario.started
              ++ [public_event_of scenario.failed_fetch users_added_to_social_graph
                    (error scenario.failed_fetch)]
          ∧ outbound_calls s'
            = outbound_calls scenario.started ++ resolution_of scenario.failed_fetch.
Proof.
  assert (err (error scenario.failed_fetch) ≠ no_error) as H3 by (vm_compute; discriminate).
  split_and!; [reflexivity|reflexivity|exact H3|].
  exact (@failed_fetch_resolves_reports_and_keeps_graph sample.helpers
           scenario.failed_fetch true scenario.started buffer_B eq_refl eq_refl H3).
Defined.

(** Carol logs off her only device; the event is replayed on the other
    buffer: her record in the slot is updated, and no public event is
    queued. *)
Lemma replayed_logoff_emits_no_event :
  public_events scenario.crowded = []
  ∧ read_slot {| block := 0; slot := 1 |} (buffer_of buffer_B scenario.crowded)
    = Some scenario.carol
  ∧ (λ s', (public_events s',
            presence_record
              <$> read_slot {| block := 0; slot := 1 |} (buffer_of buffer_B s')))
      <$> scenario.replayed_logoff
    = Some ([], Some {| _Xbox_user_id := 300; pr_user_state := 0;
                        presence_title_records := [] |}).
Proof. split_and!; vm_compute; reflexivity. Qed.

Lemma device_presence_change_fires_or_updates_witness :
  inactive_buffer (m_userBuffer scenario.crowded) = Some buffer_B
  ∧ event_type scenario.logoff = device_presence_changed
  ∧ graph_of buffer_B scenario.crowded
      !! @string_t_to_uint64 sample.helpers
           (dp_xbox_user_id (device_presence_args scenario.logoff))
    = Some {| socialUser := Some {| block := 0; slot := 1 |}; refCount := 1 |}
  ∧ read_slot {| block := 0; slot := 1 |} (buffer_of buffer_B scenario.crowded)
    = Some scenario.carol
  ∧ ∃ s', @apply_event sample.helpers scenario.logoff true scenario.crowded = Some s'
          ∧ read_slot {| block := 0; slot := 1 |} (buffer_of buffer_B s')
            = Some (_Set_presence_record
                      (sample.update_device 1 false (presence_record scenario.carol))
                      scenario.carol)
          ∧ graph_of buffer_B s' = graph_of buffer_B scenario.crowded
          ∧ public_events s'
            = public_events scenario.crowded
              ++ [public_event_of scenario.logoff public_presence_changed result_success]
          ∧ outbound_calls s' = outbound_calls scenario.crowded.
Proof.
  assert (graph_of buffer_B scenario.crowded
            !! @string_t_to_uint64 sample.helpers
                 (dp_xbox_user_id (device_presence_args scenario.logoff))
          = Some {| socialUser := Some {| block := 0; slot := 1 |}; refCount := 1 |})
    as H3 by (vm_compute; reflexivity).
  assert (read_slot {| block := 0; slot := 1 |} (buffer_of buffer_B scenario.crowded)
          = Some scenario.carol) as H5 by (vm_compute; reflexivity).
  split_and!; [reflexivity|reflexivity|exact H3|exact H5|].
  exact (@device_presence_change_fires_or_updates sample.helpers scenario.logoff true
           scenario.crowded buffer_B _ _ _ eq_refl eq_refl H3 eq_refl H5).
Defined.

Lemma perform_diff_enqueues_added_and_removed_witness :
  inactive_buffer (m_userBuffer scenario.crowded) = Some buffer_B
  ∧ (∀ id ctx, graph_of buffer_B scenario.crowded !! id = Some ctx →
               is_Some (scenario.refreshed !! id) → is_Some (socialUser ctx))
  ∧ (∀ id ctx p, graph_of buffer_B scenario.crowded !! id = Some ctx →
                 socialUser ctx = Some p →
                 is_Some (read_slot p (buffer_of buffer_B scenario.crowded)))
  ∧ ∃ s' evs,
      @perform_diff sample.helpers scenario.refreshed scenario.crowded = Some s'
      ∧ m_internalEventQueue s' = m_internalEventQueue scenario.crowded ++ evs
      ∧ (∀ u, (∃ e, e ∈ evs ∧ event_type e = users_changed ∧ u ∈ users_affected e)
              ↔ (∃ id, scenario.refreshed !! id = Some u
                       ∧ graph_of buffer_B scenario.crowded !! id = None))
      ∧ (∀ id, (∃ e, e ∈ evs ∧ event_type e = users_removed ∧ id ∈ users_to_remove e)
               ↔ (scenario.refreshed !! id = None
                  ∧ ∃ ctx p u,
                      graph_of buffer_B scenario.crowded !! id = Some ctx
                      ∧ socialUser ctx = Some p
                      ∧ read_slot p (buffer_of buffer_B scenario.crowded) = Some u
                      ∧ is_following_user u = true))
      ∧ (length (filter (λ e, event_type e = users_changed) evs) ≤ 1)%nat
      ∧ (length (filter (λ e, event_type e = users_removed) evs) ≤ 1)%nat.
Proof.
  assert (∀ id ctx, graph_of buffer_B scenario.crowded !! id = Some ctx →
                    is_Some (scenario.refreshed !! id) → is_Some (socialUser ctx)) as H2.
  { intros id ctx Hg _. apply crowded_readable in Hg. unfold readable in Hg.
    destruct (socialUser ctx); [eauto|discriminate]. }
  assert (∀ id ctx p, graph_of buffer_B scenario.crowded !! id = Some ctx →
                      socialUser ctx = Some p →
                      is_Some (read_slot p (buffer_of buffer_B scenario.crowded))) as H3.
  { intros id ctx p Hg Hp. apply crowded_readable in Hg. unfold readable in Hg.
    rewrite Hp in Hg. by apply bool_decide_eq_true in Hg. }
  split_and!; [reflexivity|exact H2|exact H3|].
  exact (@perform_diff_enqueues_added_and_removed sample.helpers scenario.refreshed
           scenario.crowded buffer_B eq_refl H2 H3).
Defined.

(** C8.  The refresh diff dereferences an empty slot.  The caller asks the
    core of scenario S1 to track users 200 and 201, and the worker applies
    the request: both ids are now in the graph of the inactive buffer, with
    a count of 1 and an empty slot until their profiles arrive.  A refresh
    that returns user 200 in the meantime makes [perform_diff] read through
    the empty slot of 200 in its first loop: the diff has no result, and no
    [users_changed] or [users_removed] event is queued.  The second loop
    checks the slot before it reads it: a refresh that returns Alice alone
    goes through on the same core, passes over 200 and 201, and queues
    nothing. *)
Theorem perform_diff_dereferences_an_empty_slot :
  @run_operations sample.helpers cases.track_request scenario.started
  = Some cases.waiting
  ∧ inactive_buffer (m_userBuffer cases.waiting) = Some buffer_B
  ∧ graph_of buffer_B cases.waiting !! 200
    = Some {| socialUser := None; refCount := 1 |}
  ∧ cases.bob_fetched !! 200 = Some cases.bob
  ∧ @perform_diff sample.helpers cases.bob_fetched cases.waiting = None
  ∧ @run_operations sample.helpers cases.refresh_while_waiting scenario.started = None
  ∧ m_internalEventQueue
      <$> @perform_diff sample.helpers (<[100 := scenario.alice]> ∅) cases.waiting
    = Some (m_internalEventQueue cases.waiting).
Proof. split_and!; vm_compute; reflexivity. Qed.

Lemma add_then_remove_restores_graph_witness :
  inactive_buffer (m_userBuffer scenario.started) = Some buffer_B
  ∧ event_type scenario.track_two = users_added
  ∧ event_type scenario.drop_two = users_removed
  ∧ users_to_remove scenario.drop_two ≡ₚ @ids_added sample.helpers scenario.track_two
  ∧ NoDup (@ids_added sample.helpers scenario.track_two)
  ∧ (∀ id, id ∈ @ids_added sample.helpers scenario.track_two →
           graph_of buffer_B scenario.started !! id = None)
  ∧ ∃ s1 s2,
      @apply_event sample.helpers scenario.track_two true scenario.started = Some s1
      ∧ @apply_event sample.helpers scenario.drop_two true s1 = Some s2
      ∧ (∀ id, id ∈ @ids_added sample.helpers scenario.track_two →
               graph_of buffer_B s1 !! id = Some {| socialUser := None; refCount := 1 |})
      ∧ (∀ id, id ∉ @ids_added sample.helpers scenario.track_two →
               graph_of buffer_B s1 !! id = graph_of buffer_B scenario.started !! id)
      ∧ graph_of buffer_B s2 = graph_of buffer_B scenario.started.
Proof.
  assert (users_to_remove scenario.drop_two
          ≡ₚ @ids_added sample.helpers scenario.track_two) as H4.
  { change ([201; 200] ≡ₚ [200; 201]). apply perm_swap. }
  assert (NoDup (@ids_added sample.helpers scenario.track_two)) as H5.
  { apply (bool_decide_unpack _). vm_compute. exact I. }
  assert (∀ id, id ∈ @ids_added sample.helpers scenario.track_two →
                graph_of buffer_B scenario.started !! id = None) as H6.
  { intros id Hid. change (id ∈ [200; 201]) in Hid.
    apply elem_of_cons in Hid as [->|Hid]; [vm_compute; reflexivity|].
    apply list_elem_of_singleton in Hid as ->. vm_compute. reflexivity. }
  split_and!; [reflexivity|reflexivity|reflexivity|exact H4|exact H5|exact H6|].
  exact (@add_then_remove_restores_graph sample.helpers scenario.track_two
           scenario.drop_two true true scenario.started buffer_B
           eq_refl eq_refl eq_refl H4 H5 H6).
Defined.

Lemma failed_fetch_is_reported_twice_witness :
  m_isInitialized scenario.failing = true
  ∧ active_buffer (m_userBuffer scenario.failing) = Some buffer_A
  ∧ inactive_buffer (m_userBuffer scenario.failing) = Some buffer_B
  ∧ buffer_A ≠ buffer_B
  ∧ pending_of buffer_A scenario.failing = []
  ∧ pending_of buffer_B scenario.failing = []
  ∧ m_internalEventQueue scenario.failing = [scenario.failed_fetch]
  ∧ m_numEventsThisFrame scenario.failing < NUM_EVENTS_PER_FRAME
  ∧ event_type scenario.failed_fetch = users_changed
  ∧ err (error scenario.failed_fetch) ≠ no_error
  ∧ ∃ s1 s2 s3 s4,
      @do_event_work sample.helpers scenario.failing = Some (true, s1)
      ∧ pending_of buffer_A s1 = [scenario.failed_fetch]
      ∧ frame s1
        = (public_events scenario.failing
           ++ [public_event_of scenario.failed_fetch users_added_to_social_graph
                 (error scenario.failed_fetch)], s2)
      ∧ @do_event_work sample.helpers s2 = Some (true, s3)
      ∧ frame s3
        = ([public_event_of scenario.failed_fetch users_added_to_social_graph
              (error scenario.failed_fetch)], s4)
      ∧ applications s4
        = applications scenario.failing
          ++ [(scenario.failed_fetch, true); (scenario.failed_fetch, false)]
      ∧ outbound_calls s4
        = outbound_calls scenario.failing
          ++ resolution_of scenario.failed_fetch ++ resolution_of scenario.failed_fetch.
Proof.
  assert (buffer_A ≠ buffer_B) as H4 by discriminate.
  assert (m_numEventsThisFrame scenario.failing < NUM_EVENTS_PER_FRAME) as H8
    by (vm_compute; reflexivity).
  assert (err (error scenario.failed_fetch) ≠ no_error) as H10
    by (vm_compute; discriminate).
  split_and!;
    [reflexivity|reflexivity|reflexivity|exact H4|reflexivity|reflexivity|reflexivity
    |exact H8|reflexivity|exact H10|].
  exact (@failed_fetch_is_reported_twice sample.helpers scenario.failing
           scenario.failed_fetch [] buffer_A buffer_B
           eq_refl eq_refl eq_refl H4 eq_refl eq_refl eq_refl H8 eq_refl H10).
Defined.

(** * Further properties *)

(** ** The buffer roles and the frame pump *)

Lemma swap_active_is_old_inactive (h : user_buffers_holder.t) (a b : buffer_name) :
  m_activeBuffer h = Some a → m_inactiveBuffer h = Some b → a ≠ b →
  m_activeBuffer (swap h) = Some b.
Proof.
  intros Ha Hb Hab. unfold swap. rewrite Ha.
  destruct a, b; try done; by destruct (decide _).
Qed.

Lemma swap_swap (h : user_buffers_holder.t) (a b : buffer_name) :
  m_activeBuffer h = Some a → m_inactiveBuffer h = Some b → a ≠ b →
  swap (swap h) = h.
Proof.
  intros Ha Hb Hab. destruct h as [ua ub ac ia]. simpl in *. subst.
  unfold swap. simpl. by destruct a, b.
Qed.

(** X1.  [swap] on a holder whose two pointers name the two buffers
    exchanges the roles without touching either buffer, and swapping twice
    gives the holder back. *)
Theorem swap_exchanges_roles (h : user_buffers_holder.t) (a b : buffer_name) :
  m_activeBuffer h = Some a →
  m_inactiveBuffer h = Some b →
  a ≠ b →
  m_activeBuffer (swap h) = Some b
  ∧ m_inactiveBuffer (swap h) = Some a
  ∧ (∀ c, deref c (swap h) = deref c h)
  ∧ swap (swap h) = h.
Proof.
  intros Ha Hb Hab. split_and!.
  - by apply (swap_active_is_old_inactive h a b).
  - by apply swap_inactive_is_old_active.
  - intros c. apply deref_swap.
  - by apply (swap_swap h a b).
Qed.

Lemma push_all_list
    (l : list (internal_social_event * social_event_type * xbox_live_result_void))
    (q : event_queue.t) :
  event_queue.m_socialEventList (push_all l q)
  = event_queue.m_socialEventList q ++ pushed_events l.
Proof.
  unfold push_all, pushed_events. revert q. induction l as [|[[evt t] e] l IH]; intros q; simpl.
  - by rewrite app_nil_r.
  - rewrite IH. unfold event_queue.push. destruct (decide (t = public_unknown)) as [->|Ht].
    + by rewrite filter_cons_False by (simpl; intros ?; done).
    + rewrite filter_cons_True by done. simpl. by rewrite <- app_assoc.
Qed.

Lemma do_work_out (socialEvents : list social_event) (s : social_graph) :
  (do_work socialEvents s).1.2
  = socialEvents ++ (if bool_decide (m_socialGraphState s = normal)
                     then public_events s else []).
Proof.
  unfold do_work, event_queue.empty, public_events.
  change (m_socialGraphState (set_numEventsThisFrame 0 s)) with (m_socialGraphState s).
  destruct (bool_decide (m_socialGraphState s = normal)) eqn:Hn; simpl.
  - destruct (match inactive_buffer _ with Some _ => _ | None => _ end); simpl;
      rewrite Hn, andb_true_r;
      destruct (event_queue.m_socialEventList (m_socialEventQueue s)) eqn:Hq;
      simpl; rewrite ?Hq, ?app_nil_r; done.
  - rewrite Hn, andb_false_r. simpl. by rewrite app_nil_r.
Qed.

(** X2.  Public events reach the application in the order they were pushed,
    and an event pushed with type [unknown] never reaches it: in the state
    [normal], [do_work] appends to the caller's list the events that were
    queued, then those of any sequence of pushes that followed, each with
    the ids, error code and message it was pushed with. *)
Theorem do_work_delivers_pushes_in_order
    (l : list (internal_social_event * social_event_type * xbox_live_result_void))
    (socialEvents : list social_event) (s : social_graph) :
  m_socialGraphState s = normal →
  (do_work socialEvents (set_socialEventQueue (push_all l (m_socialEventQueue s)) s)).1.2
  = socialEvents ++ public_events s ++ pushed_events l.
Proof.
  intros Hn. rewrite do_work_out. simpl. rewrite Hn, bool_decide_eq_true_2 by done.
  unfold public_events. simpl. by rewrite push_all_list.
Qed.

(** X3.  Outside the state [normal], [do_work] resets the counter of the
    worker and does nothing else: no swap, nothing appended to the caller's
    list, and the queued public events stay queued for a later frame. *)
Theorem do_work_outside_normal_only_resets_counter
    (socialEvents : list social_event) (s : social_graph) :
  m_socialGraphState s ≠ normal →
  do_work socialEvents s
  = ({| socialUsers := active_buffer (m_userBuffer s) |}, socialEvents,
     set_numEventsThisFrame 0 s).
Proof.
  intros Hn. unfold do_work.
  change (m_socialGraphState (set_numEventsThisFrame 0 s)) with (m_socialGraphState s).
  rewrite (bool_decide_eq_false_2 (m_socialGraphState s = normal)) by done.
  simpl. rewrite (bool_decide_eq_false_2 (m_socialGraphState s = normal)) by done.
  by rewrite andb_false_r.
Qed.

(** X4.  Two frames in a row on an idle core (state [normal], no pending
    events on either buffer, the two roles on the two buffers): the first
    hands over what was queued, the second hands over nothing, and the second
    swap undoes the first. *)
Theorem idle_frames_alternate (s : social_graph) (a b : buffer_name) :
  m_socialGraphState s = normal →
  active_buffer (m_userBuffer s) = Some a →
  inactive_buffer (m_userBuffer s) = Some b →
  a ≠ b →
  pending_of a s = [] →
  pending_of b s = [] →
  (frame s).1 = public_events s
  ∧ socialUsers (do_work [] s).1.1 = Some b
  ∧ (frame (frame s).2).1 = []
  ∧ socialUsers (do_work [] (frame s).2).1.1 = Some a
  ∧ m_userBuffer (frame (frame s).2).2 = m_userBuffer s.
Proof.
  intros Hn Ha Hb Hab Hpa Hpb.
  pose proof (swap_active_is_old_inactive _ _ _ Ha Hb Hab) as S1.
  pose proof (swap_inactive_is_old_active _ _ Ha) as S2.
  pose proof (swap_swap _ _ _ Ha Hb Hab) as S4.
  pose proof (frame_spec s) as (F1 & F2 & F3 & _ & F5 & _).
  rewrite Hn in F1, F2, F3. rewrite bool_decide_eq_true_2 in F1, F2, F3 by done.
  rewrite Hb, Hpb in F2. simpl in F2.
  pose proof (frame_spec (frame s).2) as (G1 & G2 & _).
  rewrite F5, Hn in G1, G2. rewrite bool_decide_eq_true_2 in G1, G2 by done.
  assert (pending_of a (frame s).2 = []) as Hp1.
  { unfold pending_of, buffer_of. by rewrite F2, deref_swap. }
  assert (inactive_buffer (m_userBuffer (frame s).2) = Some a) as Hi1.
  { unfold inactive_buffer. by rewrite F2. }
  rewrite Hi1, Hp1 in G2. simpl in G2. rewrite F2, S4 in G2.
  assert (∀ x, socialUsers (do_work [] x).1.1 = active_buffer (m_userBuffer (frame x).2))
    as Hsnap.
  { intros x. unfold frame, do_work. by destruct (negb _ && _). }
  split_and!; try done.
  - by rewrite Hsnap, F2.
  - by rewrite G1, F3.
  - by rewrite Hsnap, G2.
Qed.
(** ** The worker *)

Section worker_rounds.
Context `{!Collaborators}.

(** The three branches of [do_event_work]. *)
Lemma do_event_work_cases (s s' : social_graph) (r : bool) :
  do_event_work s = Some (r, s') →
  (m_isInitialized s = false ∧ r = false ∧ s' = set_state normal s)
  ∨ (∃ ib s1,
       m_isInitialized s = true
       ∧ inactive_buffer (m_userBuffer s) = Some ib
       ∧ pending_of ib s ≠ []
       ∧ r = true
       ∧ for_each (replay_step ib) (pending_of ib s) (set_state event_processing s) = Some s1
       ∧ s' = set_state normal s1)
  ∨ (m_isInitialized s = true
     ∧ (∀ ib, inactive_buffer (m_userBuffer s) = Some ib → pending_of ib s = [])
     ∧ process_events (set_state normal s) = Some (r, s')).
Proof.
  intros E. destruct (m_isInitialized s) eqn:Hi.
  - destruct (inactive_buffer (m_userBuffer s)) as [ib|] eqn:Hib.
    + destruct (decide (pending_of ib s = [])) as [Hp|Hp].
      * right; right. rewrite (do_event_work_fresh s ib) in E by done.
        split_and!; [done| |done]. intros ib' ?. by simplify_eq.
      * right; left. rewrite (do_event_work_cached s ib) in E by done.
        destruct (for_each _ _ _) as [s1|] eqn:E1; simpl in E; [|done]. simplify_eq.
        by exists ib, s1.
    + right; right. unfold do_event_work in E. simpl in E. rewrite Hi, Hib in E.
      simpl in E. split_and!; [done| |done]. intros ib' ?. by simplify_eq.
  - left. unfold do_event_work in E. simpl in E. rewrite Hi in E. simpl in E.
    by simplify_eq.
Qed.

(** The two branches of [process_events]. *)
Lemma process_events_cases (s s' : social_graph) (r : bool) :
  process_events s = Some (r, s') →
  (r = false ∧ s' = s
   ∧ (m_internalEventQueue s = [] ∨ NUM_EVENTS_PER_FRAME ≤ m_numEventsThisFrame s))
  ∨ (∃ evt rest s1 h,
       r = true
       ∧ m_internalEventQueue s = evt :: rest
       ∧ m_numEventsThisFrame s < NUM_EVENTS_PER_FRAME
       ∧ apply_event evt true
           (set_internalEventQueue rest
              (set_numEventsThisFrame (incr32 (m_numEventsThisFrame s)) s)) = Some s1
       ∧ add_event evt (m_userBuffer s1) = Some h
       ∧ s' = set_userBuffer h s1).
Proof.
  intros E. destruct (m_internalEventQueue s) as [|evt rest] eqn:Hq.
  - left. unfold process_events in E. rewrite Hq in E. simpl in E. simplify_eq. auto.
  - destruct (decide (m_numEventsThisFrame s < NUM_EVENTS_PER_FRAME)) as [Hlt|Hge].
    + right. rewrite (process_events_eq s evt rest) in E by done.
      destruct (apply_event _ _ _) as [s1|] eqn:E1; simpl in E; [|done].
      destruct (add_event _ _) as [h|] eqn:E2; simpl in E; [|done]. simplify_eq.
      by exists evt, rest, s1, h.
    + left. unfold process_events in E. rewrite Hq in E.
      apply N.nlt_ge in Hge. apply N.ltb_ge in Hge. rewrite Hge in E. simpl in E.
      simplify_eq. split_and!; try done. right. by apply N.ltb_ge.
Qed.

(** What a fresh round changes outside the buffers. *)
Lemma process_events_applied (s s' : social_graph) :
  process_events s = Some (true, s') →
  ∃ evt rest,
    m_internalEventQueue s = evt :: rest
    ∧ m_internalEventQueue s' = rest
    ∧ applications s' = applications s ++ [(evt, true)]
    ∧ m_isInitialized s' = m_isInitialized s
    ∧ m_socialGraphState s' = m_socialGraphState s.
Proof.
  intros E.
  apply process_events_cases in E
    as [(? & _)|(evt & rest & s1 & h & _ & Hq & _ & E1 & _ & ->)]; [done|].
  apply apply_event_frame in E1 as (H1 & H2 & _ & H4 & _ & _ & _ & _ & H9).
  exists evt, rest. by split_and!.
Qed.

(** The main queue is a queue: a round of the worker either leaves it and
    the fresh applications alone or moves its first event to the end of the
    fresh applications. *)
Lemma do_event_work_queue (s s' : social_graph) (r : bool) :
  do_event_work s = Some (r, s') →
  (fst <$> fresh_applications s') ++ m_internalEventQueue s'
  = (fst <$> fresh_applications s) ++ m_internalEventQueue s.
Proof.
  intros E. apply do_event_work_cases in E
    as [(_ & _ & ->)|[(ib & s1 & _ & _ & _ & _ & E1 & ->)|(_ & _ & E1)]].
  - done.
  - apply for_each_replay_frame in E1 as (_ & H4 & _ & _ & H9).
    apply (fresh_applications_app (set_state event_processing s)) in H9.
    rewrite filter_fresh_replayed, app_nil_r in H9.
    change (fresh_applications (set_state normal s1)) with (fresh_applications s1).
    simpl. by rewrite H9, H4.
  - destruct r.
    + apply process_events_applied in E1 as (evt & rest & Hq & Hq' & H9 & _).
      apply (fresh_applications_app (set_state normal s)) in H9.
      rewrite H9, Hq'. simpl in Hq. rewrite Hq.
      rewrite filter_cons_True, filter_nil by done.
      rewrite fmap_app. simpl. by rewrite <- app_assoc.
    + apply process_events_cases in E1 as [(_ & -> & _)|(? & ? & ? & ? & ? & _)]; done.
Qed.

(** X5.  Requests made before the first fetch has completed are kept, in
    order, and nothing else happens: on a core that is not initialised and
    has no buffers yet, rounds of the worker, requests and refresh results in
    any order apply no event, make no call, leave the buffers and the public
    queue alone, and leave every requested event on the main queue. *)
Theorem requests_before_initialisation_are_queued
    (ops : list operation) (s : social_graph) :
  m_isInitialized s = false →
  inactive_buffer (m_userBuffer s) = None →
  ∃ s', run_operations ops s = Some s'
    ∧ m_internalEventQueue s' = m_internalEventQueue s ++ concat (requested_event <$> ops)
    ∧ m_userBuffer s' = m_userBuffer s
    ∧ m_socialEventQueue s' = m_socialEventQueue s
    ∧ m_socialUserSubscriptions s' = m_socialUserSubscriptions s
    ∧ calls s' = calls s
    ∧ m_isInitialized s' = false.
Proof.
  revert s. induction ops as [|o ops IH]; intros s Hi Hib.
  - exists s. simpl. by rewrite app_nil_r.
  - assert (∃ s1, run_operation o s = Some s1
              ∧ m_internalEventQueue s1 = m_internalEventQueue s ++ requested_event o
              ∧ m_userBuffer s1 = m_userBuffer s
              ∧ m_socialEventQueue s1 = m_socialEventQueue s
              ∧ m_socialUserSubscriptions s1 = m_socialUserSubscriptions s
              ∧ calls s1 = calls s
              ∧ m_isInitialized s1 = false) as (s1 & E1 & Q1 & B1 & P1 & U1 & C1 & I1).
    { destruct o as [|users c|users|m]; simpl.
      - exists (set_state normal s). unfold do_event_work. simpl. rewrite Hi. simpl.
        by rewrite app_nil_r.
      - by exists (add_users users c s).
      - by exists (remove_users users s).
      - exists s. unfold perform_diff. rewrite Hib. by rewrite app_nil_r. }
    destruct (IH s1) as (s' & E & Q & B & P & U & C & I); [done|by rewrite B1|].
    exists s'. unfold run_operations in *. cbn [for_each]. rewrite E1. simpl.
    split_and!; try congruence.
    rewrite Q, Q1. by rewrite <- app_assoc.
Qed.

(** X6.  The main queue is first in, first out: over any run of worker
    rounds, requests and refresh results, the events applied as fresh events
    followed by the events still queued are the ones applied and queued
    before, followed by the events pushed during the run, in the order of
    the pushes; when no refresh result arrives the events pushed are the
    requests of the application. *)
Theorem main_queue_is_first_in_first_out
    (ops : list operation) (s s' : social_graph) :
  run_operations ops s = Some s' →
  ∃ pushed,
    (fst <$> fresh_applications s') ++ m_internalEventQueue s'
    = (fst <$> fresh_applications s) ++ m_internalEventQueue s ++ pushed
    ∧ (forallb (λ o, negb (is_refresh o)) ops = true →
       pushed = concat (requested_event <$> ops)).
Proof.
  revert s. induction ops as [|o ops IH]; intros s E.
  - unfold run_operations in E. simpl in E. simplify_eq. exists []. by rewrite !app_nil_r.
  - unfold run_operations in *. cbn [for_each] in E.
    destruct (run_operation o s) as [s1|] eqn:E1; simpl in E; [|done].
    apply IH in E as (pushed & Q & R).
    assert (∃ p1, (fst <$> fresh_applications s1) ++ m_internalEventQueue s1
                  = (fst <$> fresh_applications s) ++ m_internalEventQueue s ++ p1
                  ∧ (is_refresh o = false → p1 = requested_event o)) as (p1 & Q1 & R1).
    { destruct o as [|users c|users|m]; simpl in E1.
      - destruct (do_event_work s) as [[r s2]|] eqn:E2; simpl in E1; [|done]. simplify_eq.
        exists []. rewrite app_nil_r. split; [|done]. by eapply do_event_work_queue.
      - simplify_eq. by exists [event_of_strings users_added users c].
      - simplify_eq. by exists [event_of_ids users_removed users].
      - unfold perform_diff in E1.
        destruct (inactive_buffer _) as [b|]; [|simplify_eq; exists []; by rewrite app_nil_r].
        destruct (diff_scan_current _ _) as [[[[l1 l2] l3] l4]|]; simpl in E1; [|done].
        destruct (diff_scan_previous _ _ _) as [l5|]; simpl in E1; [|done].
        simplify_eq. exists (diff_events l1 l5 l2 l3 l4). split; [|done].
        unfold push_if, diff_events.
        repeat (match goal with |- context [bool_decide ?P] => destruct (bool_decide P) end);
          simpl; rewrite <- ?app_assoc; try rewrite app_nil_r; reflexivity. }
    exists (p1 ++ pushed). split.
    + rewrite Q. rewrite app_assoc, Q1. by rewrite <- !app_assoc.
    + simpl. intros [Ho Hr]%andb_true_iff. apply negb_true_iff in Ho.
      by rewrite R1, R.
Qed.

End worker_rounds.

Section replays.
Context `{!Collaborators}.

Lemma for_each_replay_pending (ib : buffer_name) (l : list internal_social_event)
    (s s' : social_graph) :
  for_each (replay_step ib) l s = Some s' →
  m_isInitialized s' = m_isInitialized s
  ∧ m_socialGraphState s' = m_socialGraphState s
  ∧ pending_of ib s' = drop (length l) (pending_of ib s)
  ∧ (∀ b, b ≠ ib → pending_of b s' = pending_of b s).
Proof.
  revert s. induction l as [|evt l IH]; intros s E; simpl in E.
  - by simplify_eq.
  - destruct (replay_step ib evt s) as [s1|] eqn:E1; simpl in E; [|done].
    apply replay_step_frame in E1 as (H1 & H2 & _ & _ & _ & _ & H7 & H8 & _).
    apply IH in E as (G1 & G2 & G7 & G8).
    split_and!; try congruence.
    + rewrite G7, H7. simpl. destruct (pending_of ib s); simpl; [by rewrite drop_nil|done].
    + intros b Hb. by rewrite G8, H8.
Qed.

(** X7.  A round of the worker that finds pending events on the inactive
    buffer replays exactly those events, in order, and nothing else: the list
    is empty afterwards, the other buffer's list, the main queue, the counter
    of fresh events and the roles are untouched, the state is back to
    [normal], and the round reports work done. *)
Theorem cached_round_replays_pending_events
    (s s' : social_graph) (ib : buffer_name) (r : bool) :
  m_isInitialized s = true →
  inactive_buffer (m_userBuffer s) = Some ib →
  pending_of ib s ≠ [] →
  do_event_work s = Some (r, s') →
  r = true
  ∧ applications s' = applications s ++ ((λ evt, (evt, false)) <$> pending_of ib s)
  ∧ pending_of ib s' = []
  ∧ (∀ b, b ≠ ib → pending_of b s' = pending_of b s)
  ∧ m_internalEventQueue s' = m_internalEventQueue s
  ∧ m_numEventsThisFrame s' = m_numEventsThisFrame s
  ∧ m_socialGraphState s' = normal
  ∧ active_buffer (m_userBuffer s') = active_buffer (m_userBuffer s)
  ∧ inactive_buffer (m_userBuffer s') = inactive_buffer (m_userBuffer s).
Proof.
  intros Hi Hib Hp E. rewrite (do_event_work_cached s ib) in E by done.
  destruct (for_each _ _ _) as [s1|] eqn:E1; simpl in E; [|done]. simplify_eq.
  pose proof (for_each_replay_frame _ _ _ _ E1) as (H3 & H4 & H5 & H6 & H9).
  pose proof (for_each_replay_pending _ _ _ _ E1) as (_ & _ & H7 & H8).
  split_and!; try done.
  change (pending_of ib (set_state normal s1)) with (pending_of ib s1).
  rewrite H7. change (pending_of ib (set_state event_processing s)) with (pending_of ib s).
  by rewrite drop_all.
Qed.


Lemma apply_users_added_event_replayed (evt : internal_social_event) (ib : buffer_name)
    (s : social_graph) :
  let s' := apply_users_added_event evt ib false s in
  m_socialUserSubscriptions s' = m_socialUserSubscriptions s
  ∧ m_socialEventQueue s' = m_socialEventQueue s
  ∧ ∃ l, calls s' = calls s ++ l ∧ Forall resolves l.
Proof.
  unfold apply_users_added_event. destruct (users_added_scan _ _) as [g [|u l]]; simpl.
  - split_and!; try done. eexists [_]. split; [done|]. repeat constructor. by eexists _, _.
  - split_and!; try done. exists []. by rewrite app_nil_r.
Qed.

Lemma apply_users_removed_event_replayed (evt : internal_social_event) (ib : buffer_name)
    (t : social_event_type) (s : social_graph) :
  let s' := (apply_users_removed_event evt ib t false s).1 in
  m_socialUserSubscriptions s' = m_socialUserSubscriptions s
  ∧ m_socialEventQueue s' = m_socialEventQueue s
  ∧ calls s' = calls s.
Proof.
  unfold apply_users_removed_event. by destruct (foldl _ _ _) as [[g rem] t'].
Qed.

Lemma apply_users_change_event_replayed (evt : internal_social_event) (ib : buffer_name)
    (s s' : social_graph) :
  apply_users_change_event evt ib false s = Some s' →
  m_socialUserSubscriptions s' = m_socialUserSubscriptions s
  ∧ (err (error evt) = no_error → m_socialEventQueue s' = m_socialEventQueue s)
  ∧ calls s' = calls s ++ resolution_of evt.
Proof.
  unfold apply_users_change_event, resolution_of. intros E.
  destruct (decide (err (error evt) ≠ no_error)) as [Herr|Herr].
  - simplify_eq. split_and!; [by destruct (isNull _)|done|].
    destruct (isNull _); simpl; by rewrite ?app_nil_r.
  - destruct (users_change_scan _ _) as [[[ub toAdd] changed]|]; simpl in E; [|done].
    destruct toAdd as [|u toAdd]; simpl in E;
      [|destruct (add_users_to_buffer _ _ _) as [ub'|]; simpl in E; [|done]];
      destruct changed; simplify_eq;
      (split_and!;
       [by destruct (isNull _)|by destruct (isNull _)
       |destruct (isNull _); simpl; by rewrite ?app_nil_r]).
Qed.

Lemma apply_device_presence_changed_event_replayed (evt : internal_social_event)
    (ib : buffer_name) (t : social_event_type) (s : social_graph)
    (r : social_graph * social_event_type) :
  apply_device_presence_changed_event evt ib false t s = Some r →
  m_socialUserSubscriptions r.1 = m_socialUserSubscriptions s
  ∧ m_socialEventQueue r.1 = m_socialEventQueue s
  ∧ calls r.1 = calls s.
Proof.
  unfold apply_device_presence_changed_event. intros E.
  repeat (case_match; simplify_option_eq); try done.
  all: match goal with Hf : _ && false = true |- _ => by rewrite andb_false_r in Hf end.
Qed.

Lemma apply_presence_changed_event_replayed (evt : internal_social_event)
    (ib : buffer_name) (s s' : social_graph) :
  apply_presence_changed_event evt ib false s = Some s' →
  m_socialUserSubscriptions s' = m_socialUserSubscriptions s
  ∧ m_socialEventQueue s' = m_socialEventQueue s
  ∧ calls s' = calls s.
Proof.
  unfold apply_presence_changed_event. intros E.
  destruct (presence_changed_scan _ _) as [[ub ids]|]; simpl in E; [|done].
  destruct ids; by simplify_eq.
Qed.

Lemma apply_title_presence_changed_effects (evt : internal_social_event)
    (ib : buffer_name) (t : social_event_type) (s : social_graph)
    (r : social_graph * social_event_type) :
  apply_title_presence_changed evt ib t s = Some r →
  m_socialUserSubscriptions r.1 = m_socialUserSubscriptions s
  ∧ m_socialEventQueue r.1 = m_socialEventQueue s
  ∧ calls r.1 = calls s.
Proof.
  unfold apply_title_presence_changed. intros E.
  repeat (case_match; simplify_option_eq); done.
Qed.

Lemma apply_profiles_changed_effects (evt : internal_social_event)
    (ib : buffer_name) (s s' : social_graph) :
  apply_profiles_changed evt ib s = Some s' →
  m_socialUserSubscriptions s' = m_socialUserSubscriptions s
  ∧ m_socialEventQueue s' = m_socialEventQueue s
  ∧ calls s' = calls s.
Proof.
  unfold apply_profiles_changed. intros E.
  destruct (for_each _ _ _) as [ub|]; simpl in E; [|done]. by simplify_eq.
Qed.

(** X8.  A replayed event is silent: it makes no subscription and fires no
    timer, the only calls it makes resolve completion events, and it queues
    no public event unless it is the report of a failed fetch. *)
Theorem replayed_event_is_silent
    (evt : internal_social_event) (s s' : social_graph) :
  apply_event evt false s = Some s' →
  m_socialUserSubscriptions s' = m_socialUserSubscriptions s
  ∧ (∃ l, outbound_calls s' = outbound_calls s ++ l ∧ Forall resolves l)
  ∧ (¬ (event_type evt = users_changed ∧ err (error evt) ≠ no_error) →
     public_events s' = public_events s).
Proof.
  intros E.
  assert (m_socialUserSubscriptions s' = m_socialUserSubscriptions s
          ∧ (∃ l, calls s' = calls s ++ enter_apply_event evt false :: l ∧ Forall resolves l)
          ∧ (¬ (event_type evt = users_changed ∧ err (error evt) ≠ no_error) →
             m_socialEventQueue s' = m_socialEventQueue s)) as (H1 & (l & H2 & H3) & H4).
  { unfold apply_event in E. set (s0 := record_call _ s) in E.
    assert (calls s0 = calls s ++ [enter_apply_event evt false]) as Hc by done.
    assert (∀ x, calls x = calls s0 →
                 ∃ l, calls x = calls s ++ enter_apply_event evt false :: l
                      ∧ Forall resolves l) as Hnil.
    { intros x ->. exists []. by rewrite Hc. }
    destruct (inactive_buffer (m_userBuffer s0)) as [ib|] eqn:Hib.
    2:{ simplify_eq. split_and!; [done|by apply Hnil|done]. }
    destruct (event_type evt) eqn:Ht; simpl in E.
    - simplify_eq.
      destruct (apply_users_added_event_replayed evt ib s0) as (G1 & G2 & l & G3 & G4).
      split_and!; [done| |done]. exists l. rewrite G3, Hc, <- app_assoc. done.
    - destruct (apply_users_change_event _ _ _ _) as [s1|] eqn:E1; simpl in E; [|done].
      simplify_eq.
      apply apply_users_change_event_replayed in E1 as (G1 & G2 & G3).
      split_and!; [done| |].
      + exists (resolution_of evt). rewrite G3, Hc, <- app_assoc. split; [done|].
        unfold resolution_of. destruct (isNull _); repeat constructor. by eexists _, _.
      + intros Hn. rewrite G2; [done|].
        destruct (decide (err (error evt) = no_error)); [done|]. by destruct Hn.
    - simplify_eq.
      destruct (apply_users_removed_event evt ib public_unknown false s0) as [s1 t] eqn:E1.
      pose proof (apply_users_removed_event_replayed evt ib public_unknown s0) as G.
      rewrite E1 in G. simpl in G. destruct G as (G1 & G2 & G3).
      simplify_eq. split_and!; [done|by apply Hnil|done].
    - destruct (apply_device_presence_changed_event _ _ _ _ _) as [[s1 t]|] eqn:E1;
        simpl in E; [|done]. simplify_eq.
      apply apply_device_presence_changed_event_replayed in E1 as (G1 & G2 & G3).
      split_and!; [done|by apply Hnil|done].
    - destruct (apply_title_presence_changed _ _ _ _) as [[s1 t]|] eqn:E1;
        simpl in E; [|done]. simplify_eq.
      apply apply_title_presence_changed_effects in E1 as (G1 & G2 & G3).
      split_and!; [done|by apply Hnil|done].
    - destruct (apply_presence_changed_event _ _ _ _) as [s1|] eqn:E1; simpl in E; [|done].
      simplify_eq.
      apply apply_presence_changed_event_replayed in E1 as (G1 & G2 & G3).
      split_and!; [done|by apply Hnil|done].
    - destruct (apply_profiles_changed _ _ _) as [s1|] eqn:E1; simpl in E; [|done].
      simplify_eq.
      apply apply_profiles_changed_effects in E1 as (G1 & G2 & G3).
      split_and!; [done|by apply Hnil|done].
    - destruct (apply_profiles_changed _ _ _) as [s1|] eqn:E1; simpl in E; [|done].
      simplify_eq.
      apply apply_profiles_changed_effects in E1 as (G1 & G2 & G3).
      split_and!; [done|by apply Hnil|done].
    - simplify_eq. split_and!; [done|by apply Hnil|done]. }
  split_and!; [done| |].
  - exists l. split; [|done]. rewrite (outbound_calls_app s s' _ H2).
    rewrite filter_cons_False by (simpl; intros ?; done).
    f_equal. clear H2. induction H3 as [|c l (n & r & ->) _ IH]; [done|].
    rewrite filter_cons_True by done. by rewrite IH.
  - intros Hn. unfold public_events. by rewrite H4.
Qed.

End replays.

(** ** Requests to track users *)

Section tracking.
Context `{!Collaborators}.

(** The first loop of [apply_users_added_event] collects, in order, the ids
    that are not in the graph, and adds no key to the graph. *)
Lemma users_added_scan_collects (g : gmap N xbox_social_user_context) (users : list string) :
  (users_added_scan g users).2 = filter (λ u, g !! string_t_to_uint64 u = None) users
  ∧ ∀ k, (users_added_scan g users).1 !! k = None ↔ g !! k = None.
Proof.
  induction users as [|u users IH] using rev_ind; [done|].
  rewrite users_added_scan_snoc. destruct (users_added_scan g users) as [g' l].
  simpl in IH. destruct IH as [IH1 IH2]. rewrite filter_app.
  destruct (g' !! string_t_to_uint64 u) as [ctx|] eqn:Hu; simpl.
  - assert (g !! string_t_to_uint64 u ≠ None) as Hg.
    { intros Hn. apply IH2 in Hn. congruence. }
    rewrite filter_cons_False, filter_nil, app_nil_r by done. split; [done|].
    intros k. destruct (decide (k = string_t_to_uint64 u)) as [->|Hk].
    + rewrite lookup_insert_eq. split; [done|]. intros Hn. by destruct Hg.
    + by rewrite lookup_insert_ne.
  - apply IH2 in Hu. rewrite filter_cons_True, filter_nil by done. by rewrite IH1.
Qed.

(** X9.  What a request to track users asks of the collaborators.  When
    every id of the request is already in the graph its completion event is
    resolved at once, with success, also when the event is replayed.
    Otherwise a fresh event fires the graph refresh timer once, for the ids
    that are not in the graph, in the order of the request, with a completion
    context that carries the next context number, their count and the
    completion event of the request; a replayed event calls nobody.  Either
    way no public event is queued and no subscription is made. *)
Theorem users_added_request_fetches_unknown_users
    (evt : internal_social_event) (isFreshEvent : bool) (s : social_graph)
    (ib : buffer_name) :
  inactive_buffer (m_userBuffer s) = Some ib →
  event_type evt = users_added →
  ∃ s', apply_event evt isFreshEvent s = Some s'
    ∧ public_events s' = public_events s
    ∧ m_socialUserSubscriptions s' = m_socialUserSubscriptions s
    ∧ outbound_calls s'
      = outbound_calls s
        ++ match filter (λ u, graph_of ib s !! string_t_to_uint64 u = None)
                   (users_affected_as_string_vec evt) with
           | [] => [tce_set (tce evt) result_success]
           | usersToAdd =>
               if isFreshEvent
               then [timer_fire m_socialGraphRefreshTimer usersToAdd
                       {| isNull := false;
                          context := incr32 (m_userAddedContext s);
                          numObjects := N.of_nat (length usersToAdd);
                          cc_tce := tce evt |}]
               else []
           end.
Proof.
  intros Hib Ht. rewrite (apply_event_users_added evt isFreshEvent s ib) by done.
  eexists. split; [done|].
  unfold apply_users_added_event.
  set (s0 := record_call (enter_apply_event evt isFreshEvent) s).
  change (buffer_of ib s0) with (buffer_of ib s).
  pose proof (users_added_scan_collects (socialUserGraph (buffer_of ib s))
                (users_affected_as_string_vec evt)) as [Hl _].
  unfold graph_of. rewrite <- Hl.
  destruct (users_added_scan _ _) as [g [|u l]]; simpl.
  - split_and!; try done.
    rewrite (outbound_calls_app s _ [enter_apply_event evt isFreshEvent;
                                     tce_set (tce evt) result_success]) by
      (simpl; by rewrite <- app_assoc).
    by rewrite filter_cons_False, filter_cons_True, filter_nil by (simpl; congruence).
  - destruct isFreshEvent; simpl; (split_and!; try done).
    + rewrite (outbound_calls_app s _
                 [enter_apply_event evt true;
                  timer_fire m_socialGraphRefreshTimer (u :: l)
                    {| isNull := false; context := incr32 (m_userAddedContext s);
                       numObjects := N.of_nat (S (length l)); cc_tce := tce evt |}]) by
        (simpl; by rewrite <- app_assoc).
      by rewrite filter_cons_False, filter_cons_True, filter_nil by (simpl; congruence).
    + rewrite (outbound_calls_app s _ [enter_apply_event evt false]) by done.
      by rewrite filter_cons_False, filter_nil by (simpl; congruence).
Qed.

End tracking.

(** ** Who is tracked *)


Lemma keeps_counts_refl (g : gmap N xbox_social_user_context) : keeps_counts g g.
Proof. intros id ctx ?. by exists ctx. Qed.

Lemma keeps_counts_trans (g1 g2 g3 : gmap N xbox_social_user_context) :
  keeps_counts g1 g2 → keeps_counts g2 g3 → keeps_counts g1 g3.
Proof.
  intros H1 H2 id ctx Hid. apply H1 in Hid as (ctx1 & Hid & <-). by apply H2 in Hid.
Qed.

Lemma construct_slot_graph (p : slot_ptr) (u : xbox_social_user) (ub ub' : user_buffer) :
  construct_slot p u ub = Some ub' → socialUserGraph ub' = socialUserGraph ub.
Proof.
  unfold construct_slot. intros E.
  destruct (slabs ub !! block p); simpl in E; [|done].
  destruct (decide _); by simplify_eq.
Qed.

Lemma initialize_user_in_map_keeps_counts (i : nat) (ub ub' : user_buffer) :
  initialize_user_in_map i ub = Some ub' →
  keeps_counts (socialUserGraph ub) (socialUserGraph ub').
Proof.
  unfold initialize_user_in_map. intros E.
  destruct (buffer ub) as [b|]; simpl in E; [|done].
  destruct (read_slot _ ub) as [u|]; simpl in E; [|done].
  destruct (socialUserGraph ub !! _Xbox_user_id_as_integer u) as [ctx0|] eqn:Hu;
    simplify_eq; simpl; intros id ctx Hid.
  - destruct (decide (id = _Xbox_user_id_as_integer u)) as [->|Hne].
    + rewrite lookup_insert_eq. eexists. split; [done|]. simpl. congruence.
    + rewrite lookup_insert_ne by done. by exists ctx.
  - destruct (decide (id = _Xbox_user_id_as_integer u)) as [->|Hne]; [congruence|].
    rewrite lookup_insert_ne by done. by exists ctx.
Qed.

Lemma initialize_users_in_map_keeps_counts (ub ub' : user_buffer) (n off : nat) :
  initialize_users_in_map ub n off = Some ub' →
  keeps_counts (socialUserGraph ub) (socialUserGraph ub').
Proof.
  unfold initialize_users_in_map. intros E.
  refine (for_each_invariant (λ x, keeps_counts (socialUserGraph ub) (socialUserGraph x))
            _ _ _ _ _ (keeps_counts_refl _) E).
  intros x a a' _ Ha Hstep. eapply keeps_counts_trans; [done|].
  by eapply initialize_user_in_map_keeps_counts.
Qed.

Lemma initialize_buffer_keeps_counts (ub ub' : user_buffer) (users : list xbox_social_user)
    (n : nat) :
  initialize_buffer ub users n = Some ub' →
  keeps_counts (socialUserGraph ub) (socialUserGraph ub').
Proof.
  unfold initialize_buffer. intros E.
  apply initialize_users_in_map_keeps_counts in E.
  unfold buffer_init, buffer_alloc in E. by destruct (decide _).
Qed.

Lemma reallocate_keeps_counts (ub ub' : user_buffer) (n : nat) :
  reallocate ub n = Some ub' → keeps_counts (socialUserGraph ub) (socialUserGraph ub').
Proof.
  unfold reallocate. intros E.
  destruct (if decide _ then _ else _) as [v|]; simpl in E; [|done].
  apply initialize_buffer_keeps_counts in E. unfold mem_free in E.
  by destruct (buffer ub).
Qed.

Lemma add_user_to_buffer_keeps_counts (u : xbox_social_user) (ub ub' : user_buffer) :
  add_user_to_buffer u ub = Some ub' →
  keeps_counts (socialUserGraph ub) (socialUserGraph ub').
Proof.
  unfold add_user_to_buffer. intros E.
  destruct (head (freeData ub)) as [[p|]|]; simpl in E; try done.
  destruct (buffer ub) as [b|]; simpl in E; [|done].
  destruct (construct_slot _ _ _) as [ub1|] eqn:E1; simpl in E; [|done].
  destruct (decide _); [|done].
  apply construct_slot_graph in E1. simpl in E1. rewrite <- E1.
  by eapply initialize_users_in_map_keeps_counts.
Qed.

Lemma add_users_to_buffer_keeps_counts (users : list xbox_social_user)
    (ub ub' : user_buffer) (n : nat) :
  add_users_to_buffer users ub n = Some ub' →
  keeps_counts (socialUserGraph ub) (socialUserGraph ub').
Proof.
  unfold add_users_to_buffer. intros E.
  destruct (if decide _ then _ else _) as [ub1|] eqn:E1; simpl in E; [|done].
  assert (keeps_counts (socialUserGraph ub) (socialUserGraph ub1)) as H1.
  { destruct (decide _); [by apply reallocate_keeps_counts in E1|].
    simplify_eq. apply keeps_counts_refl. }
  refine (for_each_invariant (λ x, keeps_counts (socialUserGraph ub) (socialUserGraph x))
            _ _ _ _ _ H1 E).
  intros x a a' _ Ha Hstep. eapply keeps_counts_trans; [done|].
  by eapply add_user_to_buffer_keeps_counts.
Qed.

Section who_is_tracked.
Context `{!Collaborators}.

Lemma setup_subscriptions_buffer (b : buffer_name) (users : list N) (s : social_graph) :
  buffer_of b (setup_device_and_presence_subscriptions users s) = buffer_of b s.
Proof.
  unfold setup_device_and_presence_subscriptions,
    setup_device_and_presence_subscriptions_helper. simpl.
  revert s. induction users as [|x l IH]; intros s; [done|]. simpl. by rewrite IH.
Qed.

Lemma users_change_scan_graph (ub ub' : user_buffer)
    (users toAdd changed : list xbox_social_user) :
  users_change_scan ub users = Some (ub', toAdd, changed) →
  socialUserGraph ub' = socialUserGraph ub.
Proof.
  unfold users_change_scan. intros E.
  refine (for_each_invariant (λ x, socialUserGraph x.1.1 = socialUserGraph ub)
            _ _ _ (ub', toAdd, changed) _ _ E); [|done].
  intros u [[a l1] l2] [[a' l1'] l2'] _ Ha Hstep. simpl in *.
  destruct (socialUserGraph a !! _) as [ctx|]; [|by simplify_eq].
  destruct (socialUser ctx) as [p|]; [|by simplify_eq].
  destruct (assign_slot p u a) as [a1|] eqn:E1; simpl in Hstep; [|done]. simplify_eq.
  apply assign_slot_graph in E1. congruence.
Qed.

Lemma presence_changed_scan_graph (ub ub' : user_buffer)
    (records : list social_manager_presence_record) (ids : list N) :
  presence_changed_scan ub records = Some (ub', ids) →
  socialUserGraph ub' = socialUserGraph ub.
Proof.
  unfold presence_changed_scan. intros E.
  refine (for_each_invariant (λ x, socialUserGraph x.1 = socialUserGraph ub)
            _ _ _ (ub', ids) _ _ E); [|done].
  intros r [a l] [a' l'] _ Ha Hstep. simpl in *.
  destruct (decide _); [by simplify_eq|].
  destruct (socialUserGraph a !! _) as [ctx|]; [|by simplify_eq].
  destruct (socialUser ctx) as [p|]; [|by simplify_eq].
  destruct (read_slot p a) as [u|]; simpl in Hstep; [|done].
  destruct (presence_Compare _ _); [|by simplify_eq].
  destruct (assign_slot p _ a) as [a1|] eqn:E1; simpl in Hstep; [|done]. simplify_eq.
  apply assign_slot_graph in E1. congruence.
Qed.

Lemma profiles_changed_graph (ub ub' : user_buffer) (users : list xbox_social_user) :
  for_each profiles_changed_step users ub = Some ub' →
  socialUserGraph ub' = socialUserGraph ub.
Proof.
  intros E.
  refine (for_each_invariant (λ x, socialUserGraph x = socialUserGraph ub)
            _ _ _ ub' _ _ E); [|done].
  intros u a a' _ Ha Hstep. unfold profiles_changed_step in Hstep.
  destruct (socialUserGraph a !! _) as [ctx|]; simpl in Hstep; [|done].
  destruct (socialUser ctx) as [p|]; simpl in Hstep; [|done].
  apply assign_slot_graph in Hstep. congruence.
Qed.

(** X10.  Only requests change who is tracked and how often.  An event that
    is neither [users_added] nor [users_removed] evicts no id from the graph
    of the buffer it is applied to and changes no reference count; unless
    it is [users_changed] (the result of a fetch, which fills slots) it
    leaves the graph as it is. *)
Theorem only_requests_change_who_is_tracked
    (evt : internal_social_event) (isFreshEvent : bool) (s s' : social_graph)
    (ib : buffer_name) :
  inactive_buffer (m_userBuffer s) = Some ib →
  apply_event evt isFreshEvent s = Some s' →
  event_type evt ≠ users_added →
  event_type evt ≠ users_removed →
  (∀ id ctx, graph_of ib s !! id = Some ctx →
             ∃ ctx', graph_of ib s' !! id = Some ctx' ∧ refCount ctx' = refCount ctx)
  ∧ (event_type evt ≠ users_changed → graph_of ib s' = graph_of ib s).
Proof.
  intros Hib E Ha Hr.
  assert (∀ x t e, graph_of ib (push_social_event x t e s') = graph_of ib s') as Hpush by done.
  cut (keeps_counts (graph_of ib s) (graph_of ib s')
       ∧ (event_type evt ≠ users_changed → graph_of ib s' = graph_of ib s)); [done|].
  unfold apply_event in E. set (s0 := record_call _ s) in E.
  change (inactive_buffer (m_userBuffer s0)) with (inactive_buffer (m_userBuffer s)) in E.
  rewrite Hib in E.
  change (graph_of ib s) with (graph_of ib s0). clearbody s0.
  assert (∀ x : social_graph,
            graph_of ib (if isFreshEvent then x else x) = graph_of ib x) as Hif
    by (by destruct isFreshEvent).
  destruct (event_type evt) eqn:Ht; simpl in E; try done.
  - (* users_changed *)
    split; [|done].
    destruct (apply_users_change_event _ _ _ _) as [s1|] eqn:E1; simpl in E; [|done].
    assert (graph_of ib s' = graph_of ib s1) as -> by (destruct isFreshEvent; by simplify_eq).
    clear E. unfold apply_users_change_event in E1.
    set (s2 := if isNull _ then s0 else _) in E1.
    assert (graph_of ib s0 = graph_of ib s2) as -> by (unfold s2; by destruct (isNull _)).
    clearbody s2. destruct (decide _); [simplify_eq; apply keeps_counts_refl|].
    destruct (users_change_scan _ _) as [[[ub toAdd] changed]|] eqn:E2; simpl in E1; [|done].
    apply users_change_scan_graph in E2.
    assert (∃ s3, keeps_counts (graph_of ib s2) (graph_of ib s3)
                  ∧ match changed with
                    | [] => Some s3
                    | _ :: _ =>
                        if isFreshEvent
                        then Some (push_social_event
                                     (event_of_users profiles_changed changed
                                        null_completion_context)
                                     public_profiles_changed result_success s3)
                        else Some s3
                    end = Some s1) as (s3 & K & E3).
    { destruct toAdd as [|u toAdd]; simpl in E1.
      - eexists. split; [|exact E1]. unfold graph_of.
        rewrite buffer_of_set_buffer_eq, E2. apply keeps_counts_refl.
      - rewrite buffer_of_set_buffer_eq in E1.
        destruct (add_users_to_buffer _ _ _) as [ub1|] eqn:E4; simpl in E1; [|done].
        apply add_users_to_buffer_keeps_counts in E4. rewrite E2 in E4.
        destruct isFreshEvent; simpl in E1.
        + eexists. split; [|exact E1]. unfold graph_of.
          change (buffer_of ib (push_social_event ?a ?b ?c ?x)) with (buffer_of ib x).
          by rewrite setup_subscriptions_buffer, buffer_of_set_buffer_eq.
        + eexists. split; [|exact E1]. unfold graph_of.
          by rewrite buffer_of_set_buffer_eq. }
    destruct changed; [by simplify_eq|]. destruct isFreshEvent; by simplify_eq.
  - (* device_presence_changed *)
    destruct (apply_device_presence_changed_event _ _ _ _ _) as [[s1 t]|] eqn:E1;
      simpl in E; [|done].
    assert (graph_of ib s' = graph_of ib s1) as -> by (destruct isFreshEvent; by simplify_eq).
    cut (graph_of ib s1 = graph_of ib s0).
    { intros ->. split; [apply keeps_counts_refl|done]. }
    clear E. unfold apply_device_presence_changed_event in E1.
    repeat (case_match; simplify_option_eq); try done.
    all: unfold graph_of; rewrite buffer_of_set_buffer_eq; by eapply assign_slot_graph.
  - (* title_presence_changed *)
    destruct (apply_title_presence_changed _ _ _ _) as [[s1 t]|] eqn:E1;
      simpl in E; [|done].
    assert (graph_of ib s' = graph_of ib s1) as -> by (destruct isFreshEvent; by simplify_eq).
    cut (graph_of ib s1 = graph_of ib s0).
    { intros ->. split; [apply keeps_counts_refl|done]. }
    clear E. unfold apply_title_presence_changed in E1.
    repeat (case_match; simplify_option_eq); try done.
    all: unfold graph_of; rewrite buffer_of_set_buffer_eq; by eapply assign_slot_graph.
  - (* presence_changed *)
    destruct (apply_presence_changed_event _ _ _ _) as [s1|] eqn:E1; simpl in E; [|done].
    assert (graph_of ib s' = graph_of ib s1) as -> by (destruct isFreshEvent; by simplify_eq).
    cut (graph_of ib s1 = graph_of ib s0).
    { intros ->. split; [apply keeps_counts_refl|done]. }
    clear E. unfold apply_presence_changed_event in E1.
    destruct (presence_changed_scan _ _) as [[ub ids]|] eqn:E2; simpl in E1; [|done].
    apply presence_changed_scan_graph in E2.
    destruct ids; [|destruct isFreshEvent]; simplify_eq; unfold graph_of;
      change (buffer_of ib (push_social_event ?a ?b ?c ?x)) with (buffer_of ib x);
      by rewrite buffer_of_set_buffer_eq.
  - (* social_relationships_changed *)
    destruct (apply_profiles_changed _ _ _) as [s1|] eqn:E1; simpl in E; [|done].
    assert (graph_of ib s' = graph_of ib s1) as -> by (destruct isFreshEvent; by simplify_eq).
    cut (graph_of ib s1 = graph_of ib s0).
    { intros ->. split; [apply keeps_counts_refl|done]. }
    clear E. unfold apply_profiles_changed in E1.
    destruct (for_each _ _ _) as [ub|] eqn:E2; simpl in E1; [|done]. simplify_eq.
    apply profiles_changed_graph in E2. unfold graph_of.
    by rewrite buffer_of_set_buffer_eq.
  - (* profiles_changed *)
    destruct (apply_profiles_changed _ _ _) as [s1|] eqn:E1; simpl in E; [|done].
    assert (graph_of ib s' = graph_of ib s1) as -> by (destruct isFreshEvent; by simplify_eq).
    cut (graph_of ib s1 = graph_of ib s0).
    { intros ->. split; [apply keeps_counts_refl|done]. }
    clear E. unfold apply_profiles_changed in E1.
    destruct (for_each _ _ _) as [ub|] eqn:E2; simpl in E1; [|done]. simplify_eq.
    apply profiles_changed_graph in E2. unfold graph_of.
    by rewrite buffer_of_set_buffer_eq.
  - (* unknown *)
    assert (graph_of ib s' = graph_of ib s0) as -> by (destruct isFreshEvent; by simplify_eq).
    split; [apply keeps_counts_refl|done].
Qed.

End who_is_tracked.

(** ** Presence and profile events *)

Lemma for_each_fails {A B : Type} (P : A → Prop) (body : B → A → option A)
    (l : list B) (x : B) (a : A) :
  x ∈ l →
  (∀ y a a', y ∈ l → P a → body y a = Some a' → P a') →
  (∀ a, P a → body x a = None) →
  P a → for_each body l a = None.
Proof.
  intros Hx Hinv Hfail. revert a.
  induction l as [|y l IH]; intros a Ha; [by apply elem_of_nil in Hx|].
  simpl. destruct (body y a) as [a'|] eqn:E; [|done]. simpl.
  apply elem_of_cons in Hx as [->|Hx].
  - rewrite Hfail in E; done.
  - apply IH; [done| |].
    + intros z b b' Hz. apply Hinv. by apply list_elem_of_further.
    + eapply Hinv; [apply list_elem_of_here|done|done].
Qed.

Section presence_and_profiles.
Context `{!Collaborators}.


(** X11.  A device or title presence event about a user who is not in the
    graph of the inactive buffer, or whose slot is still empty, is ignored:
    nothing changes, nobody is called and no public event is queued, whether
    the event is fresh or replayed. *)
Theorem presence_event_for_unknown_user_is_ignored
    (evt : internal_social_event) (isFreshEvent : bool) (s : social_graph)
    (ib : buffer_name) :
  inactive_buffer (m_userBuffer s) = Some ib →
  event_type evt = device_presence_changed ∨ event_type evt = title_presence_changed →
  from_option socialUser None (graph_of ib s !! presence_subject evt) = None →
  apply_event evt isFreshEvent s = Some (record_call (enter_apply_event evt isFreshEvent) s).
Proof.
  intros Hib Ht Hu. unfold apply_event.
  set (s0 := record_call _ s).
  change (inactive_buffer (m_userBuffer s0)) with (inactive_buffer (m_userBuffer s)).
  rewrite Hib. unfold presence_subject, graph_of in Hu.
  change (buffer_of ib s) with (buffer_of ib s0) in Hu.
  destruct Ht as [Ht|Ht]; rewrite Ht in *; simpl.
  - unfold apply_device_presence_changed_event.
    change (inactive_buffer (m_userBuffer s0)) with (inactive_buffer (m_userBuffer s)).
    rewrite Hib. simpl.
    destruct (socialUserGraph (buffer_of ib s0) !! _) as [ctx|]; simpl in *.
    + rewrite Hu. simpl. rewrite push_unknown_id. by destruct isFreshEvent.
    + rewrite push_unknown_id. by destruct isFreshEvent.
  - unfold apply_title_presence_changed.
    destruct (socialUserGraph (buffer_of ib s0) !! _) as [ctx|]; simpl in *.
    + rewrite Hu. simpl. rewrite push_unknown_id. by destruct isFreshEvent.
    + rewrite push_unknown_id. by destruct isFreshEvent.
Qed.

(** X12.  A title presence event about a user whose slot in the inactive
    buffer holds a user.  When the title has ended the presence record in the
    slot is replaced by its [_Remove_title] image; otherwise the slot is left
    as it is.  Either way the graph is unchanged, nobody is called, and a
    fresh event queues one public [presence_changed] event (also when
    nothing was changed); a replayed event queues none. *)
Theorem title_presence_change_updates_and_reports
    (evt : internal_social_event) (isFreshEvent : bool) (s : social_graph)
    (ib : buffer_name) (ctx : xbox_social_user_context) (p : slot_ptr)
    (user : xbox_social_user) :
  inactive_buffer (m_userBuffer s) = Some ib →
  event_type evt = title_presence_changed →
  graph_of ib s !! string_t_to_uint64 (tp_xbox_user_id (title_presence_args evt))
    = Some ctx →
  socialUser ctx = Some p →
  read_slot p (buffer_of ib s) = Some user →
  ∃ s', apply_event evt isFreshEvent s = Some s'
    ∧ read_slot p (buffer_of ib s')
      = Some (if decide (tp_title_state (title_presence_args evt) = ended)
              then _Set_presence_record
                     (_Remove_title (tp_title_id (title_presence_args evt))
                        (presence_record user)) user
              else user)
    ∧ graph_of ib s' = graph_of ib s
    ∧ (tp_title_state (title_presence_args evt) ≠ ended → m_userBuffer s' = m_userBuffer s)
    ∧ public_events s'
      = public_events s
        ++ (if isFreshEvent
            then [public_event_of evt public_presence_changed result_success]
            else [])
    ∧ outbound_calls s' = outbound_calls s.
Proof.
  intros Hib Ht Hg Hp Hr. unfold apply_event.
  set (s0 := record_call _ s).
  assert (outbound_calls s0 = outbound_calls s) as Hc.
  { rewrite (outbound_calls_app s s0 [enter_apply_event evt isFreshEvent]) by done.
    by rewrite filter_cons_False, filter_nil, app_nil_r by (simpl; congruence). }
  change (inactive_buffer (m_userBuffer s0)) with (inactive_buffer (m_userBuffer s)).
  rewrite Hib, Ht. simpl. unfold apply_title_presence_changed.
  unfold graph_of in *. change (buffer_of ib s0) with (buffer_of ib s).
  rewrite Hg. simpl. rewrite Hp. simpl. rewrite Hr. simpl.
  destruct (decide (tp_title_state (title_presence_args evt) = ended)) as [He|He].
  - destruct (assign_slot_is_Some p
                (_Set_presence_record
                   (_Remove_title (tp_title_id (title_presence_args evt))
                      (presence_record user)) user) user (buffer_of ib s) Hr) as [ub Hub].
    rewrite Hub. simpl.
    pose proof (read_assign_slot _ _ _ _ Hub) as (R1 & R2 & _).
    eexists. split; [done|].
    destruct isFreshEvent.
    + change (buffer_of ib (push_social_event ?a ?b ?c ?x)) with (buffer_of ib x).
      rewrite buffer_of_set_buffer_eq. split_and!; try done; by rewrite public_events_push.
    + rewrite buffer_of_set_buffer_eq. split_and!; try done; by rewrite app_nil_r.
  - eexists. split; [done|].
    destruct isFreshEvent.
    + change (buffer_of ib (push_social_event ?a ?b ?c ?x)) with (buffer_of ib x).
      change (buffer_of ib s0) with (buffer_of ib s).
      split_and!; try done; by rewrite public_events_push.
    + change (buffer_of ib s0) with (buffer_of ib s). split_and!; try done; by rewrite app_nil_r.
Qed.

(** X13.  A [profiles_changed] or [social_relationships_changed] event
    writes through the slot pointer of every user it names without looking:
    if one of them is not in the graph of the inactive buffer, or has no slot
    yet, the write goes through a null pointer and [apply_event] has no
    defined result. *)
Theorem profile_event_for_unknown_user_is_undefined
    (evt : internal_social_event) (isFreshEvent : bool) (s : social_graph)
    (ib : buffer_name) (user : xbox_social_user) :
  inactive_buffer (m_userBuffer s) = Some ib →
  event_type evt = profiles_changed ∨ event_type evt = social_relationships_changed →
  user ∈ users_affected evt →
  from_option socialUser None (graph_of ib s !! _Xbox_user_id_as_integer user) = None →
  apply_event evt isFreshEvent s = None.
Proof.
  intros Hib Ht Hu Hn. unfold apply_event.
  set (s0 := record_call _ s).
  change (inactive_buffer (m_userBuffer s0)) with (inactive_buffer (m_userBuffer s)).
  rewrite Hib.
  assert (apply_profiles_changed evt ib s0 = None) as Hnone.
  { unfold apply_profiles_changed.
    rewrite (for_each_fails
               (λ ub, socialUserGraph ub = socialUserGraph (buffer_of ib s))
               profiles_changed_step (users_affected evt) user); try done.
    - intros y a a' _ Ha Hstep. unfold profiles_changed_step in Hstep.
      destruct (socialUserGraph a !! _) as [ctx|]; simpl in Hstep; [|done].
      destruct (socialUser ctx) as [p|]; simpl in Hstep; [|done].
      apply assign_slot_graph in Hstep. congruence.
    - intros a Ha. unfold profiles_changed_step. rewrite Ha.
      unfold graph_of in Hn.
      destruct (socialUserGraph (buffer_of ib s) !! _) as [ctx|]; simpl in *; [|done].
      by rewrite Hn. }
  destruct Ht as [Ht|Ht]; rewrite Ht; simpl; by rewrite Hnone.
Qed.

End presence_and_profiles.

(** ** The types of the public events *)



Lemma announces_refl (s s' : social_graph) :
  m_socialEventQueue s' = m_socialEventQueue s → announces s s'.
Proof. intros E. exists []. unfold public_events. by rewrite E, app_nil_r. Qed.

Lemma announces_trans (s1 s2 s3 : social_graph) :
  announces s1 s2 → announces s2 s3 → announces s1 s3.
Proof.
  intros (l1 & E1 & F1) (l2 & E2 & F2). exists (l1 ++ l2). split.
  - by rewrite E2, E1, <- app_assoc.
  - by apply Forall_app.
Qed.

Lemma announces_push (evt : internal_social_event) (t : social_event_type)
    (e : xbox_live_result_void) (s s' : social_graph) :
  announced t ∨ t = public_unknown →
  announces s s' → announces s (push_social_event evt t e s').
Proof.
  intros Ht Hs. eapply announces_trans; [done|].
  destruct (decide (t = public_unknown)) as [->|Hne].
  - rewrite push_unknown_id. by apply announces_refl.
  - exists [public_event_of evt t e]. split; [by apply public_events_push|].
    apply Forall_singleton. simpl. by destruct Ht.
Qed.

Section public_types.
Context `{!Collaborators}.

Lemma setup_subscriptions_public (users : list N) (s : social_graph) :
  m_socialEventQueue (setup_device_and_presence_subscriptions users s)
  = m_socialEventQueue s.
Proof.
  unfold setup_device_and_presence_subscriptions,
    setup_device_and_presence_subscriptions_helper. simpl.
  revert s. induction users as [|x l IH]; intros s; [done|]. simpl. by rewrite IH.
Qed.

Lemma apply_users_change_event_announces (evt : internal_social_event) (ib : buffer_name)
    (f : bool) (s s' : social_graph) :
  apply_users_change_event evt ib f s = Some s' → announces s s'.
Proof.
  unfold apply_users_change_event. intros E.
  set (s2 := if isNull _ then s else _) in E.
  assert (announces s s2) as H2.
  { apply announces_refl. unfold s2. by destruct (isNull _). }
  clearbody s2. destruct (decide _).
  { simplify_eq. apply announces_push; [left; by left|done]. }
  destruct (users_change_scan _ _) as [[[ub toAdd] changed]|]; simpl in E; [|done].
  assert (∃ s3, announces s s3
                ∧ match changed with
                  | [] => Some s3
                  | _ :: _ =>
                      if f
                      then Some (push_social_event
                                   (event_of_users profiles_changed changed
                                      null_completion_context)
                                   public_profiles_changed result_success s3)
                      else Some s3
                  end = Some s') as (s3 & K & E3).
  { destruct toAdd as [|u toAdd]; simpl in E.
    - eexists. split; [|exact E]. eapply announces_trans; [done|]. by apply announces_refl.
    - destruct (add_users_to_buffer _ _ _) as [ub1|]; simpl in E; [|done].
      destruct f; simpl in E.
      + eexists. split; [|exact E].
        apply announces_push; [left; by left|].
        eapply announces_trans; [done|]. apply announces_refl.
        by rewrite setup_subscriptions_public.
      + eexists. split; [|exact E]. eapply announces_trans; [done|].
        by apply announces_refl. }
  destruct changed; [by simplify_eq|]. destruct f; simplify_eq; [|done].
  apply announces_push; [left; by repeat right|done].
Qed.

Lemma users_removed_step_type (l : list N)
    (acc : gmap N xbox_social_user_context * list N * social_event_type) :
  (foldl users_removed_step acc l).2 = users_removed_from_social_graph
  ∨ (foldl users_removed_step acc l).2 = acc.2.
Proof.
  revert acc. induction l as [|x l IH]; intros acc; simpl; [by right|].
  destruct (IH (users_removed_step acc x)) as [IH1|IH1]; [by left|].
  rewrite IH1. destruct acc as [[g rem] t]. unfold users_removed_step.
  repeat case_match; simplify_eq; simpl; auto.
Qed.

Lemma apply_users_removed_event_announces (evt : internal_social_event) (ib : buffer_name)
    (t : social_event_type) (f : bool) (s : social_graph) :
  m_socialEventQueue (apply_users_removed_event evt ib t f s).1 = m_socialEventQueue s
  ∧ ((apply_users_removed_event evt ib t f s).2 = users_removed_from_social_graph
     ∨ (apply_users_removed_event evt ib t f s).2 = t).
Proof.
  unfold apply_users_removed_event.
  pose proof (users_removed_step_type (users_to_remove evt)
                (socialUserGraph (buffer_of ib s), [], t)) as Hf.
  destruct (foldl _ _ _) as [[g rem] t']. simpl in *. split; [|done].
  by destruct f.
Qed.

(** X14.  The public events [apply_event] queues are of four types only:
    users added, users removed, presence changed and profiles changed.  A
    change of social relationship is announced as a profile change: no public
    event of type [social_relationships_changed] (or [unknown]) is ever
    queued. *)
Theorem social_relationship_changes_are_announced_as_profile_changes
    (evt : internal_social_event) (isFreshEvent : bool) (s s' : social_graph) :
  apply_event evt isFreshEvent s = Some s' →
  (∃ l, public_events s' = public_events s ++ l
        ∧ Forall (λ e, announced (se_event_type e)) l)
  ∧ (event_type evt = social_relationships_changed →
     is_Some (inactive_buffer (m_userBuffer s)) →
     public_events s'
     = public_events s
       ++ (if isFreshEvent
           then [public_event_of evt public_profiles_changed result_success]
           else [])).
Proof.
  intros E. unfold apply_event in E. set (s0 := record_call _ s) in E.
  assert (announces s s0) as H0 by (by apply announces_refl).
  assert (public_events s0 = public_events s) as P0 by done.
  change (inactive_buffer (m_userBuffer s0)) with (inactive_buffer (m_userBuffer s)) in E.
  destruct (inactive_buffer (m_userBuffer s)) as [ib|] eqn:Hib.
  2:{ simplify_eq. split; [done|]. by intros _ [? ?]. }
  clearbody s0.
  assert (∀ s1 t, announced t ∨ t = public_unknown → announces s s1 →
                  announces s (if isFreshEvent
                               then push_social_event evt t result_success s1
                               else s1)) as Hend.
  { intros s1 t Hshape Hs1. destruct isFreshEvent; [by apply announces_push|done]. }
  destruct (event_type evt) eqn:Ht; simpl in E.
  - simplify_eq. split; [|done]. apply Hend; [by right|].
    eapply announces_trans; [done|]. apply announces_refl.
    unfold apply_users_added_event. destruct (users_added_scan _ _) as [g [|u l]]; [done|].
    by destruct isFreshEvent.
  - destruct (apply_users_change_event _ _ _ _) as [s1|] eqn:E1; simpl in E; [|done].
    simplify_eq. split; [|done]. apply Hend; [by right|].
    eapply announces_trans; [done|]. by eapply apply_users_change_event_announces.
  - destruct (apply_users_removed_event _ _ _ _ _) as [s1 t] eqn:E1. simplify_eq.
    split; [|done].
    pose proof (apply_users_removed_event_announces evt ib public_unknown isFreshEvent s0)
      as [Q Hshape].
    rewrite E1 in Q, Hshape. simpl in Q, Hshape.
    apply Hend; [destruct Hshape as [->| ->]; [left; right; by left|by right]|].
    eapply announces_trans; [done|]. by apply announces_refl.
  - destruct (apply_device_presence_changed_event _ _ _ _ _) as [[s1 t]|] eqn:E1;
      simpl in E; [|done]. simplify_eq. split; [|done].
    unfold apply_device_presence_changed_event in E1.
    assert (announces s0 s1 ∧ (announced t ∨ t = public_unknown)) as [H1 Hshape].
    { repeat (case_match; simplify_option_eq);
        (split; [by apply announces_refl|]); try (by right).
      all: left; right; right; by left. }
    apply Hend; [done|]. by eapply announces_trans.
  - destruct (apply_title_presence_changed _ _ _ _) as [[s1 t]|] eqn:E1;
      simpl in E; [|done]. simplify_eq. split; [|done].
    unfold apply_title_presence_changed in E1.
    assert (announces s0 s1 ∧ (announced t ∨ t = public_unknown)) as [H1 Hshape].
    { repeat (case_match; simplify_option_eq);
        (split; [by apply announces_refl|]); try (by right).
      all: left; right; right; by left. }
    apply Hend; [done|]. by eapply announces_trans.
  - destruct (apply_presence_changed_event _ _ _ _) as [s1|] eqn:E1; simpl in E; [|done].
    simplify_eq. split; [|done]. apply Hend; [by right|].
    eapply announces_trans; [done|].
    unfold apply_presence_changed_event in E1.
    destruct (presence_changed_scan _ _) as [[ub ids]|]; simpl in E1; [|done].
    destruct ids; [simplify_eq; by apply announces_refl|].
    destruct isFreshEvent; simplify_eq; [|by apply announces_refl].
    apply announces_push; [left; right; right; by left|by apply announces_refl].
  - destruct (apply_profiles_changed _ _ _) as [s1|] eqn:E1; simpl in E; [|done].
    simplify_eq.
    apply apply_profiles_changed_effects in E1 as (_ & Q & _).
    split.
    + apply Hend; [left; by repeat right|].
      eapply announces_trans; [done|]. by apply announces_refl.
    + intros _ _.
      assert (public_events s1 = public_events s) as Q1
        by (unfold public_events in *; by rewrite Q).
      destruct isFreshEvent.
      * rewrite public_events_push by done. by rewrite Q1.
      * by rewrite Q1, app_nil_r.
  - destruct (apply_profiles_changed _ _ _) as [s1|] eqn:E1; simpl in E; [|done].
    simplify_eq.
    apply apply_profiles_changed_effects in E1 as (_ & Q & _).
    split; [|done].
    apply Hend; [left; by repeat right|].
    eapply announces_trans; [done|]. by apply announces_refl.
  - simplify_eq. split; [|done]. apply Hend; [by right|done].
Qed.

End public_types.

(** ** The slabs *)

Lemma initialize_user_in_map_eq (i : nat) (ub : user_buffer) (b : nat)
    (u : xbox_social_user) :
  buffer ub = Some b →
  read_slot {| block := b; slot := i |} ub = Some u →
  initialize_user_in_map i ub
  = Some (set_socialUserGraph
            (<[_Xbox_user_id_as_integer u :=
                 {| socialUser := Some {| block := b; slot := i |};
                    refCount := from_option refCount 1
                                  (socialUserGraph ub !! _Xbox_user_id_as_integer u) |}]>
               (socialUserGraph ub)) ub).
Proof.
  intros Hb Hr. unfold initialize_user_in_map. rewrite Hb. simpl. rewrite Hr. simpl.
  by destruct (socialUserGraph ub !! _).
Qed.

Lemma read_slot_set_socialUserGraph (p : slot_ptr) (g : gmap N xbox_social_user_context)
    (ub : user_buffer) :
  read_slot p (set_socialUserGraph g ub) = read_slot p ub.
Proof. done. Qed.

(** The loop of [initialize_users_in_map] over the first [k] slots of a slab
    that holds [users] in its first slots. *)
Lemma initialize_users_in_map_prefix (ub : user_buffer) (b : nat)
    (users : list xbox_social_user) (k : nat) :
  buffer ub = Some b →
  (∀ i u, users !! i = Some u → read_slot {| block := b; slot := i |} ub = Some u) →
  (k ≤ length users)%nat →
  ∃ g,
    initialize_users_in_map ub k 0 = Some (set_socialUserGraph g ub)
    ∧ (∀ id, from_option refCount 1 (g !! id)
             = from_option refCount 1 (socialUserGraph ub !! id))
    ∧ (∀ id,
         (∀ i u, (i < k)%nat → users !! i = Some u → _Xbox_user_id_as_integer u ≠ id) →
             g !! id = socialUserGraph ub !! id)
    ∧ (∀ i u, (i < k)%nat → users !! i = Some u →
              (∀ j u', (j < k)%nat → users !! j = Some u' →
                       _Xbox_user_id_as_integer u' = _Xbox_user_id_as_integer u →
                       (j ≤ i)%nat) →
              g !! _Xbox_user_id_as_integer u
              = Some {| socialUser := Some {| block := b; slot := i |};
                        refCount := from_option refCount 1
                                      (socialUserGraph ub
                                         !! _Xbox_user_id_as_integer u) |}).
Proof.
  intros Hb Hslots. unfold initialize_users_in_map. induction k as [|k IH]; intros Hk.
  - exists (socialUserGraph ub). simpl. split_and!; try done.
    + by destruct ub.
    + intros; lia.
  - destruct IH as (g & E & Ha & Hbb & Hc); [lia|].
    destruct (lookup_lt_is_Some_2 users k) as [uk Huk]; [lia|].
    rewrite seq_S, for_each_app, E. simpl.
    rewrite (initialize_user_in_map_eq k _ b uk); [|done|by apply Hslots]. simpl.
    eexists. split; [done|]. split_and!.
    + intros id. destruct (decide (id = _Xbox_user_id_as_integer uk)) as [->|Hne].
      * rewrite lookup_insert_eq. simpl. apply Ha.
      * rewrite lookup_insert_ne by done. apply Ha.
    + intros id Hid. rewrite lookup_insert_ne.
      * apply Hbb. intros i u Hi. apply Hid. lia.
      * intros <-. apply (Hid k uk); [lia|done|done].
    + intros i u Hi Hu Hlast.
      destruct (decide (i = k)) as [->|Hik].
      * assert (u = uk) as -> by congruence.
        rewrite lookup_insert_eq. by rewrite Ha.
      * rewrite lookup_insert_ne.
        -- apply Hc; [lia|done|]. intros j u' Hj. apply Hlast. lia.
        -- intros Heq. pose proof (Hlast k uk ltac:(lia) Huk Heq). lia.
Qed.

Lemma buffer_init_eq (ub : user_buffer) (users : list xbox_social_user) (n : nat) :
  ¬ (length users = 0 ∧ n = 0)%nat →
  buffer_init ub users n
  = {| buffer := Some (allocated ub);
       slabs := <[allocated ub := (Some <$> users) ++ replicate (5 + n) None]> (slabs ub);
       allocated := S (allocated ub);
       freeData := (λ i, Some {| block := allocated ub; slot := (length users + i)%nat |})
                     <$> seq 0 (5 + n);
       socialUserGraph := socialUserGraph ub;
       socialUserEventQueue := socialUserEventQueue ub |}.
Proof.
  intros Hne. unfold buffer_init, buffer_alloc. simpl.
  rewrite decide_False by done. simpl. by rewrite insert_insert_eq.
Qed.

Lemma initialize_buffer_spec
    (ub : user_buffer) (users : list xbox_social_user) (freeSpaceRequired : nat) :
  ∃ ub',
    initialize_buffer ub users freeSpaceRequired = Some ub'
    ∧ (∀ i u, users !! i = Some u →
         (∀ j u', users !! j = Some u' →
                  _Xbox_user_id_as_integer u' = _Xbox_user_id_as_integer u → (j ≤ i)%nat) →
         ∃ p, socialUserGraph ub' !! _Xbox_user_id_as_integer u
              = Some {| socialUser := Some p;
                        refCount := from_option refCount 1
                                      (socialUserGraph ub
                                         !! _Xbox_user_id_as_integer u) |}
              ∧ read_slot p ub' = Some u
              ∧ buffer ub' = Some (block p)
              ∧ slot p = i)
    ∧ (∀ id, (∀ u, u ∈ users → _Xbox_user_id_as_integer u ≠ id) →
             socialUserGraph ub' !! id = socialUserGraph ub !! id)
    ∧ length (freeData ub')
      = (if decide (length users = 0 ∧ freeSpaceRequired = 0)%nat
         then 0 else 5 + freeSpaceRequired)%nat
    ∧ NoDup (freeData ub')
    ∧ (∀ o, o ∈ freeData ub' →
            ∃ p, o = Some p
                 ∧ buffer ub' = Some (block p)
                 ∧ (length users ≤ slot p)%nat
                 ∧ (slabs ub' !! block p ≫= (.!! slot p)) = Some None)
    ∧ socialUserEventQueue ub' = socialUserEventQueue ub.
Proof.
  unfold initialize_buffer.
  destruct (decide (length users = 0 ∧ freeSpaceRequired = 0)%nat) as [[Hl Hn]|Hne].
  - apply length_zero_iff_nil in Hl. subst.
    exists (set_freeData [] ub). split.
    { by unfold buffer_init, buffer_alloc. }
    split_and!; try done.
    + constructor.
    + intros o Ho. simpl in Ho. by apply elem_of_nil in Ho.
  - rewrite buffer_init_eq by done.
    set (ub0 := {| buffer := Some (allocated ub) |}).
    assert (∀ i u, users !! i = Some u →
                   read_slot {| block := allocated ub; slot := i |} ub0 = Some u) as Hslots.
    { intros i u Hu. unfold read_slot. simpl. rewrite lookup_insert_eq. simpl.
      rewrite lookup_app_l by (rewrite length_fmap; by eapply lookup_lt_Some).
      by rewrite list_lookup_fmap, Hu. }
    destruct (initialize_users_in_map_prefix ub0 (allocated ub) users (length users))
      as (g & E & Ha & Hb & Hc); [done|done|done|].
    eexists. split; [exact E|].
    unfold set_socialUserGraph, ub0;
      cbn [freeData socialUserGraph socialUserEventQueue buffer slabs].
    split_and!.
    + intros i u Hu Hlast. exists {| block := allocated ub; slot := i |}.
      split_and!; try done.
      * apply Hc; [by eapply lookup_lt_Some|done|]. intros j u' _. apply Hlast.
      * exact (Hslots i u Hu).
    + intros id Hid. apply Hb. intros i u _ Hu. apply Hid.
      by eapply list_elem_of_lookup_2.
    + by rewrite length_fmap, length_seq.
    + apply NoDup_fmap_2; [|apply NoDup_seq]. intros i j Hij. simplify_eq. lia.
    + intros o Ho. apply list_elem_of_fmap in Ho as (i & -> & Hi).
      apply elem_of_seq in Hi. eexists. split; [done|]. cbn [block slot].
      split_and!; [done|lia|].
      rewrite lookup_insert_eq. cbn [mbind option_bind].
      rewrite lookup_app_r by (rewrite length_fmap; lia).
      rewrite length_fmap. apply lookup_replicate_2. lia.
    + done.
Qed.

(** X15.  [initialize_buffer] always succeeds.  Every user of the list is
    entered in the graph under its id, pointing at the slot that holds it
    (for an id that occurs more than once, the last occurrence), with the
    count the id had before, or 1; the other ids are left alone.  The free
    list is refilled with the [5 + freeSpaceRequired] slots that follow the
    users, each of them in the new slab, distinct and not yet constructed;
    asked for no user and no free space it allocates nothing and leaves the
    free list empty. *)
Theorem initialize_buffer_enters_every_user
    (ub : user_buffer) (users : list xbox_social_user) (freeSpaceRequired : nat) :
  ∃ ub',
    initialize_buffer ub users freeSpaceRequired = Some ub'
    ∧ (∀ i u, users !! i = Some u →
         (∀ j u', users !! j = Some u' →
                  _Xbox_user_id_as_integer u' = _Xbox_user_id_as_integer u → (j ≤ i)%nat) →
         ∃ p, socialUserGraph ub' !! _Xbox_user_id_as_integer u
              = Some {| socialUser := Some p;
                        refCount := from_option refCount 1
                                      (socialUserGraph ub
                                         !! _Xbox_user_id_as_integer u) |}
              ∧ read_slot p ub' = Some u
              ∧ buffer ub' = Some (block p)
              ∧ slot p = i)
    ∧ (∀ id, (∀ u, u ∈ users → _Xbox_user_id_as_integer u ≠ id) →
             socialUserGraph ub' !! id = socialUserGraph ub !! id)
    ∧ length (freeData ub')
      = (if decide (length users = 0 ∧ freeSpaceRequired = 0)%nat
         then 0 else 5 + freeSpaceRequired)%nat
    ∧ NoDup (freeData ub')
    ∧ (∀ o, o ∈ freeData ub' →
            ∃ p, o = Some p
                 ∧ buffer ub' = Some (block p)
                 ∧ (length users ≤ slot p)%nat
                 ∧ (slabs ub' !! block p ≫= (.!! slot p)) = Some None)
    ∧ socialUserEventQueue ub' = socialUserEventQueue ub.
Proof. apply initialize_buffer_spec. Qed.

Section first_fetch.
Context `{!Collaborators}.

(** The loop of the continuation of [initialize] over the graph of the
    inactive buffer: it either runs to its end, with every user granted and
    subscribed, or leaves with a [runtime_error] at a user that was
    refused. *)
Lemma initial_subscriptions (presence_service : presence_answers) (b : buffer_name)
    (l : list (N * xbox_social_user_context)) (s : social_graph) :
  (∀ kv, kv ∈ l →
         ∃ p u, socialUser kv.2 = Some p ∧ read_slot p (buffer_of b s) = Some u) →
  NoDup l.*1 →
  ∃ returned s',
    initialize_subscriptions presence_service b l s = Some (returned, s')
    ∧ m_userBuffer s' = m_userBuffer s
    ∧ m_isInitialized s' = m_isInitialized s
    ∧ m_socialGraphState s' = m_socialGraphState s
    ∧ m_numEventsThisFrame s' = m_numEventsThisFrame s
    ∧ m_internalEventQueue s' = m_internalEventQueue s
    ∧ m_socialEventQueue s' = m_socialEventQueue s
    ∧ (∀ id, id ∉ l.*1 →
             m_socialUserSubscriptions s' !! id = m_socialUserSubscriptions s !! id)
    ∧ (returned = None
       ∧ (∀ kv p u, kv ∈ l → socialUser kv.2 = Some p →
                    read_slot p (buffer_of b s) = Some u →
                    subscription_granted presence_service u = true
                    ∧ m_socialUserSubscriptions s' !! kv.1
                      = Some {| devicePresenceChangeSubscription := Some (xbox_user_id u);
                                titlePresenceChangeSubscription := Some (xbox_user_id u) |})
       ∨ returned = Some subscription_initialization_failed
         ∧ ∃ kv p u, kv ∈ l ∧ socialUser kv.2 = Some p
                     ∧ read_slot p (buffer_of b s) = Some u
                     ∧ subscription_granted presence_service u = false).
Proof.
  revert s. induction l as [|[id ctx] l IH]; intros s Hl Hnd.
  - exists None, s. simpl. split_and!; try done. left. split; [done|].
    intros kv p u Hkv. by apply elem_of_nil in Hkv.
  - destruct (Hl (id, ctx)) as (p & u & Hp & Hu); [apply list_elem_of_here|].
    simpl in Hp. cbn [initialize_subscriptions]. simpl. rewrite Hp. simpl.
    rewrite Hu. simpl.
    apply NoDup_cons in Hnd as [Hid Hnd].
    destruct (decide (presence_service (subscribe_to_device_presence_change (xbox_user_id u))
                      ≠ no_error
                      ∨ presence_service (subscribe_to_title_presence_change (xbox_user_id u))
                        ≠ no_error)) as [Hrefused|Hgranted].
    + eexists _, _. split; [reflexivity|]. split_and!; try done.
      right. split; [done|]. exists (id, ctx), p, u.
      split_and!; [apply list_elem_of_here|done|done|].
      unfold subscription_granted. apply bool_decide_eq_false_2.
      intros [Hd Ht]. by destruct Hrefused.
    + assert (subscription_granted presence_service u = true) as Hu_granted.
      { unfold subscription_granted. apply bool_decide_eq_true_2.
        split; apply dec_stable; intros Hn; apply Hgranted; auto. }
      match goal with
      | |- ∃ returned s', initialize_subscriptions _ _ _ ?s1 = _ ∧ _ =>
          destruct (IH s1) as (returned & s' & E & H1 & H2 & H3 & H4 & H5 & H6 & H7 & H8)
      end.
      { intros kv Hkv. apply Hl. by apply list_elem_of_further. }
      { done. }
      exists returned, s'. split; [exact E|]. split_and!; try done.
      * intros k Hk. apply not_elem_of_cons in Hk as [Hk1 Hk2].
        rewrite H7 by done. simpl. by rewrite lookup_insert_ne.
      * destruct H8 as [[-> Hall]|[-> (kv & p' & u' & Hkv & Hp' & Hu' & Hr)]].
        -- left. split; [done|]. intros kv p' u' Hkv Hp' Hu'.
           apply elem_of_cons in Hkv as [->|Hkv].
           ++ simpl in *. rewrite H7 by done. simpl. rewrite lookup_insert_eq.
              by simplify_eq.
           ++ by eapply Hall.
        -- right. split; [done|]. exists kv, p', u'.
           split_and!; [by apply list_elem_of_further|done|done|done].
Qed.

(** X16.  The first fetch.  On a freshly constructed holder, a fetch that
    succeeds or fails with a 424 and returns each user once fills both
    buffers alike, whatever the order in which the graph yields its
    entries: A becomes the active and B the inactive buffer, nothing is
    pending, and the graph holds exactly the users fetched, each with a
    count of 1 and a slot that holds the user; the event queues are left
    alone, and so are the subscriptions of every other id.  When the
    presence service grants both subscriptions of every user fetched, the
    answer is success, every one of them is subscribed to under its id, and
    the core is initialised; when it refuses one, the answer is the
    [runtime_error] "subscription initialization failed" and the core stays
    uninitialised. *)
Theorem first_fetch_fills_both_buffers
    (walk : iteration) (presence_service : presence_answers)
    (socialUsersResult : xbox_live_result_void) (payload : list xbox_social_user)
    (s : social_graph) :
  m_userBuffer s = user_buffers_holder.init →
  err socialUsersResult = no_error
  ∨ err socialUsersResult = http_status_424_failed_dependency →
  NoDup (_Xbox_user_id_as_integer <$> payload) →
  lists_entries walk →
  ∃ result s',
    initialize_then walk presence_service socialUsersResult payload s
    = Some (result, s')
    ∧ (if forallb (subscription_granted presence_service) payload
       then result = result_success
            ∧ m_isInitialized s' = true
            ∧ ∀ u, u ∈ payload →
                   m_socialUserSubscriptions s' !! _Xbox_user_id_as_integer u
                   = Some {| devicePresenceChangeSubscription := Some (xbox_user_id u);
                             titlePresenceChangeSubscription := Some (xbox_user_id u) |}
       else result = subscription_initialization_failed
            ∧ m_isInitialized s' = m_isInitialized s)
    ∧ active_buffer (m_userBuffer s') = Some buffer_A
    ∧ inactive_buffer (m_userBuffer s') = Some buffer_B
    ∧ buffer_of buffer_A s' = buffer_of buffer_B s'
    ∧ pending_of buffer_B s' = []
    ∧ (∀ id, is_Some (graph_of buffer_B s' !! id)
             ↔ id ∈ _Xbox_user_id_as_integer <$> payload)
    ∧ (∀ u, u ∈ payload →
            ∃ p, graph_of buffer_B s' !! _Xbox_user_id_as_integer u
                 = Some {| socialUser := Some p; refCount := 1 |}
                 ∧ read_slot p (buffer_of buffer_B s') = Some u)
    ∧ (∀ id, id ∉ _Xbox_user_id_as_integer <$> payload →
             m_socialUserSubscriptions s' !! id = m_socialUserSubscriptions s !! id)
    ∧ m_internalEventQueue s' = m_internalEventQueue s
    ∧ m_socialEventQueue s' = m_socialEventQueue s.
Proof.
  intros Hinit Herr Hnd Hwalk.
  destruct (initialize_buffer_spec empty_user_buffer payload 0)
    as (ub & E & Huser & Hother & _ & _ & _ & Hq).
  assert (∀ i j u u', payload !! i = Some u → payload !! j = Some u' →
                      _Xbox_user_id_as_integer u' = _Xbox_user_id_as_integer u → j = i)
    as Hinj.
  { intros i j u u' Hi Hj Heq. eapply NoDup_lookup; [exact Hnd| |].
    - rewrite list_lookup_fmap, Hj. done.
    - rewrite list_lookup_fmap, Hi. simpl. congruence. }
  assert (∀ u, u ∈ payload →
               ∃ p, socialUserGraph ub !! _Xbox_user_id_as_integer u
                    = Some {| socialUser := Some p; refCount := 1 |}
                    ∧ read_slot p ub = Some u) as Hin.
  { intros u Hu. apply list_elem_of_lookup in Hu as [i Hi].
    destruct (Huser i u Hi) as (p & G & R & _).
    { intros j u' Hj Heq. by rewrite (Hinj i j u u'). }
    exists p. by rewrite G. }
  assert (∀ id ctx, socialUserGraph ub !! id = Some ctx →
                    ∃ u, u ∈ payload ∧ id = _Xbox_user_id_as_integer u) as Hdom.
  { intros id ctx Hid.
    destruct (decide (id ∈ _Xbox_user_id_as_integer <$> payload)) as [Hi|Hni].
    - apply list_elem_of_fmap in Hi as (u & -> & Hu). by exists u.
    - rewrite Hother in Hid; [done|]. intros u Hu <-. apply Hni.
      apply list_elem_of_fmap. by exists u. }
  assert (∀ kv, kv ∈ walk (socialUserGraph ub) ↔ socialUserGraph ub !! kv.1 = Some kv.2)
    as Hwalked.
  { intros [id ctx]. rewrite (Hwalk (socialUserGraph ub)). apply elem_of_map_to_list. }
  set (h := {| m_userBufferA := ub; m_userBufferB := ub;
               m_activeBuffer := Some buffer_A; m_inactiveBuffer := Some buffer_B |}).
  assert (initialize_social_buffers payload s = Some (set_userBuffer h s)) as Eh.
  { unfold initialize_social_buffers, initialize. rewrite Hinit. simpl. by rewrite E. }
  destruct (initial_subscriptions presence_service buffer_B (walk (socialUserGraph ub))
              (set_userBuffer h s))
    as (returned & s1 & E1 & H1 & H2 & H3 & H4 & H5 & H6 & H7 & H8).
  { intros [id ctx] Hkv. apply Hwalked in Hkv. simpl in Hkv.
    destruct (Hdom id ctx Hkv) as (u & Hu & ->).
    destruct (Hin u Hu) as (p & G & R). exists p, u. simpl. split; [|done].
    rewrite G in Hkv. by simplify_eq. }
  { rewrite (Hwalk (socialUserGraph ub)). apply NoDup_fst_map_to_list. }
  change (buffer_of buffer_B (set_userBuffer h s)) with ub in H8.
  assert (∀ id, id ∉ _Xbox_user_id_as_integer <$> payload →
                m_socialUserSubscriptions s1 !! id = m_socialUserSubscriptions s !! id)
    as Hrest.
  { intros id Hid. rewrite H7; [done|]. intros Hk. apply Hid.
    apply list_elem_of_fmap in Hk as ([id' ctx] & -> & Hkv). apply Hwalked in Hkv.
    destruct (Hdom id' ctx Hkv) as (u & Hu & ->). apply list_elem_of_fmap. by exists u. }
  exists (default result_success returned),
         (match returned with Some _ => s1 | None => set_isInitialized true s1 end).
  split.
  { unfold initialize_then. rewrite decide_False by (intros [? ?]; by destruct Herr).
    rewrite Eh. cbn [mbind option_bind].
    change (inactive_buffer (m_userBuffer (set_userBuffer h s))) with (Some buffer_B).
    cbn [mbind option_bind].
    change (buffer_of buffer_B (set_userBuffer h s)) with ub.
    cbv zeta. rewrite E1. simpl. by destruct returned. }
  assert (buffer_of buffer_B
            (match returned with Some _ => s1 | None => set_isInitialized true s1 end)
          = ub) as Hbuf.
  { unfold buffer_of. destruct returned; simpl; by rewrite H1. }
  unfold graph_of, pending_of. rewrite Hbuf.
  split_and!.
  - destruct (forallb (subscription_granted presence_service) payload) eqn:Hall.
    + destruct H8 as [[-> Hsub]|[_ (kv & p & u & Hkv & Hp & Hu & Hr)]].
      * split_and!; try done. intros u Hu. destruct (Hin u Hu) as (p & G & R).
        simpl.
        apply (Hsub (_Xbox_user_id_as_integer u,
                     {| socialUser := Some p; refCount := 1 |}) p u);
          [by apply Hwalked|done|done].
      * exfalso. destruct kv as [id ctx]. apply Hwalked in Hkv. simpl in *.
        destruct (Hdom id ctx Hkv) as (u' & Hu' & ->).
        destruct (Hin u' Hu') as (p' & G & R). rewrite G in Hkv.
        simplify_eq. simpl in *. simplify_eq.
        rewrite forallb_forall in Hall.
        rewrite Hall in Hr; [done|]. by apply list_elem_of_In.
    + destruct H8 as [[-> Hsub]|[-> _]]; [|by simpl].
      exfalso. assert (forallb (subscription_granted presence_service) payload = true)
        as Hyes; [|congruence].
      apply forallb_forall. intros u Hu%list_elem_of_In.
      destruct (Hin u Hu) as (p & G & R).
      apply (Hsub (_Xbox_user_id_as_integer u,
                   {| socialUser := Some p; refCount := 1 |}) p u);
        [by apply Hwalked|done|done].
  - unfold active_buffer. destruct returned; simpl; by rewrite H1.
  - unfold inactive_buffer. destruct returned; simpl; by rewrite H1.
  - unfold buffer_of. destruct returned; simpl; by rewrite H1.
  - done.
  - intros id. split.
    + intros [ctx Hid]. destruct (Hdom id ctx Hid) as (u & Hu & ->).
      apply list_elem_of_fmap. by exists u.
    + intros Hi. apply list_elem_of_fmap in Hi as (u & -> & Hu).
      destruct (Hin u Hu) as (p & G & _). by rewrite G.
  - intros u Hu. destruct (Hin u Hu) as (p & G & R). by exists p.
  - intros id Hid. rewrite <- Hrest by done. by destruct returned.
  - destruct returned; simpl; by rewrite H5.
  - destruct returned; simpl; by rewrite H6.
Qed.

End first_fetch.

(** X17.  [remove_users_from_buffer] on a list that names no id twice: the
    ids of the list leave the graph and the other entries stay; the slot
    pointer of every id that was in the graph is appended to the free list,
    in the order of the list, and an id that was not in the graph is
    skipped; the slabs are not touched, so a removed user can still be read
    through a pointer kept from before. *)
Theorem removed_users_give_back_their_slots (users : list N) (ub : user_buffer) :
  NoDup users →
  (∀ id, socialUserGraph (remove_users_from_buffer users ub) !! id
         = if decide (id ∈ users) then None else socialUserGraph ub !! id)
  ∧ freeData (remove_users_from_buffer users ub)
    = freeData ub ++ omap (λ id, socialUser <$> socialUserGraph ub !! id) users
  ∧ slabs (remove_users_from_buffer users ub) = slabs ub
  ∧ buffer (remove_users_from_buffer users ub) = buffer ub
  ∧ (∀ p, read_slot p (remove_users_from_buffer users ub) = read_slot p ub).
Proof.
  intros Hnd. split; [intros id; apply graph_remove_users_from_buffer|].
  cut (freeData (remove_users_from_buffer users ub)
       = freeData ub ++ omap (λ id, socialUser <$> socialUserGraph ub !! id) users
       ∧ slabs (remove_users_from_buffer users ub) = slabs ub
       ∧ buffer (remove_users_from_buffer users ub) = buffer ub).
  { intros (H1 & H2 & H3). split_and!; try done. intros p. unfold read_slot. by rewrite H2. }
  unfold remove_users_from_buffer. revert ub.
  induction users as [|x l IH]; intros ub; simpl.
  - by rewrite app_nil_r.
  - apply NoDup_cons in Hnd as [Hx Hnd].
    destruct (IH Hnd (remove_user_from_buffer x ub)) as (H1 & H2 & H3).
    rewrite H1, H2, H3. clear IH H1 H2 H3.
    assert (omap (λ id, socialUser <$> socialUserGraph (remove_user_from_buffer x ub) !! id) l
            = omap (λ id, socialUser <$> socialUserGraph ub !! id) l) as ->.
    { apply list_omap_ext, Forall_Forall2_diag, Forall_forall. intros a Ha.
      assert (a ≠ x) as Hne by (intros ->; done).
      unfold remove_user_from_buffer.
      destruct (socialUserGraph ub !! x); simpl; [|done].
      by rewrite lookup_delete_ne. }
    unfold remove_user_from_buffer.
    destruct (socialUserGraph ub !! x) as [ctx|]; simpl; [|done].
    by rewrite <- app_assoc.
Qed.

Lemma add_user_to_buffer_eq (u : xbox_social_user) (ub : user_buffer) (b : nat)
    (p : slot_ptr) (rest : list (option slot_ptr)) (l : list (option xbox_social_user)) :
  buffer ub = Some b →
  freeData ub = Some p :: rest →
  block p = b →
  slabs ub !! b = Some l →
  (slot p < length l)%nat →
  add_user_to_buffer u ub
  = Some {| buffer := Some b;
            slabs := <[b := <[slot p := Some u]> l]> (slabs ub);
            allocated := allocated ub;
            freeData := rest;
            socialUserGraph :=
              <[_Xbox_user_id_as_integer u :=
                  {| socialUser := Some p;
                     refCount := from_option refCount 1
                                   (socialUserGraph ub !! _Xbox_user_id_as_integer u) |}]>
                (socialUserGraph ub);
            socialUserEventQueue := socialUserEventQueue ub |}.
Proof.
  intros Hb Hf Hp Hl Hlt. destruct p as [pb ps]. simpl in *. subst pb.
  unfold add_user_to_buffer. rewrite Hf, Hb. simpl.
  unfold construct_slot. simpl. rewrite Hl. simpl.
  rewrite decide_True by done. simpl. rewrite decide_True by done.
  unfold initialize_users_in_map. simpl. rewrite Nat.add_0_r.
  rewrite (initialize_user_in_map_eq ps _ b u); [|done|].
  - simpl. unfold set_socialUserGraph. simpl. by rewrite Hb.
  - unfold read_slot. simpl. rewrite lookup_insert_eq. simpl.
    by rewrite list_lookup_insert_eq.
Qed.

Lemma added_users_spec (users : list xbox_social_user) (ub : user_buffer) (b : nat)
    (ps : list slot_ptr) (rest : list (option slot_ptr)) :
  buffer ub = Some b →
  freeData ub = (Some <$> ps) ++ rest →
  length ps = length users →
  Forall (λ p, block p = b
               ∧ ∃ l, slabs ub !! b = Some l ∧ (slot p < length l)%nat) ps →
  NoDup ps →
  NoDup (_Xbox_user_id_as_integer <$> users) →
  ∃ ub',
    for_each add_user_to_buffer users ub = Some ub'
    ∧ freeData ub' = rest
    ∧ buffer ub' = Some b
    ∧ socialUserEventQueue ub' = socialUserEventQueue ub
    ∧ allocated ub' = allocated ub
    ∧ (∀ i u p, users !! i = Some u → ps !! i = Some p →
         socialUserGraph ub' !! _Xbox_user_id_as_integer u
         = Some {| socialUser := Some p;
                   refCount := from_option refCount 1
                                 (socialUserGraph ub !! _Xbox_user_id_as_integer u) |}
         ∧ read_slot p ub' = Some u)
    ∧ (∀ id, id ∉ _Xbox_user_id_as_integer <$> users →
             socialUserGraph ub' !! id = socialUserGraph ub !! id)
    ∧ (∀ p, p ∉ ps → read_slot p ub' = read_slot p ub).
Proof.
  revert ub ps. induction users as [|u users IH]; intros ub ps Hb Hf Hlen Hall Hnd Hids.
  - destruct ps; [|done]. exists ub. simpl in *. split_and!; try done.
  - destruct ps as [|p ps]; [done|]. simpl in Hf, Hlen.
    apply Forall_cons in Hall as [(Hpb & l & Hl & Hlt) Hall].
    apply NoDup_cons in Hnd as [Hp Hnd].
    rewrite fmap_cons in Hids. apply NoDup_cons in Hids as [Hu Hids].
    cbn [for_each].
    rewrite (add_user_to_buffer_eq u ub b p ((Some <$> ps) ++ rest) l) by done.
    simpl.
    match goal with
    | |- ∃ ub', for_each _ _ ?x = _ ∧ _ => set (ub1 := x)
    end.
    destruct (IH ub1 ps) as (ub' & E & F & B & Q & A & G & O & R);
      [done|done|lia| |done|done|].
    { eapply Forall_impl; [exact Hall|]. intros q (Hq & l' & Hl' & Hlt').
      split; [done|]. simpl. rewrite lookup_insert_eq. eexists. split; [done|].
      assert (l' = l) as -> by congruence. by rewrite length_insert. }
    exists ub'. split; [exact E|]. split_and!; try done.
    + intros [|i] u' p' Hu' Hp'; simpl in *.
      * injection Hu' as <-. injection Hp' as <-.
        rewrite O by done. rewrite R by done. simpl.
        rewrite lookup_insert_eq. split; [done|].
        unfold read_slot. simpl. rewrite Hpb, lookup_insert_eq. simpl.
        by rewrite list_lookup_insert_eq.
      * destruct (G i u' p' Hu' Hp') as [G1 G2]. split; [|done].
        rewrite G1. simpl. rewrite lookup_insert_ne; [done|].
        intros Heq. apply Hu. rewrite Heq. apply list_elem_of_fmap.
        exists u'. split; [done|]. by eapply list_elem_of_lookup_2.
    + intros id Hid. apply not_elem_of_cons in Hid as [Hid1 Hid2].
      rewrite O by done. simpl. by rewrite lookup_insert_ne.
    + intros q Hq. apply not_elem_of_cons in Hq as [Hq1 Hq2].
      rewrite R by done. unfold read_slot. simpl.
      destruct (decide (block q = b)) as [Hqb|Hqb].
      * rewrite Hqb, lookup_insert_eq, Hl. simpl.
        rewrite list_lookup_insert_ne; [done|].
        intros Hs. apply Hq1. destruct p, q; simpl in *; congruence.
      * by rewrite lookup_insert_ne.
Qed.

(** X18.  Adding users without reallocation.  When the free list of the
    buffer starts with as many slots of the current slab as there are users
    to add (distinct slots, users with distinct ids) and is long enough for
    the size asked for, [add_users_to_buffer] succeeds without allocating: it
    takes those slots off the free list, in order; the i-th user is
    constructed in the i-th slot and entered in the graph under its id,
    pointing at that slot, with the count the id had before, or 1; the other
    ids and the other slots are left alone. *)
Theorem added_users_take_the_first_free_slots
    (users : list xbox_social_user) (ub : user_buffer) (finalSize : nat) (b : nat)
    (ps : list slot_ptr) (rest : list (option slot_ptr)) :
  buffer ub = Some b →
  freeData ub = (Some <$> ps) ++ rest →
  length ps = length users →
  (max finalSize (length users) ≤ length (freeData ub))%nat →
  Forall (λ p, block p = b
               ∧ ∃ l, slabs ub !! b = Some l ∧ (slot p < length l)%nat) ps →
  NoDup ps →
  NoDup (_Xbox_user_id_as_integer <$> users) →
  ∃ ub',
    add_users_to_buffer users ub finalSize = Some ub'
    ∧ freeData ub' = rest
    ∧ buffer ub' = Some b
    ∧ allocated ub' = allocated ub
    ∧ (∀ i u p, users !! i = Some u → ps !! i = Some p →
         socialUserGraph ub' !! _Xbox_user_id_as_integer u
         = Some {| socialUser := Some p;
                   refCount := from_option refCount 1
                                 (socialUserGraph ub !! _Xbox_user_id_as_integer u) |}
         ∧ read_slot p ub' = Some u)
    ∧ (∀ id, id ∉ _Xbox_user_id_as_integer <$> users →
             socialUserGraph ub' !! id = socialUserGraph ub !! id)
    ∧ (∀ p, p ∉ ps → read_slot p ub' = read_slot p ub).
Proof.
  intros Hb Hf Hlen Hmax Hall Hnd Hids.
  destruct (added_users_spec users ub b ps rest) as (ub' & E & F & B & Q & A & G & O & R);
    try done.
  exists ub'. unfold add_users_to_buffer.
  rewrite decide_False by lia. simpl. split_and!; try done.
Qed.

Lemma initialize_users_in_map_frame (ub ub' : user_buffer) (k off : nat) :
  initialize_users_in_map ub k off = Some ub' →
  slabs ub' = slabs ub ∧ buffer ub' = buffer ub ∧ freeData ub' = freeData ub
  ∧ allocated ub' = allocated ub.
Proof.
  unfold initialize_users_in_map. intros E.
  refine (for_each_invariant
            (λ x, slabs x = slabs ub ∧ buffer x = buffer ub ∧ freeData x = freeData ub
                  ∧ allocated x = allocated ub) _ _ _ ub' _ _ E); [|done].
  intros i a a' _ (H1 & H2 & H3 & H4) Hstep. unfold initialize_user_in_map in Hstep.
  destruct (buffer a) eqn:Hba; simpl in Hstep; [|done].
  destruct (read_slot _ a); simpl in Hstep; [|done].
  destruct (socialUserGraph a !! _); simplify_eq; simpl; split_and!; congruence.
Qed.

Lemma initialize_buffer_slabs (ub ub' : user_buffer) (users : list xbox_social_user)
    (n : nat) :
  initialize_buffer ub users n = Some ub' →
  ∀ k, k ≠ allocated ub → slabs ub' !! k = slabs ub !! k.
Proof.
  unfold initialize_buffer. intros E k Hk.
  apply initialize_users_in_map_frame in E as (-> & _).
  destruct (decide (length users = 0 ∧ n = 0)%nat) as [[Hl Hn]|Hne].
  - apply length_zero_iff_nil in Hl. by subst.
  - rewrite buffer_init_eq by done. simpl. by rewrite lookup_insert_ne.
Qed.

(** The users [reallocate] copies out of the slab. *)
Lemma reallocate_copies (ub ub' : user_buffer) (n : nat) :
  reallocate ub n = Some ub' →
  ∃ socialVec,
    initialize_buffer (mem_free ub) socialVec n = Some ub'
    ∧ length socialVec
      = length (filter (λ kv, is_Some (socialUser kv.2))
                  (map_to_list (socialUserGraph ub)))
    ∧ ∀ b l i u, buffer ub = Some b → slabs ub !! b = Some l →
                 (socialVec !! i = Some u
                  ↔ (i < length socialVec)%nat ∧ l !! i = Some (Some u)).
Proof.
  unfold reallocate. intros E.
  set (size := length (filter _ _)) in *.
  destruct (decide (0 < size)%nat) as [Hpos|Hz].
  - destruct (buffer ub) as [b|] eqn:Hb; simpl in E; [|done].
    destruct (slabs ub !! b) as [l|] eqn:Hl; simpl in E; [|done].
    destruct (decide (size ≤ length l)%nat) as [Hle|]; [|done].
    destruct (mapM id (take size l)) as [vec|] eqn:Hvec; simpl in E; [|done].
    apply mapM_Some in Hvec.
    pose proof (Forall2_length _ _ _ Hvec) as Hlen. rewrite length_take in Hlen.
    exists vec. split; [done|]. split; [lia|].
    intros b' l' i u ? ?. simplify_eq. split.
    + intros Hu. pose proof (lookup_lt_Some _ _ _ Hu) as Hi. split; [done|].
      destruct (Forall2_lookup_r _ _ _ _ _ Hvec Hu) as (x & Hx & Hxu).
      simpl in Hxu. subst x. by rewrite lookup_take_lt in Hx by lia.
    + intros [Hi Hu].
      assert (take size l !! i = Some (Some u)) as Hx
        by (rewrite lookup_take_lt by lia; done).
      destruct (Forall2_lookup_l _ _ _ _ _ Hvec Hx) as (y & Hy & Hxy).
      simpl in Hxy. by simplify_eq.
  - simpl in E. exists []. split; [done|]. split; [simpl; lia|].
    intros b l i u _ _. simpl. split; [done|]. intros [? _]. lia.
Qed.

(** X19.  What a reallocation keeps.  [reallocate] copies as many slots
    from the start of the slab as there are users with a slot in the graph,
    whoever is in those slots, and frees the slab: every user copied is
    entered in the graph again, also one whose id had been removed; an entry
    of the graph whose id is not among the users copied keeps its pointer
    into the freed slab, which can no longer be read. *)
Theorem reallocation_keeps_the_leading_slots
    (ub ub' : user_buffer) (totalSizeNeeded : nat) (b : nat)
    (l : list (option xbox_social_user)) :
  reallocate ub totalSizeNeeded = Some ub' →
  buffer ub = Some b →
  slabs ub !! b = Some l →
  (b < allocated ub)%nat →
  (∀ i u,
     (i < length (filter (λ kv, is_Some (socialUser kv.2))
                    (map_to_list (socialUserGraph ub))))%nat →
     l !! i = Some (Some u) →
     is_Some (socialUserGraph ub' !! _Xbox_user_id_as_integer u))
  ∧ (∀ id ctx p,
       socialUserGraph ub !! id = Some ctx →
       socialUser ctx = Some p →
       block p = b →
       (∀ i u,
          (i < length (filter (λ kv, is_Some (socialUser kv.2))
                         (map_to_list (socialUserGraph ub))))%nat →
          l !! i = Some (Some u) → _Xbox_user_id_as_integer u ≠ id) →
       socialUserGraph ub' !! id = Some ctx ∧ read_slot p ub' = None).
Proof.
  intros E Hb Hl Hlt.
  apply reallocate_copies in E as (vec & E & Hlen & Hvec).
  specialize (Hvec b l). rewrite <- Hlen.
  destruct (initialize_buffer_spec (mem_free ub) vec totalSizeNeeded)
    as (ub1 & E1 & Huser & Hother & _).
  rewrite E in E1. injection E1 as <-.
  assert (socialUserGraph (mem_free ub) = socialUserGraph ub) as Hg.
  { unfold mem_free. by rewrite Hb. }
  assert (allocated (mem_free ub) = allocated ub) as Ha.
  { unfold mem_free. by rewrite Hb. }
  split.
  - intros i u Hi Hu.
    assert (vec !! i = Some u) as Hv by (by apply Hvec).
    (* the last slot copied that holds this id *)
    assert (∃ j u', vec !! j = Some u'
                    ∧ _Xbox_user_id_as_integer u' = _Xbox_user_id_as_integer u
                    ∧ ∀ k u'', vec !! k = Some u'' →
                               _Xbox_user_id_as_integer u''
                               = _Xbox_user_id_as_integer u' → (k ≤ j)%nat)
      as (j & u' & Hj & Hid & Hlast).
    { clear -Hv. revert i Hv. induction vec as [|x vec IH] using rev_ind; intros i Hv.
      - done.
      - destruct (decide (_Xbox_user_id_as_integer x = _Xbox_user_id_as_integer u))
          as [Hx|Hx].
        + exists (length vec), x. split_and!; [by rewrite lookup_app_r, Nat.sub_diag|done|].
          intros k u'' Hk _. apply lookup_lt_Some in Hk. rewrite length_app in Hk.
          simpl in Hk. lia.
        + assert (vec !! i = Some u) as Hv'.
          { apply lookup_app_Some in Hv as [Hv|[_ Hv]]; [done|].
            destruct (i - length vec)%nat; simpl in Hv; [|done]. by simplify_eq. }
          destruct (IH i Hv') as (j & u' & Hj & Hid & Hlast).
          exists j, u'. split_and!; [by apply lookup_app_l_Some|done|].
          intros k u'' Hk Hku. apply lookup_app_Some in Hk as [Hk|[_ Hk]].
          * by eapply Hlast.
          * destruct (k - length vec)%nat; simpl in Hk; [|done]. simplify_eq.
            congruence. }
    destruct (Huser j u' Hj Hlast) as (p & G & _). rewrite <- Hid. by rewrite G.
  - intros id ctx p Hid Hp Hpb Hnone. split.
    + rewrite Hother, Hg; [done|]. intros u Hu.
      apply list_elem_of_lookup in Hu as [i Hi].
      apply Hvec in Hi as [Hi1 Hi2]; [|done|done]. by eapply Hnone.
    + unfold read_slot.
      rewrite (initialize_buffer_slabs _ _ _ _ E) by (rewrite Ha, Hpb; lia).
      unfold mem_free. rewrite Hb. simpl. by rewrite Hpb, lookup_delete_eq.
Qed.

(** X20.  A reallocation of a compact slab keeps every user.  When the
    users with a slot in the graph are as many as the users [socialVec] that
    fill the first slots of the slab, with distinct ids, [reallocate]
    succeeds: each of them is entered under its id with the count the id
    had, pointing at the slot of the same index in the slab in use
    afterwards, which holds the user; the other ids are left alone, and the
    free list has the [5 + totalSizeNeeded] slots that follow. *)
Theorem compact_reallocation_keeps_every_user
    (ub : user_buffer) (totalSizeNeeded : nat) (b : nat)
    (l : list (option xbox_social_user)) (socialVec : list xbox_social_user) :
  buffer ub = Some b →
  slabs ub !! b = Some l →
  take (length socialVec) l = Some <$> socialVec →
  length (filter (λ kv, is_Some (socialUser kv.2)) (map_to_list (socialUserGraph ub)))
  = length socialVec →
  NoDup (_Xbox_user_id_as_integer <$> socialVec) →
  ∃ ub',
    reallocate ub totalSizeNeeded = Some ub'
    ∧ (∀ i u, socialVec !! i = Some u →
         ∃ p, socialUserGraph ub' !! _Xbox_user_id_as_integer u
              = Some {| socialUser := Some p;
                        refCount := from_option refCount 1
                                      (socialUserGraph ub
                                         !! _Xbox_user_id_as_integer u) |}
              ∧ read_slot p ub' = Some u
              ∧ buffer ub' = Some (block p)
              ∧ slot p = i)
    ∧ (∀ id, id ∉ _Xbox_user_id_as_integer <$> socialVec →
             socialUserGraph ub' !! id = socialUserGraph ub !! id)
    ∧ length (freeData ub')
      = (if decide (length socialVec = 0 ∧ totalSizeNeeded = 0)%nat
         then 0 else 5 + totalSizeNeeded)%nat
    ∧ socialUserEventQueue ub' = socialUserEventQueue ub.
Proof.
  intros Hb Hl Htake Hsize Hnd.
  assert (reallocate ub totalSizeNeeded
          = initialize_buffer (mem_free ub) socialVec totalSizeNeeded) as Hre.
  { unfold reallocate. rewrite Hsize.
    destruct (decide (0 < length socialVec)%nat) as [Hpos|Hz].
    - rewrite Hb. simpl. rewrite Hl. simpl.
      assert (length socialVec ≤ length l)%nat as Hle.
      { apply (f_equal length) in Htake. rewrite length_take, length_fmap in Htake. lia. }
      rewrite decide_True by done. rewrite Htake.
      assert (mapM id (Some <$> socialVec) = Some socialVec) as ->; [|done].
      apply mapM_Some. apply Forall2_fmap_l, Forall_Forall2_diag, Forall_forall. done.
    - destruct socialVec; [done|]. simpl in Hz. lia. }
  destruct (initialize_buffer_spec (mem_free ub) socialVec totalSizeNeeded)
    as (ub' & E & Huser & Hother & Hfree & _ & _ & Hq).
  assert (socialUserGraph (mem_free ub) = socialUserGraph ub) as Hg.
  { unfold mem_free. by rewrite Hb. }
  assert (socialUserEventQueue (mem_free ub) = socialUserEventQueue ub) as Hq'.
  { unfold mem_free. by rewrite Hb. }
  exists ub'. rewrite Hre. split; [done|]. split_and!; try done.
  - intros i u Hu. rewrite <- Hg. apply Huser; [done|].
    intros j u' Hj Heq. cut (j = i); [lia|].
    eapply NoDup_lookup; [exact Hnd| |].
    + by rewrite list_lookup_fmap, Hj.
    + rewrite list_lookup_fmap, Hu. simpl. congruence.
  - intros id Hid. rewrite <- Hg. apply Hother. intros u Hu <-. apply Hid.
    apply list_elem_of_fmap. by exists u.
  - by rewrite Hq.
Qed.

(** ** The two buffers *)

Section effects_of_events.
Context `{!Collaborators}.

Lemma unsubscribe_users_id (users : list N) (s : social_graph) :
  unsubscribe_users users s = s.
Proof. done. Qed.

Lemma apply_users_added_event_buffer (evt : internal_social_event) (ib : buffer_name)
    (f : bool) (s : social_graph) :
  Some (buffer_of ib (apply_users_added_event evt ib f s))
  = (let '(g, usersToAdd) :=
       users_added_scan (socialUserGraph (buffer_of ib s))
         (users_affected_as_string_vec evt) in
     Some (set_socialUserGraph (users_added_insert g usersToAdd) (buffer_of ib s))).
Proof.
  unfold apply_users_added_event. destruct (users_added_scan _ _) as [g [|u l]].
  - change (buffer_of ib (record_call ?c ?x)) with (buffer_of ib x).
    by rewrite buffer_of_set_buffer_eq.
  - rewrite buffer_of_set_buffer_eq. f_equal.
    assert (∀ x, buffer_of ib (if f then record_call
              (timer_fire m_socialGraphRefreshTimer (u :: l)
                 {| isNull := false;
                    context := m_userAddedContext
                                 (set_userAddedContext
                                    (incr32 (m_userAddedContext
                                               (set_buffer ib
                                                  (set_socialUserGraph g (buffer_of ib s))
                                                  s)))
                                    (set_buffer ib
                                       (set_socialUserGraph g (buffer_of ib s)) s));
                    numObjects := N.of_nat (length (u :: l));
                    cc_tce := tce evt |}) x else x) = buffer_of ib x) as ->
      by (intros x; by destruct f).
    change (buffer_of ib (set_userAddedContext ?c ?x)) with (buffer_of ib x).
    by rewrite buffer_of_set_buffer_eq.
Qed.

Lemma apply_users_removed_event_buffer (evt : internal_social_event) (ib : buffer_name)
    (t : social_event_type) (f : bool) (s : social_graph) :
  Some (buffer_of ib (apply_users_removed_event evt ib t f s).1)
  = (let '(g, removeUsers, _) :=
       foldl users_removed_step (socialUserGraph (buffer_of ib s), [], t)
         (users_to_remove evt) in
     Some (remove_users_from_buffer removeUsers
             (set_socialUserGraph g (buffer_of ib s)))).
Proof.
  unfold apply_users_removed_event. destruct (foldl _ _ _) as [[g rem] t'].
  simpl. destruct f; rewrite ?unsubscribe_users_id; by rewrite buffer_of_set_buffer_eq.
Qed.

Ltac buf :=
  cbn [fmap option_fmap option_map mbind option_bind fst snd];
  repeat (change (buffer_of ?b (push_social_event ?e ?t ?r ?x)) with (buffer_of b x));
  rewrite ?setup_subscriptions_buffer, ?buffer_of_set_buffer_eq; try done.

Lemma apply_users_change_event_buffer (evt : internal_social_event) (ib : buffer_name)
    (f : bool) (s : social_graph) :
  buffer_of ib <$> apply_users_change_event evt ib f s
  = (if decide (err (error evt) ≠ no_error) then Some (buffer_of ib s)
     else
       '(ub, usersToAdd, _) ← users_change_scan (buffer_of ib s) (users_affected evt);
       match usersToAdd with
       | [] => Some ub
       | _ =>
           add_users_to_buffer usersToAdd ub
             (N.to_nat (numObjects (completion_context evt)))
       end).
Proof.
  unfold apply_users_change_event.
  set (s2 := if isNull _ then s else _).
  assert (buffer_of ib s = buffer_of ib s2) as -> by (unfold s2; by destruct (isNull _)).
  clearbody s2. destruct (decide _); [done|].
  destruct (users_change_scan _ _) as [[[ub toAdd] changed]|]; [|done].
  cbn [mbind option_bind].
  destruct toAdd as [|u toAdd].
  - cbn [mbind option_bind]. destruct changed; [|destruct f]; buf.
  - rewrite buffer_of_set_buffer_eq.
    destruct (add_users_to_buffer _ _ _) as [ub1|]; [|done].
    cbn [mbind option_bind].
    destruct f; destruct changed; buf.
Qed.

Lemma apply_device_presence_changed_event_buffer (evt : internal_social_event)
    (ib : buffer_name) (f : bool) (t : social_event_type) (s : social_graph) :
  inactive_buffer (m_userBuffer s) = Some ib →
  (λ r, buffer_of ib r.1) <$> apply_device_presence_changed_event evt ib f t s
  = buffer_effect (event_of_device_args device_presence_changed (device_presence_args evt))
      (buffer_of ib s).
Proof.
  intros Hib. unfold apply_device_presence_changed_event, buffer_effect. rewrite Hib.
  simpl.
  destruct (socialUserGraph (buffer_of ib s) !! _) as [ctx|]; [|done].
  destruct (socialUser ctx) as [p|]; [|done].
  destruct (read_slot p (buffer_of ib s)) as [user|]; [|done]. simpl.
  destruct (bool_decide _ || _); simpl; [by destruct f|].
  destruct (assign_slot _ _ _) as [ub|]; [|done]. buf.
Qed.

Lemma apply_title_presence_changed_buffer (evt : internal_social_event)
    (ib : buffer_name) (t : social_event_type) (s : social_graph) :
  (λ r, buffer_of ib r.1) <$> apply_title_presence_changed evt ib t s
  = buffer_effect (event_of_title_args title_presence_changed (title_presence_args evt))
      (buffer_of ib s).
Proof.
  unfold apply_title_presence_changed, buffer_effect. simpl.
  destruct (socialUserGraph (buffer_of ib s) !! _) as [ctx|]; [|done].
  destruct (socialUser ctx) as [p|]; [|done].
  destruct (read_slot p (buffer_of ib s)) as [user|]; [|done]. simpl.
  destruct (decide _); [|done].
  destruct (assign_slot _ _ _) as [ub|]; [|done]. buf.
Qed.

Lemma apply_presence_changed_event_buffer (evt : internal_social_event)
    (ib : buffer_name) (f : bool) (s : social_graph) :
  buffer_of ib <$> apply_presence_changed_event evt ib f s
  = fst <$> presence_changed_scan (buffer_of ib s) (presence_records evt).
Proof.
  unfold apply_presence_changed_event.
  destruct (presence_changed_scan _ _) as [[ub ids]|]; [|done]. simpl.
  destruct ids; [|destruct f]; buf.
Qed.

Lemma apply_profiles_changed_buffer (evt : internal_social_event)
    (ib : buffer_name) (s : social_graph) :
  buffer_of ib <$> apply_profiles_changed evt ib s
  = for_each profiles_changed_step (users_affected evt) (buffer_of ib s).
Proof.
  unfold apply_profiles_changed.
  destruct (for_each _ _ _) as [ub|]; [|done]. buf.
Qed.

(** [buffer_effect] is the effect of [apply_event] on the inactive buffer. *)
Lemma apply_event_buffer (evt : internal_social_event) (f : bool) (s : social_graph)
    (ib : buffer_name) :
  inactive_buffer (m_userBuffer s) = Some ib →
  buffer_of ib <$> apply_event evt f s = buffer_effect evt (buffer_of ib s).
Proof.
  intros Hib. unfold apply_event. set (s0 := record_call _ s).
  change (inactive_buffer (m_userBuffer s0)) with (inactive_buffer (m_userBuffer s)).
  rewrite Hib. change (buffer_of ib s) with (buffer_of ib s0).
  assert (inactive_buffer (m_userBuffer s0) = Some ib) as Hib0 by done.
  clearbody s0.
  assert (∀ x t, buffer_of ib (if f then push_social_event evt t result_success x else x)
                 = buffer_of ib x) as Hend by (intros; by destruct f).
  unfold buffer_effect. destruct (event_type evt) eqn:Ht.
  - cbn [mbind option_bind fmap option_fmap option_map]. rewrite Hend.
    apply apply_users_added_event_buffer.
  - rewrite <- (apply_users_change_event_buffer evt ib f s0).
    destruct (apply_users_change_event _ _ _ _) as [s1|]; [|done]. simpl. by rewrite Hend.
  - pose proof (apply_users_removed_event_buffer evt ib public_unknown f s0) as Hr.
    destruct (apply_users_removed_event _ _ _ _ _) as [s1 t]. simpl in *.
    by rewrite Hend.
  - pose proof (apply_device_presence_changed_event_buffer evt ib f public_unknown s0 Hib0)
      as Hd.
    unfold buffer_effect in Hd. simpl in Hd. rewrite <- Hd.
    destruct (apply_device_presence_changed_event _ _ _ _ _) as [[s1 t]|]; [|done].
    simpl. by rewrite Hend.
  - pose proof (apply_title_presence_changed_buffer evt ib public_unknown s0) as Hd.
    unfold buffer_effect in Hd. simpl in Hd. rewrite <- Hd.
    destruct (apply_title_presence_changed _ _ _ _) as [[s1 t]|]; [|done].
    simpl. by rewrite Hend.
  - rewrite <- (apply_presence_changed_event_buffer evt ib f s0).
    destruct (apply_presence_changed_event _ _ _ _) as [s1|]; [|done]. simpl.
    by rewrite Hend.
  - rewrite <- (apply_profiles_changed_buffer evt ib s0).
    destruct (apply_profiles_changed _ _ _) as [s1|]; [|done]. simpl. by rewrite Hend.
  - rewrite <- (apply_profiles_changed_buffer evt ib s0).
    destruct (apply_profiles_changed _ _ _) as [s1|]; [|done]. simpl. by rewrite Hend.
  - simpl. by rewrite Hend.
Qed.

End effects_of_events.

(** *** The pending events do not matter

    The buffer operations neither read nor write the list of pending events
    of the buffer: they commute with replacing it. *)

Lemma for_each_commute {A B : Type} (g : A → A) (body : B → A → option A)
    (l : list B) (a : A) :
  (∀ x a, body x (g a) = g <$> body x a) →
  for_each body l (g a) = g <$> for_each body l a.
Proof.
  intros Hbody. revert a. induction l as [|x l IH]; intros a; [done|].
  simpl. rewrite Hbody. destruct (body x a) as [a'|]; [|done]. simpl. apply IH.
Qed.

Section pending_does_not_matter.
Variable q : list internal_social_event.

Lemma assign_slot_pending_commute (p : slot_ptr) (u : xbox_social_user) (ub : user_buffer) :
  assign_slot p u (set_socialUserEventQueue q ub)
  = set_socialUserEventQueue q <$> assign_slot p u ub.
Proof.
  unfold assign_slot. change (read_slot p (set_socialUserEventQueue q ub)) with (read_slot p ub).
  change (slabs (set_socialUserEventQueue q ub)) with (slabs ub).
  destruct (slabs ub !! block p); [|done]. simpl.
  by destruct (read_slot p ub).
Qed.

Lemma construct_slot_pending_commute (p : slot_ptr) (u : xbox_social_user)
    (ub : user_buffer) :
  construct_slot p u (set_socialUserEventQueue q ub)
  = set_socialUserEventQueue q <$> construct_slot p u ub.
Proof.
  unfold construct_slot. change (slabs (set_socialUserEventQueue q ub)) with (slabs ub).
  destruct (slabs ub !! block p); [|done]. simpl. by destruct (decide _).
Qed.

Lemma initialize_user_in_map_pending_commute (i : nat) (ub : user_buffer) :
  initialize_user_in_map i (set_socialUserEventQueue q ub)
  = set_socialUserEventQueue q <$> initialize_user_in_map i ub.
Proof.
  unfold initialize_user_in_map. change (buffer (set_socialUserEventQueue q ub)) with (buffer ub).
  destruct (buffer ub) as [b|]; [|done]. simpl.
  change (read_slot ?p (set_socialUserEventQueue q ub)) with (read_slot p ub).
  destruct (read_slot _ ub) as [u|]; [|done]. simpl.
  by destruct (socialUserGraph ub !! _).
Qed.

Lemma initialize_users_in_map_pending_commute (ub : user_buffer) (n off : nat) :
  initialize_users_in_map (set_socialUserEventQueue q ub) n off
  = set_socialUserEventQueue q <$> initialize_users_in_map ub n off.
Proof.
  unfold initialize_users_in_map. apply for_each_commute.
  intros i a. apply initialize_user_in_map_pending_commute.
Qed.

Lemma buffer_init_pending_commute (ub : user_buffer) (users : list xbox_social_user)
    (n : nat) :
  buffer_init (set_socialUserEventQueue q ub) users n
  = set_socialUserEventQueue q (buffer_init ub users n).
Proof. unfold buffer_init, buffer_alloc. simpl. by destruct (decide _). Qed.

Lemma initialize_buffer_pending_commute (ub : user_buffer)
    (users : list xbox_social_user) (n : nat) :
  initialize_buffer (set_socialUserEventQueue q ub) users n
  = set_socialUserEventQueue q <$> initialize_buffer ub users n.
Proof.
  unfold initialize_buffer. rewrite buffer_init_pending_commute.
  apply initialize_users_in_map_pending_commute.
Qed.

Lemma reallocate_pending_commute (ub : user_buffer) (n : nat) :
  reallocate (set_socialUserEventQueue q ub) n = set_socialUserEventQueue q <$> reallocate ub n.
Proof.
  unfold reallocate.
  change (socialUserGraph (set_socialUserEventQueue q ub)) with (socialUserGraph ub).
  change (buffer (set_socialUserEventQueue q ub)) with (buffer ub).
  change (slabs (set_socialUserEventQueue q ub)) with (slabs ub).
  destruct (if decide _ then _ else _) as [v|]; [|done]. simpl.
  assert (mem_free (set_socialUserEventQueue q ub)
          = set_socialUserEventQueue q (mem_free ub)) as ->.
  { unfold mem_free. simpl. by destruct (buffer ub). }
  apply initialize_buffer_pending_commute.
Qed.

Lemma add_user_to_buffer_pending_commute (u : xbox_social_user) (ub : user_buffer) :
  add_user_to_buffer u (set_socialUserEventQueue q ub)
  = set_socialUserEventQueue q <$> add_user_to_buffer u ub.
Proof.
  unfold add_user_to_buffer. change (freeData (set_socialUserEventQueue q ub)) with (freeData ub).
  change (buffer (set_socialUserEventQueue q ub)) with (buffer ub).
  destruct (head (freeData ub)) as [[p|]|]; try done. simpl.
  destruct (buffer ub) as [b|]; [|done]. simpl.
  change (set_freeData (tail (freeData ub)) (set_socialUserEventQueue q ub))
    with (set_socialUserEventQueue q (set_freeData (tail (freeData ub)) ub)).
  rewrite construct_slot_pending_commute.
  destruct (construct_slot _ _ _) as [ub1|]; [|done]. simpl.
  destruct (decide _); [|done]. apply initialize_users_in_map_pending_commute.
Qed.

Lemma add_users_to_buffer_pending_commute (users : list xbox_social_user)
    (ub : user_buffer) (n : nat) :
  add_users_to_buffer users (set_socialUserEventQueue q ub) n
  = set_socialUserEventQueue q <$> add_users_to_buffer users ub n.
Proof.
  unfold add_users_to_buffer.
  change (freeData (set_socialUserEventQueue q ub)) with (freeData ub).
  destruct (decide _).
  - rewrite reallocate_pending_commute. destruct (reallocate ub _) as [ub1|]; [|done].
    simpl. apply for_each_commute. intros x a. apply add_user_to_buffer_pending_commute.
  - simpl. apply for_each_commute. intros x a. apply add_user_to_buffer_pending_commute.
Qed.

Lemma remove_users_from_buffer_pending_commute (users : list N) (ub : user_buffer) :
  remove_users_from_buffer users (set_socialUserEventQueue q ub)
  = set_socialUserEventQueue q (remove_users_from_buffer users ub).
Proof.
  unfold remove_users_from_buffer. revert ub.
  induction users as [|x l IH]; intros ub; [done|]. simpl. rewrite <- IH. f_equal.
  unfold remove_user_from_buffer. simpl. by destruct (socialUserGraph ub !! x).
Qed.

End pending_does_not_matter.

Section effect_and_pending.
Context `{!Collaborators}.
Variable q : list internal_social_event.

Lemma users_change_scan_pending_commute (ub : user_buffer)
    (users : list xbox_social_user) :
  users_change_scan (set_socialUserEventQueue q ub) users
  = (λ r, (set_socialUserEventQueue q r.1.1, r.1.2, r.2)) <$> users_change_scan ub users.
Proof.
  unfold users_change_scan.
  apply (for_each_commute
           (λ r : user_buffer * list xbox_social_user * list xbox_social_user,
              (set_socialUserEventQueue q r.1.1, r.1.2, r.2)) users_change_step users (ub, [], [])).
  intros u [[a l1] l2]. simpl.
  destruct (socialUserGraph a !! _) as [ctx|]; [|done].
  destruct (socialUser ctx) as [p|]; [|done].
  rewrite assign_slot_pending_commute. by destruct (assign_slot p u a).
Qed.

Lemma presence_changed_scan_pending_commute (ub : user_buffer)
    (records : list social_manager_presence_record) :
  presence_changed_scan (set_socialUserEventQueue q ub) records
  = (λ r, (set_socialUserEventQueue q r.1, r.2)) <$> presence_changed_scan ub records.
Proof.
  unfold presence_changed_scan.
  apply (for_each_commute (λ r : user_buffer * list N, (set_socialUserEventQueue q r.1, r.2))
           presence_changed_step records (ub, [])).
  intros r [a l]. simpl. destruct (decide _); [done|].
  destruct (socialUserGraph a !! _) as [ctx|]; [|done].
  destruct (socialUser ctx) as [p|]; [|done].
  change (read_slot p (set_socialUserEventQueue q a)) with (read_slot p a).
  destruct (read_slot p a) as [u|]; [|done]. simpl.
  destruct (presence_Compare _ _); [|done].
  rewrite assign_slot_pending_commute. by destruct (assign_slot p _ a).
Qed.

Lemma profiles_changed_pending_commute (ub : user_buffer) (users : list xbox_social_user) :
  for_each profiles_changed_step users (set_socialUserEventQueue q ub)
  = set_socialUserEventQueue q <$> for_each profiles_changed_step users ub.
Proof.
  apply for_each_commute. intros u a. unfold profiles_changed_step.
  change (socialUserGraph (set_socialUserEventQueue q a)) with (socialUserGraph a).
  destruct (socialUserGraph a !! _) as [ctx|]; [|done]. simpl.
  destruct (socialUser ctx) as [p|]; [|done]. simpl.
  apply assign_slot_pending_commute.
Qed.

Lemma buffer_effect_pending_commute (evt : internal_social_event) (ub : user_buffer) :
  buffer_effect evt (set_socialUserEventQueue q ub)
  = set_socialUserEventQueue q <$> buffer_effect evt ub.
Proof.
  unfold buffer_effect. destruct (event_type evt).
  - change (socialUserGraph (set_socialUserEventQueue q ub)) with (socialUserGraph ub).
    by destruct (users_added_scan _ _) as [g l].
  - destruct (decide _); [done|].
    rewrite users_change_scan_pending_commute.
    destruct (users_change_scan ub _) as [[[ub1 toAdd] changed]|]; [|done]. simpl.
    destruct toAdd; [done|]. apply add_users_to_buffer_pending_commute.
  - change (socialUserGraph (set_socialUserEventQueue q ub)) with (socialUserGraph ub).
    destruct (foldl _ _ _) as [[g rem] t]. simpl. f_equal.
    apply (remove_users_from_buffer_pending_commute q rem (set_socialUserGraph g ub)).
  - change (socialUserGraph (set_socialUserEventQueue q ub)) with (socialUserGraph ub).
    destruct (socialUserGraph ub !! _) as [ctx|]; [|done].
    destruct (socialUser ctx) as [p|]; [|done].
    change (read_slot p (set_socialUserEventQueue q ub)) with (read_slot p ub).
    destruct (read_slot p ub) as [u|]; [|done]. simpl.
    destruct (bool_decide _ || _); [done|]. apply assign_slot_pending_commute.
  - change (socialUserGraph (set_socialUserEventQueue q ub)) with (socialUserGraph ub).
    destruct (socialUserGraph ub !! _) as [ctx|]; [|done].
    destruct (socialUser ctx) as [p|]; [|done].
    change (read_slot p (set_socialUserEventQueue q ub)) with (read_slot p ub).
    destruct (read_slot p ub) as [u|]; [|done]. simpl.
    destruct (decide _); [|done]. apply assign_slot_pending_commute.
  - rewrite presence_changed_scan_pending_commute.
    by destruct (presence_changed_scan ub _) as [[ub1 ids]|].
  - apply profiles_changed_pending_commute.
  - apply profiles_changed_pending_commute.
  - done.
Qed.

End effect_and_pending.

Lemma same_contents_eq (ub1 ub2 : user_buffer) :
  same_contents ub1 ub2 →
  ub2 = set_socialUserEventQueue (socialUserEventQueue ub2) ub1.
Proof.
  unfold same_contents. destruct ub1, ub2. unfold set_socialUserEventQueue. simpl.
  intros ?. by simplify_eq.
Qed.

Lemma same_contents_set (q : list internal_social_event) (ub : user_buffer) :
  same_contents ub (set_socialUserEventQueue q ub).
Proof. done. Qed.

Section replay_reproduces.
Context `{!Collaborators}.

(** X21.  Replaying an event reproduces its effect.  Two applications of
    the same event to buffers that differ at most in their pending events,
    in whatever states and whether fresh or replayed: if one returns then so
    does the other, and the buffers they leave differ at most in their
    pending events again. *)
Theorem replay_reproduces_the_effect_of_an_event
    (evt : internal_social_event) (f1 f2 : bool) (s1 s2 s1' : social_graph)
    (b1 b2 : buffer_name) :
  inactive_buffer (m_userBuffer s1) = Some b1 →
  inactive_buffer (m_userBuffer s2) = Some b2 →
  same_contents (buffer_of b1 s1) (buffer_of b2 s2) →
  apply_event evt f1 s1 = Some s1' →
  ∃ s2', apply_event evt f2 s2 = Some s2'
         ∧ same_contents (buffer_of b1 s1') (buffer_of b2 s2').
Proof.
  intros H1 H2 Hsame E1.
  pose proof (apply_event_buffer evt f1 s1 b1 H1) as A1. rewrite E1 in A1. simpl in A1.
  pose proof (apply_event_buffer evt f2 s2 b2 H2) as A2.
  rewrite (same_contents_eq _ _ Hsame), buffer_effect_pending_commute, <- A1 in A2.
  destruct (apply_event evt f2 s2) as [s2'|]; [|done]. simpl in A2.
  exists s2'. split; [done|]. injection A2 as ->. apply same_contents_set.
Qed.

End replay_reproduces.

(** *** A frame of work keeps the two buffers in step *)

Lemma in_step_buffers (s : social_graph) :
  in_step s →
  m_isInitialized s = true
  ∧ ∃ a b, active_buffer (m_userBuffer s) = Some a
           ∧ inactive_buffer (m_userBuffer s) = Some b
           ∧ a ≠ b
           ∧ buffer_of a s = buffer_of b s
           ∧ pending_of a s = []
           ∧ pending_of b s = [].
Proof.
  intros (Hi & (a & b & Ha & Hb & Hab) & Heq & He). split; [done|].
  exists a, b. unfold are_events_empty in He.
  apply andb_true_iff in He as [HA HB].
  apply bool_decide_eq_true in HA, HB.
  unfold pending_of, buffer_of, user_buffer_a, user_buffer_b in *.
  destruct a, b; simpl; try done; split_and!; congruence.
Qed.

Lemma in_step_intro (s : social_graph) (a b : buffer_name) :
  m_isInitialized s = true →
  active_buffer (m_userBuffer s) = Some a →
  inactive_buffer (m_userBuffer s) = Some b →
  a ≠ b →
  buffer_of a s = buffer_of b s →
  pending_of b s = [] →
  in_step s.
Proof.
  intros Hi Ha Hb Hab Heq Hp. split_and!; [done|by exists a, b| |].
  - unfold buffer_of, user_buffer_a, user_buffer_b in *. by destruct a, b.
  - unfold are_events_empty, pending_of, buffer_of, user_buffer_a, user_buffer_b in *.
    rewrite <- Heq in Hp.
    destruct a, b; try done; simpl in *; rewrite ?Hp, <- ?Heq, ?Hp, ?Heq, ?Hp;
      by rewrite !bool_decide_eq_true_2.
Qed.

Lemma set_pending_nil (ub : user_buffer) :
  socialUserEventQueue ub = [] → set_socialUserEventQueue [] ub = ub.
Proof. destruct ub. simpl. by intros ->. Qed.

Lemma add_event_eq (evt : internal_social_event) (h h' : user_buffers_holder.t) :
  add_event evt h = Some h' →
  ∃ a, m_activeBuffer h = Some a
       ∧ h' = store a (set_socialUserEventQueue
                         (socialUserEventQueue (deref a h) ++ [evt]) (deref a h)) h.
Proof.
  unfold add_event. destruct (m_activeBuffer h) as [a|]; [|done]. simpl.
  intros ?; simplify_eq. by exists a.
Qed.

Section in_step.
Context `{!Collaborators}.

Lemma perform_diff_frame (xboxSocialUsers : gmap N xbox_social_user)
    (s s' : social_graph) :
  perform_diff xboxSocialUsers s = Some s' →
  m_userBuffer s' = m_userBuffer s
  ∧ m_isInitialized s' = m_isInitialized s
  ∧ (m_socialGraphState s = normal → m_socialGraphState s' = normal).
Proof.
  unfold perform_diff. destruct (inactive_buffer _) as [b|]; [|by intros; simplify_eq].
  destruct (diff_scan_current _ _) as [[[[l1 l2] l3] l4]|]; simpl; [|done].
  destruct (diff_scan_previous _ _ _) as [l5|]; simpl; [|done].
  intros ?; simplify_eq. unfold push_if.
  repeat (match goal with |- context [bool_decide ?P] => destruct (bool_decide P) end);
    done.
Qed.

(** Replaying the pending events of the inactive buffer is folding
    [buffer_effect] over them. *)
Lemma replay_all (a : buffer_name) (l : list internal_social_event) (s : social_graph) :
  inactive_buffer (m_userBuffer s) = Some a →
  pending_of a s = l →
  buffer_of a <$> for_each (replay_step a) l s
  = for_each buffer_effect l (set_socialUserEventQueue [] (buffer_of a s)).
Proof.
  revert s. induction l as [|evt l IH]; intros s Hib Hp.
  - simpl. by rewrite set_pending_nil.
  - cbn [for_each]. unfold pending_of in Hp.
    set (x := set_buffer a (set_socialUserEventQueue l (buffer_of a s)) s).
    assert (replay_step a evt s = apply_event evt false x) as ->.
    { unfold replay_step, x. by rewrite Hp. }
    assert (inactive_buffer (m_userBuffer x) = Some a) as Hx.
    { unfold x, set_buffer, inactive_buffer. simpl. by rewrite inactive_store. }
    pose proof (apply_event_buffer evt false x a Hx) as A.
    unfold x in A at 2. rewrite buffer_of_set_buffer_eq in A.
    rewrite buffer_effect_pending_commute in A.
    rewrite buffer_effect_pending_commute.
    destruct (apply_event evt false x) as [x1|] eqn:E1.
    + simpl in A. destruct (buffer_effect evt (buffer_of a s)) as [ub'|]; [|done].
      simpl in A. injection A as A. cbn [mbind option_bind fmap option_fmap option_map].
      apply apply_event_frame in E1 as (_ & _ & _ & _ & _ & H6 & H7 & _).
      rewrite IH.
      * by rewrite A.
      * unfold inactive_buffer in *. by rewrite H6.
      * unfold pending_of. by rewrite A.
    + simpl in A. destruct (buffer_effect evt (buffer_of a s)) as [ub'|]; done.
Qed.

Lemma for_each_replay_other (a : buffer_name) (l : list internal_social_event)
    (s s' : social_graph) :
  inactive_buffer (m_userBuffer s) = Some a →
  for_each (replay_step a) l s = Some s' →
  ∀ b, b ≠ a → buffer_of b s' = buffer_of b s.
Proof.
  revert s. induction l as [|evt l IH]; intros s Hib E b Hb; simpl in E.
  - by simplify_eq.
  - destruct (replay_step a evt s) as [s1|] eqn:E1; simpl in E; [|done].
    pose proof (replay_step_frame _ _ _ _ E1) as (_ & _ & _ & _ & _ & H6 & _).
    rewrite (IH s1); [|unfold inactive_buffer in *; by rewrite H6|done|done].
    unfold replay_step in E1.
    apply apply_event_frame in E1 as (_ & _ & _ & _ & _ & _ & _ & H8 & _).
    rewrite H8.
    + by rewrite buffer_of_set_buffer_ne.
    + unfold set_buffer. simpl. rewrite inactive_store.
      unfold inactive_buffer in Hib. rewrite Hib. congruence.
Qed.

(** What a frame of work keeps, between the frame that found the buffers in
    step and the next: the events applied so far are pending on the active
    buffer, whose contents have not changed, and the inactive buffer is what
    their effects make of it. *)
Lemma run_operations_ahead (ops : list operation) (s s1 : social_graph)
    (a b : buffer_name) (l : list internal_social_event) (ub0 : user_buffer) :
  m_isInitialized s = true →
  m_socialGraphState s = normal →
  active_buffer (m_userBuffer s) = Some a →
  inactive_buffer (m_userBuffer s) = Some b →
  a ≠ b →
  buffer_of a s = set_socialUserEventQueue l ub0 →
  for_each buffer_effect l ub0 = Some (buffer_of b s) →
  pending_of b s = [] →
  run_operations ops s = Some s1 →
  ∃ l1,
    m_isInitialized s1 = true
    ∧ m_socialGraphState s1 = normal
    ∧ active_buffer (m_userBuffer s1) = Some a
    ∧ inactive_buffer (m_userBuffer s1) = Some b
    ∧ buffer_of a s1 = set_socialUserEventQueue l1 ub0
    ∧ for_each buffer_effect l1 ub0 = Some (buffer_of b s1)
    ∧ pending_of b s1 = [].
Proof.
  revert s l. induction ops as [|o ops IH]; intros s l Hi Hn Ha Hb Hab Hbuf Heff Hp E.
  - unfold run_operations in E. simpl in E. simplify_eq. by exists l.
  - unfold run_operations in *. cbn [for_each] in E.
    destruct (run_operation o s) as [s2|] eqn:E2; simpl in E; [|done].
    cut (∃ l2, m_isInitialized s2 = true
               ∧ m_socialGraphState s2 = normal
               ∧ active_buffer (m_userBuffer s2) = Some a
               ∧ inactive_buffer (m_userBuffer s2) = Some b
               ∧ buffer_of a s2 = set_socialUserEventQueue l2 ub0
               ∧ for_each buffer_effect l2 ub0 = Some (buffer_of b s2)
               ∧ pending_of b s2 = []).
    { intros (l2 & ? & ? & ? & ? & ? & ? & ?). by eapply (IH s2 l2). }
    clear IH E. destruct o as [|users c|users|m]; simpl in E2.
    + destruct (do_event_work s) as [[r s3]|] eqn:E3; simpl in E2; [|done].
      simplify_eq.
      apply do_event_work_cases in E3
        as [(? & _)|[(ib & ? & _ & ? & Hne & _)|(_ & _ & E3)]]; [congruence| |].
      { simplify_eq. }
      apply process_events_cases in E3
        as [(_ & -> & _)|(evt & rest & x & h & _ & Hq & _ & E4 & E5 & ->)].
      { by exists l. }
      set (x0 := set_internalEventQueue rest _) in E4.
      assert (inactive_buffer (m_userBuffer x0) = Some b) as Hx0 by done.
      pose proof (apply_event_buffer evt true x0 b Hx0) as A. rewrite E4 in A.
      simpl in A. change (buffer_of b x0) with (buffer_of b s) in A.
      apply apply_event_frame in E4 as (G1 & G2 & _ & _ & G5 & G6 & G7 & G8 & _).
      apply add_event_eq in E5 as (a' & F1 & ->).
      assert (a' = a) as ->.
      { rewrite G5 in F1. unfold active_buffer in Ha. simpl in F1. congruence. }
      assert (buffer_of a x = buffer_of a s) as Hax.
      { rewrite G8; [done|]. simpl. unfold inactive_buffer in Hb. rewrite Hb. congruence. }
      fold (buffer_of a x). rewrite Hax, Hbuf. simpl.
      exists (l ++ [evt]). unfold active_buffer, inactive_buffer, pending_of, buffer_of.
      simpl. rewrite active_store, inactive_store, deref_store_eq.
      rewrite (deref_store_ne b a) by done.
      fold (buffer_of b x). fold (pending_of b x).
      split_and!; try done.
      * by rewrite G1.
      * rewrite G6. exact Hb.
      * rewrite for_each_app, Heff. simpl. by rewrite <- A.
      * by rewrite G7.
    + simplify_eq. by exists l.
    + simplify_eq. by exists l.
    + apply perform_diff_frame in E2 as (P1 & P2 & P3).
      exists l. unfold active_buffer, inactive_buffer, buffer_of, pending_of, buffer_of in *.
      rewrite P1, P2. split_and!; try done. by apply P3.
Qed.

(** X22.  A frame of work keeps the two buffers in step.  Start from a
    core whose buffers are in step (initialised, equal buffers, nothing
    pending) in the state [normal], and let the worker, the application and
    the refresh do anything that returns.  If no event was applied, the next
    frame finds the buffers in step again.  Otherwise the frame swaps the
    buffers, and the next round of the worker replays the events on the
    other buffer: it returns, reports work done, and leaves the two buffers
    equal, with nothing pending.  In both cases the roles of the buffers are
    exchanged. *)
Theorem a_frame_of_work_keeps_the_buffers_in_step
    (ops : list operation) (s s1 : social_graph) :
  in_step s →
  m_socialGraphState s = normal →
  run_operations ops s = Some s1 →
  ∃ s2,
    (if are_events_empty s1 then s2 = (frame s1).2
     else do_event_work (frame s1).2 = Some (true, s2))
    ∧ in_step s2
    ∧ m_socialGraphState s2 = normal
    ∧ active_buffer (m_userBuffer s2) = inactive_buffer (m_userBuffer s)
    ∧ inactive_buffer (m_userBuffer s2) = active_buffer (m_userBuffer s).
Proof.
  intros Hstep Hn E.
  apply in_step_buffers in Hstep as (Hi & a & b & Ha & Hb & Hab & Heq & Hpa & Hpb).
  destruct (run_operations_ahead ops s s1 a b [] (buffer_of a s))
    as (l1 & I1 & N1 & A1 & B1 & Hbuf & Heff & P1); try done.
  { unfold pending_of in Hpa. by rewrite set_pending_nil. }
  { simpl. by rewrite Heq. }
  pose proof (frame_spec s1) as (_ & F2 & _ & F4 & F5 & _).
  rewrite N1, B1, P1 in F2. rewrite bool_decide_eq_true_2 in F2 by done. simpl in F2.
  assert (active_buffer (m_userBuffer (frame s1).2) = Some b) as Fa.
  { unfold active_buffer. rewrite F2. by apply (swap_active_is_old_inactive _ a b). }
  assert (inactive_buffer (m_userBuffer (frame s1).2) = Some a) as Fb.
  { unfold inactive_buffer. rewrite F2. by apply swap_inactive_is_old_active. }
  assert (∀ c, buffer_of c (frame s1).2 = buffer_of c s1) as Fc.
  { intros c. unfold buffer_of. by rewrite F2, deref_swap. }
  assert (pending_of a s1 = l1) as Pa by (unfold pending_of; by rewrite Hbuf).
  assert (are_events_empty s1 = bool_decide (l1 = [])) as ->.
  { unfold are_events_empty, user_buffer_a, user_buffer_b.
    unfold pending_of, buffer_of in Pa, P1.
    destruct a, b; try done; simpl in *; rewrite Pa, P1;
      rewrite (bool_decide_eq_true_2 ([] = [])) by done;
      by rewrite ?andb_true_r, ?andb_true_l. }
  rewrite Ha, Hb.
  destruct l1 as [|evt l1].
  - exists (frame s1).2. rewrite bool_decide_eq_true_2 by done.
    split_and!; try done; [|congruence].
    apply (in_step_intro _ b a); try done; [congruence| |].
    + rewrite (Fc a), (Fc b). simpl in Heff. injection Heff as <-. unfold pending_of in Hpa.
      by rewrite Hbuf, set_pending_nil.
    + unfold pending_of. rewrite Fc. exact Pa.
  - rewrite bool_decide_eq_false_2 by done.
    assert (pending_of a (frame s1).2 = evt :: l1) as Pf.
    { unfold pending_of. rewrite Fc. exact Pa. }
    rewrite (do_event_work_cached _ a) by (rewrite ?Pf; done || congruence).
    rewrite Pf.
    set (x := set_state event_processing (frame s1).2).
    pose proof (replay_all a (evt :: l1) x Fb Pf) as R.
    change (buffer_of a x) with (buffer_of a (frame s1).2) in R.
    rewrite Fc, Hbuf in R.
    change (set_socialUserEventQueue [] (set_socialUserEventQueue (evt :: l1) (buffer_of a s)))
      with (set_socialUserEventQueue [] (buffer_of a s)) in R.
    unfold pending_of in Hpa. rewrite set_pending_nil, Heff in R by done.
    destruct (for_each (replay_step a) (evt :: l1) x) as [s3|] eqn:E3; [|done].
    simpl in R. injection R as R.
    pose proof (for_each_replay_frame _ _ _ _ E3) as (_ & _ & R5 & R6 & _).
    pose proof (for_each_replay_pending _ _ _ _ E3) as (R1 & _).
    pose proof (for_each_replay_other a _ x s3 Fb E3 b ltac:(congruence)) as Rb.
    change (buffer_of b x) with (buffer_of b (frame s1).2) in Rb. rewrite Fc in Rb.
    exists (set_state normal s3). simpl. split_and!; try done.
    + apply (in_step_intro _ b a); try done.
      * simpl. rewrite R1. simpl. congruence.
      * unfold active_buffer. simpl. rewrite R5. exact Fa.
      * unfold inactive_buffer. simpl. rewrite R6. exact Fb.
      * change (buffer_of ?c (set_state normal s3)) with (buffer_of c s3). congruence.
      * change (pending_of a (set_state normal s3)) with (pending_of a s3).
        unfold pending_of. rewrite R. exact P1.
    + unfold active_buffer. simpl. rewrite R5. exact Fa.
    + unfold inactive_buffer. simpl. rewrite R6. exact Fb.
Qed.

End in_step.

(** ** Refreshes *)

Lemma refresh_graph_helper_filter (ub : user_buffer)
    (l : list (N * xbox_social_user_context)) (r0 : list N) :
  (∀ kv p, kv ∈ l → socialUser kv.2 = Some p → is_Some (read_slot p ub)) →
  for_each (refresh_graph_helper_step ub) l r0
  = Some (r0 ++ (fst <$> filter (λ kv, not_followed_by_caller ub kv = true) l)).
Proof.
  revert r0. induction l as [|kv l IH]; intros r0 Hl.
  - simpl. by rewrite app_nil_r.
  - cbn [for_each].
    assert (refresh_graph_helper_step ub kv r0
            = Some (r0 ++ (if not_followed_by_caller ub kv then [kv.1] else []))) as ->.
    { unfold refresh_graph_helper_step, not_followed_by_caller.
      destruct (socialUser kv.2) as [p|] eqn:Hp; [|by rewrite app_nil_r].
      destruct (Hl kv p) as [u Hu]; [apply list_elem_of_here|done|].
      rewrite Hu. simpl. destruct (is_followed_by_caller u); simpl; by rewrite ?app_nil_r. }
    simpl. rewrite IH by (intros kv' p' Hkv'; apply Hl; by apply list_elem_of_further).
    f_equal. rewrite <- app_assoc. f_equal.
    destruct (not_followed_by_caller ub kv) eqn:Hn.
    + by rewrite filter_cons_True.
    + by rewrite filter_cons_False by congruence.
Qed.

(** X23.  A refresh asks for the users the caller does not follow.  When
    every slot the graph of the inactive buffer points at holds a user,
    [refresh_graph] returns, leaves the core in the state [normal] and the
    buffers and queues as they are, and fires the graph refresh timer once
    (also when there is nobody to ask for), with ids printed in decimal:
    the ids of the graph whose user is not followed by the caller, each
    once, in the order in which the graph yields its entries, whatever that
    order is. *)
Theorem refresh_asks_for_the_users_the_caller_does_not_follow
    (walk : iteration) (s : social_graph) (ib : buffer_name) :
  inactive_buffer (m_userBuffer s) = Some ib →
  (∀ id ctx p, graph_of ib s !! id = Some ctx → socialUser ctx = Some p →
               is_Some (read_slot p (buffer_of ib s))) →
  lists_entries walk →
  ∃ userRefreshList,
    refresh_graph walk s
    = Some (record_call
              (timer_fire m_socialGraphRefreshTimer (pretty <$> userRefreshList)
                 null_completion_context)
              (set_state normal s))
    ∧ userRefreshList
      = (fst <$> filter (λ kv, not_followed_by_caller (buffer_of ib s) kv = true)
                   (walk (graph_of ib s)))
    ∧ NoDup userRefreshList
    ∧ (∀ id, id ∈ userRefreshList
             ↔ ∃ ctx p u, graph_of ib s !! id = Some ctx
                          ∧ socialUser ctx = Some p
                          ∧ read_slot p (buffer_of ib s) = Some u
                          ∧ is_followed_by_caller u = false).
Proof.
  intros Hib Hread Hwalk.
  assert (∀ kv, kv ∈ walk (graph_of ib s) ↔ graph_of ib s !! kv.1 = Some kv.2)
    as Hwalked.
  { intros [id ctx]. rewrite (Hwalk (graph_of ib s)). apply elem_of_map_to_list. }
  eexists. split; [|split; [reflexivity|split]].
  - unfold refresh_graph, refresh_graph_helper.
    change (inactive_buffer (m_userBuffer (set_state refresh s)))
      with (inactive_buffer (m_userBuffer s)).
    rewrite Hib. change (buffer_of ib (set_state refresh s)) with (buffer_of ib s).
    cbv zeta. fold (graph_of ib s). rewrite refresh_graph_helper_filter; [done|].
    intros [id ctx] p Hkv Hp. apply Hwalked in Hkv. by eapply Hread.
  - apply (NoDup_fmap_fst _); [|apply NoDup_filter].
    + intros id c1 c2 H1 H2. apply list_elem_of_filter in H1 as [_ H1].
      apply list_elem_of_filter in H2 as [_ H2].
      apply Hwalked in H1. apply Hwalked in H2. simpl in *. congruence.
    + rewrite (Hwalk (graph_of ib s)). apply NoDup_map_to_list.
  - intros id. rewrite list_elem_of_fmap. split.
    + intros ([id' ctx] & -> & Hin). apply list_elem_of_filter in Hin as [Hn Hin].
      apply Hwalked in Hin. unfold not_followed_by_caller in Hn. simpl in *.
      destruct (socialUser ctx) as [p|] eqn:Hp; [|done].
      destruct (read_slot p (buffer_of ib s)) as [u|] eqn:Hu; [|done].
      exists ctx, p, u. split_and!; try done. by destruct (is_followed_by_caller u).
    + intros (ctx & p & u & Hg & Hp & Hu & Hf). exists (id, ctx). split; [done|].
      apply list_elem_of_filter. split; [|by apply Hwalked].
      unfold not_followed_by_caller. simpl. by rewrite Hp, Hu, Hf.
Qed.

Section refresh_results.
Context `{!Collaborators}.

(** X24.  A refresh only proposes.  The result of a refresh, whatever it
    is, is turned into at most five events at the end of the main queue, one
    of each kind of difference; the buffers, the public queue, the
    subscriptions and the log of calls are left as they are, and a failed
    fetch changes nothing at all. *)
Theorem refresh_result_only_enqueues_events
    (socialListResult : xbox_live_result_void) (payload : list xbox_social_user)
    (s s' : social_graph) :
  refresh_graph_then socialListResult payload s = Some s' →
  m_userBuffer s' = m_userBuffer s
  ∧ m_socialEventQueue s' = m_socialEventQueue s
  ∧ m_socialUserSubscriptions s' = m_socialUserSubscriptions s
  ∧ calls s' = calls s
  ∧ m_isInitialized s' = m_isInitialized s
  ∧ (err socialListResult ≠ no_error → s' = s)
  ∧ ∃ pushed,
      m_internalEventQueue s' = m_internalEventQueue s ++ pushed
      ∧ (length pushed ≤ 5)%nat
      ∧ NoDup (event_type <$> pushed)
      ∧ Forall (λ evt, event_type evt ∈ [users_changed; users_removed; presence_changed;
                                          profiles_changed; social_relationships_changed])
          pushed.
Proof.
  unfold refresh_graph_then. destruct (decide (err socialListResult = no_error)) as [Hok|Herr].
  2:{ intros ?; simplify_eq. split_and!; try done. exists []. rewrite app_nil_r.
      split_and!; [done|simpl; lia|constructor|constructor]. }
  unfold perform_diff. destruct (inactive_buffer _) as [b|].
  2:{ intros ?; simplify_eq. split_and!; try done. exists []. rewrite app_nil_r.
      split_and!; [done|simpl; lia|constructor|constructor]. }
  destruct (diff_scan_current _ _) as [[[[l1 l2] l3] l4]|]; simpl; [|done].
  destruct (diff_scan_previous _ _ _) as [l5|]; simpl; [|done].
  intros ?; simplify_eq.
  split_and!.
  1-5: unfold push_if;
    repeat (match goal with |- context [bool_decide ?P] => destruct (bool_decide P) end);
    done.
  - done.
  - exists (diff_events l1 l5 l2 l3 l4). unfold push_if, diff_events.
    repeat (match goal with |- context [bool_decide ?P] => destruct (bool_decide P) end);
      simpl; rewrite <- ?app_assoc; try rewrite app_nil_r;
      (split_and!;
       [reflexivity|lia
       |apply (bool_decide_unpack _); vm_compute; exact I
       |apply (bool_decide_unpack _); vm_compute; exact I]).
Qed.

End refresh_results.

(** ** Presence updates *)

Lemma read_assign_slot_other (p p' : slot_ptr) (u : xbox_social_user)
    (ub ub' : user_buffer) :
  assign_slot p u ub = Some ub' → p' ≠ p → read_slot p' ub' = read_slot p' ub.
Proof.
  unfold assign_slot. intros E Hne.
  destruct (slabs ub !! block p) as [l|] eqn:Hl; simpl in E; [|done].
  destruct (read_slot p ub); simpl in E; [|done]. simplify_eq.
  unfold read_slot. simpl.
  destruct (decide (block p' = block p)) as [Hb|Hb].
  - rewrite Hb, lookup_insert_eq, Hl. simpl.
    rewrite list_lookup_insert_ne; [done|].
    intros Hs. apply Hne. destruct p, p'; simpl in *; congruence.
  - by rewrite lookup_insert_ne.
Qed.

Lemma filter_ext_elem {A : Type} (P Q : A → Prop) `{!∀ x, Decision (P x)}
    `{!∀ x, Decision (Q x)} (l : list A) :
  (∀ x, x ∈ l → (P x ↔ Q x)) → filter P l = filter Q l.
Proof.
  induction l as [|x l IH]; intros Hall; [done|].
  assert (filter P l = filter Q l) as IH'.
  { apply IH. intros y Hy. apply Hall. by apply list_elem_of_further. }
  destruct (decide (P x)) as [HP|HP].
  - rewrite !filter_cons_True; [by rewrite IH'| |done].
    apply Hall; [apply list_elem_of_here|done].
  - rewrite !filter_cons_False; [done| |done].
    intros HQ. apply HP. apply Hall; [apply list_elem_of_here|done].
Qed.

Section presence_updates.
Context `{!Collaborators}.

(** The loop of [apply_presence_changed_event] on records with distinct
    ids, in a buffer where the users concerned can be read and sit in
    distinct slots. *)
Lemma presence_changed_scan_spec (records : list social_manager_presence_record)
    (ub : user_buffer) (acc : list N) :
  NoDup (_Xbox_user_id <$> records) →
  (∀ r ctx p, r ∈ records → socialUserGraph ub !! _Xbox_user_id r = Some ctx →
              socialUser ctx = Some p → is_Some (read_slot p ub)) →
  (∀ r r' ctx ctx' p, r ∈ records → r' ∈ records →
     socialUserGraph ub !! _Xbox_user_id r = Some ctx →
     socialUserGraph ub !! _Xbox_user_id r' = Some ctx' →
     socialUser ctx = Some p → socialUser ctx' = Some p →
     _Xbox_user_id r = _Xbox_user_id r') →
  ∃ ub',
    for_each presence_changed_step records (ub, acc)
    = Some (ub', acc ++ (_Xbox_user_id
                           <$> filter (λ r, presence_differs ub r = true) records))
    ∧ socialUserGraph ub' = socialUserGraph ub
    ∧ (∀ r ctx p user, r ∈ records → presence_differs ub r = true →
         socialUserGraph ub !! _Xbox_user_id r = Some ctx → socialUser ctx = Some p →
         read_slot p ub = Some user →
         read_slot p ub' = Some (_Set_presence_record r user))
    ∧ (∀ p, (∀ r ctx, r ∈ records → presence_differs ub r = true →
                      socialUserGraph ub !! _Xbox_user_id r = Some ctx →
                      socialUser ctx ≠ Some p) →
            read_slot p ub' = read_slot p ub).
Proof.
  revert ub acc. induction records as [|r records IH]; intros ub acc Hnd Hread Hinj.
  - exists ub. simpl. rewrite app_nil_r. split_and!; try done.
    intros r ctx p user Hr. by apply elem_of_nil in Hr.
  - rewrite fmap_cons in Hnd. apply NoDup_cons in Hnd as [Hr Hnd].
    cbn [for_each].
    (* the records that follow are not about the user of [r] *)
    assert (∀ r', r' ∈ records → _Xbox_user_id r' ≠ _Xbox_user_id r) as Hother.
    { intros r' Hr' Heq. apply Hr. rewrite <- Heq. apply list_elem_of_fmap. by exists r'. }
    destruct (presence_differs ub r) eqn:Hd.
    + (* the record differs: the slot is overwritten *)
      pose proof Hd as Hd0.
      unfold presence_differs in Hd. apply andb_true_iff in Hd as [Hz Hd].
      apply bool_decide_eq_true in Hz.
      destruct (socialUserGraph ub !! _Xbox_user_id r) as [ctx|] eqn:Hg; [|done].
      destruct (socialUser ctx) as [p|] eqn:Hp; [|done].
      destruct (read_slot p ub) as [user|] eqn:Hu; [|done].
      destruct (assign_slot_is_Some p (_Set_presence_record r user) user ub Hu)
        as [ub1 Hub1].
      pose proof (read_assign_slot _ _ _ _ Hub1) as (R1 & R2 & _).
      assert (presence_changed_step r (ub, acc) = Some (ub1, acc ++ [_Xbox_user_id r]))
        as ->.
      { unfold presence_changed_step. rewrite decide_False by done.
        rewrite Hg, Hp. simpl. rewrite Hu. simpl. rewrite Hd, Hub1. done. }
      simpl.
      assert (∀ r' ctx' p', r' ∈ records →
                socialUserGraph ub !! _Xbox_user_id r' = Some ctx' →
                socialUser ctx' = Some p' → p' ≠ p) as Hslots.
      { intros r' ctx' p' Hr' Hg' Hp' ->.
        apply (Hother r' Hr'). symmetry.
        eapply (Hinj r r' ctx ctx' p); try done;
          [apply list_elem_of_here|by apply list_elem_of_further]. }
      assert (∀ r', r' ∈ records → presence_differs ub1 r' = presence_differs ub r')
        as Hsame.
      { intros r' Hr'. unfold presence_differs. rewrite R2.
        destruct (socialUserGraph ub !! _Xbox_user_id r') as [ctx'|] eqn:Hg'; [|done].
        destruct (socialUser ctx') as [p'|] eqn:Hp'; [|done].
        rewrite (read_assign_slot_other p p' _ ub ub1 Hub1); [done|]. by eapply Hslots. }
      destruct (IH ub1 (acc ++ [_Xbox_user_id r]) Hnd) as (ub' & E & G & U & O).
      { intros r' ctx' p' Hr' Hg' Hp'. rewrite R2 in Hg'.
        rewrite (read_assign_slot_other p p' _ ub ub1 Hub1) by (by eapply Hslots).
        eapply Hread; [by apply list_elem_of_further|done|done]. }
      { intros r1 r2 c1 c2 q Hr1 Hr2. rewrite R2.
        apply Hinj; by apply list_elem_of_further. }
      exists ub'. split_and!.
      * rewrite E. rewrite filter_cons_True by (by rewrite Hd0).
        rewrite (filter_ext_elem (λ r', presence_differs ub1 r' = true)
                   (λ r', presence_differs ub r' = true) records)
          by (intros x Hx; by rewrite Hsame).
        by rewrite fmap_cons, <- app_assoc.
      * by rewrite G.
      * intros r' ctx' p' user' Hr' Hd' Hg' Hp' Hu'.
        apply elem_of_cons in Hr' as [->|Hr'].
        -- assert (p' = p) as -> by congruence. assert (user' = user) as -> by congruence.
           rewrite O; [done|]. intros r2 ctx2 Hr2 _ Hg2 Hp2. rewrite R2 in Hg2.
           by eapply (Hslots r2 ctx2 p).
        -- apply (U r' ctx' p' user'); try done.
           ++ by rewrite Hsame.
           ++ by rewrite R2.
           ++ rewrite (read_assign_slot_other p p' _ ub ub1 Hub1); [done|].
              by eapply Hslots.
      * intros q Hq. rewrite O.
        -- apply (read_assign_slot_other p q _ ub ub1 Hub1). intros ->.
           eapply (Hq r ctx); [apply list_elem_of_here| |done|done].
           unfold presence_differs. rewrite Hg, Hp, Hu, Hd.
           by rewrite bool_decide_eq_true_2.
        -- intros r2 ctx2 Hr2 Hd2 Hg2. rewrite R2 in Hg2.
           eapply Hq; [by apply list_elem_of_further| |done].
           by rewrite <- Hsame.
    + (* nothing to do for this record *)
      assert (presence_changed_step r (ub, acc) = Some (ub, acc)) as ->.
      { unfold presence_changed_step, presence_differs in *.
        destruct (decide (_Xbox_user_id r = 0)) as [Hz|Hz]; [done|].
        rewrite bool_decide_eq_true_2 in Hd by done. simpl in Hd.
        destruct (socialUserGraph ub !! _Xbox_user_id r) as [ctx|] eqn:Hg; [|done].
        destruct (socialUser ctx) as [p|] eqn:Hp; [|done].
        destruct (Hread r ctx p) as [u Hu]; [apply list_elem_of_here|done|done|].
        rewrite Hu in *. simpl. by rewrite Hd. }
      simpl.
      destruct (IH ub acc Hnd) as (ub' & E & G & U & O).
      { intros r' ctx' p' Hr'. apply Hread. by apply list_elem_of_further. }
      { intros r1 r2 c1 c2 q Hr1 Hr2. apply Hinj; by apply list_elem_of_further. }
      exists ub'. split_and!; try done.
      * rewrite E. by rewrite filter_cons_False by (rewrite Hd; done).
      * intros r' ctx' p' user' Hr' Hd'.
        apply elem_of_cons in Hr' as [->|Hr']; [congruence|]. by apply U.
      * intros q Hq. apply O. intros r2 ctx2 Hr2. apply Hq.
        by apply list_elem_of_further.
Qed.

(** X25.  A presence event reports the users whose record differs.  For a
    [presence_changed] event whose records have distinct ids, on a buffer
    where the users concerned can be read and sit in distinct slots: the
    slot of every user whose stored record differs from the record of the
    event (and whose id is not 0) takes the record of the event, the other
    slots and the graph are left alone, nobody is called, and a fresh event
    queues one public [presence_changed] event that names exactly those
    users, in the order of the records, or none when no record differs; a
    replayed event queues nothing. *)
Theorem presence_event_reports_the_users_whose_record_differs
    (evt : internal_social_event) (isFreshEvent : bool) (s : social_graph)
    (ib : buffer_name) :
  inactive_buffer (m_userBuffer s) = Some ib →
  event_type evt = presence_changed →
  NoDup (_Xbox_user_id <$> presence_records evt) →
  (∀ r ctx p, r ∈ presence_records evt → graph_of ib s !! _Xbox_user_id r = Some ctx →
              socialUser ctx = Some p → is_Some (read_slot p (buffer_of ib s))) →
  (∀ r r' ctx ctx' p, r ∈ presence_records evt → r' ∈ presence_records evt →
     graph_of ib s !! _Xbox_user_id r = Some ctx →
     graph_of ib s !! _Xbox_user_id r' = Some ctx' →
     socialUser ctx = Some p → socialUser ctx' = Some p →
     _Xbox_user_id r = _Xbox_user_id r') →
  ∃ s',
    apply_event evt isFreshEvent s = Some s'
    ∧ graph_of ib s' = graph_of ib s
    ∧ (∀ r ctx p user, r ∈ presence_records evt →
         presence_differs (buffer_of ib s) r = true →
         graph_of ib s !! _Xbox_user_id r = Some ctx → socialUser ctx = Some p →
         read_slot p (buffer_of ib s) = Some user →
         read_slot p (buffer_of ib s') = Some (_Set_presence_record r user))
    ∧ (∀ p, (∀ r ctx, r ∈ presence_records evt →
                      presence_differs (buffer_of ib s) r = true →
                      graph_of ib s !! _Xbox_user_id r = Some ctx →
                      socialUser ctx ≠ Some p) →
            read_slot p (buffer_of ib s') = read_slot p (buffer_of ib s))
    ∧ public_events s'
      = public_events s
        ++ match _Xbox_user_id
                   <$> filter (λ r, presence_differs (buffer_of ib s) r = true)
                         (presence_records evt) with
           | [] => []
           | ids =>
               if isFreshEvent
               then [public_event_of (event_of_ids presence_changed ids)
                       public_presence_changed result_success]
               else []
           end
    ∧ outbound_calls s' = outbound_calls s.
Proof.
  intros Hib Ht Hnd Hread Hinj. unfold graph_of in *.
  destruct (presence_changed_scan_spec (presence_records evt) (buffer_of ib s) [] Hnd
              Hread Hinj) as (ub' & E & G & U & O).
  rewrite app_nil_l in E.
  unfold apply_event. set (s0 := record_call _ s).
  assert (outbound_calls s0 = outbound_calls s) as Hc.
  { rewrite (outbound_calls_app s s0 [enter_apply_event evt isFreshEvent]) by done.
    by rewrite filter_cons_False, filter_nil, app_nil_r by (simpl; congruence). }
  change (inactive_buffer (m_userBuffer s0)) with (inactive_buffer (m_userBuffer s)).
  rewrite Hib, Ht. cbn [mbind option_bind].
  unfold apply_presence_changed_event, presence_changed_scan.
  change (buffer_of ib s0) with (buffer_of ib s). rewrite E.
  cbn [mbind option_bind].
  destruct (_Xbox_user_id <$> filter _ _) as [|id ids].
  - cbn [mbind option_bind]. rewrite push_unknown_id.
    exists (set_buffer ib ub' s0). split; [by destruct isFreshEvent|].
    rewrite buffer_of_set_buffer_eq. split_and!; try done; by rewrite app_nil_r.
  - destruct isFreshEvent; cbn [mbind option_bind].
    + rewrite push_unknown_id. eexists. split; [done|].
      change (buffer_of ib (push_social_event ?a ?b ?c ?x)) with (buffer_of ib x).
      rewrite buffer_of_set_buffer_eq. split_and!; try done;
        by rewrite public_events_push.
    + exists (set_buffer ib ub' s0). split; [done|].
      rewrite buffer_of_set_buffer_eq. split_and!; try done; by rewrite app_nil_r.
Qed.

Lemma presence_record_changes_returns (ub : user_buffer)
    (records acc : list social_manager_presence_record) :
  (∀ r ctx p, r ∈ records → socialUserGraph ub !! _Xbox_user_id r = Some ctx →
              socialUser ctx = Some p → is_Some (read_slot p ub)) →
  is_Some (for_each (presence_record_changes_step ub) records acc).
Proof.
  revert acc. induction records as [|r records IH]; intros acc Hread; [by eexists|].
  cbn [for_each].
  assert (is_Some (presence_record_changes_step ub r acc)) as [acc' ->].
  { unfold presence_record_changes_step.
    destruct (socialUserGraph ub !! _Xbox_user_id r) as [ctx|] eqn:Hg; [|by eexists].
    destruct (socialUser ctx) as [p|] eqn:Hp; [|by eexists].
    destruct (Hread r ctx p) as [u ->]; [apply list_elem_of_here|done|done|].
    simpl. destruct (presence_Compare _ _); by eexists. }
  simpl. apply IH. intros r' ctx p Hr'. apply Hread. by apply list_elem_of_further.
Qed.

(** X26.  The presence fetched is queued in full.  The continuation of
    [presence_timer_callback], on a core with an inactive buffer in which
    the users concerned can be read: a successful fetch pushes one
    [presence_changed] event that carries every record fetched, whether or
    not it differs from the one stored (also when no record was fetched),
    and leaves the core in the state [normal]; a failed fetch changes
    nothing. *)
Theorem fetched_presence_is_queued_in_full
    (presenceRecordsResult : xbox_live_result_void)
    (payload : list social_manager_presence_record) (s : social_graph)
    (ib : buffer_name) :
  inactive_buffer (m_userBuffer s) = Some ib →
  (∀ r ctx p, r ∈ payload → graph_of ib s !! _Xbox_user_id r = Some ctx →
              socialUser ctx = Some p → is_Some (read_slot p (buffer_of ib s))) →
  presence_timer_callback_then presenceRecordsResult payload s
  = Some (if decide (err presenceRecordsResult = no_error)
          then set_state normal
                 (set_internalEventQueue
                    (m_internalEventQueue s
                     ++ [event_of_presence_records presence_changed payload]) s)
          else s).
Proof.
  intros Hib Hread. unfold presence_timer_callback_then.
  destruct (decide _); [|done]. rewrite Hib.
  change (buffer_of ib (set_state refresh s)) with (buffer_of ib s).
  destruct (presence_record_changes_returns (buffer_of ib s) payload [] Hread) as [l ->].
  done.
Qed.

End presence_updates.

(** ** The further properties on the scenarios *)

Lemma swap_exchanges_roles_witness :
  m_activeBuffer (m_userBuffer scenario.started) = Some buffer_A
  ∧ m_inactiveBuffer (m_userBuffer scenario.started) = Some buffer_B
  ∧ buffer_A ≠ buffer_B
  ∧ m_activeBuffer (swap (m_userBuffer scenario.started)) = Some buffer_B
  ∧ m_inactiveBuffer (swap (m_userBuffer scenario.started)) = Some buffer_A
  ∧ (∀ c, deref c (swap (m_userBuffer scenario.started))
          = deref c (m_userBuffer scenario.started))
  ∧ swap (swap (m_userBuffer scenario.started)) = m_userBuffer scenario.started.
Proof.
  assert (buffer_A ≠ buffer_B) as H3 by discriminate.
  split_and!; [reflexivity|reflexivity|exact H3|..];
    apply (swap_exchanges_roles (m_userBuffer scenario.started) buffer_A buffer_B
             eq_refl eq_refl H3).
Defined.

Lemma do_work_delivers_pushes_in_order_witness :
  m_socialGraphState scenario.started = normal
  ∧ (do_work []
       (set_socialEventQueue
          (push_all cases.three_pushes (m_socialEventQueue scenario.started))
          scenario.started)).1.2
    = [] ++ public_events scenario.started ++ pushed_events cases.three_pushes.
Proof.
  split; [reflexivity|].
  exact (do_work_delivers_pushes_in_order cases.three_pushes [] scenario.started eq_refl).
Defined.

Lemma do_work_outside_normal_only_resets_counter_witness :
  m_socialGraphState cases.refreshing ≠ normal
  ∧ do_work [] cases.refreshing
    = ({| socialUsers := active_buffer (m_userBuffer cases.refreshing) |}, [],
       set_numEventsThisFrame 0 cases.refreshing).
Proof.
  assert (m_socialGraphState cases.refreshing ≠ normal) as H1 by discriminate.
  split; [exact H1|].
  exact (do_work_outside_normal_only_resets_counter [] cases.refreshing H1).
Defined.

Lemma idle_frames_alternate_witness :
  m_socialGraphState scenario.started = normal
  ∧ active_buffer (m_userBuffer scenario.started) = Some buffer_A
  ∧ inactive_buffer (m_userBuffer scenario.started) = Some buffer_B
  ∧ buffer_A ≠ buffer_B
  ∧ pending_of buffer_A scenario.started = []
  ∧ pending_of buffer_B scenario.started = []
  ∧ (frame scenario.started).1 = public_events scenario.started
  ∧ socialUsers (do_work [] scenario.started).1.1 = Some buffer_B
  ∧ (frame (frame scenario.started).2).1 = []
  ∧ socialUsers (do_work [] (frame scenario.started).2).1.1 = Some buffer_A
  ∧ m_userBuffer (frame (frame scenario.started).2).2 = m_userBuffer scenario.started.
Proof.
  assert (buffer_A ≠ buffer_B) as H4 by discriminate.
  split_and!; [reflexivity|reflexivity|reflexivity|exact H4|reflexivity|reflexivity|..];
    apply (idle_frames_alternate scenario.started buffer_A buffer_B
             eq_refl eq_refl eq_refl H4 eq_refl eq_refl).
Defined.

Lemma requests_before_initialisation_are_queued_witness :
  m_isInitialized constructed = false
  ∧ inactive_buffer (m_userBuffer constructed) = None
  ∧ ∃ s', @run_operations sample.helpers cases.early_operations constructed = Some s'
      ∧ m_internalEventQueue s'
        = m_internalEventQueue constructed
          ++ concat (requested_event <$> cases.early_operations)
      ∧ m_userBuffer s' = m_userBuffer constructed
      ∧ m_socialEventQueue s' = m_socialEventQueue constructed
      ∧ m_socialUserSubscriptions s' = m_socialUserSubscriptions constructed
      ∧ calls s' = calls constructed
      ∧ m_isInitialized s' = false.
Proof.
  split_and!; [reflexivity|reflexivity|].
  exact (@requests_before_initialisation_are_queued sample.helpers
           cases.early_operations constructed eq_refl eq_refl).
Defined.

Lemma main_queue_is_first_in_first_out_witness :
  @run_operations sample.helpers (scenario.ten_requests ++ replicate 5 worker_round)
    (frame scenario.started).2 = Some scenario.first_frame_state
  ∧ ∃ pushed,
      (fst <$> fresh_applications scenario.first_frame_state)
      ++ m_internalEventQueue scenario.first_frame_state
      = (fst <$> fresh_applications (frame scenario.started).2)
        ++ m_internalEventQueue (frame scenario.started).2 ++ pushed
      ∧ (forallb (λ o, negb (is_refresh o))
           (scenario.ten_requests ++ replicate 5 worker_round) = true →
         pushed = concat (requested_event
                            <$> (scenario.ten_requests ++ replicate 5 worker_round))).
Proof.
  assert (@run_operations sample.helpers
            (scenario.ten_requests ++ replicate 5 worker_round)
            (frame scenario.started).2 = Some scenario.first_frame_state) as Hrun
    by (vm_compute; reflexivity).
  split; [exact Hrun|].
  exact (@main_queue_is_first_in_first_out sample.helpers _ _ _ Hrun).
Defined.

Lemma cached_round_replays_pending_events_witness :
  m_isInitialized cases.replaying = true
  ∧ inactive_buffer (m_userBuffer cases.replaying) = Some buffer_A
  ∧ pending_of buffer_A cases.replaying ≠ []
  ∧ @do_event_work sample.helpers cases.replaying = Some (true, cases.replayed)
  ∧ true = true
  ∧ applications cases.replayed
    = applications cases.replaying
      ++ ((λ evt, (evt, false)) <$> pending_of buffer_A cases.replaying)
  ∧ pending_of buffer_A cases.replayed = []
  ∧ (∀ b, b ≠ buffer_A → pending_of b cases.replayed = pending_of b cases.replaying)
  ∧ m_internalEventQueue cases.replayed = m_internalEventQueue cases.replaying
  ∧ m_numEventsThisFrame cases.replayed = m_numEventsThisFrame cases.replaying
  ∧ m_socialGraphState cases.replayed = normal
  ∧ active_buffer (m_userBuffer cases.replayed)
    = active_buffer (m_userBuffer cases.replaying)
  ∧ inactive_buffer (m_userBuffer cases.replayed)
    = inactive_buffer (m_userBuffer cases.replaying).
Proof.
  assert (m_isInitialized cases.replaying = true) as H1 by (vm_compute; reflexivity).
  assert (inactive_buffer (m_userBuffer cases.replaying) = Some buffer_A) as H2
    by (vm_compute; reflexivity).
  assert (pending_of buffer_A cases.replaying ≠ []) as H3 by (vm_compute; discriminate).
  assert (@do_event_work sample.helpers cases.replaying = Some (true, cases.replayed))
    as H4 by (vm_compute; reflexivity).
  split_and!; [exact H1|exact H2|exact H3|exact H4|..];
    apply (@cached_round_replays_pending_events sample.helpers cases.replaying
             cases.replayed buffer_A true H1 H2 H3 H4).
Defined.

Lemma replayed_event_is_silent_witness :
  @apply_event sample.helpers cases.pin_alice false scenario.started
  = Some cases.pinned_by_replay
  ∧ m_socialUserSubscriptions cases.pinned_by_replay
    = m_socialUserSubscriptions scenario.started
  ∧ (∃ l, outbound_calls cases.pinned_by_replay = outbound_calls scenario.started ++ l
          ∧ Forall resolves l)
  ∧ (¬ (event_type cases.pin_alice = users_changed
        ∧ err (error cases.pin_alice) ≠ no_error) →
     public_events cases.pinned_by_replay = public_events scenario.started).
Proof.
  assert (@apply_event sample.helpers cases.pin_alice false scenario.started
          = Some cases.pinned_by_replay) as H1 by (vm_compute; reflexivity).
  split; [exact H1|].
  exact (@replayed_event_is_silent sample.helpers _ _ _ H1).
Defined.

Lemma users_added_request_fetches_unknown_users_witness :
  inactive_buffer (m_userBuffer scenario.started) = Some buffer_B
  ∧ event_type scenario.track_two = users_added
  ∧ ∃ s', @apply_event sample.helpers scenario.track_two true scenario.started = Some s'
      ∧ public_events s' = public_events scenario.started
      ∧ m_socialUserSubscriptions s' = m_socialUserSubscriptions scenario.started
      ∧ outbound_calls s'
        = outbound_calls scenario.started
          ++ match filter (λ u, graph_of buffer_B scenario.started
                                  !! @string_t_to_uint64 sample.helpers u = None)
                     (users_affected_as_string_vec scenario.track_two) with
             | [] => [tce_set (tce scenario.track_two) result_success]
             | usersToAdd =>
                 if true
                 then [timer_fire m_socialGraphRefreshTimer usersToAdd
                         {| isNull := false;
                            context := incr32 (m_userAddedContext scenario.started);
                            numObjects := N.of_nat (length usersToAdd);
                            cc_tce := tce scenario.track_two |}]
                 else []
             end.
Proof.
  split_and!; [reflexivity|reflexivity|].
  exact (@users_added_request_fetches_unknown_users sample.helpers scenario.track_two
           true scenario.started buffer_B eq_refl eq_refl).
Defined.

Lemma only_requests_change_who_is_tracked_witness :
  inactive_buffer (m_userBuffer scenario.crowded) = Some buffer_B
  ∧ @apply_event sample.helpers scenario.logoff false scenario.crowded
    = Some cases.after_logoff
  ∧ event_type scenario.logoff ≠ users_added
  ∧ event_type scenario.logoff ≠ users_removed
  ∧ (∀ id ctx, graph_of buffer_B scenario.crowded !! id = Some ctx →
               ∃ ctx', graph_of buffer_B cases.after_logoff !! id = Some ctx'
                       ∧ refCount ctx' = refCount ctx)
  ∧ (event_type scenario.logoff ≠ users_changed →
     graph_of buffer_B cases.after_logoff = graph_of buffer_B scenario.crowded).
Proof.
  assert (inactive_buffer (m_userBuffer scenario.crowded) = Some buffer_B) as H1
    by (vm_compute; reflexivity).
  assert (@apply_event sample.helpers scenario.logoff false scenario.crowded
          = Some cases.after_logoff) as H2 by (vm_compute; reflexivity).
  assert (event_type scenario.logoff ≠ users_added) as H3 by (vm_compute; discriminate).
  assert (event_type scenario.logoff ≠ users_removed) as H4 by (vm_compute; discriminate).
  split_and!; [exact H1|exact H2|exact H3|exact H4|..];
    apply (@only_requests_change_who_is_tracked sample.helpers scenario.logoff false
             scenario.crowded cases.after_logoff buffer_B H1 H2 H3 H4).
Defined.

Lemma presence_event_for_unknown_user_is_ignored_witness :
  inactive_buffer (m_userBuffer scenario.started) = Some buffer_B
  ∧ (event_type cases.stranger_logs_on = device_presence_changed
     ∨ event_type cases.stranger_logs_on = title_presence_changed)
  ∧ from_option socialUser None
      (graph_of buffer_B scenario.started
         !! @presence_subject sample.helpers cases.stranger_logs_on) = None
  ∧ @apply_event sample.helpers cases.stranger_logs_on true scenario.started
    = Some (record_call (enter_apply_event cases.stranger_logs_on true) scenario.started).
Proof.
  assert (inactive_buffer (m_userBuffer scenario.started) = Some buffer_B) as H1
    by (vm_compute; reflexivity).
  assert (event_type cases.stranger_logs_on = device_presence_changed
          ∨ event_type cases.stranger_logs_on = title_presence_changed) as H2
    by (left; reflexivity).
  assert (from_option socialUser None
            (graph_of buffer_B scenario.started
               !! @presence_subject sample.helpers cases.stranger_logs_on) = None) as H3
    by (vm_compute; reflexivity).
  split_and!; [exact H1|exact H2|exact H3|].
  exact (@presence_event_for_unknown_user_is_ignored sample.helpers
           cases.stranger_logs_on true scenario.started buffer_B H1 H2 H3).
Defined.

Lemma title_presence_change_updates_and_reports_witness :
  inactive_buffer (m_userBuffer scenario.crowded) = Some buffer_B
  ∧ event_type cases.carol_quits = title_presence_changed
  ∧ graph_of buffer_B scenario.crowded
      !! @string_t_to_uint64 sample.helpers
           (tp_xbox_user_id (title_presence_args cases.carol_quits))
    = Some {| socialUser := Some {| block := 0; slot := 1 |}; refCount := 1 |}
  ∧ read_slot {| block := 0; slot := 1 |} (buffer_of buffer_B scenario.crowded)
    = Some scenario.carol
  ∧ ∃ s', @apply_event sample.helpers cases.carol_quits true scenario.crowded = Some s'
      ∧ read_slot {| block := 0; slot := 1 |} (buffer_of buffer_B s')
        = Some (if decide (tp_title_state (title_presence_args cases.carol_quits) = ended)
                then _Set_presence_record
                       (@_Remove_title sample.helpers
                          (tp_title_id (title_presence_args cases.carol_quits))
                          (presence_record scenario.carol)) scenario.carol
                else scenario.carol)
      ∧ graph_of buffer_B s' = graph_of buffer_B scenario.crowded
      ∧ (tp_title_state (title_presence_args cases.carol_quits) ≠ ended →
         m_userBuffer s' = m_userBuffer scenario.crowded)
      ∧ public_events s'
        = public_events scenario.crowded
          ++ (if true
              then [public_event_of cases.carol_quits public_presence_changed
                      result_success]
              else [])
      ∧ outbound_calls s' = outbound_calls scenario.crowded.
Proof.
  assert (inactive_buffer (m_userBuffer scenario.crowded) = Some buffer_B) as H1
    by (vm_compute; reflexivity).
  assert (graph_of buffer_B scenario.crowded
            !! @string_t_to_uint64 sample.helpers
                 (tp_xbox_user_id (title_presence_args cases.carol_quits))
          = Some {| socialUser := Some {| block := 0; slot := 1 |}; refCount := 1 |})
    as H3 by (vm_compute; reflexivity).
  assert (read_slot {| block := 0; slot := 1 |} (buffer_of buffer_B scenario.crowded)
          = Some scenario.carol) as H5 by (vm_compute; reflexivity).
  split_and!; [exact H1|reflexivity|exact H3|exact H5|].
  exact (@title_presence_change_updates_and_reports sample.helpers cases.carol_quits
           true scenario.crowded buffer_B _ _ scenario.carol H1 eq_refl H3 eq_refl H5).
Defined.

Lemma profile_event_for_unknown_user_is_undefined_witness :
  inactive_buffer (m_userBuffer scenario.started) = Some buffer_B
  ∧ (event_type cases.dave_renamed = profiles_changed
     ∨ event_type cases.dave_renamed = social_relationships_changed)
  ∧ scenario.dave ∈ users_affected cases.dave_renamed
  ∧ from_option socialUser None
      (graph_of buffer_B scenario.started !! _Xbox_user_id_as_integer scenario.dave)
    = None
  ∧ @apply_event sample.helpers cases.dave_renamed true scenario.started = None.
Proof.
  assert (inactive_buffer (m_userBuffer scenario.started) = Some buffer_B) as H1
    by (vm_compute; reflexivity).
  assert (event_type cases.dave_renamed = profiles_changed
          ∨ event_type cases.dave_renamed = social_relationships_changed) as H2
    by (left; reflexivity).
  assert (scenario.dave ∈ users_affected cases.dave_renamed) as H3
    by (apply list_elem_of_here).
  assert (from_option socialUser None
            (graph_of buffer_B scenario.started
               !! _Xbox_user_id_as_integer scenario.dave) = None) as H4
    by (vm_compute; reflexivity).
  split_and!; [exact H1|exact H2|exact H3|exact H4|].
  exact (@profile_event_for_unknown_user_is_undefined sample.helpers cases.dave_renamed
           true scenario.started buffer_B scenario.dave H1 H2 H3 H4).
Defined.

Lemma social_relationship_changes_are_announced_as_profile_changes_witness :
  @apply_event sample.helpers cases.alice_unfriended true scenario.started
  = Some cases.after_unfriended
  ∧ (∃ l, public_events cases.after_unfriended = public_events scenario.started ++ l
          ∧ Forall (λ e, announced (se_event_type e)) l)
  ∧ (event_type cases.alice_unfriended = social_relationships_changed →
     is_Some (inactive_buffer (m_userBuffer scenario.started)) →
     public_events cases.after_unfriended
     = public_events scenario.started
       ++ (if true
           then [public_event_of cases.alice_unfriended public_profiles_changed
                   result_success]
           else [])).
Proof.
  assert (@apply_event sample.helpers cases.alice_unfriended true scenario.started
          = Some cases.after_unfriended) as H1 by (vm_compute; reflexivity).
  split; [exact H1|].
  exact (@social_relationship_changes_are_announced_as_profile_changes sample.helpers
           _ _ _ _ H1).
Defined.

Lemma backwards_lists_entries : lists_entries sample.backwards.
Proof. intros m. unfold sample.backwards. apply reverse_Permutation. Qed.

Lemma first_fetch_fills_both_buffers_witness :
  m_userBuffer constructed = user_buffers_holder.init
  ∧ (err result_success = no_error
     ∨ err result_success = http_status_424_failed_dependency)
  ∧ NoDup (_Xbox_user_id_as_integer <$> [scenario.alice; scenario.carol])
  ∧ lists_entries sample.backwards
  ∧ ∃ result s',
      initialize_then sample.backwards sample.granted result_success
        [scenario.alice; scenario.carol] constructed
      = Some (result, s')
      ∧ (if forallb (subscription_granted sample.granted) [scenario.alice; scenario.carol]
         then result = result_success
              ∧ m_isInitialized s' = true
              ∧ ∀ u, u ∈ [scenario.alice; scenario.carol] →
                     m_socialUserSubscriptions s' !! _Xbox_user_id_as_integer u
                     = Some {| devicePresenceChangeSubscription := Some (xbox_user_id u);
                               titlePresenceChangeSubscription := Some (xbox_user_id u) |}
         else result = subscription_initialization_failed
              ∧ m_isInitialized s' = m_isInitialized constructed)
      ∧ active_buffer (m_userBuffer s') = Some buffer_A
      ∧ inactive_buffer (m_userBuffer s') = Some buffer_B
      ∧ buffer_of buffer_A s' = buffer_of buffer_B s'
      ∧ pending_of buffer_B s' = []
      ∧ (∀ id, is_Some (graph_of buffer_B s' !! id)
               ↔ id ∈ _Xbox_user_id_as_integer <$> [scenario.alice; scenario.carol])
      ∧ (∀ u, u ∈ [scenario.alice; scenario.carol] →
              ∃ p, graph_of buffer_B s' !! _Xbox_user_id_as_integer u
                   = Some {| socialUser := Some p; refCount := 1 |}
                   ∧ read_slot p (buffer_of buffer_B s') = Some u)
      ∧ (∀ id, id ∉ _Xbox_user_id_as_integer <$> [scenario.alice; scenario.carol] →
               m_socialUserSubscriptions s' !! id
               = m_socialUserSubscriptions constructed !! id)
      ∧ m_internalEventQueue s' = m_internalEventQueue constructed
      ∧ m_socialEventQueue s' = m_socialEventQueue constructed.
Proof.
  assert (err result_success = no_error
          ∨ err result_success = http_status_424_failed_dependency) as H2
    by (left; reflexivity).
  assert (NoDup (_Xbox_user_id_as_integer <$> [scenario.alice; scenario.carol])) as H3
    by (apply (bool_decide_unpack _); vm_compute; exact I).
  split_and!; [reflexivity|exact H2|exact H3|exact backwards_lists_entries|].
  exact (first_fetch_fills_both_buffers sample.backwards sample.granted result_success
           [scenario.alice; scenario.carol] constructed eq_refl H2 H3
           backwards_lists_entries).
Defined.

(** The start-up when Carol's title subscription is refused.  When the
    graph yields Carol first, both requests for Carol are made and nothing
    is requested for Alice; when it yields Alice first, Alice is subscribed
    to before the requests for Carol are made.  Either way the answer is
    the [runtime_error], the core is not initialised although both buffers
    hold Alice and Carol, and no subscription is stored for Carol. *)
Lemma a_refused_subscription_fails_the_start_up :
  forallb (subscription_granted cases.carol_refused) [scenario.alice; scenario.carol]
  = false
  ∧ (∃ s', initialize_then map_to_list cases.carol_refused result_success
             [scenario.alice; scenario.carol] constructed
           = Some (subscription_initialization_failed, s')
           ∧ m_isInitialized s' = false
           ∧ m_userBuffer s' = m_userBuffer scenario.crowded
           ∧ calls s' = [subscribe_to_device_presence_change "300";
                         subscribe_to_title_presence_change "300"]
           ∧ m_socialUserSubscriptions s' = ∅)
  ∧ (∃ s', initialize_then sample.backwards cases.carol_refused result_success
             [scenario.alice; scenario.carol] constructed
           = Some (subscription_initialization_failed, s')
           ∧ m_isInitialized s' = false
           ∧ m_userBuffer s' = m_userBuffer scenario.crowded
           ∧ calls s' = [subscribe_to_device_presence_change "100";
                         subscribe_to_title_presence_change "100";
                         subscribe_to_device_presence_change "300";
                         subscribe_to_title_presence_change "300"]
           ∧ m_socialUserSubscriptions s' !! 100
             = Some {| devicePresenceChangeSubscription := Some "100";
                       titlePresenceChangeSubscription := Some "100" |}
           ∧ m_socialUserSubscriptions s' !! 300 = None).
Proof.
  split; [vm_compute; reflexivity|]. split.
  - eexists. split; [vm_compute; reflexivity|]. split_and!; vm_compute; reflexivity.
  - eexists. split; [vm_compute; reflexivity|]. split_and!; vm_compute; reflexivity.
Qed.

Lemma removed_users_give_back_their_slots_witness :
  NoDup [100; 7]
  ∧ (∀ id, socialUserGraph
             (remove_users_from_buffer [100; 7] (buffer_of buffer_B scenario.crowded))
           !! id
           = if decide (id ∈ [100; 7]) then None
             else socialUserGraph (buffer_of buffer_B scenario.crowded) !! id)
  ∧ freeData (remove_users_from_buffer [100; 7] (buffer_of buffer_B scenario.crowded))
    = freeData (buffer_of buffer_B scenario.crowded)
      ++ omap (λ id, socialUser
                       <$> socialUserGraph (buffer_of buffer_B scenario.crowded) !! id)
           [100; 7]
  ∧ slabs (remove_users_from_buffer [100; 7] (buffer_of buffer_B scenario.crowded))
    = slabs (buffer_of buffer_B scenario.crowded)
  ∧ buffer (remove_users_from_buffer [100; 7] (buffer_of buffer_B scenario.crowded))
    = buffer (buffer_of buffer_B scenario.crowded)
  ∧ (∀ p, read_slot p
            (remove_users_from_buffer [100; 7] (buffer_of buffer_B scenario.crowded))
          = read_slot p (buffer_of buffer_B scenario.crowded)).
Proof.
  assert (NoDup [100; 7]) as H1 by (apply (bool_decide_unpack _); vm_compute; exact I).
  split; [exact H1|].
  exact (removed_users_give_back_their_slots [100; 7]
           (buffer_of buffer_B scenario.crowded) H1).
Defined.

Lemma added_users_take_the_first_free_slots_witness :
  buffer (buffer_of buffer_B scenario.started) = Some 0%nat
  ∧ freeData (buffer_of buffer_B scenario.started)
    = (Some <$> [{| block := 0; slot := 1 |}])
      ++ [Some {| block := 0; slot := 2 |}; Some {| block := 0; slot := 3 |};
          Some {| block := 0; slot := 4 |}; Some {| block := 0; slot := 5 |}]
  ∧ length [{| block := 0; slot := 1 |}] = length [scenario.dave]
  ∧ (max 1 (length [scenario.dave])
     ≤ length (freeData (buffer_of buffer_B scenario.started)))%nat
  ∧ Forall (λ p, block p = 0%nat
                 ∧ ∃ l, slabs (buffer_of buffer_B scenario.started) !! 0%nat = Some l
                        ∧ (slot p < length l)%nat)
      [{| block := 0; slot := 1 |}]
  ∧ NoDup [{| block := 0; slot := 1 |}]
  ∧ NoDup (_Xbox_user_id_as_integer <$> [scenario.dave])
  ∧ ∃ ub',
      add_users_to_buffer [scenario.dave] (buffer_of buffer_B scenario.started) 1
      = Some ub'
      ∧ freeData ub'
        = [Some {| block := 0; slot := 2 |}; Some {| block := 0; slot := 3 |};
           Some {| block := 0; slot := 4 |}; Some {| block := 0; slot := 5 |}]
      ∧ buffer ub' = Some 0%nat
      ∧ allocated ub' = allocated (buffer_of buffer_B scenario.started)
      ∧ (∀ i u p, [scenario.dave] !! i = Some u →
           [{| block := 0; slot := 1 |}] !! i = Some p →
           socialUserGraph ub' !! _Xbox_user_id_as_integer u
           = Some {| socialUser := Some p;
                     refCount := from_option refCount 1
                                   (socialUserGraph (buffer_of buffer_B scenario.started)
                                      !! _Xbox_user_id_as_integer u) |}
           ∧ read_slot p ub' = Some u)
      ∧ (∀ id, id ∉ _Xbox_user_id_as_integer <$> [scenario.dave] →
               socialUserGraph ub' !! id
               = socialUserGraph (buffer_of buffer_B scenario.started) !! id)
      ∧ (∀ p, p ∉ [{| block := 0; slot := 1 |}] →
              read_slot p ub' = read_slot p (buffer_of buffer_B scenario.started)).
Proof.
  assert (buffer (buffer_of buffer_B scenario.started) = Some 0%nat) as H1
    by (vm_compute; reflexivity).
  assert (freeData (buffer_of buffer_B scenario.started)
          = (Some <$> [{| block := 0; slot := 1 |}])
            ++ [Some {| block := 0; slot := 2 |}; Some {| block := 0; slot := 3 |};
                Some {| block := 0; slot := 4 |}; Some {| block := 0; slot := 5 |}]) as H2
    by (vm_compute; reflexivity).
  assert (max 1 (length [scenario.dave])
          ≤ length (freeData (buffer_of buffer_B scenario.started)))%nat as H4
    by (vm_compute; lia).
  assert (Forall (λ p, block p = 0%nat
                       ∧ ∃ l, slabs (buffer_of buffer_B scenario.started) !! 0%nat = Some l
                              ∧ (slot p < length l)%nat)
            [{| block := 0; slot := 1 |}]) as H5.
  { apply Forall_singleton. split; [reflexivity|].
    exists [Some scenario.alice; None; None; None; None; None].
    split; [vm_compute; reflexivity|simpl; lia]. }
  assert (NoDup [{| block := 0%nat; slot := 1%nat |}]) as H6
    by (apply (bool_decide_unpack _); vm_compute; exact I).
  assert (NoDup (_Xbox_user_id_as_integer <$> [scenario.dave])) as H7
    by (apply (bool_decide_unpack _); vm_compute; exact I).
  split_and!; [exact H1|exact H2|reflexivity|exact H4|exact H5|exact H6|exact H7|].
  exact (added_users_take_the_first_free_slots [scenario.dave]
           (buffer_of buffer_B scenario.started) 1 0 [{| block := 0; slot := 1 |}] _
           H1 H2 eq_refl H4 H5 H6 H7).
Defined.

(** Alice, removed, sits in the first slot of the slab and Carol, tracked,
    in the second: the reallocation copies one slot, enters Alice again and
    leaves Carol with a pointer that can no longer be read. *)
Lemma reallocation_after_a_removal :
  socialUserGraph cases.thinned !! 100 = None
  ∧ reallocate cases.thinned 8 = Some cases.regrown
  ∧ is_Some (socialUserGraph cases.regrown !! 100)
  ∧ socialUserGraph cases.regrown !! 300
    = Some {| socialUser := Some {| block := 0; slot := 1 |}; refCount := 1 |}
  ∧ read_slot {| block := 0; slot := 1 |} cases.thinned = Some scenario.carol
  ∧ read_slot {| block := 0; slot := 1 |} cases.regrown = None.
Proof.
  split_and!; try (vm_compute; reflexivity). vm_compute. by eexists.
Qed.

Lemma reallocation_keeps_the_leading_slots_witness :
  reallocate cases.thinned 8 = Some cases.regrown
  ∧ buffer cases.thinned = Some 0%nat
  ∧ slabs cases.thinned !! 0%nat = Some cases.crowded_slab
  ∧ (0 < allocated cases.thinned)%nat
  ∧ (∀ i u,
       (i < length (filter (λ kv, is_Some (socialUser kv.2))
                      (map_to_list (socialUserGraph cases.thinned))))%nat →
       cases.crowded_slab !! i = Some (Some u) →
       is_Some (socialUserGraph cases.regrown !! _Xbox_user_id_as_integer u))
  ∧ (∀ id ctx p,
       socialUserGraph cases.thinned !! id = Some ctx →
       socialUser ctx = Some p →
       block p = 0%nat →
       (∀ i u,
          (i < length (filter (λ kv, is_Some (socialUser kv.2))
                         (map_to_list (socialUserGraph cases.thinned))))%nat →
          cases.crowded_slab !! i = Some (Some u) → _Xbox_user_id_as_integer u ≠ id) →
       socialUserGraph cases.regrown !! id = Some ctx
       ∧ read_slot p cases.regrown = None).
Proof.
  assert (reallocate cases.thinned 8 = Some cases.regrown) as H1
    by (vm_compute; reflexivity).
  assert (buffer cases.thinned = Some 0%nat) as H2 by (vm_compute; reflexivity).
  assert (slabs cases.thinned !! 0%nat = Some cases.crowded_slab) as H3
    by (vm_compute; reflexivity).
  assert (0 < allocated cases.thinned)%nat as H4 by (vm_compute; lia).
  split_and!; [exact H1|exact H2|exact H3|exact H4|..];
    apply (reallocation_keeps_the_leading_slots cases.thinned cases.regrown 8 0
             cases.crowded_slab H1 H2 H3 H4).
Defined.

Lemma compact_reallocation_keeps_every_user_witness :
  buffer (buffer_of buffer_B scenario.crowded) = Some 0%nat
  ∧ slabs (buffer_of buffer_B scenario.crowded) !! 0%nat = Some cases.crowded_slab
  ∧ take (length [scenario.alice; scenario.carol]) cases.crowded_slab
    = Some <$> [scenario.alice; scenario.carol]
  ∧ length (filter (λ kv, is_Some (socialUser kv.2))
              (map_to_list (socialUserGraph (buffer_of buffer_B scenario.crowded))))
    = length [scenario.alice; scenario.carol]
  ∧ NoDup (_Xbox_user_id_as_integer <$> [scenario.alice; scenario.carol])
  ∧ ∃ ub',
      reallocate (buffer_of buffer_B scenario.crowded) 6 = Some ub'
      ∧ (∀ i u, [scenario.alice; scenario.carol] !! i = Some u →
           ∃ p, socialUserGraph ub' !! _Xbox_user_id_as_integer u
                = Some {| socialUser := Some p;
                          refCount :=
                            from_option refCount 1
                              (socialUserGraph (buffer_of buffer_B scenario.crowded)
                                 !! _Xbox_user_id_as_integer u) |}
                ∧ read_slot p ub' = Some u
                ∧ buffer ub' = Some (block p)
                ∧ slot p = i)
      ∧ (∀ id, id ∉ _Xbox_user_id_as_integer <$> [scenario.alice; scenario.carol] →
               socialUserGraph ub' !! id
               = socialUserGraph (buffer_of buffer_B scenario.crowded) !! id)
      ∧ length (freeData ub')
        = (if decide (length [scenario.alice; scenario.carol] = 0 ∧ 6 = 0)%nat
           then 0 else 5 + 6)%nat
      ∧ socialUserEventQueue ub'
        = socialUserEventQueue (buffer_of buffer_B scenario.crowded).
Proof.
  assert (buffer (buffer_of buffer_B scenario.crowded) = Some 0%nat) as H1
    by (vm_compute; reflexivity).
  assert (slabs (buffer_of buffer_B scenario.crowded) !! 0%nat = Some cases.crowded_slab)
    as H2 by (vm_compute; reflexivity).
  assert (length (filter (λ kv, is_Some (socialUser kv.2))
                    (map_to_list (socialUserGraph (buffer_of buffer_B scenario.crowded))))
          = length [scenario.alice; scenario.carol]) as H4 by (vm_compute; reflexivity).
  assert (NoDup (_Xbox_user_id_as_integer <$> [scenario.alice; scenario.carol])) as H5
    by (apply (bool_decide_unpack _); vm_compute; exact I).
  split_and!; [exact H1|exact H2|reflexivity|exact H4|exact H5|].
  exact (compact_reallocation_keeps_every_user (buffer_of buffer_B scenario.crowded) 6 0
           cases.crowded_slab [scenario.alice; scenario.carol] H1 H2 eq_refl H4 H5).
Defined.

Lemma replay_reproduces_the_effect_of_an_event_witness :
  inactive_buffer (m_userBuffer scenario.started) = Some buffer_B
  ∧ inactive_buffer (m_userBuffer (frame scenario.started).2) = Some buffer_A
  ∧ same_contents (buffer_of buffer_B scenario.started)
      (buffer_of buffer_A (frame scenario.started).2)
  ∧ @apply_event sample.helpers scenario.track_two true scenario.started
    = Some cases.tracking_two
  ∧ ∃ s2', @apply_event sample.helpers scenario.track_two false (frame scenario.started).2
           = Some s2'
           ∧ same_contents (buffer_of buffer_B cases.tracking_two)
               (buffer_of buffer_A s2').
Proof.
  assert (inactive_buffer (m_userBuffer scenario.started) = Some buffer_B) as H1
    by (vm_compute; reflexivity).
  assert (inactive_buffer (m_userBuffer (frame scenario.started).2) = Some buffer_A) as H2
    by (vm_compute; reflexivity).
  assert (same_contents (buffer_of buffer_B scenario.started)
            (buffer_of buffer_A (frame scenario.started).2)) as H3
    by (vm_compute; reflexivity).
  assert (@apply_event sample.helpers scenario.track_two true scenario.started
          = Some cases.tracking_two) as H4 by (vm_compute; reflexivity).
  split_and!; [exact H1|exact H2|exact H3|exact H4|].
  exact (@replay_reproduces_the_effect_of_an_event sample.helpers scenario.track_two
           true false scenario.started (frame scenario.started).2 cases.tracking_two
           buffer_B buffer_A H1 H2 H3 H4).
Defined.

Lemma started_in_step : in_step scenario.started.
Proof.
  unfold in_step. split_and!; [vm_compute; reflexivity| |vm_compute; reflexivity..].
  exists buffer_A, buffer_B. split_and!; [vm_compute; reflexivity..|discriminate].
Qed.

Lemma a_frame_of_work_keeps_the_buffers_in_step_witness :
  in_step scenario.started
  ∧ m_socialGraphState scenario.started = normal
  ∧ @run_operations sample.helpers cases.one_request scenario.started
    = Some cases.after_one_request
  ∧ ∃ s2,
      (if are_events_empty cases.after_one_request
       then s2 = (frame cases.after_one_request).2
       else @do_event_work sample.helpers (frame cases.after_one_request).2
            = Some (true, s2))
      ∧ in_step s2
      ∧ m_socialGraphState s2 = normal
      ∧ active_buffer (m_userBuffer s2) = inactive_buffer (m_userBuffer scenario.started)
      ∧ inactive_buffer (m_userBuffer s2) = active_buffer (m_userBuffer scenario.started).
Proof.
  assert (m_socialGraphState scenario.started = normal) as H2 by (vm_compute; reflexivity).
  assert (@run_operations sample.helpers cases.one_request scenario.started
          = Some cases.after_one_request) as H3 by (vm_compute; reflexivity).
  split_and!; [exact started_in_step|exact H2|exact H3|].
  exact (@a_frame_of_work_keeps_the_buffers_in_step sample.helpers cases.one_request
           scenario.started cases.after_one_request started_in_step H2 H3).
Defined.

Lemma crowded_slots_hold_users (id : N) (ctx : xbox_social_user_context) (p : slot_ptr) :
  graph_of buffer_B scenario.crowded !! id = Some ctx →
  socialUser ctx = Some p →
  is_Some (read_slot p (buffer_of buffer_B scenario.crowded)).
Proof.
  intros Hg Hp. apply crowded_readable in Hg. unfold readable in Hg.
  rewrite Hp in Hg. by apply bool_decide_eq_true in Hg.
Qed.

Lemma watching_slots_hold_users (id : N) (ctx : xbox_social_user_context) (p : slot_ptr) :
  graph_of buffer_B cases.watching !! id = Some ctx →
  socialUser ctx = Some p →
  is_Some (read_slot p (buffer_of buffer_B cases.watching)).
Proof.
  intros Hg Hp.
  assert (map_Forall (λ _ ctx, readable (buffer_of buffer_B cases.watching) ctx = true)
            (graph_of buffer_B cases.watching)) as Hall
    by (apply (bool_decide_unpack _); vm_compute; exact I).
  apply Hall in Hg. unfold readable in Hg.
  rewrite Hp in Hg. by apply bool_decide_eq_true in Hg.
Qed.

Lemma refresh_asks_for_the_users_the_caller_does_not_follow_witness :
  inactive_buffer (m_userBuffer cases.watching) = Some buffer_B
  ∧ (∀ id ctx p, graph_of buffer_B cases.watching !! id = Some ctx →
                 socialUser ctx = Some p →
                 is_Some (read_slot p (buffer_of buffer_B cases.watching)))
  ∧ lists_entries sample.backwards
  ∧ ∃ userRefreshList,
      refresh_graph sample.backwards cases.watching
      = Some (record_call
                (timer_fire m_socialGraphRefreshTimer (pretty <$> userRefreshList)
                   null_completion_context)
                (set_state normal cases.watching))
      ∧ userRefreshList
        = (fst <$> filter (λ kv, not_followed_by_caller
                                   (buffer_of buffer_B cases.watching) kv = true)
                     (sample.backwards (graph_of buffer_B cases.watching)))
      ∧ NoDup userRefreshList
      ∧ (∀ id, id ∈ userRefreshList
               ↔ ∃ ctx p u, graph_of buffer_B cases.watching !! id = Some ctx
                            ∧ socialUser ctx = Some p
                            ∧ read_slot p (buffer_of buffer_B cases.watching) = Some u
                            ∧ is_followed_by_caller u = false).
Proof.
  assert (inactive_buffer (m_userBuffer cases.watching) = Some buffer_B) as H1
    by (vm_compute; reflexivity).
  split_and!; [exact H1|exact watching_slots_hold_users|exact backwards_lists_entries|].
  exact (refresh_asks_for_the_users_the_caller_does_not_follow sample.backwards
           cases.watching buffer_B H1 watching_slots_hold_users backwards_lists_entries).
Defined.

(** On the core that tracks Alice, whom the caller follows, and 200 and
    201, whom the caller does not, a refresh asks for 200 and 201: in the
    order of [map_to_list] when the graph yields its entries that way, and
    in the reverse order when it yields them backwards. *)
Lemma a_refresh_asks_in_the_order_of_the_graph :
  @apply_event sample.helpers cases.profiles_arrived true cases.tracking_two
  = Some cases.watching
  ∧ fst <$> map_to_list (graph_of buffer_B cases.watching) = [100; 200; 201]
  ∧ calls <$> refresh_graph map_to_list cases.watching
    = Some (calls cases.watching
            ++ [timer_fire m_socialGraphRefreshTimer ["200"; "201"]
                  null_completion_context])
  ∧ calls <$> refresh_graph sample.backwards cases.watching
    = Some (calls cases.watching
            ++ [timer_fire m_socialGraphRefreshTimer ["201"; "200"]
                  null_completion_context]).
Proof. split_and!; vm_compute; reflexivity. Qed.

Lemma refresh_result_only_enqueues_events_witness :
  @refresh_graph_then sample.helpers result_success [scenario.alice; scenario.dave]
    scenario.crowded = Some cases.after_refresh
  ∧ m_userBuffer cases.after_refresh = m_userBuffer scenario.crowded
  ∧ m_socialEventQueue cases.after_refresh = m_socialEventQueue scenario.crowded
  ∧ m_socialUserSubscriptions cases.after_refresh
    = m_socialUserSubscriptions scenario.crowded
  ∧ calls cases.after_refresh = calls scenario.crowded
  ∧ m_isInitialized cases.after_refresh = m_isInitialized scenario.crowded
  ∧ (err result_success ≠ no_error → cases.after_refresh = scenario.crowded)
  ∧ ∃ pushed,
      m_internalEventQueue cases.after_refresh
      = m_internalEventQueue scenario.crowded ++ pushed
      ∧ (length pushed ≤ 5)%nat
      ∧ NoDup (event_type <$> pushed)
      ∧ Forall (λ evt, event_type evt ∈ [users_changed; users_removed; presence_changed;
                                          profiles_changed; social_relationships_changed])
          pushed.
Proof.
  assert (@refresh_graph_then sample.helpers result_success
            [scenario.alice; scenario.dave] scenario.crowded = Some cases.after_refresh)
    as H1 by (vm_compute; reflexivity).
  split; [exact H1|].
  exact (@refresh_result_only_enqueues_events sample.helpers _ _ _ _ H1).
Defined.

Lemma presence_update_records_distinct :
  NoDup (_Xbox_user_id <$> presence_records cases.presence_update).
Proof. apply (bool_decide_unpack _). vm_compute. exact I. Qed.

Lemma presence_update_slots_distinct
    (r r' : social_manager_presence_record) (ctx ctx' : xbox_social_user_context)
    (p : slot_ptr) :
  r ∈ presence_records cases.presence_update →
  r' ∈ presence_records cases.presence_update →
  graph_of buffer_B scenario.crowded !! _Xbox_user_id r = Some ctx →
  graph_of buffer_B scenario.crowded !! _Xbox_user_id r' = Some ctx' →
  socialUser ctx = Some p → socialUser ctx' = Some p →
  _Xbox_user_id r = _Xbox_user_id r'.
Proof.
  change (presence_records cases.presence_update)
    with [cases.carol_away; sample.offline 100].
  intros Hr Hr'.
  apply elem_of_cons in Hr as [->|Hr]; [|apply list_elem_of_singleton in Hr as ->];
    (apply elem_of_cons in Hr' as [->|Hr']; [|apply list_elem_of_singleton in Hr' as ->]);
    vm_compute; intros; simplify_eq; done.
Qed.

Lemma presence_update_slots_hold_users
    (r : social_manager_presence_record) (ctx : xbox_social_user_context) (p : slot_ptr) :
  r ∈ presence_records cases.presence_update →
  graph_of buffer_B scenario.crowded !! _Xbox_user_id r = Some ctx →
  socialUser ctx = Some p →
  is_Some (read_slot p (buffer_of buffer_B scenario.crowded)).
Proof. intros _. apply crowded_slots_hold_users. Qed.

Lemma presence_event_reports_the_users_whose_record_differs_witness :
  inactive_buffer (m_userBuffer scenario.crowded) = Some buffer_B
  ∧ event_type cases.presence_update = presence_changed
  ∧ NoDup (_Xbox_user_id <$> presence_records cases.presence_update)
  ∧ (∀ r ctx p, r ∈ presence_records cases.presence_update →
                graph_of buffer_B scenario.crowded !! _Xbox_user_id r = Some ctx →
                socialUser ctx = Some p →
                is_Some (read_slot p (buffer_of buffer_B scenario.crowded)))
  ∧ (∀ r r' ctx ctx' p, r ∈ presence_records cases.presence_update →
       r' ∈ presence_records cases.presence_update →
       graph_of buffer_B scenario.crowded !! _Xbox_user_id r = Some ctx →
       graph_of buffer_B scenario.crowded !! _Xbox_user_id r' = Some ctx' →
       socialUser ctx = Some p → socialUser ctx' = Some p →
       _Xbox_user_id r = _Xbox_user_id r')
  ∧ ∃ s',
      @apply_event sample.helpers cases.presence_update true scenario.crowded = Some s'
      ∧ graph_of buffer_B s' = graph_of buffer_B scenario.crowded
      ∧ (∀ r ctx p user, r ∈ presence_records cases.presence_update →
           @presence_differs sample.helpers (buffer_of buffer_B scenario.crowded) r = true →
           graph_of buffer_B scenario.crowded !! _Xbox_user_id r = Some ctx →
           socialUser ctx = Some p →
           read_slot p (buffer_of buffer_B scenario.crowded) = Some user →
           read_slot p (buffer_of buffer_B s') = Some (_Set_presence_record r user))
      ∧ (∀ p, (∀ r ctx, r ∈ presence_records cases.presence_update →
                        @presence_differs sample.helpers
                          (buffer_of buffer_B scenario.crowded) r = true →
                        graph_of buffer_B scenario.crowded !! _Xbox_user_id r = Some ctx →
                        socialUser ctx ≠ Some p) →
              read_slot p (buffer_of buffer_B s')
              = read_slot p (buffer_of buffer_B scenario.crowded))
      ∧ public_events s'
        = public_events scenario.crowded
          ++ match _Xbox_user_id
                     <$> filter (λ r, @presence_differs sample.helpers
                                        (buffer_of buffer_B scenario.crowded) r = true)
                           (presence_records cases.presence_update) with
             | [] => []
             | ids =>
                 if true
                 then [public_event_of (event_of_ids presence_changed ids)
                         public_presence_changed result_success]
                 else []
             end
      ∧ outbound_calls s' = outbound_calls scenario.crowded.
Proof.
  assert (inactive_buffer (m_userBuffer scenario.crowded) = Some buffer_B) as H1
    by (vm_compute; reflexivity).
  split_and!; [exact H1|reflexivity|exact presence_update_records_distinct
              |exact presence_update_slots_hold_users
              |exact presence_update_slots_distinct|].
  exact (@presence_event_reports_the_users_whose_record_differs sample.helpers
           cases.presence_update true scenario.crowded buffer_B H1 eq_refl
           presence_update_records_distinct presence_update_slots_hold_users
           presence_update_slots_distinct).
Defined.

(** In the scenario the public event names Carol alone. *)
Lemma presence_update_names_carol :
  public_events
    (default scenario.crowded
       (@apply_event sample.helpers cases.presence_update true scenario.crowded))
  = [{| se_event_type := public_presence_changed; se_users_affected := ["300"];
        se_err := no_error; se_err_message := EmptyString |}].
Proof. vm_compute. reflexivity. Qed.

Lemma fetched_presence_is_queued_in_full_witness :
  inactive_buffer (m_userBuffer scenario.crowded) = Some buffer_B
  ∧ (∀ r ctx p, r ∈ presence_records cases.presence_update →
                graph_of buffer_B scenario.crowded !! _Xbox_user_id r = Some ctx →
                socialUser ctx = Some p →
                is_Some (read_slot p (buffer_of buffer_B scenario.crowded)))
  ∧ @presence_timer_callback_then sample.helpers result_success
      (presence_records cases.presence_update) scenario.crowded
    = Some (if decide (err result_success = no_error)
            then set_state normal
                   (set_internalEventQueue
                      (m_internalEventQueue scenario.crowded
                       ++ [event_of_presence_records presence_changed
                             (presence_records cases.presence_update)])
                      scenario.crowded)
            else scenario.crowded).
Proof.
  assert (inactive_buffer (m_userBuffer scenario.crowded) = Some buffer_B) as H1
    by (vm_compute; reflexivity).
  split_and!; [exact H1|exact presence_update_slots_hold_users|].
  exact (@fetched_presence_is_queued_in_full sample.helpers result_success
           (presence_records cases.presence_update) scenario.crowded buffer_B H1
           presence_update_slots_hold_users).
Defined.
